(** * Benchmark history dashboard: a shallow embedding and its properties

    The development follows four scripts of the repository:
    - the browser script that renders the charts (key codec, unit
      normaliser, trace builder, legend and tooltip text, default schema
      and group-by, titles, check boxes and the page as a whole, checkbox
      driven show/hide of charts);
    - the update script that appends one benchmark run to the history
      document ([parseSchema], [parseGroupBy], [loadBenchmarkResult],
      [addBenchmarkToDataJson]);
    - the script that writes the comparison of the two most recent
      commits of a suite ([compareBenches], [groupResults],
      [generateMarkdown], [calculateImprovement], [main]);
    - the script that writes the report of one run ([groupData],
      [generateMarkdownReport], [main], here [main']).

    Conventions of the embedding.
    - A JavaScript string is a Rocq [string] holding its UTF-8 text.  Strings
      that are not well-formed Unicode (lone surrogates) have no counterpart.
    - A JavaScript number is a rational [Q], and the arithmetic on it is
      exact: the rounding of doubles, their overflow, NaN and the
      infinities are not represented, except for the [-Infinity] that
      [Math.max] returns on no argument and the [Infinity] that
      [calculateImprovement] returns.  The decimal rendering of a number
      ([Number.prototype.toString]) is a parameter of the development, and
      so are [toLocaleString] and [toFixed].
    - An object whose properties are enumerated (the key object that is
      passed to [JSON.stringify], the result of [Object.groupBy]) is an
      association list in insertion order, and so is a [Map]; property
      names that are array indices, which ECMAScript enumerates first, are
      not treated apart.  An object that is only read by name is a [gmap].
    - The prototype of an object is [Object.prototype].  A name that is no
      own property reads the property of [Object.prototype] of that name,
      when there is one ([objectPrototype]): a built-in function, whose
      text is a parameter of the development, or, for [__proto__], the
      prototype itself.  A call of [hasOwnProperty] on an object finds an
      own property of that name first, which is no function.  An assignment
      to [__proto__] on an object without an own property of that name
      makes no property.
    - The document that the page's script reads is written into the page as
      an object literal (the page generator of the repository).  In an
      object literal a member named [__proto__] is no property: with the
      value [null] it leaves the object without a prototype, with another
      scalar it does nothing.
    - The values that the scripts read have the types that the interfaces
      of the scripts declare for them; the classification fields of a
      result are scalars (strings, numbers, booleans, [null]).  The entry
      of a suite in [schema] or [groupBy] of the page's document is an
      array of strings, as the update script writes it, or a scalar.
    - An element of the page has its attributes, by name, and the [display]
      property of its inline style.  The names of the attributes are taken
      as they are written: that an HTML element takes two names that
      differ only in case for one, and that it keeps its attribute [style]
      in step with its inline style, is not represented.  The names that
      [setAttribute] accepts are a parameter of the development.
    - A call that may throw returns a [result]. *)

From Stdlib Require Import ZArith QArith Qround Qabs String Ascii List Lia Lqa DecimalString.
From stdpp Require Import gmap strings.

#[local] Arguments String.append !s1 s2 : simpl nomatch.

(** ** Exceptions and the error monad *)

Inductive exn : Type :=
| TypeError
| SyntaxError
| InvalidCharacterError
| UndefinedUnit (unitIdentifier : option N).

Inductive result (A : Type) : Type :=
| Ok (a : A)
| Throw (e : exn).

Arguments Ok {A} a.
Arguments Throw {A} e.

Definition bind {A B : Type} (m : result A) (f : A -> result B) : result B :=
  match m with
  | Ok a => f a
  | Throw e => Throw e
  end.

Notation "'let*' x ':=' m 'in' k" := (bind m (fun x => k))
  (at level 10, x name, m at level 100, k at level 200).

Notation "'let*' ' p ':=' m 'in' k" := (bind m (fun p => k))
  (at level 10, p strict pattern, m at level 100, k at level 200).

(** [array.map(f)] for a callback that may throw: the first exception, in
    index order, leaves the loop. *)
Fixpoint mapM {A B : Type} (f : A -> result B) (l : list A) : result (list B) :=
  match l with
  | [] => Ok []
  | a :: l' =>
      let* b := f a in
      let* bs := mapM f l' in
      Ok (b :: bs)
  end.

(** ** JavaScript values found in a parsed benchmark document *)

Inductive jsval : Type :=
| JNull
| JBool (b : bool)
| JNum (q : Q)
| JStr (s : string).

Definition isNull (v : jsval) : bool :=
  match v with
  | JNull => true
  | _ => false
  end.

(** ** Objects with enumerable, ordered own properties *)

Fixpoint getProp {V : Type} (o : list (string * V)) (k : string) : option V :=
  match o with
  | [] => None
  | (k', v) :: o' => if String.eqb k' k then Some v else getProp o' k
  end.

Definition hasOwnProperty {V : Type} (o : list (string * V)) (k : string) : bool :=
  match getProp o k with
  | Some _ => true
  | None => false
  end.

(** [o[k] = v]: an existing property keeps its place, a new one goes last. *)
Fixpoint setProp {V : Type} (o : list (string * V)) (k : string) (v : V)
  : list (string * V) :=
  match o with
  | [] => [(k, v)]
  | (k', v') :: o' =>
      if String.eqb k' k then (k, v) :: o' else (k', v') :: setProp o' k v
  end.

(** *** What an object inherits *)

(** The names of the properties of [Object.prototype]. *)
Definition objectPrototype : list string :=
  ["constructor"; "__defineGetter__"; "__defineSetter__"; "hasOwnProperty";
   "__lookupGetter__"; "__lookupSetter__"; "isPrototypeOf"; "propertyIsEnumerable";
   "toString"; "valueOf"; "__proto__"; "toLocaleString"].

Definition inherited (k : string) : bool := existsb (String.eqb k) objectPrototype.

(** The [length] of the property [k] of [Object.prototype]: the number of
    parameters of a built-in function; the prototype itself, which
    [__proto__] reads, has no [length]. *)
Definition builtinLength (k : string) : option nat :=
  if String.eqb k "__proto__" then None
  else if String.eqb k "__defineGetter__" || String.eqb k "__defineSetter__" then Some 2%nat
  else if String.eqb k "toString" || String.eqb k "valueOf" || String.eqb k "toLocaleString"
  then Some 0%nat
  else Some 1%nat.

(** What [o[k]] reads: an own property, the property [k] of
    [Object.prototype], or [undefined]. *)
Inductive property (V : Type) : Type :=
| Own (v : V)
| Inherited (k : string)
| Undefined.

Arguments Own {V} v.
Arguments Inherited {V} k.
Arguments Undefined {V}.

#[global] Instance property_eq_dec {V : Type} `{EqDecision V} : EqDecision (property V).
Proof. solve_decision. Defined.

(** [value !== undefined] *)
Definition isDefined {V : Type} (value : property V) : bool :=
  match value with
  | Undefined => false
  | _ => true
  end.

(** [o[k]] on an object with ordered properties. *)
Definition propertyOf {V : Type} (o : list (string * V)) (k : string) : property V :=
  match getProp o k with
  | Some v => Own v
  | None => if inherited k then Inherited k else Undefined
  end.

(** [o[k]] on an object that is read by name. *)
Definition memberOf {V : Type} (o : gmap string V) (k : string) : property V :=
  match o !! k with
  | Some v => Own v
  | None => if inherited k then Inherited k else Undefined
  end.

(** [o[k] = v]: the name [__proto__] goes to the setter of
    [Object.prototype], which makes no property, unless the object has an
    own property of that name. *)
Definition assign {V : Type} (o : list (string * V)) (k : string) (v : V)
  : list (string * V) :=
  if String.eqb k "__proto__" && negb (hasOwnProperty o k) then o else setProp o k v.

Definition assignMember {V : Type} (o : gmap string V) (k : string) (v : V)
  : gmap string V :=
  if String.eqb k "__proto__" && negb (bool_decide (is_Some (o !! k))) then o
  else <[k := v]> o.

(** [o.hasOwnProperty(k)]: an own property named [hasOwnProperty] holds a
    value of the document, which is no function. *)
Definition callHasOwnProperty {V : Type} (o : list (string * V)) (k : string)
  : result bool :=
  if hasOwnProperty o "hasOwnProperty" then Throw TypeError
  else Ok (hasOwnProperty o k).

(** *** Objects of the page's document

    The members of an object literal, by name.  A member [__proto__] is
    no own property; with a value that is [null] the object has no
    prototype, and no method [hasOwnProperty]. *)

Definition ownMember {V : Type} (o : gmap string V) (k : string) : option V :=
  if String.eqb k "__proto__" then None else o !! k.

(** Whether [o.hasOwnProperty] is the method of [Object.prototype]. *)
Definition hasOwnPropertyMethod {V : Type} (null : V -> bool) (o : gmap string V)
  : bool :=
  match o !! "hasOwnProperty" with
  | Some _ => false
  | None =>
      match o !! "__proto__" with
      | Some v => negb (null v)
      | None => true
      end
  end.

(** ** JSON text of an object whose property values are strings *)

Definition dquote : ascii := "034"%char.
Definition backslash : ascii := "092"%char.

Definition hexDigit (n : N) : ascii :=
  if (n <? 10)%N then ascii_of_N (48 + n) else ascii_of_N (87 + n).

(** QuoteJSONString, one character at a time. *)
Definition quoteChar (c : ascii) : string :=
  let n := N_of_ascii c in
  if (n =? 8)%N then "\b"
  else if (n =? 9)%N then "\t"
  else if (n =? 10)%N then "\n"
  else if (n =? 12)%N then "\f"
  else if (n =? 13)%N then "\r"
  else if (n =? 34)%N then String backslash (String dquote "")
  else if (n =? 92)%N then String backslash (String backslash "")
  else if (n <? 32)%N then
    "\u00" +:+ String (hexDigit (n / 16)) (String (hexDigit (n mod 16)) "")
  else String c "".

Fixpoint quoteBody (s : string) : string :=
  match s with
  | EmptyString => ""
  | String c s' => quoteChar c +:+ quoteBody s'
  end.

Definition quoteJSONString (s : string) : string :=
  String dquote (quoteBody s +:+ String dquote "").

Definition member (kv : string * string) : string :=
  quoteJSONString (fst kv) +:+ ":" +:+ quoteJSONString (snd kv).

Fixpoint joinMembers (o : list (string * string)) : string :=
  match o with
  | [] => ""
  | [kv] => member kv
  | kv :: o' => member kv +:+ "," +:+ joinMembers o'
  end.

Definition JSON_stringify (o : list (string * string)) : string :=
  "{" +:+ joinMembers o +:+ "}".

(** *** Reading it back *)

Definition hexValue (c : ascii) : option N :=
  let n := N_of_ascii c in
  if ((48 <=? n) && (n <=? 57))%N then Some (n - 48)%N
  else if ((97 <=? n) && (n <=? 102))%N then Some (n - 87)%N
  else if ((65 <=? n) && (n <=? 70))%N then Some (n - 55)%N
  else None.

Definition hexValue4 (h1 h2 h3 h4 : ascii) : option N :=
  match hexValue h1, hexValue h2, hexValue h3, hexValue h4 with
  | Some a, Some b, Some c, Some d => Some (((a * 16 + b) * 16 + c) * 16 + d)%N
  | _, _, _, _ => None
  end.

(** UTF-8 text of one code unit of the Basic Multilingual Plane.  A
    surrogate has none. *)
Definition utf8 (n : N) : option string :=
  if (n <? 128)%N then Some (String (ascii_of_N n) "")
  else if (n <? 2048)%N then
    Some (String (ascii_of_N (192 + n / 64))
         (String (ascii_of_N (128 + n mod 64)) ""))
  else if ((55296 <=? n) && (n <? 57344))%N then None
  else
    Some (String (ascii_of_N (224 + n / 4096))
         (String (ascii_of_N (128 + (n / 64) mod 64))
         (String (ascii_of_N (128 + n mod 64)) ""))).

Definition unescape (e : ascii) : option ascii :=
  let n := N_of_ascii e in
  if (n =? 34)%N then Some dquote
  else if (n =? 92)%N then Some backslash
  else if (n =? 47)%N then Some "/"%char
  else if (n =? 98)%N then Some "008"%char
  else if (n =? 102)%N then Some "012"%char
  else if (n =? 110)%N then Some "010"%char
  else if (n =? 114)%N then Some "013"%char
  else if (n =? 116)%N then Some "009"%char
  else None.

(** The characters of a JSON string after its opening quote: the decoded
    string and the text that follows the closing quote. *)
Fixpoint parseChars (s : string) : option (string * string) :=
  match s with
  | EmptyString => None
  | String c rest =>
      if Ascii.eqb c dquote then Some ("", rest)
      else if Ascii.eqb c backslash then
        match rest with
        | EmptyString => None
        | String e rest1 =>
            if Ascii.eqb e "u"%char then
              match rest1 with
              | String h1 (String h2 (String h3 (String h4 rest2))) =>
                  match hexValue4 h1 h2 h3 h4 with
                  | Some n =>
                      match utf8 n, parseChars rest2 with
                      | Some u, Some (t, r) => Some (u +:+ t, r)
                      | _, _ => None
                      end
                  | None => None
                  end
              | _ => None
              end
            else
              match unescape e, parseChars rest1 with
              | Some d, Some (t, r) => Some (String d t, r)
              | _, _ => None
              end
        end
      else if (N_of_ascii c <? 32)%N then None
      else
        match parseChars rest with
        | Some (t, r) => Some (String c t, r)
        | None => None
        end
  end.

(** The members of an object after its opening brace, one per unit of
    fuel; every member takes at least five characters of the text. *)
Fixpoint parseMembers (fuel : nat) (s : string) (acc : list (string * string))
  : option (list (string * string)) :=
  match fuel with
  | O => None
  | S fuel' =>
      match s with
      | String q rest =>
          if Ascii.eqb q dquote then
            match parseChars rest with
            | Some (k, String colon (String q' rest1)) =>
                if Ascii.eqb colon ":"%char && Ascii.eqb q' dquote then
                  match parseChars rest1 with
                  | Some (v, String sep rest2) =>
                      if Ascii.eqb sep ","%char then
                        parseMembers fuel' rest2 (setProp acc k v)
                      else if Ascii.eqb sep "}"%char then
                        match rest2 with
                        | EmptyString => Some (setProp acc k v)
                        | _ => None
                        end
                      else None
                  | _ => None
                  end
                else None
            | _ => None
            end
          else None
      | EmptyString => None
      end
  end.

(** [JSON.parse] on the texts that [JSON.stringify] gives for objects with
    string values: one flat object, no white space.  Every other text is
    refused here, also those that [JSON.parse] itself would read. *)
Definition JSON_parse (text : string) : result (list (string * string)) :=
  match text with
  | String "{" (String "}" EmptyString) => Ok []
  | String "{" rest =>
      match parseMembers (String.length rest) rest [] with
      | Some o => Ok o
      | None => Throw SyntaxError
      end
  | _ => Throw SyntaxError
  end.

(** ** Data model *)

Module GitHubUser.
Record t : Type := {
  email : option string;
  name : option string;
  username : option string
}.
End GitHubUser.

Module Commit.
Record t : Type := {
  author : GitHubUser.t;
  committer : GitHubUser.t;
  id : string;
  message : string;
  timestamp : string;
  url : string
}.
End Commit.

(** One measured benchmark.  [value], [unit] and [range] have the types
    the interface declares; [meta] holds the other members (the
    caller-defined classification fields, [os] and [extra] among them). *)
Module BenchmarkResult.
Record t : Type := {
  value : Q;
  range : option string;
  unit : string;
  meta : gmap string jsval
}.
End BenchmarkResult.

(** One run: a history entry. *)
Module Benchmark.
Record t : Type := {
  commit : Commit.t;
  date : Z;
  bigger_is_better : bool;
  benches : list BenchmarkResult.t
}.
End Benchmark.

(** The history document as the update script types it; a [groupBy] or
    [schema] that is missing is [None]. *)
Module DataJson.
Record t : Type := {
  lastUpdate : Z;
  repoUrl : string;
  entries : gmap string (list Benchmark.t);
  groupBy : option (gmap string (list string));
  schema : option (gmap string (list string))
}.
End DataJson.

(** The entry of a suite in [schema] or [groupBy] of the page's document:
    an array of field names, as the update script writes it, or a scalar.
    Arrays of other values and objects are not represented. *)
Inductive fieldList : Type :=
| Fields (l : list string)
| NoFields (v : jsval).

Definition isNullEntry (f : fieldList) : bool :=
  match f with
  | NoFields JNull => true
  | _ => false
  end.

(** What the browser script may find under [window.BENCHMARK_DATA.schema]
    and [window.BENCHMARK_DATA.groupBy]: nothing, a primitive, or an object
    with an entry per suite name; the members of the object are those of
    its literal.  An array in this place is not represented. *)
Inductive suiteFields : Type :=
| FUndefined
| FNull
| FBool (b : bool)
| FNum (q : Q)
| FStr (s : string)
| FObject (m : gmap string fieldList).

Module BENCHMARK_DATA.
Record t : Type := {
  lastUpdate : Z;
  repoUrl : string;
  entries : gmap string (list Benchmark.t);
  groupBy : suiteFields;
  schema : suiteFields
}.
End BENCHMARK_DATA.

(** [{ commit, date, bench }]: one benchmark result with the run it is from. *)
Module Observation.
Record t : Type := {
  commit : Commit.t;
  date : Z;
  bench : BenchmarkResult.t
}.
End Observation.

(** A trace.  [x] holds the dates as the milliseconds [new Date] is given;
    [y], [name] and [text] are assigned after the trace is built. *)
Module Trace.
Record t : Type := {
  metadata : list (string * string);
  x : list Z;
  dataNs : list Q;
  dataset : list Observation.t;
  showlegend : bool;
  hoverinfo : string;
  y : option (list Q);
  name : option string;
  text : option (list string)
}.
End Trace.

(** A chart element of the page: its attributes, by their names as they
    are written, and the [display] property of its inline style.  The
    attribute [style], which the element keeps in step with its inline
    style, is not among the attributes here. *)
Module Chart.
Record t : Type := {
  attributes : gmap string string;
  display : option string
}.
End Chart.

(** What [renderAllCharts] puts on the page. *)
Module Page.
Record t : Type := {
  checkBoxes : list (string * string);
  charts : list Chart.t;
  plots : list (string * string * list Trace.t);
  console : list string
}.
End Page.

(** The value of the local [hiddenBy] of [setChartHiddenStatus]: a number
    or the text of the [hidden-by] attribute. *)
Inductive counter : Type :=
| CNum (n : Z)
| CNaN
| CStr (s : string).

(** [-Infinity] or a number: the results of [Math.max]. *)
Inductive extended : Type :=
| NegInfinity
| Finite (q : Q).

(** The status of a benchmark in the comparison of two runs. *)
Inductive ComparisonStatus : Type :=
| changed
| new
| removed.

(** A benchmark of the baseline run or of the current run, with the two
    values: [{...representativeBench, baselineValue, currentValue, status}].
    [bench] is the result whose properties are spread into the object. *)
Module CombinedResult.
Record t : Type := {
  bench : option BenchmarkResult.t;
  baselineValue : option Q;
  currentValue : option Q;
  status : ComparisonStatus
}.
End CombinedResult.

(** What a script prints before it ends: a text on the standard output, or
    an error message, after which the script exits with the status 1. *)
Inductive output : Type :=
| Stdout (text : string)
| Stderr (text : string).

(** What [calculateImprovement] returns: [Infinity] or a number. *)
Inductive improvement : Type :=
| Infinity
| Percent (q : Q).


(** ** Numbers as text *)

(** Decimal digits of an integer, as [Number.prototype.toString] prints the
    integers below 10^21. *)
Definition decimal (n : Z) : string := NilZero.string_of_int (Z.to_int n).

(** [Number(s)] on the decimal integers; [None] is NaN.  Other numeric
    texts (a fraction, an exponent, surrounding blanks) are not read. *)
Definition toNumber (s : string) : option Z :=
  match s with
  | EmptyString => Some 0%Z
  | _ => option_map Z.of_int (NilZero.int_of_string s)
  end.

(** A printer for the integer-valued numbers, to run the definitions below
    on examples; it prints the integer part. *)
Definition integerToString (q : Q) : string := decimal (Qfloor q).

(** [Number.prototype.toFixed] on a rational: the nearest number with
    [digits] digits after the point, the larger one of two that are
    equally near, after the sign.  It is used to run the definitions
    below on examples. *)
Definition fixedToString (q : Q) (digits : nat) : string :=
  let scale := (10 ^ Z.of_nat digits)%Z in
  let n := Qfloor (Qabs q * inject_Z scale + (1 # 2)) in
  let fraction := decimal (n mod scale) in
  let zeros := String.concat "" (repeat "0" (digits - String.length fraction)) in
  (if Qle_bool 0 q then "" else "-")
  +:+ decimal (n / scale)
  +:+ (if (digits =? 0)%nat then "" else "." +:+ zeros +:+ fraction).


(** ** The first code unit of a string: [s[0]] *)

Definition continuation (c : ascii) : option N :=
  let n := N_of_ascii c in
  if ((128 <=? n) && (n <? 192))%N then Some (n - 128)%N else None.

(** The first code point of a UTF-8 text. *)
Definition codePointAt0 (s : string) : option N :=
  match s with
  | EmptyString => None
  | String c0 rest =>
      let b0 := N_of_ascii c0 in
      if (b0 <? 128)%N then Some b0
      else if (b0 <? 192)%N then None
      else if (b0 <? 224)%N then
        match rest with
        | String c1 _ =>
            match continuation c1 with
            | Some x1 =>
                let cp := ((b0 - 192) * 64 + x1)%N in
                if (128 <=? cp)%N then Some cp else None
            | None => None
            end
        | _ => None
        end
      else if (b0 <? 240)%N then
        match rest with
        | String c1 (String c2 _) =>
            match continuation c1, continuation c2 with
            | Some x1, Some x2 =>
                let cp := (((b0 - 224) * 64 + x1) * 64 + x2)%N in
                if ((2048 <=? cp) && negb ((55296 <=? cp) && (cp <? 57344)))%N
                then Some cp else None
            | _, _ => None
            end
        | _ => None
        end
      else if (b0 <? 248)%N then
        match rest with
        | String c1 (String c2 (String c3 _)) =>
            match continuation c1, continuation c2, continuation c3 with
            | Some x1, Some x2, Some x3 =>
                let cp := ((((b0 - 240) * 64 + x1) * 64 + x2) * 64 + x3)%N in
                if ((65536 <=? cp) && (cp <? 1114112))%N then Some cp else None
            | _, _, _ => None
            end
        | _ => None
        end
      else None
  end.

(** [s[0]]: the code point itself, or the high surrogate of a code point
    outside the Basic Multilingual Plane; [None] is [undefined]. *)
Definition charAt0 (s : string) : option N :=
  match codePointAt0 s with
  | Some cp =>
      if (cp <? 65536)%N then Some cp
      else Some (55296 + (cp - 65536) / 1024)%N
  | None => None
  end.

(** ** The elements of a string: [for (const s of text)] *)

Definition startsWithContinuation (s : string) : bool :=
  match s with
  | String c _ =>
      match continuation c with
      | Some _ => true
      | None => false
      end
  | EmptyString => false
  end.

(** The code points of a UTF-8 text, each as a string. *)
Fixpoint codePoints (s : string) : list string :=
  match s with
  | EmptyString => []
  | String c rest =>
      if startsWithContinuation rest then
        match codePoints rest with
        | point :: points => String c point :: points
        | [] => [String c ""]
        end
      else String c "" :: codePoints rest
  end.

(** ** [Math.max] *)

Definition maxOf (a b : extended) : extended :=
  match a, b with
  | NegInfinity, _ => b
  | _, NegInfinity => a
  | Finite p, Finite q => if Qle_bool p q then Finite q else Finite p
  end.

Definition Math_max (l : list extended) : extended :=
  fold_left maxOf l NegInfinity.

(** [m > c] *)
Definition greaterThan (m : extended) (c : Q) : bool :=
  match m with
  | NegInfinity => false
  | Finite q => negb (Qle_bool q c)
  end.

(** ** [Object.groupBy] with a callback that may throw *)

(** The groups are in the order in which their keys first occur, which is
    the order of [Object.entries] for keys that are not array indices; the
    keys here are JSON texts. *)

Fixpoint addToGroup {A : Type} (groups : list (string * list A)) (k : string) (a : A)
  : list (string * list A) :=
  match groups with
  | [] => [(k, [a])]
  | (k', g) :: groups' =>
      if String.eqb k' k then (k', (g ++ [a])%list) :: groups'
      else (k', g) :: addToGroup groups' k a
  end.

Fixpoint groupByFrom {A : Type} (f : A -> result string) (items : list A)
  (groups : list (string * list A)) : result (list (string * list A)) :=
  match items with
  | [] => Ok groups
  | a :: items' =>
      let* k := f a in
      groupByFrom f items' (addToGroup groups k a)
  end.

Definition Object_groupBy {A : Type} (items : list A) (f : A -> result string)
  : result (list (string * list A)) :=
  groupByFrom f items [].

(** ** [String.prototype.trim] *)

(** The white space and the line terminators of ECMAScript, in UTF-8: tab,
    line feed, vertical tab, form feed, carriage return, space, U+00A0,
    U+1680, U+2000 to U+200A, U+2028, U+2029, U+202F, U+205F, U+3000 and
    U+FEFF. *)
Definition ofBytes (bytes : list N) : string :=
  fold_right (fun b s => String (ascii_of_N b) s) "" bytes.

Definition whiteSpace : list string :=
  map ofBytes
    [[9]; [10]; [11]; [12]; [13]; [32]; [194; 160]; [225; 154; 128];
     [226; 128; 128]; [226; 128; 129]; [226; 128; 130]; [226; 128; 131];
     [226; 128; 132]; [226; 128; 133]; [226; 128; 134]; [226; 128; 135];
     [226; 128; 136]; [226; 128; 137]; [226; 128; 138];
     [226; 128; 168]; [226; 128; 169]; [226; 128; 175];
     [226; 129; 159]; [227; 128; 128]; [239; 187; 191]]%N.

(** The string without the given prefix, if it starts with it. *)
Fixpoint dropPrefix (prefix s : string) : option string :=
  match prefix, s with
  | EmptyString, _ => Some s
  | String c prefix', String d s' => if Ascii.eqb c d then dropPrefix prefix' s' else None
  | String _ _, EmptyString => None
  end.

Fixpoint dropOneOf (prefixes : list string) (s : string) : option string :=
  match prefixes with
  | [] => None
  | prefix :: prefixes' =>
      match dropPrefix prefix s with
      | Some rest => Some rest
      | None => dropOneOf prefixes' s
      end
  end.

(** The string without the white space at its start; a character is
    dropped per unit of fuel. *)
Fixpoint dropWhile (prefixes : list string) (fuel : nat) (s : string) : string :=
  match fuel with
  | O => s
  | S fuel' =>
      match dropOneOf prefixes s with
      | Some rest => dropWhile prefixes fuel' rest
      | None => s
      end
  end.

Fixpoint reverse (s : string) : string :=
  match s with
  | EmptyString => ""
  | String c s' => reverse s' +:+ String c ""
  end.

Definition trimStart (s : string) : string := dropWhile whiteSpace (String.length s) s.

Definition trimEnd (s : string) : string :=
  reverse (dropWhile (map reverse whiteSpace) (String.length s) (reverse s)).

Definition trim (s : string) : string := trimEnd (trimStart s).

(** ** The update script *)

(** [s.split(sep)] for a separator of one character: the pieces between
    the separators, the empty ones included. *)
Fixpoint split (sep : ascii) (s : string) : list string :=
  match s with
  | EmptyString => [""]
  | String c s' =>
      if Ascii.eqb c sep then "" :: split sep s'
      else
        match split sep s' with
        | piece :: pieces => String c piece :: pieces
        | [] => [String c ""]
        end
  end.

Definition parseSchema (schema : option string) : list string :=
  let defaultSchema := ["name"; "platform"; "os"; "keySize"; "api"; "category"] in
  match schema with
  | None => defaultSchema
  | Some schema =>
      let keys := split "," schema in
      if (length keys =? 1)%nat && String.eqb (nth 0 keys "") "" then defaultSchema
      else keys
  end.

Definition parseGroupBy (groupBy : option string) : list string :=
  match groupBy with
  | None => ["os"]
  | Some groupBy =>
      let keys := split "," groupBy in
      if (length keys =? 1)%nat && String.eqb (nth 0 keys "") "" then ["os"]
      else keys
  end.

(** [o[k]] on an object whose properties may hold [undefined], which is
    [None]: a missing property reads [undefined] as well. *)
Definition readProp (o : list (string * option jsval)) (k : string) : option jsval :=
  match getProp o k with
  | Some v => v
  | None => None
  end.

(** [!v] *)
Definition falsy (v : option jsval) : bool :=
  match v with
  | None | Some JNull => true
  | Some (JBool b) => negb b
  | Some (JNum q) => Qeq_bool q 0
  | Some (JStr s) => String.eqb s ""
  end.

(** The body of [schema.forEach] in [loadBenchmarkResult], on one result
    and one schema key. *)
Definition fillKey (result : list (string * option jsval)) (key : string)
  : list (string * option jsval) :=
  let result :=
    if negb (hasOwnProperty result key) then assign result key None else result in
  let result :=
    if falsy (readProp result "range") then setProp result "range" None else result in
  if falsy (readProp result "extra") then setProp result "extra" None else result.

(** A run as [loadBenchmarkResult] returns it: the results are objects in
    memory, as [JSON.parse] made them and the loop left them. *)
Module LoadedBenchmark.
Record t : Type := {
  benches : list (list (string * option jsval));
  commit : Commit.t;
  bigger_is_better : bool;
  date : Z
}.
End LoadedBenchmark.

(** [benches] is what [parseJsonFile(filePath)] returned, [now] the value
    of [Date.now()]. *)
Definition loadBenchmarkResult (now : Z) (commit : Commit.t) (bigger_is_better : bool)
  (benches : list (list (string * option jsval))) (schema : list string)
  : LoadedBenchmark.t :=
  {| LoadedBenchmark.benches := map (fun result => fold_left fillKey schema result) benches;
     LoadedBenchmark.commit := commit;
     LoadedBenchmark.bigger_is_better := bigger_is_better;
     LoadedBenchmark.date := now |}.


(** [e.commit.id !== bench.commit.id] *)
Definition otherCommit (bench e : Benchmark.t) : bool :=
  negb (String.eqb (Commit.id (Benchmark.commit e)) (Commit.id (Benchmark.commit bench))).

(** [suites.splice(0, suites.length - maxItems)] when the suite is longer
    than [maxItems]. *)
Definition truncate (maxItems : option Z) (suites : list Benchmark.t)
  : list Benchmark.t :=
  match maxItems with
  | Some m =>
      if (m <? Z.of_nat (length suites))%Z
      then drop (Z.to_nat (Z.of_nat (length suites) - m)) suites
      else suites
  | None => suites
  end.

(** [now] is the value of [Date.now()].  Returns [prevBench] and the
    document as the call leaves it.  For a name that the entries have no
    own property of and that [Object.prototype] has, [data.entries[benchName]]
    is not [undefined] and has no method [slice]. *)
Definition addBenchmarkToDataJson (now : Z) (groupBy schema : list string)
  (benchName : string) (bench : Benchmark.t) (data : DataJson.t)
  (maxItems : option Z) : result (option Benchmark.t * DataJson.t) :=
  let groupByOfData := assignMember (default ∅ (DataJson.groupBy data)) benchName groupBy in
  let schemaOfData := assignMember (default ∅ (DataJson.schema data)) benchName schema in
  let update (prevBench : option Benchmark.t) (suites : list Benchmark.t) :=
    (prevBench,
     {| DataJson.lastUpdate := now;
        DataJson.repoUrl := DataJson.repoUrl data;
        DataJson.entries := <[benchName := suites]> (DataJson.entries data);
        DataJson.groupBy := Some groupByOfData;
        DataJson.schema := Some schemaOfData |}) in
  match memberOf (DataJson.entries data) benchName with
  | Undefined => Ok (update None [bench])
  | Inherited _ => Throw TypeError
  | Own suites =>
      let prevBench := find (otherCommit bench) (rev suites) in
      Ok (update prevBench (truncate maxItems (suites ++ [bench])%list))
  end.

(** ** Sample parameters

    What an implementation may give for the parameters of the script
    below: the text of a built-in function, and the names that
    [setAttribute] takes. *)

(** [function hasOwnProperty() { [native code] }] *)
Definition nativeCode (k : string) : string :=
  "function " +:+ (if String.eqb k "constructor" then "Object" else k)
    +:+ "() { [native code] }".

(** The string has none of the characters. *)
Fixpoint noneOf (characters : list ascii) (s : string) : bool :=
  match s with
  | EmptyString => true
  | String c s' => negb (existsb (Ascii.eqb c) characters) && noneOf characters s'
  end.

(** A name that is not empty and has no white space, no NUL, and none of
    the characters [/], [=] and [>]. *)
Definition attributeName (name : string) : bool :=
  negb (String.eqb name "")
  && noneOf ["009"; "010"; "012"; "013"; " "; "000"; "/"; "="; ">"]%char name.

(** ** The browser script *)

Section Script.

#[local] Set Default Proof Using "Type".

(** [Number.prototype.toString], also used by template literals. *)
Variable numberToString : Q -> string.

(** [Function.prototype.toString] on the built-in function that is the
    property [k] of [Object.prototype]; the text is left to the
    implementation. *)
Variable functionToString : string -> string.

(** The names that [Element.setAttribute] accepts; on any other name it
    throws an [InvalidCharacterError]. *)
Variable validAttributeName : string -> bool.

(** The text of the property [k] of [Object.prototype]: that of a
    function, or, for [__proto__], that of the prototype. *)
Definition builtinText (k : string) : string :=
  if String.eqb k "__proto__" then "[object Object]" else functionToString k.

(** The text of a value that is read from an object with strings as
    values: [String(v)]. *)
Definition propertyText (value : property string) : string :=
  match value with
  | Own text => text
  | Inherited k => builtinText k
  | Undefined => "undefined"
  end.

(** [v.toString()]; there is no such method on [null]. *)
Definition toString (v : jsval) : result string :=
  match v with
  | JNull => Throw TypeError
  | JBool true => Ok "true"
  | JBool false => Ok "false"
  | JNum q => Ok (numberToString q)
  | JStr s => Ok s
  end.

(** The members of a benchmark result, by name. *)
Definition benchObject (b : BenchmarkResult.t) : gmap string jsval :=
  <["value" := JNum (BenchmarkResult.value b)]>
    (<["unit" := JStr (BenchmarkResult.unit b)]>
       (match BenchmarkResult.range b with
        | Some r => <["range" := JStr r]> (BenchmarkResult.meta b)
        | None => delete "range" (BenchmarkResult.meta b)
        end)).

(** *** Key codec *)

(** The loop of [buildKey] over the schema; [key] is the object under
    construction, [benchItem] a result of the page's document.  The call
    [benchItem.hasOwnProperty(s)] throws when the result has a member
    [hasOwnProperty] or no prototype. *)
Fixpoint buildKeyObject (benchItem : gmap string jsval) (schema : list string)
  (key : list (string * string)) : result (list (string * string)) :=
  match schema with
  | [] => Ok key
  | s :: schema' =>
      if hasOwnPropertyMethod isNull benchItem then
        match ownMember benchItem s with
        | Some v =>
            let* text := toString v in
            buildKeyObject benchItem schema' (assign key s text)
        | None => buildKeyObject benchItem schema' (assign key s "-")
        end
      else Throw TypeError
  end.

Definition buildKey (benchItem : gmap string jsval) (schema : list string)
  : result string :=
  let* key := buildKeyObject benchItem schema [] in
  Ok (JSON_stringify key).

(** The loop of [parseKey] over the schema. *)
Fixpoint fillMissing (schema : list string) (key : list (string * string))
  : result (list (string * string)) :=
  match schema with
  | [] => Ok key
  | s :: schema' =>
      let* own := callHasOwnProperty key s in
      fillMissing schema' (if own then key else assign key s "-")
  end.

Definition parseKey (keyString : string) (schema : list string)
  : result (list (string * string)) :=
  let* key := JSON_parse keyString in
  fillMissing schema key.

(** *** Unit normaliser *)

Definition getNanoseconds (value : Q) (unit : string) : result Q :=
  let unitIdentifier := charAt0 unit in
  match unitIdentifier with
  | Some c =>
      if ((c =? 956) || (c =? 181) || (c =? 117))%N then Ok (value * 1000)%Q
      else if (c =? 110)%N then Ok value
      else if (c =? 109)%N then Ok (value * 1000000)%Q
      else if (c =? 115)%N then Ok (value * 1000000000)%Q
      else Throw (UndefinedUnit unitIdentifier)
  | None => Throw (UndefinedUnit unitIdentifier)
  end.

Definition setY (trace : Trace.t) (y : list Q) : Trace.t :=
  {| Trace.metadata := Trace.metadata trace;
     Trace.x := Trace.x trace;
     Trace.dataNs := Trace.dataNs trace;
     Trace.dataset := Trace.dataset trace;
     Trace.showlegend := Trace.showlegend trace;
     Trace.hoverinfo := Trace.hoverinfo trace;
     Trace.y := Some y;
     Trace.name := Trace.name trace;
     Trace.text := Trace.text trace |}.

(** The micro sign of the display unit, U+03BC. *)
Definition mu : string := String "206" (String "188" "").

(** Returns the unit and the traces with their [y] assigned. *)
Definition adjustDataAndUnit (traces : list Trace.t) : string * list Trace.t :=
  let maxes := map (fun trace => Math_max (map Finite (Trace.dataNs trace))) traces in
  let maxValue := Math_max maxes in
  let '(scaleFactor, unit) :=
    if greaterThan maxValue 1000000000 then (1000000000%Q, "s/iter")
    else if greaterThan maxValue 1000000 then (1000000%Q, "ms/iter")
    else if greaterThan maxValue 1000 then (1000%Q, mu +:+ "s/iter")
    else (1%Q, "ns/iter") in
  (unit,
   map (fun trace => setY trace (map (fun d => (d / scaleFactor)%Q) (Trace.dataNs trace)))
     traces).

(** *** Trace builder *)

Definition flatten (commits : list Benchmark.t) : list Observation.t :=
  concat
    (map
       (fun commitEntry =>
          map
            (fun bench =>
               {| Observation.commit := Benchmark.commit commitEntry;
                  Observation.date := Benchmark.date commitEntry;
                  Observation.bench := bench |})
            (Benchmark.benches commitEntry))
       commits).

Definition buildTrace (schema : list string) (entry : string * list Observation.t)
  : result Trace.t :=
  let '(keyString, dataset) := entry in
  let* metadata := parseKey keyString schema in
  let* dataNs :=
    mapM
      (fun d =>
         getNanoseconds (BenchmarkResult.value (Observation.bench d))
           (BenchmarkResult.unit (Observation.bench d)))
      dataset in
  let metadata := setProp metadata "unit" "ns/iter" in
  Ok {| Trace.metadata := metadata;
        Trace.x := map Observation.date dataset;
        Trace.dataNs := dataNs;
        Trace.dataset := dataset;
        Trace.showlegend := true;
        Trace.hoverinfo := "text";
        Trace.y := None;
        Trace.name := None;
        Trace.text := None |}.

(** [Array.from(traces)] is the list of traces itself. *)
Definition separateAllTraces (commits : list Benchmark.t) (schema : list string)
  : result (list Trace.t) :=
  let data := flatten commits in
  let* groupedData :=
    Object_groupBy data
      (fun benchEntry => buildKey (benchObject (Observation.bench benchEntry)) schema) in
  mapM (buildTrace schema) groupedData.

(** *** Schema and group-by of a suite, with their defaults *)

Definition truthy (f : suiteFields) : bool :=
  match f with
  | FUndefined | FNull => false
  | FBool b => b
  | FNum q => negb (Qeq_bool q 0)
  | FStr s => negb (String.eqb s "")
  | FObject _ => true
  end.

(** [typeof f === "object"] *)
Definition typeofObject (f : suiteFields) : bool :=
  match f with
  | FNull | FObject _ => true
  | _ => false
  end.

(** [f.hasOwnProperty(benchSet)], called on an object only. *)
Definition hasOwnSuite (f : suiteFields) (benchSet : string) : result bool :=
  match f with
  | FObject m =>
      if hasOwnPropertyMethod isNullEntry m
      then Ok (bool_decide (is_Some (ownMember m benchSet)))
      else Throw TypeError
  | _ => Ok false
  end.

(** [f[benchSet]], read only where [hasOwnSuite] holds. *)
Definition suiteEntry (f : suiteFields) (benchSet : string) : fieldList :=
  match f with
  | FObject m => default (Fields []) (ownMember m benchSet)
  | _ => Fields []
  end.

Definition defaultSchema : list string :=
  ["name"; "platform"; "os"; "keySize"; "api"; "category"].

Definition defaultGroupBy : list string := ["os"].

(** The entry that is returned and the lines written with
    [console.error]. *)
Definition retrieveSchema (data : BENCHMARK_DATA.t) (benchSet : string)
  : result (fieldList * list string) :=
  let schema := BENCHMARK_DATA.schema data in
  let defaulting :=
    (Fields defaultSchema,
     ["No or invalid schema provided: defaulting to ["
        +:+ String.concat "," defaultSchema +:+ "]"]) in
  if negb (truthy schema) || negb (typeofObject schema) then Ok defaulting
  else
    let* own := hasOwnSuite schema benchSet in
    if negb own then Ok defaulting else Ok (suiteEntry schema benchSet, []).

Definition retrieveGroupBy (data : BENCHMARK_DATA.t) (benchSet : string)
  : result (fieldList * list string) :=
  let groupBy := BENCHMARK_DATA.groupBy data in
  let defaulting :=
    (Fields defaultGroupBy,
     ["No or invalid groupBy provided: defaulting to ["
        +:+ String.concat "," defaultGroupBy +:+ "]"]) in
  if negb (truthy groupBy) || negb (typeofObject groupBy) then Ok defaulting
  else
    let* own := hasOwnSuite groupBy benchSet in
    if negb own then Ok defaulting else Ok (suiteEntry groupBy benchSet, []).

(** [for (const s of fields)]: the elements of an array, the code points
    of a string; another scalar is not iterable. *)
Definition iterate (fields : fieldList) : result (list string) :=
  match fields with
  | Fields l => Ok l
  | NoFields (JStr text) => Ok (codePoints text)
  | NoFields _ => Throw TypeError
  end.

(** [fields.map], [fields.forEach]: the methods of an array. *)
Definition asArray (fields : fieldList) : result (list string) :=
  match fields with
  | Fields l => Ok l
  | NoFields _ => Throw TypeError
  end.

(** *** Legend name and tooltip text *)

(** [range ? range : ""] is the range, or the empty string when there is
    none or when it is empty. *)
Definition getObservationTooltipText (name : string) (observation : Observation.t)
  : string :=
  let value := BenchmarkResult.value (Observation.bench observation) in
  let unit := BenchmarkResult.unit (Observation.bench observation) in
  let range := BenchmarkResult.range (Observation.bench observation) in
  let commitId := Commit.id (Observation.commit observation) in
  let message := Commit.message (Observation.commit observation) in
  let url := Commit.url (Observation.commit observation) in
  let rangeText :=
    match range with
    | Some r => r
    | None => ""
    end in
  "<b>" +:+ name +:+ "</b><br>value: " +:+ numberToString value +:+ " " +:+ unit
    +:+ " " +:+ rangeText +:+ "<br>commit id: " +:+ commitId
    +:+ "<br>commit name: " +:+ message +:+ "<br>commit url: " +:+ url.

Definition includes (l : list string) (key : string) : bool :=
  existsb (String.eqb key) l.

Definition getLegendName (trace : Trace.t) (groupBy schema : list string) : string :=
  let orderedEntries :=
    map (fun key => (key, propertyOf (Trace.metadata trace) key)) schema in
  String.concat " "
    (map (fun entry => propertyText (snd entry))
       (List.filter
          (fun entry =>
             negb (includes groupBy (fst entry))
             && negb (String.eqb (fst entry) "unit")
             && isDefined (snd entry))
          orderedEntries)).

Definition addLegendNameAndTooltip (trace : Trace.t) (groupBy schema : list string)
  : Trace.t :=
  let name := getLegendName trace groupBy schema in
  {| Trace.metadata := Trace.metadata trace;
     Trace.x := Trace.x trace;
     Trace.dataNs := Trace.dataNs trace;
     Trace.dataset := Trace.dataset trace;
     Trace.showlegend := Trace.showlegend trace;
     Trace.hoverinfo := Trace.hoverinfo trace;
     Trace.y := Trace.y trace;
     Trace.name := Some name;
     Trace.text :=
       Some (map (fun observation => getObservationTooltipText name observation)
               (Trace.dataset trace)) |}.

(** *** Groups, check boxes and charts *)

(** [JSON.stringify] leaves out a property whose value is [undefined]. *)
Definition omitUndefined (o : list (string * option string)) : list (string * string) :=
  flat_map
    (fun kv =>
       match snd kv with
       | Some v => [(fst kv, v)]
       | None => []
       end)
    o.

(** A value that is [undefined] and a function that the metadata inherit
    are both left out by [JSON.stringify]: they are [None] here. *)
Definition buildTraceGroupKey (trace : Trace.t) (groupBy : list string) : string :=
  let traceGroup :=
    fold_left
      (fun traceGroup key => assign traceGroup key (getProp (Trace.metadata trace) key))
      groupBy [] in
  JSON_stringify (omitUndefined traceGroup).

Definition buildTitleFromGroupKey (groupKey : list (string * string))
  (groupBy : list string) : string :=
  let entries :=
    map
      (fun field =>
         match propertyOf groupKey field with
         | Undefined => "undefined " +:+ field
         | value => "the " +:+ field +:+ " " +:+ propertyText value
         end)
      groupBy in
  match entries with
  | [] => "Results"
  | [entry] => "Results for run with " +:+ entry
  | _ =>
      "Results for run with " +:+ String.concat ", " (removelast entries)
        +:+ " and " +:+ List.last entries ""
  end.

(** [elem.setAttribute(name, value)] *)
Definition setAttribute (elem : Chart.t) (name value : string) : result Chart.t :=
  if validAttributeName name then
    Ok {| Chart.attributes := <[name := value]> (Chart.attributes elem);
          Chart.display := Chart.display elem |}
  else Throw InvalidCharacterError.

Fixpoint addAttributesToChartElement (elem : Chart.t) (groupKey : list (string * string))
  : result Chart.t :=
  match groupKey with
  | [] => Ok elem
  | (key, value) :: groupKey' =>
      let* elem := setAttribute elem key value in
      addAttributesToChartElement elem groupKey'
  end.

(** The element of a plot, if there is one, the traces as they are plotted,
    the unit, and the lines written with [console.error]. *)
Definition chartFilteredTraces (title : string) (filteredTraces : list Trace.t)
  : option Chart.t * list Trace.t * string * list string :=
  match filteredTraces with
  | [] => (None, [], "", ["No datasets found with " +:+ title])
  | _ =>
      let '(unit, traces) := adjustDataAndUnit filteredTraces in
      (Some {| Chart.attributes := {[ "class" := "benchmark-graphs" ]};
               Chart.display := None |},
       traces, unit, [])
  end.

(** [[...new Set(keys)]]: the values in the order of their first occurrence. *)
Definition unique (keys : list (property string)) : list (property string) :=
  fold_left
    (fun set v => if bool_decide (v ∈ set) then set else (set ++ [v])%list)
    keys [].

Definition getUniqueValuesForKey (groupKeys : list (list (string * string)))
  (groupBy : list string) : list (string * list (property string)) :=
  fold_left
    (fun uniqueValues key =>
       assign uniqueValues key (unique (map (fun k => propertyOf k key) groupKeys)))
    groupBy [].

(** The [key] and [value] attributes of the check boxes that
    [createFilterInterface] creates, all of them checked. *)
Definition createFilterInterface (groupKeys : list (list (string * string)))
  (groupBy : list string) : list (string * string) :=
  flat_map
    (fun entry =>
       map (fun value => (fst entry, propertyText value)) (snd entry))
    (getUniqueValuesForKey groupKeys groupBy).

(** The body of the loop of [renderAllCharts] over the groups.  The
    schema is what [retrieveSchema] returned: [getLegendName] calls its
    method [map]. *)
Definition renderGroup (groupBy : list string) (schema : fieldList)
  (entry : string * list Trace.t)
  : result (option Chart.t * (string * string * list Trace.t) * list string) :=
  let '(groupKeyString, filteredTraces) := entry in
  let* groupKey := parseKey groupKeyString groupBy in
  let title := buildTitleFromGroupKey groupKey groupBy in
  let* filteredTraces :=
    mapM
      (fun trace =>
         let* schema := asArray schema in
         Ok (addLegendNameAndTooltip trace groupBy schema))
      filteredTraces in
  let '(chartElem, traces, unit, log) := chartFilteredTraces title filteredTraces in
  let* chartElem :=
    match chartElem with
    | Some elem =>
        let* elem := addAttributesToChartElement elem groupKey in
        Ok (Some elem)
    | None => Ok None
    end in
  Ok (chartElem, (title, unit, traces), log).

(** The entries of the document are read by name: a name without a member
    reads [undefined] or a value without the method [map].  The schema is
    looked at when there is a result: [buildKey] loops over it.  A group-by
    entry that is no array ends in a [TypeError], in a loop over it or at
    [groupBy.forEach]. *)
Definition renderAllCharts (data : BENCHMARK_DATA.t) (benchSet : string)
  : result Page.t :=
  let entry := BENCHMARK_DATA.entries data !! benchSet in
  let* '(schema, log1) := retrieveSchema data benchSet in
  let* traces :=
    match entry with
    | Some commits =>
        match flatten commits with
        | [] => Ok []
        | _ =>
            let* schema := iterate schema in
            separateAllTraces commits schema
        end
    | None => Throw TypeError
    end in
  let* '(groupBy, log2) := retrieveGroupBy data benchSet in
  let* groupBy := asArray groupBy in
  let* groupedData :=
    Object_groupBy traces (fun trace => Ok (buildTraceGroupKey trace groupBy)) in
  let* groupKeys := mapM (fun group => parseKey (fst group) groupBy) groupedData in
  let checkBoxes := createFilterInterface groupKeys groupBy in
  let* rendered := mapM (renderGroup groupBy schema) groupedData in
  Ok {| Page.checkBoxes := checkBoxes;
        Page.charts := flat_map (fun r => option_list (fst (fst r))) rendered;
        Page.plots := map (fun r => snd (fst r)) rendered;
        Page.console := (log1 ++ log2 ++ concat (map snd rendered))%list |}.

(** *** Show and hide of charts *)

(** [if (hiddenBy)] *)
Definition isTruthy (hiddenBy : counter) : bool :=
  match hiddenBy with
  | CNum n => negb (n =? 0)%Z
  | CNaN => false
  | CStr s => negb (String.eqb s "")
  end.

(** [hiddenBy += 1]: an addition on a number, a concatenation on a string. *)
Definition plusOne (hiddenBy : counter) : counter :=
  match hiddenBy with
  | CNum n => CNum (n + 1)
  | CNaN => CNaN
  | CStr s => CStr (s +:+ "1")
  end.

(** [hiddenBy -= 1]: a string is converted to a number first. *)
Definition minusOne (hiddenBy : counter) : counter :=
  match hiddenBy with
  | CNum n => CNum (n - 1)
  | CNaN => CNaN
  | CStr s =>
      match toNumber s with
      | Some n => CNum (n - 1)
      | None => CNaN
      end
  end.

(** [hiddenBy == 0] *)
Definition equalsZero (hiddenBy : counter) : bool :=
  match hiddenBy with
  | CNum n => (n =? 0)%Z
  | CNaN => false
  | CStr s =>
      match toNumber s with
      | Some n => (n =? 0)%Z
      | None => false
      end
  end.

(** The text [setAttribute] stores. *)
Definition counterText (hiddenBy : counter) : string :=
  match hiddenBy with
  | CNum n => decimal n
  | CNaN => "NaN"
  | CStr s => s
  end.

(** The body of the [forEach] of [setChartHiddenStatus], on one chart
    that matches the filter. *)
Definition updateChart (hide : bool) (chart : Chart.t) : Chart.t :=
  let hiddenByAttribute := Chart.attributes chart !! "hidden-by" in
  let hiddenBy :=
    match hiddenByAttribute with
    | Some a => if String.eqb a "" then CNum 0 else CStr a
    | None => CNum 0
    end in
  let '(display, hiddenBy) :=
    if hide then (Some "none", plusOne hiddenBy)
    else
      let hiddenBy := if isTruthy hiddenBy then minusOne hiddenBy else CNum 0 in
      (if equalsZero hiddenBy then None else Chart.display chart, hiddenBy) in
  {| Chart.attributes := <["hidden-by" := counterText hiddenBy]> (Chart.attributes chart);
     Chart.display := display |}.

(** [charts] are the elements of class [benchmark-graphs] of the page. *)
Definition setChartHiddenStatus (hide : bool) (key value : string)
  (charts : list Chart.t) : list Chart.t :=
  map
    (fun chart =>
       if bool_decide (Chart.attributes chart !! key = Some value)
       then updateChart hide chart
       else chart)
    charts.

(** A change event of the check box of [(key, value)]; [checked] is the
    state of the box after the change. *)
Definition changeEvent (checked : bool) (key value : string) (charts : list Chart.t)
  : list Chart.t :=
  if checked then setChartHiddenStatus false key value charts
  else setChartHiddenStatus true key value charts.

(** *** The comparison report of two runs *)

(** [Number.prototype.toLocaleString] and [Number.prototype.toFixed]. *)
Variable toLocaleString : Q -> string.
Variable toFixed : Q -> nat -> string.

Definition newline : string := String "010" "".

(** The text of a value in a template literal: [String(v)]. *)
Definition textOf (v : property jsval) : string :=
  match v with
  | Undefined => "undefined"
  | Inherited k => builtinText k
  | Own JNull => "null"
  | Own (JBool true) => "true"
  | Own (JBool false) => "false"
  | Own (JNum q) => numberToString q
  | Own (JStr s) => s
  end.

(** [v ?? d] *)
Definition orElse (v : property jsval) (d : string) : property jsval :=
  match v with
  | Undefined | Own JNull => Own (JStr d)
  | _ => v
  end.

(** The results of the reports are made by [JSON.parse]: their members
    are own properties. *)
Definition generateCompositeKey (bench : gmap string jsval) (keys : list string) : string :=
  String.concat "|" (map (fun key => textOf (orElse (memberOf bench key) "")) keys).

Definition statusText (status : ComparisonStatus) : string :=
  match status with
  | changed => "changed"
  | new => "new"
  | removed => "removed"
  end.

(** The properties of a combined result, by name: those of the result that
    was spread, then the three that are set after it.  A value that is
    [undefined] reads like a property that is not there. *)
Definition combinedObject (res : CombinedResult.t) : gmap string jsval :=
  let spread :=
    match CombinedResult.bench res with
    | Some b => benchObject b
    | None => ∅
    end in
  let withValue (name : string) (value : option Q) (o : gmap string jsval) :=
    match value with
    | Some q => <[name := JNum q]> o
    | None => delete name o
    end in
  <["status" := JStr (statusText (CombinedResult.status res))]>
    (withValue "currentValue" (CombinedResult.currentValue res)
       (withValue "baselineValue" (CombinedResult.baselineValue res) spread)).

(** [createBenchMap] of [compareBenches]: a [Map] keeps the order in which
    its keys were first set. *)
Definition createBenchMap (keyFields : list string) (entry : Benchmark.t)
  : list (string * BenchmarkResult.t) :=
  fold_left
    (fun map bench => setProp map (generateCompositeKey (benchObject bench) keyFields) bench)
    (Benchmark.benches entry) [].

(** [new Set(keys)]: the keys in the order of their first occurrence. *)
Definition newSet (keys : list string) : list string :=
  fold_left (fun set key => if bool_decide (key ∈ set) then set else (set ++ [key])%list)
    keys [].

Definition compareBenches (baselineEntry currentEntry : Benchmark.t)
  (schemaKeys : list string) : list CombinedResult.t :=
  let keyFields :=
    List.filter
      (fun k => negb (String.eqb k "value") && negb (String.eqb k "unit")
                && negb (String.eqb k "range"))
      schemaKeys in
  let baselineMap := createBenchMap keyFields baselineEntry in
  let currentMap := createBenchMap keyFields currentEntry in
  let allKeys := newSet (map fst baselineMap ++ map fst currentMap) in
  map
    (fun key =>
       let baselineBench := getProp baselineMap key in
       let currentBench := getProp currentMap key in
       let representativeBench :=
         match currentBench with
         | Some b => Some b
         | None => baselineBench
         end in
       let status :=
         match currentBench with
         | Some _ =>
             match baselineBench with
             | Some _ => changed
             | None => new
             end
         | None => removed
         end in
       {| CombinedResult.bench := representativeBench;
          CombinedResult.baselineValue := option_map BenchmarkResult.value baselineBench;
          CombinedResult.currentValue := option_map BenchmarkResult.value currentBench;
          CombinedResult.status := status |})
    allKeys.

Definition groupResults (results : list CombinedResult.t) (groupByKeys : list string)
  : list (string * list CombinedResult.t) :=
  if (length groupByKeys =? 0)%nat then [("all", results)]
  else
    fold_left
      (fun groupedResults result =>
         addToGroup groupedResults
           (generateCompositeKey (combinedObject result) groupByKeys) result)
      results [].

Definition calculateImprovement (oldValue newValue : Q) (biggerIsBetter : bool)
  : improvement :=
  if Qeq_bool oldValue 0 then
    if negb (Qle_bool newValue 0) then Infinity else Percent 0
  else
    let change := ((newValue - oldValue) / oldValue * 100)%Q in
    Percent (if biggerIsBetter then change else (- change)%Q).

Definition formatImprovement (improvement : improvement) : string :=
  match improvement with
  | Infinity => "N/A"
  | Percent q =>
      let sign := if negb (Qle_bool q 0) then "+" else "" in
      let emoji :=
        if negb (Qle_bool q 2) then "✅"
        else if negb (Qle_bool (-2) q) then "❌"
        else "➖" in
      "**" +:+ sign +:+ toFixed q 2 +:+ "%** " +:+ emoji
  end.

(** [array.indexOf(x)]; [None] is -1. *)
Fixpoint indexOf (x : string) (l : list string) : option nat :=
  match l with
  | [] => None
  | y :: l' => if String.eqb y x then Some O else option_map S (indexOf x l')
  end.

(** The columns of the table: the schema keys, with [name] moved to the
    front when it is there and not the first. *)
Definition tableColumns (schemaKeys : list string) : list string :=
  match indexOf "name" schemaKeys with
  | Some (S nameIndex) =>
      "name" :: (take (S nameIndex) schemaKeys ++ drop (S (S nameIndex)) schemaKeys)%list
  | _ => schemaKeys
  end.

Definition headerRow (schemaKeys : list string) : list string :=
  (tableColumns schemaKeys ++ ["Baseline"; "Current"; "Change"])%list.

(** [value ? `${value.toLocaleString()} ${unit}` : "N/A"] *)
Definition valueCell (value : option Q) (unit : string) : string :=
  match value with
  | Some q => if Qeq_bool q 0 then "N/A" else toLocaleString q +:+ " " +:+ unit
  | None => "N/A"
  end.

Definition changeText (res : CombinedResult.t) (bigger_is_better : bool) : string :=
  let truthyValue (value : option Q) :=
    match value with
    | Some q => negb (Qeq_bool q 0)
    | None => false
    end in
  match CombinedResult.status res with
  | changed =>
      if truthyValue (CombinedResult.baselineValue res)
         && truthyValue (CombinedResult.currentValue res)
      then
        match CombinedResult.baselineValue res, CombinedResult.currentValue res with
        | Some baselineValue, Some currentValue =>
            formatImprovement
              (calculateImprovement baselineValue currentValue bigger_is_better)
        | _, _ => "N/A"
        end
      else "N/A"
  | new => "**New** ✨"
  | removed => "**Removed** 🗑️"
  end.

(** The cells of the row of one result. *)
Definition rowValues (schemaKeys : list string) (bigger_is_better : bool)
  (res : CombinedResult.t) : list string :=
  let cells :=
    map (fun key => "`" +:+ textOf (orElse (memberOf (combinedObject res) key) "N/A") +:+ "`")
      (tableColumns schemaKeys) in
  let unit :=
    match CombinedResult.bench res with
    | Some b => hd "" (split "/" (BenchmarkResult.unit b))
    | None => ""
    end in
  (cells
   ++ [valueCell (CombinedResult.baselineValue res) unit;
       valueCell (CombinedResult.currentValue res) unit;
       changeText res bigger_is_better])%list.

(** The text of one group: its header, when there are group-by keys, and
    its table.  The header reads the first result of the group. *)
Definition groupMarkdown (currentEntry : Benchmark.t) (schemaKeys groupByKeys : list string)
  (results : list CombinedResult.t) : result string :=
  let* header :=
    if (0 <? length groupByKeys)%nat then
      match results with
      | first :: _ =>
          let groupProps :=
            String.concat ", "
              (map (fun key =>
                      "**" +:+ key +:+ "**: `" +:+ textOf (memberOf (combinedObject first) key)
                      +:+ "`")
                 groupByKeys) in
          Ok ("### " +:+ groupProps +:+ newline +:+ newline)
      | [] => Throw TypeError
      end
    else Ok "" in
  Ok (header
      +:+ "| " +:+ String.concat " | " (headerRow schemaKeys) +:+ " |" +:+ newline
      +:+ "|" +:+ String.concat "|" (map (fun _ => "---") (headerRow schemaKeys)) +:+ "|"
      +:+ newline
      +:+ String.concat ""
            (map (fun res =>
                    "| "
                    +:+ String.concat " | "
                          (rowValues schemaKeys (Benchmark.bigger_is_better currentEntry) res)
                    +:+ " |" +:+ newline)
               results)
      +:+ newline).

Definition generateMarkdown (benchmarkName : string) (baselineEntry currentEntry : Benchmark.t)
  (groupedResults : list (string * list CombinedResult.t))
  (schemaKeys groupByKeys : list string) : result string :=
  let* parts :=
    mapM (fun group => groupMarkdown currentEntry schemaKeys groupByKeys (snd group))
      groupedResults in
  Ok (String.concat "" parts).

(** The loop of [main] that looks for the commits of the two most recent
    runs of different commits, over the runs from the last to the first;
    an empty commit id counts as none. *)
Fixpoint commitIds (entries : list Benchmark.t) (currentCommitId : option string)
  : option string * option string :=
  match entries with
  | [] => (currentCommitId, None)
  | entry :: entries' =>
      let commitId := Commit.id (Benchmark.commit entry) in
      match currentCommitId with
      | None => commitIds entries' (Some commitId)
      | Some current =>
          if String.eqb current "" then commitIds entries' (Some commitId)
          else if negb (String.eqb commitId current) then (currentCommitId, Some commitId)
          else commitIds entries' currentCommitId
      end
  end.

(** The run that stands for a commit: the first run of the commit, with
    the results of all its runs. *)
Definition aggregatedEntry (history : list Benchmark.t) (commitId : string)
  (benches : list BenchmarkResult.t) : option Benchmark.t :=
  match find (fun e => String.eqb (Commit.id (Benchmark.commit e)) commitId) history with
  | Some first =>
      Some {| Benchmark.commit := Benchmark.commit first;
              Benchmark.date := Benchmark.date first;
              Benchmark.bigger_is_better := Benchmark.bigger_is_better first;
              Benchmark.benches := benches |}
  | None => None
  end.

(** The benches pushed to the two aggregated entries by the loop over the
    history: a run of the current commit goes to the current entry, a run
    of the baseline commit, that is not of the current commit, to the
    baseline entry. *)
Definition aggregateBenches (history : list Benchmark.t)
  (currentCommitId baselineCommitId : string)
  : list BenchmarkResult.t * list BenchmarkResult.t :=
  fold_left
    (fun '(baseline, current) entry =>
       if String.eqb (Commit.id (Benchmark.commit entry)) currentCommitId
       then (baseline, (current ++ Benchmark.benches entry)%list)
       else if String.eqb (Commit.id (Benchmark.commit entry)) baselineCommitId
       then ((baseline ++ Benchmark.benches entry)%list, current)
       else (baseline, current))
    history ([], []).

(** The two texts that [main] prints when there is nothing to compare. *)
Definition notEnoughRuns (name : string) : string :=
  "## ⚠️ No Comparison Available for " +:+ name +:+ newline +:+ newline
  +:+ "Not enough data to compare. At least two benchmark runs are required.".

Definition notEnoughCommits (name : string) : string :=
  "## ⚠️ No Comparison Available for " +:+ name +:+ newline +:+ newline
  +:+ "Not enough data to compare. At least two different commits with benchmark data are required.".

(** What [main] does with a suite of at least two runs. *)
Definition compare (name : string) (schemaKeys groupByKeys : list string)
  (history : list Benchmark.t) : result output :=
  match commitIds (rev history) None with
  | (Some currentCommitId, Some baselineCommitId) =>
      if String.eqb baselineCommitId "" then Ok (Stdout (notEnoughCommits name))
      else
        let '(baselineBenches, currentBenches) :=
          aggregateBenches history currentCommitId baselineCommitId in
        match aggregatedEntry history currentCommitId currentBenches,
              aggregatedEntry history baselineCommitId baselineBenches with
        | Some aggregatedCurrentEntry, Some aggregatedBaselineEntry =>
            let combinedResults :=
              compareBenches aggregatedBaselineEntry aggregatedCurrentEntry schemaKeys in
            let groupedResults := groupResults combinedResults groupByKeys in
            let* markdownReport :=
              generateMarkdown name aggregatedBaselineEntry aggregatedCurrentEntry
                groupedResults schemaKeys groupByKeys in
            Ok (Stdout markdownReport)
        | _, _ => Throw TypeError
        end
  | (_, _) => Ok (Stdout (notEnoughCommits name))
  end.

(** [main]: [name], [schema] and [groupBy] are the arguments [--name],
    [--schema] and [--groupBy], where they are given, [data] is the
    property [entries] of the document read from the standard input.  The
    result is what is printed before the script ends.

    The first run of a commit is found ([commitIds_found] below), so the
    last case of the inner [match] of [compare] is never reached.  A name
    without a suite that [Object.prototype] has reads a built-in: a
    function with fewer than two parameters counts as a history of fewer
    than two runs, one with two parameters has no run at the index 1, and
    the prototype itself has no [length], so that the loop over the runs
    is not entered. *)
Definition main (name schema groupBy : option string)
  (data : gmap string (list Benchmark.t)) : result output :=
  match name with
  | None => Ok (Stderr "Error: The --name argument is required.")
  | Some name =>
      if String.eqb name "" then Ok (Stderr "Error: The --name argument is required.")
      else
        let* schemaKeys :=
          match schema with
          | Some schema => Ok (map trim (split "," schema))
          | None => Throw TypeError
          end in
        let* groupByKeys :=
          match groupBy with
          | Some groupBy =>
              Ok (List.filter (fun k => negb (String.eqb k ""))
                    (map trim (split "," groupBy)))
          | None => Throw TypeError
          end in
        match memberOf data name with
        | Undefined => Ok (Stdout (notEnoughRuns name))
        | Inherited k =>
            match builtinLength k with
            | Some length =>
                if (length <? 2)%nat then Ok (Stdout (notEnoughRuns name))
                else Throw TypeError
            | None => Ok (Stdout (notEnoughCommits name))
            end
        | Own history =>
            if (length history <? 2)%nat then Ok (Stdout (notEnoughRuns name))
            else compare name schemaKeys groupByKeys history
        end
  end.

(** *** The report of one run *)

(** The text of an element in [array.join]: [undefined] and [null] give
    the empty text. *)
Definition joinText (v : property jsval) : string :=
  match v with
  | Undefined | Own JNull => ""
  | _ => textOf v
  end.

Definition groupData (data : list (gmap string jsval)) (keys : list string)
  : list (string * list (gmap string jsval)) :=
  fold_left
    (fun groups row =>
       let groupKey := String.concat "::" (map (fun key => joinText (memberOf row key)) keys) in
       addToGroup groups groupKey row)
    data [].

(** The columns of the tables: [name], then the other columns of the
    schema. *)
Definition orderedSchema (schema : list string) : list string :=
  "name" :: List.filter (fun col => negb (String.eqb col "name")) schema.

(** The lines of one group: header, table header, separator, rows and
    rule.  The header reads the first row of the group. *)
Definition groupReport (schema groupByKeys : list string) (rows : list (gmap string jsval))
  : result (list string) :=
  let* groupHeaderText :=
    match rows, groupByKeys with
    | [], _ :: _ => Throw TypeError
    | _, _ =>
        Ok (String.concat ", "
              (map (fun key =>
                      "**" +:+ key +:+ "**: `"
                      +:+ textOf (match rows with
                                  | firstRow :: _ => memberOf firstRow key
                                  | [] => Undefined
                                  end)
                      +:+ "`")
                 groupByKeys))
    end in
  let tableHeader := "| " +:+ String.concat " | " (orderedSchema schema) +:+ " |" in
  let tableSeparator :=
    "| " +:+ String.concat " | " (map (fun _ => "---") (orderedSchema schema)) +:+ " |" in
  Ok (["### " +:+ groupHeaderText; tableHeader; tableSeparator]
      ++ map (fun row =>
                let rowValues :=
                  map (fun col => joinText (orElse (memberOf row col) "N/A"))
                    (orderedSchema schema) in
                "| " +:+ String.concat " | " rowValues +:+ " |")
           rows
      ++ [newline +:+ "---"])%list.

Definition generateMarkdownReport (groups : list (string * list (gmap string jsval)))
  (schema groupByKeys : list string) : result string :=
  let* reportParts :=
    mapM (fun group => groupReport schema groupByKeys (snd group)) groups in
  Ok (String.concat newline (concat reportParts)).

(** [main] of the report of one run, after the number of its arguments is
    checked: [schema] and [groupBy] are the two arguments, [jsonInput] is
    the array read from the standard input; the result is the text that is
    printed. *)
Definition main' (schema groupBy : string) (jsonInput : list (gmap string jsval))
  : result string :=
  let schemaKeys := (split "," schema ++ ["value"; "range"; "unit"])%list in
  let groupByKeys := split "," groupBy in
  let groupedData := groupData jsonInput groupByKeys in
  generateMarkdownReport groupedData schemaKeys groupByKeys.

(** ** Notions used in the statements *)

(** The member [s] of a result of the page's document, as an own
    property. *)
Definition fieldOf (R : gmap string jsval) (s : string) : option jsval := ownMember R s.

(** What [buildKey] stores for the field [s] of a record. *)
Definition fieldText (R : gmap string jsval) (s : string) : result string :=
  match fieldOf R s with
  | Some v => toString v
  | None => Ok "-"
  end.

(** Every field of [F] that the record has can be printed: none is [null]. *)
Definition printable (R : gmap string jsval) (F : list string) : Prop :=
  forall s, In s F -> fieldOf R s <> Some JNull.

(** The record has the method [hasOwnProperty] of [Object.prototype], and
    its fields of [F] can be printed; or there is no field to look at. *)
Definition keyed (F : list string) (R : gmap string jsval) : Prop :=
  F = [] \/ (hasOwnPropertyMethod isNull R = true /\ printable R F).

(** The key of the record can be built and read back: [hasOwnProperty] is
    no field of [F], which would be a property of the key object. *)
Definition keyable (F : list string) (R : gmap string jsval) : Prop :=
  keyed F R /\ ~ In "hasOwnProperty" F.

(** What stands in the way of a key, for a record and fields [F]. *)
Definition unkeyable (F : list string) (R : gmap string jsval) : Prop :=
  F <> []
  /\ (hasOwnPropertyMethod isNull R = false
      \/ In "hasOwnProperty" F
      \/ exists s, In s F /\ fieldOf R s = Some JNull).

(** The value of a field, the sentinel standing for a field the record
    lacks. *)
Definition fieldOrSentinel (R : gmap string jsval) (s : string) : jsval :=
  default (JStr "-") (fieldOf R s).

(** The text of a value: a string is its own text, a number has its
    decimal text, a boolean is [true] or [false]. *)
Definition printed (v : jsval) : string :=
  match v with
  | JStr text => text
  | JNum q => numberToString q
  | JBool b => if b then "true" else "false"
  | JNull => "null"
  end.

(** Every field of [F] that the record has is a string. *)
Definition stringValued (R : gmap string jsval) (F : list string) : Prop :=
  forall s, In s F -> exists t, fieldOrSentinel R s = JStr t.

(** No field of [F] of the record is the text of the sentinel. *)
Definition noSentinel (R : gmap string jsval) (F : list string) : Prop :=
  forall s, In s F -> fieldOf R s <> Some (JStr "-").

(** The field that a text of a key stands for, in a record whose fields
    are strings other than the sentinel. *)
Definition fieldOfText (text : option string) : option jsval :=
  match text with
  | Some t => if String.eqb t "-" then None else Some (JStr t)
  | None => None
  end.

(** The text of a field in the legend name of a trace. *)
Definition legendText (R : gmap string jsval) (s : string) : string :=
  if String.eqb s "__proto__" then "[object Object]" else printed (fieldOrSentinel R s).

Definition isSubstring (part whole : string) : Prop :=
  exists before after, whole = before +:+ part +:+ after.

(** The test of [isSubstring]. *)
Fixpoint startsWith (part whole : string) : bool :=
  match part, whole with
  | EmptyString, _ => true
  | String c part', String d whole' => Ascii.eqb c d && startsWith part' whole'
  | String _ _, EmptyString => false
  end.

Fixpoint contains (part whole : string) : bool :=
  startsWith part whole
  || match whole with
     | EmptyString => false
     | String _ whole' => contains part whole'
     end.

(** One member read by [JSON.parse]. *)
Definition setMember (o : list (string * string)) (kv : string * string)
  : list (string * string) :=
  setProp o (fst kv) (snd kv).

(** The scale of the recognised unit prefixes, by the first code unit of
    the unit: [n], [u], U+00B5, U+03BC, [m], [s]. *)
Definition unitFactor (c : option N) : option Q :=
  match c with
  | Some 110%N => Some 1%Q
  | Some 117%N | Some 181%N | Some 956%N => Some 1000%Q
  | Some 109%N => Some 1000000%Q
  | Some 115%N => Some 1000000000%Q
  | _ => None
  end.

(** The order of [Math.max]. *)
Definition extLe (a b : extended) : Prop :=
  match a, b with
  | NegInfinity, _ => True
  | Finite _, NegInfinity => False
  | Finite p, Finite q => (p <= q)%Q
  end.

(** The traces with every value divided by [factor]. *)
Definition scaledBy (factor : Q) (traces : list Trace.t) : list Trace.t :=
  map (fun trace => setY trace (map (fun d => (d / factor)%Q) (Trace.dataNs trace))) traces.

(** [trace'] is [trace] with the [y] values assigned: its values in
    nanoseconds, each divided by [factor]. *)
Definition divided (factor : Q) (trace trace' : Trace.t) : Prop :=
  Trace.y trace' = Some (map (fun d => (d / factor)%Q) (Trace.dataNs trace))
  /\ Trace.metadata trace' = Trace.metadata trace
  /\ Trace.x trace' = Trace.x trace
  /\ Trace.dataNs trace' = Trace.dataNs trace
  /\ Trace.dataset trace' = Trace.dataset trace
  /\ Trace.showlegend trace' = Trace.showlegend trace
  /\ Trace.hoverinfo trace' = Trace.hoverinfo trace
  /\ Trace.name trace' = Trace.name trace
  /\ Trace.text trace' = Trace.text trace.

(** What is plotted: the unit, and for every trace the trace with its
    values divided by [factor]. *)
Definition displayed (unit : string) (factor : Q) (traces : list Trace.t)
  (plotted : string * list Trace.t) : Prop :=
  fst plotted = unit /\ Forall2 (divided factor) traces (snd plotted).

(** A trace that holds the given values in nanoseconds, and nothing else. *)
Definition traceOf (dataNs : list Q) : Trace.t :=
  {| Trace.metadata := [("unit", "ns/iter")];
     Trace.x := [];
     Trace.dataNs := dataNs;
     Trace.dataset := [];
     Trace.showlegend := true;
     Trace.hoverinfo := "text";
     Trace.y := None;
     Trace.name := None;
     Trace.text := None |}.

(** The document has no usable entry for the suite: [schema] (or [groupBy])
    is missing or is not an object, or it is an object, with the method
    [hasOwnProperty], that has no property of that name. *)
Definition absentOrInvalid (f : suiteFields) (benchSet : string) : Prop :=
  match f with
  | FObject m => hasOwnPropertyMethod isNullEntry m = true /\ ownMember m benchSet = None
  | _ => True
  end.

(** The document with the given fields as the schema, or as the group-by,
    of the suite, and of no other. *)
Definition withSchema (data : BENCHMARK_DATA.t) (benchSet : string) (fields : list string)
  : BENCHMARK_DATA.t :=
  {| BENCHMARK_DATA.lastUpdate := BENCHMARK_DATA.lastUpdate data;
     BENCHMARK_DATA.repoUrl := BENCHMARK_DATA.repoUrl data;
     BENCHMARK_DATA.entries := BENCHMARK_DATA.entries data;
     BENCHMARK_DATA.groupBy := BENCHMARK_DATA.groupBy data;
     BENCHMARK_DATA.schema := FObject {[ benchSet := Fields fields ]} |}.

Definition withGroupBy (data : BENCHMARK_DATA.t) (benchSet : string) (fields : list string)
  : BENCHMARK_DATA.t :=
  {| BENCHMARK_DATA.lastUpdate := BENCHMARK_DATA.lastUpdate data;
     BENCHMARK_DATA.repoUrl := BENCHMARK_DATA.repoUrl data;
     BENCHMARK_DATA.entries := BENCHMARK_DATA.entries data;
     BENCHMARK_DATA.groupBy := FObject {[ benchSet := Fields fields ]};
     BENCHMARK_DATA.schema := BENCHMARK_DATA.schema data |}.

(** The page with one more line on the console, written at the place
    [place] of the lines there are. *)
Definition logged (place : nat) (line : string) (page : Page.t) : Page.t :=
  {| Page.checkBoxes := Page.checkBoxes page;
     Page.charts := Page.charts page;
     Page.plots := Page.plots page;
     Page.console := (take place (Page.console page) ++ line :: drop place (Page.console page))%list |}.

(** The last [n] entries of a suite. *)
Definition lastEntries (n : Z) (suites : list Benchmark.t) : list Benchmark.t :=
  drop (length suites - Z.to_nat n) suites.

(** The observation has the schema key [k]. *)
Definition hasKey (schema : list string) (k : string) (d : Observation.t) : bool :=
  match buildKey (benchObject (Observation.bench d)) schema with
  | Ok k' => String.eqb k' k
  | Throw _ => false
  end.

(** The key of an observation when [buildKey] returns one. *)
Definition keyOf (schema : list string) (d : Observation.t) : string :=
  match buildKey (benchObject (Observation.bench d)) schema with
  | Ok k => k
  | Throw _ => ""
  end.

(** The unit of the observation has a recognised prefix. *)
Definition knownUnit (d : Observation.t) : Prop :=
  exists factor, unitFactor (charAt0 (BenchmarkResult.unit (Observation.bench d))) = Some factor.

(** The values of a list, each once, in the order of their first
    occurrence. *)
Fixpoint distinct (l : list string) : list string :=
  match l with
  | [] => []
  | x :: l' => x :: List.filter (fun y => negb (String.eqb y x)) (distinct l')
  end.

(** What [Object.groupBy] has built after the items [seen], for a callback
    that returns [g]: one group per key that occurred, each with the items
    of that key in their order. *)
Definition grouped {A : Type} (g : A -> string) (seen : list A)
  (groups : list (string * list A)) : Prop :=
  List.NoDup (map fst groups)
  /\ (forall k ds, In (k, ds) groups -> ds = List.filter (fun a => String.eqb (g a) k) seen)
  /\ (forall k, In k (map fst groups) <-> exists a, In a seen /\ g a = k).

(** ** Sample data *)

Definition nobody : GitHubUser.t :=
  {| GitHubUser.email := None; GitHubUser.name := None; GitHubUser.username := None |}.

Definition commitOf (id : string) : Commit.t :=
  {| Commit.author := nobody;
     Commit.committer := nobody;
     Commit.id := id;
     Commit.message := "update";
     Commit.timestamp := "2025-01-01T00:00:00Z";
     Commit.url := "https://example.org/commit/" +:+ id |}.

Definition resultOf (value : Q) (unit : string) (meta : list (string * jsval))
  : BenchmarkResult.t :=
  {| BenchmarkResult.value := value;
     BenchmarkResult.range := None;
     BenchmarkResult.unit := unit;
     BenchmarkResult.meta := list_to_map meta |}.

Definition runOf (id : string) (date : Z) (benches : list BenchmarkResult.t)
  : Benchmark.t :=
  {| Benchmark.commit := commitOf id;
     Benchmark.date := date;
     Benchmark.bigger_is_better := false;
     Benchmark.benches := benches |}.

(** Three runs of one benchmark on two systems. *)
Definition threeRuns : list Benchmark.t :=
  [ runOf "c1" 1000 [resultOf 12 "ns" [("name", JStr "foo"); ("os", JStr "linux")];
                     resultOf 15 "ns" [("name", JStr "foo"); ("os", JStr "macos")]];
    runOf "c1" 2000 [resultOf 3 "us" [("name", JStr "foo"); ("os", JStr "linux")]];
    runOf "c2" 3000 [resultOf 14 "ns" [("name", JStr "foo"); ("os", JStr "macos")]] ].

(** A chart of the group os = linux, keySize = 512, as
    [addAttributesToChartElement] leaves it: visible, no [hidden-by]. *)
Definition linux512 : Chart.t :=
  {| Chart.attributes :=
       {[ "class" := "benchmark-graphs"; "os" := "linux"; "keySize" := "512" ]};
     Chart.display := None |}.

(** A document with one suite, grouped by system and key size. *)
Definition keySizes : BENCHMARK_DATA.t :=
  {| BENCHMARK_DATA.lastUpdate := 0;
     BENCHMARK_DATA.repoUrl := "";
     BENCHMARK_DATA.entries :=
       {[ "suite" :=
            [runOf "c1" 1000
               [resultOf 12 "ns"
                  [("name", JStr "foo"); ("os", JStr "linux"); ("keySize", JNum 512)]]] ]};
     BENCHMARK_DATA.groupBy := FObject {[ "suite" := Fields ["os"; "keySize"] ]};
     BENCHMARK_DATA.schema := FObject {[ "suite" := Fields ["name"; "os"; "keySize"] ]} |}.

(** The three runs, in a document without schema and group-by. *)
Definition bareDocument : BENCHMARK_DATA.t :=
  {| BENCHMARK_DATA.lastUpdate := 0;
     BENCHMARK_DATA.repoUrl := "";
     BENCHMARK_DATA.entries := {[ "suite" := threeRuns ]};
     BENCHMARK_DATA.groupBy := FUndefined;
     BENCHMARK_DATA.schema := FUndefined |}.

(** The three runs, in a document whose schema has [null] for the suite,
    and in one whose schema has a string. *)
Definition nullSchema : BENCHMARK_DATA.t :=
  {| BENCHMARK_DATA.lastUpdate := 0;
     BENCHMARK_DATA.repoUrl := "";
     BENCHMARK_DATA.entries := {[ "suite" := threeRuns ]};
     BENCHMARK_DATA.groupBy := FUndefined;
     BENCHMARK_DATA.schema := FObject {[ "suite" := NoFields JNull ]} |}.

Definition textSchema : BENCHMARK_DATA.t :=
  {| BENCHMARK_DATA.lastUpdate := 0;
     BENCHMARK_DATA.repoUrl := "";
     BENCHMARK_DATA.entries := {[ "suite" := threeRuns ]};
     BENCHMARK_DATA.groupBy := FUndefined;
     BENCHMARK_DATA.schema := FObject {[ "suite" := NoFields (JStr "name,os") ]} |}.

(** One run of one result, of the benchmark [foo] on linux. *)
Definition oneRun : list Benchmark.t :=
  [runOf "c1" 1000 [resultOf 12 "ns" [("name", JStr "foo"); ("os", JStr "linux")]]].

(** [chart.getAttribute("hidden-by")] *)
Definition hiddenByOf (chart : Chart.t) : option string :=
  Chart.attributes chart !! "hidden-by".

(** A string between double quotes. *)
Definition quoted (s : string) : string := String dquote (s +:+ String dquote "").

(** A document without [schema], with a [groupBy] for another suite. *)
Definition sampleDocument : BENCHMARK_DATA.t :=
  {| BENCHMARK_DATA.lastUpdate := 0;
     BENCHMARK_DATA.repoUrl := "";
     BENCHMARK_DATA.entries := ∅;
     BENCHMARK_DATA.groupBy := FObject {[ "other" := Fields ["os"; "keySize"] ]};
     BENCHMARK_DATA.schema := FUndefined |}.

(** ** Further notions used in the statements *)


(** The digit 1, written [k] times. *)
Fixpoint ones (k : nat) : string :=
  match k with
  | O => ""
  | S k' => ones k' +:+ "1"
  end.


(** The document that the update script writes, as the page script finds
    it under [window.BENCHMARK_DATA]: the page is generated with the JSON
    text of the document as the value of that variable. *)
Definition asBenchmarkData (data : DataJson.t) : BENCHMARK_DATA.t :=
  {| BENCHMARK_DATA.lastUpdate := DataJson.lastUpdate data;
     BENCHMARK_DATA.repoUrl := DataJson.repoUrl data;
     BENCHMARK_DATA.entries := DataJson.entries data;
     BENCHMARK_DATA.groupBy :=
       match DataJson.groupBy data with
       | Some m => FObject (Fields <$> m)
       | None => FUndefined
       end;
     BENCHMARK_DATA.schema :=
       match DataJson.schema data with
       | Some m => FObject (Fields <$> m)
       | None => FUndefined
       end |}.

(** The string has the character. *)
Fixpoint hasChar (c : ascii) (s : string) : bool :=
  match s with
  | EmptyString => false
  | String c' s' => Ascii.eqb c' c || hasChar c s'
  end.

(** What a result reads for a property after the loop of
    [loadBenchmarkResult], given what it read before: a [range] or an
    [extra] that is falsy reads [undefined]. *)
Definition afterLoad (before : option jsval) (k : string) : option jsval :=
  if (String.eqb k "range" || String.eqb k "extra") && falsy before then None else before.



(** A run with a result that counts cycles, and one whose name is [null]. *)
Definition cyclesRun : list Benchmark.t :=
  [runOf "c1" 1000 [resultOf 3 "cycles" [("name", JStr "foo")]]].

Definition nullRun : list Benchmark.t :=
  [runOf "c1" 1000 [resultOf 3 "cycles" [("name", JNull)]]].

(** A history document with a suite of two runs. *)
Definition twoRuns : DataJson.t :=
  {| DataJson.lastUpdate := 0;
     DataJson.repoUrl := "";
     DataJson.entries := {[ "suite" := [runOf "c1" 1000 []; runOf "c2" 2000 []] ]};
     DataJson.groupBy := Some {[ "other" := ["os"] ]};
     DataJson.schema := None |}.

(** Two results as they are parsed: one with an empty range, one without
    a name. *)
Definition parsedResults : list (list (string * option jsval)) :=
  [ [("name", Some (JStr "foo")); ("value", Some (JNum 12)); ("range", Some (JStr ""))];
    [("value", Some (JNum 15)); ("extra", Some (JStr "warm"))] ].


(** The key fields of the comparison: the schema keys that are not
    [value], [unit] or [range]. *)
Definition keyFieldsOf (schemaKeys : list string) : list string :=
  List.filter
    (fun k => negb (String.eqb k "value") && negb (String.eqb k "unit")
              && negb (String.eqb k "range"))
    schemaKeys.

(** The composite key of a result. *)
Definition compositeKey (keyFields : list string) (b : BenchmarkResult.t) : string :=
  generateCompositeKey (benchObject b) keyFields.

(** The key of a row of the report of one run. *)
Definition rowKey (keys : list string) (row : gmap string jsval) : string :=
  String.concat "::" (map (fun key => joinText (memberOf row key)) keys).

(** The last result of a run that has the composite key [k]. *)
Definition lastWithKey (keyFields : list string) (k : string) (entry : Benchmark.t)
  : option BenchmarkResult.t :=
  find (fun b => String.eqb (compositeKey keyFields b) k) (rev (Benchmark.benches entry)).


(** Two runs of two commits: the second has a result more. *)
Definition baselineRun : Benchmark.t :=
  runOf "c1" 1000 [resultOf 10 "ns/iter" [("name", JStr "foo"); ("os", JStr "linux")]].

Definition currentRun : Benchmark.t :=
  runOf "c2" 2000
    [resultOf 12 "ns/iter" [("name", JStr "foo"); ("os", JStr "linux")];
     resultOf 5 "ns/iter" [("name", JStr "bar"); ("os", JStr "linux")]].

(** A combined result whose current value is 0. *)
Definition zeroNow : CombinedResult.t :=
  {| CombinedResult.bench :=
       Some (resultOf 0 "ns/iter" [("name", JStr "foo"); ("os", JStr "linux")]);
     CombinedResult.baselineValue := Some 10%Q;
     CombinedResult.currentValue := Some 0%Q;
     CombinedResult.status := changed |}.

(** The rows of one run, as the report of one run reads them. *)
Definition sampleRows : list (gmap string jsval) :=
  [ {[ "name" := JStr "foo"; "os" := JStr "linux"; "value" := JNum 12; "unit" := JStr "ns" ]};
    {[ "name" := JStr "bar"; "os" := JStr "linux"; "value" := JNum 15; "unit" := JStr "ns" ]} ].


(** ** Tactics *)

(** Propositional reasoning that leaves the parameters of the script
    aside. *)
Ltac propositional :=
  try clear functionToString; try clear validAttributeName; tauto.

(** The cases of the [switch] on the first code unit [c], in the order
    of the tests: micro, nano, milli, second, other. *)
Ltac switch_on c :=
  destruct ((c =? 956) || (c =? 181) || (c =? 117))%N;
  [| destruct (c =? 110)%N;
     [| destruct (c =? 109)%N; [| destruct (c =? 115)%N]]].


(** * Properties *)

(** ** Strings and property lists *)

Lemma append_assoc (a b c : string) : (a +:+ b) +:+ c = a +:+ (b +:+ c).
Proof. induction a as [|x a IH]; simpl; [reflexivity | f_equal; exact IH]. Qed.

Lemma append_empty_r (a : string) : a +:+ "" = a.
Proof. induction a as [|x a IH]; simpl; [reflexivity | f_equal; exact IH]. Qed.

Lemma length_append (a b : string) :
  String.length (a +:+ b) = (String.length a + String.length b)%nat.
Proof. induction a as [|x a IH]; simpl; [reflexivity | f_equal; exact IH]. Qed.

Section Props.
Context {V : Type}.
Implicit Types (o : list (string * V)) (k : string) (v : V).

Lemma getProp_setProp_eq o k v : getProp (setProp o k v) k = Some v.
Proof.
  induction o as [|[k' v'] o IH]; simpl.
  - now rewrite String.eqb_refl.
  - destruct (String.eqb_spec k' k) as [->|Hne]; simpl.
    + now rewrite String.eqb_refl.
    + apply String.eqb_neq in Hne. now rewrite Hne.
Qed.

Lemma getProp_setProp_ne o k k' v : k <> k' -> getProp (setProp o k v) k' = getProp o k'.
Proof.
  intros Hne. induction o as [|[k0 v0] o IH]; simpl.
  - apply String.eqb_neq in Hne. now rewrite Hne.
  - destruct (String.eqb_spec k0 k) as [->|Hk]; simpl.
    + apply String.eqb_neq in Hne. now rewrite Hne.
    + now rewrite IH.
Qed.

Lemma getProp_None_keys o k : getProp o k = None <-> ~ In k (map fst o).
Proof.
  induction o as [|[k' v'] o IH]; simpl.
  - split; [intros _ [] | reflexivity].
  - destruct (String.eqb_spec k' k) as [->|Hne].
    + split; [discriminate | intros H; exfalso; apply H; now left].
    + rewrite IH. split; [intros H [H'|H']; [now apply Hne | now apply H] | intros H H'; apply H; now right].
Qed.

(** A property that is new goes last. *)
Lemma setProp_new o k v : getProp o k = None -> setProp o k v = (o ++ [(k, v)])%list.
Proof.
  induction o as [|[k' v'] o IH]; simpl; [reflexivity|].
  destruct (String.eqb_spec k' k) as [->|Hne]; [discriminate|].
  intros H. now rewrite IH.
Qed.

Lemma keys_setProp o k v :
  map fst (setProp o k v)
  = if hasOwnProperty o k then map fst o else (map fst o ++ [k])%list.
Proof.
  unfold hasOwnProperty. induction o as [|[k' v'] o IH]; simpl; [reflexivity|].
  destruct (String.eqb_spec k' k) as [->|Hne]; simpl; [reflexivity|].
  rewrite IH. now destruct (getProp o k).
Qed.

Lemma NoDup_keys_setProp o k v :
  List.NoDup (map fst o) -> List.NoDup (map fst (setProp o k v)).
Proof.
  intros Hnd. rewrite keys_setProp. unfold hasOwnProperty.
  destruct (getProp o k) eqn:E; [exact Hnd|].
  apply getProp_None_keys in E.
  apply List.NoDup_app; [exact Hnd | repeat constructor; intros [] |].
  intros a Ha [<-|[]]. now apply E.
Qed.

End Props.

(** ** JSON: reading back what was written *)

(** One quoted character is read back as that character. *)
Lemma parseChars_quoteChar (c : ascii) (rest : string) :
  parseChars (quoteChar c +:+ rest)
  = match parseChars rest with
    | Some (t, r) => Some (String c t, r)
    | None => None
    end.
Proof. destruct c as [[] [] [] [] [] [] [] []]; reflexivity. Qed.

Lemma parseChars_quoteBody (s rest : string) :
  parseChars (quoteBody s +:+ String dquote rest) = Some (s, rest).
Proof.
  induction s as [|c s IH]; simpl.
  - reflexivity.
  - rewrite append_assoc, parseChars_quoteChar, IH. reflexivity.
Qed.

Lemma member_append (kv : string * string) (rest : string) :
  member kv +:+ rest
  = String dquote
      (quoteBody (fst kv)
       +:+ String dquote
             (String ":" (String dquote (quoteBody (snd kv) +:+ String dquote rest)))).
Proof.
  unfold member, quoteJSONString. simpl.
  rewrite !append_assoc. simpl. rewrite !append_assoc. reflexivity.
Qed.

Lemma parseMembers_joinMembers (o : list (string * string)) :
  forall (fuel : nat) (acc : list (string * string)),
    o <> [] -> (length o <= fuel)%nat ->
    parseMembers fuel (joinMembers o +:+ "}") acc = Some (fold_left setMember o acc).
Proof.
  induction o as [|kv o IH]; intros fuel acc Hne Hfuel; [congruence|].
  destruct fuel as [|fuel]; [simpl in Hfuel; lia|].
  destruct o as [|kv' o].
  - change (joinMembers [kv]) with (member kv).
    rewrite member_append. simpl.
    rewrite parseChars_quoteBody. simpl.
    rewrite parseChars_quoteBody. reflexivity.
  - change (joinMembers (kv :: kv' :: o))
      with (member kv +:+ "," +:+ joinMembers (kv' :: o)).
    rewrite append_assoc, member_append. simpl.
    rewrite parseChars_quoteBody. simpl.
    rewrite parseChars_quoteBody. simpl.
    apply IH; [discriminate | simpl in Hfuel; simpl; lia].
Qed.

Lemma joinMembers_cons (kv kv' : string * string) (o : list (string * string)) :
  joinMembers (kv :: kv' :: o) = member kv +:+ "," +:+ joinMembers (kv' :: o).
Proof. reflexivity. Qed.

Lemma length_member (kv : string * string) : (1 <= String.length (member kv))%nat.
Proof. unfold member, quoteJSONString. simpl. apply le_n_S, Nat.le_0_l. Qed.

Lemma length_joinMembers (o : list (string * string)) (rest : string) :
  (length o <= String.length (joinMembers o +:+ rest))%nat.
Proof.
  rewrite length_append.
  enough (length o <= String.length (joinMembers o))%nat as H.
  { revert H. generalize (String.length (joinMembers o)) (String.length rest).
    intros; lia. }
  induction o as [|kv o IH]; [simpl; lia|].
  destruct o as [|kv' o].
  - apply (length_member kv).
  - rewrite joinMembers_cons, !length_append.
    change (length (kv :: kv' :: o)) with (S (length (kv' :: o))).
    pose proof (length_member kv) as Hm. revert IH Hm.
    generalize (String.length (joinMembers (kv' :: o))) (String.length (member kv))
      (length (kv' :: o)).
    intros; lia.
Qed.

(** [JSON.parse(JSON.stringify(o))] rebuilds the object, property by
    property. *)
Lemma JSON_parse_stringify (o : list (string * string)) :
  JSON_parse (JSON_stringify o) = Ok (fold_left setMember o []).
Proof.
  destruct o as [|kv o]; [reflexivity|].
  unfold JSON_stringify.
  assert (Hq : exists t, joinMembers (kv :: o) +:+ "}" = String dquote t).
  { destruct o as [|kv' o].
    - change (joinMembers [kv]) with (member kv). rewrite member_append. eauto.
    - change (joinMembers (kv :: kv' :: o))
        with (member kv +:+ "," +:+ joinMembers (kv' :: o)).
      rewrite append_assoc, member_append. eauto. }
  destruct Hq as [t Ht].
  change ("{" +:+ joinMembers (kv :: o) +:+ "}")
    with (String "{" (joinMembers (kv :: o) +:+ "}")).
  unfold JSON_parse. rewrite Ht. cbn -[parseMembers String.length]. rewrite <- Ht.
  rewrite parseMembers_joinMembers; [reflexivity | discriminate |].
  apply length_joinMembers.
Qed.

(** An object without repeated keys is rebuilt as it was. *)
Lemma fold_setMember_NoDup (o acc : list (string * string)) :
  List.NoDup (map fst (acc ++ o)) -> fold_left setMember o acc = acc ++ o.
Proof.
  revert acc. induction o as [|[k v] o IH]; intros acc Hnd; simpl.
  - now rewrite app_nil_r.
  - unfold setMember at 2. simpl.
    rewrite setProp_new.
    + rewrite IH; rewrite <- app_assoc; [reflexivity | exact Hnd].
    + apply getProp_None_keys. rewrite map_app in Hnd. simpl in Hnd.
      apply NoDup_remove_2 in Hnd. intros Hin. apply Hnd, in_or_app. now left.
Qed.

Lemma JSON_roundtrip (o : list (string * string)) :
  List.NoDup (map fst o) -> JSON_parse (JSON_stringify o) = Ok o.
Proof.
  intros Hnd. rewrite JSON_parse_stringify.
  now rewrite (fold_setMember_NoDup o []).
Qed.

(** Hence the text determines the object. *)
Lemma JSON_stringify_inj (o1 o2 : list (string * string)) :
  List.NoDup (map fst o1) -> List.NoDup (map fst o2) ->
  JSON_stringify o1 = JSON_stringify o2 -> o1 = o2.
Proof.
  intros H1 H2 Heq.
  apply JSON_roundtrip in H1. apply JSON_roundtrip in H2.
  rewrite Heq in H1. congruence.
Qed.

(** ** Assignments *)

Section Assign.

Context {V : Type}.
Implicit Types (o : list (string * V)) (k : string) (v : V).

Lemma assign_other o k v : k <> "__proto__" -> assign o k v = setProp o k v.
Proof.
  intros Hk. unfold assign. apply String.eqb_neq in Hk. now rewrite Hk.
Qed.

Lemma assign_proto o v : getProp o "__proto__" = None -> assign o "__proto__" v = o.
Proof. intros H. unfold assign, hasOwnProperty. now rewrite H. Qed.

Lemma getProp_assign_eq o k v : k <> "__proto__" -> getProp (assign o k v) k = Some v.
Proof. intros Hk. rewrite assign_other by exact Hk. apply getProp_setProp_eq. Qed.

Lemma getProp_assign_ne o k k' v : k <> k' -> getProp (assign o k v) k' = getProp o k'.
Proof.
  intros Hne. unfold assign.
  destruct (String.eqb k "__proto__" && negb (hasOwnProperty o k)); [reflexivity|].
  now apply getProp_setProp_ne.
Qed.

(** An assignment makes no property [__proto__]. *)
Lemma getProp_assign_proto o k v :
  getProp o "__proto__" = None -> getProp (assign o k v) "__proto__" = None.
Proof.
  intros H. destruct (String.eqb_spec k "__proto__") as [->|Hne].
  - now rewrite assign_proto.
  - now rewrite getProp_assign_ne.
Qed.

Lemma NoDup_keys_assign o k v :
  List.NoDup (map fst o) -> List.NoDup (map fst (assign o k v)).
Proof.
  intros H. unfold assign.
  destruct (String.eqb k "__proto__" && negb (hasOwnProperty o k)); [exact H|].
  now apply NoDup_keys_setProp.
Qed.

(** What a loop of assignments leaves. *)
Lemma fold_assign (f : string -> V) (keys : list string) :
  forall o,
    List.NoDup (map fst o) -> getProp o "__proto__" = None ->
    let o' := fold_left (fun acc key => assign acc key (f key)) keys o in
    List.NoDup (map fst o')
    /\ getProp o' "__proto__" = None
    /\ (forall s, In s keys -> s <> "__proto__" -> getProp o' s = Some (f s))
    /\ (forall s, ~ In s keys -> getProp o' s = getProp o s).
Proof.
  induction keys as [|key keys IH]; intros o Hnd Hproto; simpl.
  - repeat split; [exact Hnd | exact Hproto | intros s []].
  - destruct (IH (assign o key (f key)) (NoDup_keys_assign _ _ _ Hnd)
                (getProp_assign_proto _ _ _ Hproto)) as (Hnd' & Hproto' & Hin & Hout).
    repeat split; [exact Hnd' | exact Hproto' | |].
    + intros s Hs Hne. destruct (in_dec string_dec s keys) as [Hk|Hk]; [now apply Hin|].
      destruct Hs as [->|Hs]; [|contradiction].
      rewrite (Hout s Hk). now apply getProp_assign_eq.
    + intros s Hs. rewrite Hout by (intros H; apply Hs; now right).
      apply getProp_assign_ne. intros ->. apply Hs. now left.
Qed.

End Assign.

Lemma propertyOf_Some {V : Type} (o : list (string * V)) (k : string) (v : V) :
  getProp o k = Some v -> propertyOf o k = Own v.
Proof. unfold propertyOf. now intros ->. Qed.

Lemma ownMember_proto {V : Type} (o : gmap string V) : ownMember o "__proto__" = None.
Proof. reflexivity. Qed.

Lemma ownMember_other {V : Type} (o : gmap string V) (k : string) :
  k <> "__proto__" -> ownMember o k = o !! k.
Proof. intros Hk. unfold ownMember. apply String.eqb_neq in Hk. now rewrite Hk. Qed.

(** ** Key codec *)

Lemma buildKeyObject_cons (R : gmap string jsval) (s : string) (F : list string)
  (key : list (string * string)) :
  hasOwnPropertyMethod isNull R = true ->
  buildKeyObject R (s :: F) key
  = let* text := fieldText R s in buildKeyObject R F (assign key s text).
Proof.
  intros Hm. unfold fieldText, fieldOf. simpl. rewrite Hm.
  destruct (ownMember R s); reflexivity.
Qed.

(** Without the method, the first field ends the loop. *)
Lemma buildKeyObject_no_method (R : gmap string jsval) (F : list string)
  (key : list (string * string)) :
  hasOwnPropertyMethod isNull R = false -> F <> [] ->
  buildKeyObject R F key = Throw TypeError.
Proof.
  intros Hm HF. destruct F as [|s F]; [contradiction|]. simpl. now rewrite Hm.
Qed.

Lemma fieldText_printed (R : gmap string jsval) (s : string) :
  fieldOf R s <> Some JNull -> fieldText R s = Ok (printed (fieldOrSentinel R s)).
Proof.
  unfold fieldText, fieldOrSentinel. intros H.
  destruct (fieldOf R s) as [[| [] | q | t]|]; simpl; try reflexivity. congruence.
Qed.

Lemma fieldText_Throw (R : gmap string jsval) (s : string) (e : exn) :
  fieldText R s = Throw e -> fieldOf R s = Some JNull /\ e = TypeError.
Proof.
  unfold fieldText. destruct (fieldOf R s) as [[| [] | q | t]|]; simpl; try discriminate.
  now intros [= <-].
Qed.

Lemma fieldText_Ok (R : gmap string jsval) (s t : string) :
  fieldText R s = Ok t -> fieldOf R s <> Some JNull /\ t = printed (fieldOrSentinel R s).
Proof.
  intros H. assert (Hp : fieldOf R s <> Some JNull).
  { intros E. unfold fieldText in H. rewrite E in H. discriminate. }
  split; [exact Hp|]. rewrite (fieldText_printed R s Hp) in H. congruence.
Qed.

(** The loop of [buildKey] ends without an exception when the record has
    the method and its fields can be printed. *)
Lemma buildKeyObject_total (R : gmap string jsval) (F : list string) :
  keyed F R -> forall key, exists key', buildKeyObject R F key = Ok key'.
Proof.
  intros [->|[Hm Hp]] key; [simpl; eauto|]. revert key.
  induction F as [|s F IH]; intros key; [simpl; eauto|].
  rewrite buildKeyObject_cons by exact Hm.
  rewrite fieldText_printed by (apply Hp; now left). simpl.
  apply IH. intros s' Hs'. apply Hp. now right.
Qed.

(** And only then. *)
Lemma buildKeyObject_keyed (R : gmap string jsval) (F : list string) :
  forall key key', buildKeyObject R F key = Ok key' -> keyed F R.
Proof.
  destruct F as [|s0 F0]; [now left|]. remember (s0 :: F0) as F eqn:EF.
  intros key key' Hb. right.
  destruct (hasOwnPropertyMethod isNull R) eqn:Hm;
    [| rewrite buildKeyObject_no_method in Hb by (subst; congruence); discriminate].
  split; [reflexivity|]. clear EF. revert key Hb.
  induction F as [|s F IH]; intros key Hb s' Hs'; [destruct Hs'|].
  rewrite buildKeyObject_cons in Hb by exact Hm.
  destruct (fieldText R s) as [t|e] eqn:Ht; [simpl in Hb | discriminate].
  destruct Hs' as [<-|Hs']; [apply (fieldText_Ok R s t Ht) | apply (IH _ Hb s' Hs')].
Qed.

Lemma buildKeyObject_Throw (R : gmap string jsval) (F : list string) :
  forall key e, buildKeyObject R F key = Throw e -> e = TypeError.
Proof.
  induction F as [|s F IH]; intros key e Hb; [discriminate|].
  destruct (hasOwnPropertyMethod isNull R) eqn:Hm;
    [| rewrite buildKeyObject_no_method in Hb by congruence; congruence].
  rewrite buildKeyObject_cons in Hb by exact Hm.
  destruct (fieldText R s) as [t|e'] eqn:Ht; simpl in Hb.
  - apply (IH _ _ Hb).
  - destruct (fieldText_Throw R s e' Ht) as [_ ->]. congruence.
Qed.

Lemma buildKeyObject_other (R : gmap string jsval) (F : list string) :
  forall key key' s,
    buildKeyObject R F key = Ok key' -> ~ In s F -> getProp key' s = getProp key s.
Proof.
  induction F as [|s0 F IH]; intros key key' s Hb Hs.
  - simpl in Hb. congruence.
  - pose proof (buildKeyObject_keyed _ _ _ _ Hb) as [HF|[Hm _]]; [discriminate|].
    rewrite buildKeyObject_cons in Hb by exact Hm.
    destruct (fieldText R s0) as [t|e]; [simpl in Hb | discriminate].
    rewrite (IH _ _ s Hb); [|intros Hin; apply Hs; now right].
    apply getProp_assign_ne. intros ->. apply Hs. now left.
Qed.

(** The key object gets no property [__proto__]. *)
Lemma buildKeyObject_proto (R : gmap string jsval) (F : list string) :
  forall key key',
    buildKeyObject R F key = Ok key' ->
    getProp key "__proto__" = None -> getProp key' "__proto__" = None.
Proof.
  induction F as [|s0 F IH]; intros key key' Hb Hproto.
  - simpl in Hb. congruence.
  - pose proof (buildKeyObject_keyed _ _ _ _ Hb) as [HF|[Hm _]]; [discriminate|].
    rewrite buildKeyObject_cons in Hb by exact Hm.
    destruct (fieldText R s0) as [t|e]; [simpl in Hb | discriminate].
    apply (IH _ _ Hb). now apply getProp_assign_proto.
Qed.

(** Every field of the schema, other than [__proto__], is a property of the
    key object, with the text of the record's field, or the sentinel. *)
Lemma buildKeyObject_field (R : gmap string jsval) (F : list string) :
  forall key key' s,
    buildKeyObject R F key = Ok key' -> In s F -> s <> "__proto__" ->
    getProp key' s = Some (printed (fieldOrSentinel R s)).
Proof.
  induction F as [|s0 F IH]; intros key key' s Hb Hs Hne; [destruct Hs|].
  pose proof (buildKeyObject_keyed _ _ _ _ Hb) as [HF|[Hm _]]; [discriminate|].
  rewrite buildKeyObject_cons in Hb by exact Hm.
  destruct (fieldText R s0) as [t0|e] eqn:Ht0; [simpl in Hb | discriminate].
  destruct (in_dec string_dec s F) as [Hin|Hnin].
  - apply (IH _ _ s Hb Hin Hne).
  - destruct Hs as [->|Hs]; [|contradiction].
    rewrite (buildKeyObject_other R F _ _ s Hb Hnin).
    destruct (fieldText_Ok R s t0 Ht0) as [_ ->].
    now apply getProp_assign_eq.
Qed.

Lemma buildKeyObject_NoDup (R : gmap string jsval) (F : list string) :
  forall key key',
    buildKeyObject R F key = Ok key' ->
    List.NoDup (map fst key) -> List.NoDup (map fst key').
Proof.
  induction F as [|s0 F IH]; intros key key' Hb Hnd.
  - simpl in Hb. congruence.
  - pose proof (buildKeyObject_keyed _ _ _ _ Hb) as [HF|[Hm _]]; [discriminate|].
    rewrite buildKeyObject_cons in Hb by exact Hm.
    destruct (fieldText R s0) as [t0|e]; [simpl in Hb | discriminate].
    apply (IH _ _ Hb). now apply NoDup_keys_assign.
Qed.

(** The properties of the key object are fields of the schema. *)
Lemma buildKeyObject_keys (R : gmap string jsval) (F : list string)
  (key : list (string * string)) (s : string) :
  buildKeyObject R F [] = Ok key ->
  In s (map fst key) <-> In s F /\ s <> "__proto__".
Proof.
  intros Hb. split.
  - intros Hs. split.
    + destruct (in_dec string_dec s F) as [Hin|Hnin]; [exact Hin|].
      apply (buildKeyObject_other R F _ _ s Hb) in Hnin. simpl in Hnin.
      apply getProp_None_keys in Hnin. contradiction.
    + intros ->. revert Hs. apply getProp_None_keys.
      now apply (buildKeyObject_proto R F _ _ Hb).
  - intros [Hs Hne]. apply (buildKeyObject_field R F _ _ s Hb Hs) in Hne.
    destruct (in_dec string_dec s (map fst key)) as [Hin|Hnin]; [exact Hin|].
    apply getProp_None_keys in Hnin. congruence.
Qed.

(** The causes of an exception of [buildKey]. *)
Lemma buildKey_unkeyed (R : gmap string jsval) (F : list string) :
  ~ keyed F R -> buildKey R F = Throw TypeError.
Proof.
  intros H. unfold buildKey.
  destruct (buildKeyObject R F []) as [key|e] eqn:Hb; simpl.
  - exfalso. apply H. apply (buildKeyObject_keyed _ _ _ _ Hb).
  - now rewrite (buildKeyObject_Throw _ _ _ _ Hb).
Qed.

Lemma buildKey_Throw (R : gmap string jsval) (F : list string) (e : exn) :
  buildKey R F = Throw e -> e = TypeError /\ ~ keyed F R.
Proof.
  unfold buildKey. destruct (buildKeyObject R F []) as [key|e'] eqn:Hb; simpl; [discriminate|].
  intros [= <-]. split; [apply (buildKeyObject_Throw _ _ _ _ Hb)|].
  intros Hk. destruct (buildKeyObject_total R F Hk []) as [key Hkey]. congruence.
Qed.

Lemma buildKey_keyed (R : gmap string jsval) (F : list string) (k : string) :
  buildKey R F = Ok k -> keyed F R.
Proof.
  unfold buildKey. destruct (buildKeyObject R F []) as [key|e] eqn:Hb; simpl; [|discriminate].
  intros _. apply (buildKeyObject_keyed _ _ _ _ Hb).
Qed.

Lemma buildKey_total (F : list string) (R : gmap string jsval) :
  keyed F R -> exists k, buildKey R F = Ok k.
Proof.
  intros Hp. unfold buildKey.
  destruct (buildKeyObject_total R F Hp []) as [o Ho]. rewrite Ho. simpl. eauto.
Qed.

(** What is between a record and its key. *)
Lemma not_keyed (R : gmap string jsval) (F : list string) :
  ~ keyed F R <->
  F <> [] /\ (hasOwnPropertyMethod isNull R = false
              \/ exists s, In s F /\ fieldOf R s = Some JNull).
Proof.
  split.
  - intros H. split; [intros ->; apply H; now left|].
    destruct (hasOwnPropertyMethod isNull R) eqn:Hm; [right | now left].
    assert (Hdec : forall s, {fieldOf R s = Some JNull} + {fieldOf R s <> Some JNull})
      by (intros s; destruct (fieldOf R s) as [[| | |]|]; (now left) || (now right)).
    destruct (List.Exists_dec (fun s => fieldOf R s = Some JNull) F Hdec) as [Hex|Hex].
    + apply List.Exists_exists in Hex. exact Hex.
    + exfalso. apply H. right. split; [exact Hm|].
      intros s Hs E. apply Hex. apply List.Exists_exists. eauto.
  - intros [HF [Hm|(s & Hs & Hnull)]] [->|[Hm' Hp]]; try congruence.
    apply (Hp s Hs Hnull).
Qed.

Lemma unkeyable_not_keyable (R : gmap string jsval) (F : list string) :
  unkeyable F R <-> ~ keyable F R.
Proof.
  unfold unkeyable, keyable. split.
  - intros [HF [Hm|[Hin|Hnull]]] [Hk Hnin]; [| contradiction |];
      apply (proj2 (not_keyed R F)) in Hk; auto.
  - intros H. destruct (in_dec string_dec "hasOwnProperty" F) as [Hin|Hnin].
    + split; [intros ->; destruct Hin | auto].
    + assert (Hk : ~ keyed F R) by (intros Hk; apply H; now split).
      apply not_keyed in Hk as [HF [Hm|Hnull]]; split; auto.
Qed.

(** Records that agree on the schema get the same key object. *)
Lemma buildKeyObject_agree (R1 R2 : gmap string jsval) (F : list string) :
  hasOwnPropertyMethod isNull R1 = true -> hasOwnPropertyMethod isNull R2 = true ->
  (forall s, In s F -> fieldText R1 s = fieldText R2 s) ->
  forall key, buildKeyObject R1 F key = buildKeyObject R2 F key.
Proof.
  intros Hm1 Hm2. induction F as [|s0 F IH]; intros Hagree key; [reflexivity|].
  rewrite !buildKeyObject_cons, (Hagree s0) by (assumption || now left).
  destruct (fieldText R2 s0); simpl; [|reflexivity].
  apply IH. intros s Hs. apply Hagree. now right.
Qed.

(** An object that has the fields of the schema is left as it is. *)
Lemma fillMissing_present (F : list string) (key : list (string * string)) :
  hasOwnProperty key "hasOwnProperty" = false ->
  getProp key "__proto__" = None ->
  (forall s, In s F -> s <> "__proto__" -> hasOwnProperty key s = true) ->
  fillMissing F key = Ok key.
Proof.
  intros Hm Hproto. induction F as [|s F IH]; intros H; simpl; [reflexivity|].
  unfold callHasOwnProperty. rewrite Hm. simpl.
  destruct (String.eqb_spec s "__proto__") as [->|Hne].
  - unfold hasOwnProperty at 1. rewrite Hproto, assign_proto by exact Hproto.
    apply IH. intros s' Hs'. apply H. now right.
  - rewrite (H s) by (now left || exact Hne). apply IH. intros s' Hs'. apply H. now right.
Qed.

(** What [fillMissing] leaves: the properties there were, and the sentinel
    for the fields that had none. *)
Lemma getProp_fillMissing (F : list string) :
  ~ In "hasOwnProperty" F ->
  forall (key : list (string * string)),
    hasOwnProperty key "hasOwnProperty" = false ->
    getProp key "__proto__" = None ->
    exists key',
      fillMissing F key = Ok key'
      /\ forall s,
          getProp key' s
          = match getProp key s with
            | Some t => Some t
            | None =>
                if in_dec string_dec s F
                then (if String.eqb s "__proto__" then None else Some "-")
                else None
            end.
Proof.
  induction F as [|s0 F IH]; intros Hnin key Hm Hproto; simpl.
  - exists key. split; [reflexivity|]. intros s. now destruct (getProp key s).
  - unfold callHasOwnProperty. rewrite Hm. simpl.
    assert (Hnin' : ~ In "hasOwnProperty" F) by (intros H; apply Hnin; now right).
    assert (Hne0 : s0 <> "hasOwnProperty") by (intros ->; apply Hnin; now left).
    destruct (hasOwnProperty key s0) eqn:E0.
    + destruct (IH Hnin' key Hm Hproto) as (key' & Hf & Hg). exists key'.
      split; [exact Hf|]. intros s. rewrite Hg.
      destruct (getProp key s) eqn:E; [reflexivity|].
      destruct (string_dec s0 s) as [->|Hne].
      * unfold hasOwnProperty in E0. now rewrite E in E0.
      * destruct (in_dec string_dec s F); reflexivity.
    + destruct (IH Hnin' (assign key s0 "-")) as (key' & Hf & Hg).
      * unfold hasOwnProperty. rewrite getProp_assign_ne by exact Hne0.
        exact Hm.
      * now apply getProp_assign_proto.
      * exists key'. split; [exact Hf|]. intros s. rewrite Hg.
        destruct (string_dec s0 s) as [->|Hne].
        -- unfold hasOwnProperty in E0. destruct (getProp key s) eqn:E; [discriminate|].
           destruct (String.eqb_spec s "__proto__") as [->|Hs].
           ++ rewrite assign_proto, E by exact E. now destruct (in_dec string_dec "__proto__" F).
           ++ now rewrite getProp_assign_eq.
        -- rewrite getProp_assign_ne by exact Hne.
           destruct (getProp key s); [reflexivity|].
           destruct (in_dec string_dec s F); reflexivity.
Qed.

(** A loop that gets to a field after [hasOwnProperty] stops there. *)
Lemma fillMissing_shadowed (F : list string) (key : list (string * string)) :
  hasOwnProperty key "hasOwnProperty" = true -> F <> [] ->
  fillMissing F key = Throw TypeError.
Proof.
  intros Hm HF. destruct F as [|s F]; [contradiction|]. simpl.
  unfold callHasOwnProperty. now rewrite Hm.
Qed.

Lemma buildKey_same_key (F : list string) (R1 R2 : gmap string jsval) :
  keyed F R1 -> keyed F R2 ->
  exists k1 k2,
    buildKey R1 F = Ok k1 /\ buildKey R2 F = Ok k2 /\
    (k1 = k2 <->
     forall s, In s F -> printed (fieldOrSentinel R1 s) = printed (fieldOrSentinel R2 s)).
Proof.
  intros Hp1 Hp2. unfold buildKey.
  destruct (buildKeyObject_total R1 F Hp1 []) as [o1 Ho1].
  destruct (buildKeyObject_total R2 F Hp2 []) as [o2 Ho2].
  rewrite Ho1, Ho2. simpl.
  exists (JSON_stringify o1), (JSON_stringify o2). repeat split; [|].
  - intros Heq s Hs.
    apply JSON_stringify_inj in Heq;
      [| apply (buildKeyObject_NoDup _ _ _ _ Ho1); constructor
       | apply (buildKeyObject_NoDup _ _ _ _ Ho2); constructor].
    destruct (String.eqb_spec s "__proto__") as [->|Hne]; [reflexivity|].
    pose proof (buildKeyObject_field R1 F _ _ s Ho1 Hs Hne) as Hg1.
    pose proof (buildKeyObject_field R2 F _ _ s Ho2 Hs Hne) as Hg2.
    rewrite Heq in Hg1. congruence.
  - intros Hagree.
    destruct Hp1 as [->|[Hm1 Hp1]]; [simpl in Ho1, Ho2; congruence|].
    destruct Hp2 as [->|[Hm2 Hp2]]; [simpl in Ho1, Ho2; congruence|].
    rewrite (buildKeyObject_agree R1 R2 F Hm1 Hm2) in Ho1; [congruence|].
    intros s Hs. rewrite !fieldText_printed by auto. f_equal. now apply Hagree.
Qed.

Lemma stringValued_printable (R : gmap string jsval) (F : list string) :
  stringValued R F -> printable R F.
Proof.
  intros H s Hs E. destruct (H s Hs) as [t Ht].
  unfold fieldOrSentinel in Ht. rewrite E in Ht. discriminate.
Qed.

(** C2. Key Codec injectivity, as the code has it: for every ordered field
    list [F] and records [R1], [R2] that have the method [hasOwnProperty]
    of [Object.prototype] and none of whose fields of [F] is [null],
    [buildKey] returns a key for each, and the two keys are the same string
    if and only if, for every field of [F], the two records have values
    with the same text; a field that a record lacks counts as the sentinel
    "-", and the text of a string is the string, the text of a number its
    decimal text, the text of a boolean [true] or [false].  So records that
    agree on every field of [F] get the same key; and for records whose
    fields of [F] are strings, the keys are the same if and only if the
    records have the same value for every field of [F]. *)
Theorem buildKey_injective (F : list string) (R1 R2 : gmap string jsval) :
  keyed F R1 -> keyed F R2 ->
  exists k1 k2,
    buildKey R1 F = Ok k1 /\ buildKey R2 F = Ok k2
    /\ (k1 = k2 <->
        forall s, In s F -> printed (fieldOrSentinel R1 s) = printed (fieldOrSentinel R2 s))
    /\ ((forall s, In s F -> fieldOrSentinel R1 s = fieldOrSentinel R2 s) -> k1 = k2)
    /\ (stringValued R1 F -> stringValued R2 F ->
        (k1 = k2 <-> forall s, In s F -> fieldOrSentinel R1 s = fieldOrSentinel R2 s)).
Proof.
  intros Hk1 Hk2.
  destruct (buildKey_same_key F R1 R2 Hk1 Hk2) as (k1 & k2 & Hb1 & Hb2 & Hiff).
  exists k1, k2. split; [exact Hb1|]. split; [exact Hb2|]. split; [exact Hiff|]. split.
  - intros H. apply Hiff. intros s Hs. now rewrite (H s Hs).
  - intros Hs1 Hs2. rewrite Hiff.
    split; intros H s Hs; specialize (H s Hs).
    + destruct (Hs1 s Hs) as [t1 Ht1], (Hs2 s Hs) as [t2 Ht2].
      rewrite Ht1, Ht2 in *. simpl in H. congruence.
    + now rewrite H.
Qed.

(** A key that [buildKey] returned is parsed back to the key object. *)
Lemma parseKey_after_buildKey (F : list string) (R : gmap string jsval) (k : string) :
  ~ In "hasOwnProperty" F ->
  buildKey R F = Ok k ->
  exists key,
    buildKeyObject R F [] = Ok key /\ k = JSON_stringify key /\ parseKey k F = Ok key.
Proof.
  unfold buildKey, parseKey. intros Hnin.
  destruct (buildKeyObject R F []) as [o|e] eqn:Ho; simpl; [|discriminate].
  intros [= <-]. exists o. split; [reflexivity|]. split; [reflexivity|].
  rewrite JSON_roundtrip by (apply (buildKeyObject_NoDup _ _ _ _ Ho); constructor).
  simpl. apply fillMissing_present.
  - unfold hasOwnProperty. now rewrite (buildKeyObject_other R F _ _ _ Ho Hnin).
  - now apply (buildKeyObject_proto R F _ _ Ho).
  - intros s Hs Hne. unfold hasOwnProperty.
    now rewrite (buildKeyObject_field R F _ _ s Ho Hs Hne).
Qed.

(** A schema with the field [hasOwnProperty], and a field after it, gives
    keys that [parseKey] cannot read. *)
Lemma parseKey_shadowed (F : list string) (R : gmap string jsval) (k : string) :
  In "hasOwnProperty" F -> buildKey R F = Ok k -> parseKey k F = Throw TypeError.
Proof.
  unfold buildKey, parseKey. intros Hin.
  destruct (buildKeyObject R F []) as [o|e] eqn:Ho; simpl; [|discriminate].
  intros [= <-].
  rewrite JSON_roundtrip by (apply (buildKeyObject_NoDup _ _ _ _ Ho); constructor).
  simpl. apply fillMissing_shadowed; [|intros ->; destruct Hin].
  unfold hasOwnProperty.
  now rewrite (buildKeyObject_field R F _ _ _ Ho Hin) by discriminate.
Qed.

(** C3. Key Codec round trip, as the code has it: for every ordered field
    list [F] without the field [hasOwnProperty], and every record [R] that
    has the method [hasOwnProperty] of [Object.prototype] and none of whose
    fields of [F] is [null], [parseKey (buildKey R F) F] returns an object
    whose properties are exactly the fields of [F] other than [__proto__];
    each has the text of the value of the record's field, and each field
    that the record lacks has the sentinel string "-".  For a record whose
    fields of [F] are strings other than "-", the mapping gives the fields
    of the record back: a property with the sentinel stands for a field the
    record lacks, another text for the field with that string as its
    value. *)
Theorem parseKey_buildKey (F : list string) (R : gmap string jsval) :
  keyable F R ->
  exists k key,
    buildKey R F = Ok k /\ parseKey k F = Ok key
    /\ (forall s, In s F -> s <> "__proto__" ->
        getProp key s = Some (printed (fieldOrSentinel R s)))
    /\ (forall s, In s F -> s <> "__proto__" -> fieldOf R s = None ->
        getProp key s = Some "-")
    /\ (forall s, ~ In s F \/ s = "__proto__" -> getProp key s = None)
    /\ (stringValued R F -> noSentinel R F ->
        forall s, In s F -> fieldOf R s = fieldOfText (getProp key s)).
Proof.
  intros [Hp Hnin]. destruct (buildKey_total F R Hp) as [k Hk].
  destruct (parseKey_after_buildKey F R k Hnin Hk) as (o & Ho & _ & Hparse).
  exists k, o.
  assert (Hfield : forall s, In s F -> s <> "__proto__" ->
                             getProp o s = Some (printed (fieldOrSentinel R s)))
    by (intros s Hs; apply (buildKeyObject_field R F _ _ s Ho Hs)).
  assert (Hproto : getProp o "__proto__" = None)
    by now apply (buildKeyObject_proto R F _ _ Ho).
  repeat split; [exact Hk | exact Hparse | exact Hfield | | |].
  - intros s Hs Hne Hnone. rewrite (Hfield s Hs Hne).
    unfold fieldOrSentinel. now rewrite Hnone.
  - intros s [Hs| ->]; [|exact Hproto]. now rewrite (buildKeyObject_other R F _ _ s Ho Hs).
  - intros Hsv Hns s Hs. destruct (String.eqb_spec s "__proto__") as [->|Hne].
    + now rewrite Hproto.
    + rewrite (Hfield s Hs Hne). destruct (Hsv s Hs) as [t Ht]. rewrite Ht. simpl.
      unfold fieldOrSentinel in Ht. specialize (Hns s Hs).
      destruct (fieldOf R s) as [v|] eqn:E; simpl in Ht.
      * subst v. destruct (String.eqb_spec t "-") as [->|_]; [contradiction | reflexivity].
      * injection Ht as <-. reflexivity.
Qed.
(** ** Unit normaliser *)

Lemma unitFactor_cases (c : option N) :
  unitFactor c
  = match c with
    | Some c =>
        if ((c =? 956) || (c =? 181) || (c =? 117))%N then Some 1000%Q
        else if (c =? 110)%N then Some 1%Q
        else if (c =? 109)%N then Some 1000000%Q
        else if (c =? 115)%N then Some 1000000000%Q
        else None
    | None => None
    end.
Proof.
  destruct c as [c|]; [|reflexivity].
  destruct (c =? 956)%N eqn:E1; [apply N.eqb_eq in E1; now subst|].
  destruct (c =? 181)%N eqn:E2; [apply N.eqb_eq in E2; now subst|].
  destruct (c =? 117)%N eqn:E3; [apply N.eqb_eq in E3; now subst|].
  destruct (c =? 110)%N eqn:E4; [apply N.eqb_eq in E4; now subst|].
  destruct (c =? 109)%N eqn:E5; [apply N.eqb_eq in E5; now subst|].
  destruct (c =? 115)%N eqn:E6; [apply N.eqb_eq in E6; now subst|].
  apply N.eqb_neq in E1, E2, E3, E4, E5, E6. simpl.
  unfold unitFactor.
  repeat (match goal with
          | |- context [match ?p with _ => _ end] => destruct p; try reflexivity; try congruence
          end).
Qed.

Lemma getNanoseconds_known (value : Q) (unit : string) (factor : Q) :
  unitFactor (charAt0 unit) = Some factor ->
  exists r, getNanoseconds value unit = Ok r /\ (r == value * factor)%Q.
Proof.
  unfold getNanoseconds. rewrite unitFactor_cases.
  destruct (charAt0 unit) as [c|]; [|discriminate].
  switch_on c; try discriminate; intros [= <-]; eexists; (split; [reflexivity|]);
    try reflexivity.
  now rewrite Qmult_1_r.
Qed.

Lemma getNanoseconds_unknown (value : Q) (unit : string) :
  unitFactor (charAt0 unit) = None ->
  getNanoseconds value unit = Throw (UndefinedUnit (charAt0 unit)).
Proof.
  unfold getNanoseconds. rewrite unitFactor_cases.
  destruct (charAt0 unit) as [c|]; [|reflexivity].
  switch_on c; try discriminate. reflexivity.
Qed.

(** C6. Unit conversion: for every value and unit string, the conversion
    to nanoseconds returns exactly when the first character of the unit is
    one of [n], [u], U+00B5, U+03BC, [m], [s]; the result is then the value
    times 1, 1e3, 1e3, 1e3, 1e6, 1e9 respectively; on every other unit,
    the empty one included, it throws the error that names the prefix. *)
Theorem getNanoseconds_prefix (value : Q) (unit : string) :
  (forall factor, unitFactor (charAt0 unit) = Some factor ->
     exists r, getNanoseconds value unit = Ok r /\ (r == value * factor)%Q) /\
  (unitFactor (charAt0 unit) = None ->
     getNanoseconds value unit = Throw (UndefinedUnit (charAt0 unit))) /\
  ((exists r, getNanoseconds value unit = Ok r)
   <-> (exists factor, unitFactor (charAt0 unit) = Some factor)).
Proof.
  split; [apply getNanoseconds_known|]. split; [apply getNanoseconds_unknown|].
  split.
  - intros [r Hr]. destruct (unitFactor (charAt0 unit)) as [factor|] eqn:E; [eauto|].
    rewrite (getNanoseconds_unknown value unit E) in Hr. discriminate.
  - intros [factor Hf]. destruct (getNanoseconds_known value unit factor Hf) as (r & Hr & _).
    eauto.
Qed.

Lemma extLe_refl (a : extended) : extLe a a.
Proof. destruct a; simpl; [exact I | apply Qle_refl]. Qed.

Lemma extLe_trans (a b c : extended) : extLe a b -> extLe b c -> extLe a c.
Proof.
  destruct a as [|p], b as [|q], c as [|r]; simpl; intros H1 H2;
    try exact I; try contradiction.
  exact (Qle_trans _ _ _ H1 H2).
Qed.

Lemma maxOf_cases (a b : extended) :
  (maxOf a b = a \/ maxOf a b = b) /\ extLe a (maxOf a b) /\ extLe b (maxOf a b).
Proof.
  destruct a as [|p], b as [|q]; simpl.
  1-3: repeat split; auto using Qle_refl.
  destruct (Qle_bool p q) eqn:E; simpl.
  - apply Qle_bool_iff in E. repeat split; auto using Qle_refl.
  - repeat split; auto using Qle_refl.
    apply Qlt_le_weak, Qnot_le_lt. intros H. apply Qle_bool_iff in H. congruence.
Qed.

(** The result of the fold is the start value or an element, and it
    bounds both. *)
Lemma fold_maxOf (l : list extended) :
  forall acc,
    (fold_left maxOf l acc = acc \/ In (fold_left maxOf l acc) l)
    /\ extLe acc (fold_left maxOf l acc)
    /\ (forall x, In x l -> extLe x (fold_left maxOf l acc)).
Proof.
  induction l as [|b l IH]; intros acc; simpl.
  - repeat split; [now left | apply extLe_refl | propositional].
  - destruct (IH (maxOf acc b)) as (Hin & Hacc & Hall).
    destruct (maxOf_cases acc b) as (Hsel & Hle1 & Hle2).
    repeat split.
    + destruct Hin as [Hin|Hin]; [|now right; right].
      rewrite Hin. destruct Hsel as [->| ->]; [now left | now right; left].
    + now apply (extLe_trans _ _ _ Hle1).
    + intros x [<-|Hx]; [now apply (extLe_trans _ _ _ Hle2) | now apply Hall].
Qed.

Lemma Math_max_bound (l : list extended) (x : extended) :
  In x l -> extLe x (Math_max l).
Proof. intros Hx. now apply (fold_maxOf l NegInfinity). Qed.

Lemma Math_max_member (l : list extended) (m : Q) :
  Math_max l = Finite m -> In (Finite m) l.
Proof.
  unfold Math_max. intros H.
  destruct (fold_maxOf l NegInfinity) as ([Hacc|Hin] & _ & _).
  - congruence.
  - now rewrite H in Hin.
Qed.

(** The maximum over the traces is a value of one of them and bounds the
    values of all, as soon as there is a value. *)
Lemma maxValue_spec (traces : list Trace.t) :
  concat (map Trace.dataNs traces) <> [] ->
  exists m,
    Math_max (map (fun trace => Math_max (map Finite (Trace.dataNs trace))) traces)
    = Finite m
    /\ In m (concat (map Trace.dataNs traces))
    /\ (forall v, In v (concat (map Trace.dataNs traces)) -> (v <= m)%Q).
Proof.
  intros Hne.
  set (maxes := map (fun trace => Math_max (map Finite (Trace.dataNs trace))) traces).
  assert (Hbound : forall v, In v (concat (map Trace.dataNs traces)) ->
                             extLe (Finite v) (Math_max maxes)).
  { intros v Hv. apply in_concat in Hv as (vs & Hvs & Hv).
    apply in_map_iff in Hvs as (trace & <- & Ht).
    apply (extLe_trans _ (Math_max (map Finite (Trace.dataNs trace)))).
    - apply Math_max_bound. now apply in_map.
    - apply Math_max_bound. unfold maxes.
      apply (in_map (fun trace => Math_max (map Finite (Trace.dataNs trace)))), Ht. }
  destruct (concat (map Trace.dataNs traces)) as [|v0 vs] eqn:Evalues; [congruence|].
  destruct (Math_max maxes) as [|m] eqn:Em.
  - destruct (Hbound v0); now left.
  - exists m. split; [reflexivity|]. split.
    + apply Math_max_member in Em. unfold maxes in Em.
      apply in_map_iff in Em as (trace & Hm & Ht).
      apply Math_max_member, in_map_iff in Hm as (v & [= ->] & Hv).
      rewrite <- Evalues. apply in_concat. exists (Trace.dataNs trace).
      split; [now apply in_map | exact Hv].
    + intros v Hv. apply (Hbound v Hv).
Qed.

Lemma greaterThan_Finite (m c : Q) :
  greaterThan (Finite m) c = true <-> (c < m)%Q.
Proof.
  simpl. rewrite negb_true_iff. split.
  - intros H. apply Qnot_le_lt. intros Hle. apply Qle_bool_iff in Hle. congruence.
  - intros H. destruct (Qle_bool m c) eqn:E; [|reflexivity].
    apply Qle_bool_iff in E. exfalso. apply (Qlt_not_le _ _ H E).
Qed.

Lemma greaterThan_Finite_false (m c : Q) :
  greaterThan (Finite m) c = false <-> (m <= c)%Q.
Proof.
  simpl. rewrite negb_false_iff. apply Qle_bool_iff.
Qed.

Lemma scaledBy_divided (factor : Q) (traces : list Trace.t) :
  Forall2 (divided factor) traces (scaledBy factor traces).
Proof.
  unfold scaledBy. induction traces as [|trace traces IH]; simpl; constructor; [|exact IH].
  unfold divided. simpl. repeat split; reflexivity.
Qed.

(** The unit and the divisor follow from the maximum. *)
Lemma adjustDataAndUnit_cases (traces : list Trace.t) (m : Q) :
  Math_max (map (fun trace => Math_max (map Finite (Trace.dataNs trace))) traces) = Finite m ->
  ((1000000000 < m)%Q ->
   adjustDataAndUnit traces = ("s/iter", scaledBy 1000000000 traces))
  /\ ((m <= 1000000000)%Q -> (1000000 < m)%Q ->
      adjustDataAndUnit traces = ("ms/iter", scaledBy 1000000 traces))
  /\ ((m <= 1000000)%Q -> (1000 < m)%Q ->
      adjustDataAndUnit traces = (mu +:+ "s/iter", scaledBy 1000 traces))
  /\ ((m <= 1000)%Q ->
      adjustDataAndUnit traces = ("ns/iter", scaledBy 1 traces)).
Proof.
  intros Hmax.
  unfold adjustDataAndUnit. rewrite Hmax. fold (scaledBy 1000000000 traces).
  repeat split.
  - intros H. apply greaterThan_Finite in H. now rewrite H.
  - intros H1 H2. apply greaterThan_Finite_false in H1. apply greaterThan_Finite in H2.
    now rewrite H1, H2.
  - intros H1 H2.
    assert (H0 : (m <= 1000000000)%Q) by (eapply Qle_trans; [exact H1 | discriminate]).
    apply greaterThan_Finite_false in H0, H1. apply greaterThan_Finite in H2.
    now rewrite H0, H1, H2.
  - intros H2.
    assert (H1 : (m <= 1000000)%Q) by (eapply Qle_trans; [exact H2 | discriminate]).
    assert (H0 : (m <= 1000000000)%Q) by (eapply Qle_trans; [exact H1 | discriminate]).
    apply greaterThan_Finite_false in H0, H1, H2.
    now rewrite H0, H1, H2.
Qed.

Lemma displayed_scaledBy (unit : string) (factor : Q) (traces : list Trace.t) :
  displayed unit factor traces (unit, scaledBy factor traces).
Proof. split; [reflexivity | apply scaledBy_divided]. Qed.

(** C4. Display unit: for every set of traces that holds at least one
    value in nanoseconds, there is a maximum [m] of the values, and the unit
    and the divisor follow from it: seconds and 1e9 if m > 1e9, else
    milliseconds and 1e6 if m > 1e6, else microseconds and 1e3 if m > 1e3,
    else nanoseconds and 1; the traces that are returned are the given
    ones, in their order, each with its [y] assigned: the list of its
    values in nanoseconds, every one divided by that one divisor.  In
    particular the values 1200000000 and 500 give seconds, and a [y] of
    1.2 and 0.0000005. *)
Theorem adjustDataAndUnit_display :
  (forall traces : list Trace.t,
     concat (map Trace.dataNs traces) <> [] ->
     exists m,
       In m (concat (map Trace.dataNs traces))
       /\ (forall v, In v (concat (map Trace.dataNs traces)) -> (v <= m)%Q)
       /\ ((1000000000 < m)%Q ->
           displayed "s/iter" 1000000000 traces (adjustDataAndUnit traces))
       /\ ((m <= 1000000000)%Q -> (1000000 < m)%Q ->
           displayed "ms/iter" 1000000 traces (adjustDataAndUnit traces))
       /\ ((m <= 1000000)%Q -> (1000 < m)%Q ->
           displayed (mu +:+ "s/iter") 1000 traces (adjustDataAndUnit traces))
       /\ ((m <= 1000)%Q ->
           displayed "ns/iter" 1 traces (adjustDataAndUnit traces)))
  /\ (exists trace y1 y2,
        adjustDataAndUnit [traceOf [1200000000%Q; 500%Q]] = ("s/iter", [trace])
        /\ Trace.y trace = Some [y1; y2]
        /\ (y1 == 12 # 10)%Q /\ (y2 == 5 # 10000000)%Q).
Proof.
  split.
  - intros traces Hne.
    destruct (maxValue_spec traces Hne) as (m & Hmax & Hin & Hbound).
    exists m. split; [exact Hin|]. split; [exact Hbound|].
    destruct (adjustDataAndUnit_cases traces m Hmax) as (H1 & H2 & H3 & H4).
    split; [|split; [|split]].
    + intros H. rewrite H1 by exact H. apply displayed_scaledBy.
    + intros H H'. rewrite H2 by assumption. apply displayed_scaledBy.
    + intros H H'. rewrite H3 by assumption. apply displayed_scaledBy.
    + intros H. rewrite H4 by exact H. apply displayed_scaledBy.
  - eexists _, _, _. split; [reflexivity|]. split; [reflexivity|]. split; reflexivity.
Qed.
(** ** Grouping *)

Section Grouping.
Context {A : Type}.
Implicit Types (groups : list (string * list A)) (k : string) (a : A).

(** An item of a new key opens a group at the end. *)
Lemma addToGroup_new groups k a :
  ~ In k (map fst groups) -> addToGroup groups k a = (groups ++ [(k, [a])])%list.
Proof.
  induction groups as [|[k' g] groups IH]; simpl; intros Hk; [reflexivity|].
  destruct (String.eqb_spec k' k) as [->|Hne]; [propositional|].
  rewrite IH; [reflexivity | propositional].
Qed.

(** An item of a known key goes to the end of the first group of that key. *)
Lemma addToGroup_known groups k a :
  In k (map fst groups) ->
  exists before ds after,
    groups = (before ++ (k, ds) :: after)%list
    /\ ~ In k (map fst before)
    /\ addToGroup groups k a = (before ++ (k, (ds ++ [a])%list) :: after)%list.
Proof.
  induction groups as [|[k' g] groups IH]; simpl; intros Hk; [destruct Hk|].
  destruct (String.eqb_spec k' k) as [->|Hne].
  - exists [], g, groups. simpl. propositional.
  - destruct IH as (before & ds & after & -> & Hb & ->); [propositional|].
    exists ((k', g) :: before), ds, after. simpl. repeat split. propositional.
Qed.

Lemma filter_snoc (f : A -> bool) (l : list A) a :
  List.filter f (l ++ [a]) = (List.filter f l ++ if f a then [a] else [])%list.
Proof. rewrite List.filter_app. simpl. now destruct (f a). Qed.

Lemma snoc_other (g : A -> string) (l : list A) a k :
  g a <> k -> (l ++ if String.eqb (g a) k then [a] else [])%list = l.
Proof.
  intros Hne. apply String.eqb_neq in Hne. rewrite Hne. apply app_nil_r.
Qed.

Lemma filter_none (g : A -> string) (seen : list A) k :
  (forall x, In x seen -> g x <> k) ->
  List.filter (fun x => String.eqb (g x) k) seen = [].
Proof.
  induction seen as [|x seen IH]; intros H; simpl; [reflexivity|].
  rewrite (proj2 (String.eqb_neq (g x) k)) by (apply H; now left).
  apply IH. intros y Hy. apply H. now right.
Qed.

(** One step of [Object.groupBy] keeps the groups those of the items seen. *)
Lemma grouped_step (g : A -> string) (seen : list A) groups a :
  grouped g seen groups -> grouped g (seen ++ [a]) (addToGroup groups (g a) a).
Proof.
  intros (Hnd & Hds & Hkeys).
  assert (Hseen : forall k, (exists x, In x (seen ++ [a])%list /\ g x = k)
                            <-> In k (map fst groups) \/ k = g a).
  { intros k. rewrite Hkeys. split.
    - intros (x & [Hx|[<-|[]]]%in_app_or & <-); [left; now exists x | now right].
    - intros [(x & Hx & <-)| ->].
      + exists x. split; [apply in_or_app; now left | reflexivity].
      + exists a. split; [apply in_or_app; right; now left | reflexivity]. }
  destruct (in_dec string_dec (g a) (map fst groups)) as [Hin|Hnin].
  - destruct (addToGroup_known groups (g a) a Hin)
      as (before & ds & after & Hgroups & Hbefore & ->).
    assert (Hkeys' : map fst (before ++ (g a, (ds ++ [a])%list) :: after)%list = map fst groups)
      by (rewrite Hgroups, !map_app; reflexivity).
    unfold grouped. rewrite Hkeys'. split; [exact Hnd|]. split.
    + intros k ds' Hk. rewrite filter_snoc.
      rewrite Hgroups, map_app in Hnd. simpl in Hnd.
      apply in_app_or in Hk as [Hk|[[= <- <-]|Hk]].
      * rewrite snoc_other.
        -- apply Hds. rewrite Hgroups. apply in_or_app. now left.
        -- intros Heq. apply Hbefore. rewrite Heq. now apply (in_map fst) in Hk.
      * rewrite String.eqb_refl. f_equal. apply Hds. rewrite Hgroups.
        apply in_or_app. right. now left.
      * rewrite snoc_other.
        -- apply Hds. rewrite Hgroups. apply in_or_app. right. now right.
        -- intros Heq. apply NoDup_remove_2 in Hnd. apply Hnd, in_or_app. right.
           rewrite Heq. now apply (in_map fst) in Hk.
    + intros k. rewrite Hseen. split; [propositional|]. intros [H| ->]; assumption.
  - rewrite (addToGroup_new groups (g a) a Hnin). unfold grouped.
    rewrite map_app. simpl. split; [|split].
    + apply List.NoDup_app; [exact Hnd | repeat constructor; intros [] |].
      intros k Hk [<-|[]]. contradiction.
    + intros k ds' Hk. rewrite filter_snoc.
      apply in_app_or in Hk as [Hk|[[= <- <-]|[]]].
      * rewrite snoc_other; [now apply Hds|].
        intros Heq. apply Hnin. rewrite Heq. now apply (in_map fst) in Hk.
      * rewrite String.eqb_refl, filter_none; [reflexivity|].
        intros x Hx Hgx. apply Hnin, Hkeys. now exists x.
    + intros k. rewrite Hseen. split.
      * intros [H|[<-|[]]]%in_app_or; [now left | now right].
      * intros [H| ->]; apply in_or_app; [now left | right; now left].
Qed.

(** With a callback that returns [g] on every item, [Object.groupBy]
    returns the groups of the items. *)
Lemma groupByFrom_grouped (f : A -> result string) (g : A -> string) (items : list A) :
  (forall a, In a items -> f a = Ok (g a)) ->
  forall seen groups,
    grouped g seen groups ->
    exists groups',
      groupByFrom f items groups = Ok groups' /\ grouped g (seen ++ items) groups'.
Proof.
  induction items as [|a items IH]; intros Hf seen groups Hg; simpl.
  - exists groups. now rewrite app_nil_r.
  - rewrite (Hf a) by now left. simpl.
    destruct (IH (fun x Hx => Hf x (or_intror Hx)) (seen ++ [a])%list
                 (addToGroup groups (g a) a) (grouped_step g seen groups a Hg))
      as (groups' & Hgroups' & Hgrouped).
    exists groups'. split; [exact Hgroups'|]. now rewrite <- app_assoc in Hgrouped.
Qed.

Lemma Object_groupBy_grouped (f : A -> result string) (g : A -> string) (items : list A) :
  (forall a, In a items -> f a = Ok (g a)) ->
  exists groups, Object_groupBy items f = Ok groups /\ grouped g items groups.
Proof.
  intros Hf. unfold Object_groupBy.
  apply (groupByFrom_grouped f g items Hf [] []).
  repeat split; [constructor | intros k ds [] | intros [] | intros (a & [] & _)].
Qed.

End Grouping.

(** ** Trace builder *)

Lemma mapM_total {A B : Type} (f : A -> result B) (l : list A) :
  (forall a, In a l -> exists b, f a = Ok b) ->
  exists bs, mapM f l = Ok bs /\ List.Forall2 (fun a b => f a = Ok b) l bs.
Proof.
  induction l as [|a l IH]; intros H; simpl.
  - exists []. split; [reflexivity | constructor].
  - destruct (H a) as [b Hb]; [now left|].
    destruct IH as (bs & Hbs & Hall); [intros x Hx; apply H; now right|].
    rewrite Hb, Hbs. simpl. exists (b :: bs). split; [reflexivity | now constructor].
Qed.

Lemma Forall2_map_left {A B C : Type} (P : B -> C -> Prop) (f : A -> B)
  (l : list A) (l' : list C) :
  List.Forall2 (fun a c => P (f a) c) l l' -> List.Forall2 P (map f l) l'.
Proof. induction 1; simpl; constructor; assumption. Qed.

Lemma Forall2_impl_In {A B : Type} (P Q : A -> B -> Prop) (l : list A) (l' : list B) :
  List.Forall2 P l l' -> (forall a b, In a l -> P a b -> Q a b) -> List.Forall2 Q l l'.
Proof.
  induction 1 as [|a b l l' Hab Hall IH]; intros H; constructor.
  - apply H; [now left | exact Hab].
  - apply IH. intros a' b' Ha'. apply H. now right.
Qed.

(** One group becomes one trace, its observations as they are in the
    group. *)
Lemma buildTrace_total (schema : list string) (R : gmap string jsval) (k : string)
  (dataset : list Observation.t) :
  ~ In "hasOwnProperty" schema ->
  buildKey R schema = Ok k ->
  (forall d, In d dataset -> knownUnit d) ->
  exists trace,
    buildTrace schema (k, dataset) = Ok trace
    /\ Trace.dataset trace = dataset
    /\ Trace.x trace = map Observation.date dataset.
Proof.
  intros Hnin Hk Hunits. unfold buildTrace.
  destruct (parseKey_after_buildKey schema R k Hnin Hk) as (key & _ & _ & ->). simpl.
  destruct (mapM_total
              (fun d => getNanoseconds (BenchmarkResult.value (Observation.bench d))
                          (BenchmarkResult.unit (Observation.bench d))) dataset)
    as (dataNs & -> & _).
  - intros d Hd. destruct (Hunits d Hd) as [factor Hf].
    destruct (getNanoseconds_known (BenchmarkResult.value (Observation.bench d)) _ _ Hf)
      as (r & Hr & _).
    eauto.
  - simpl. eexists. split; [reflexivity|]. split; reflexivity.
Qed.

Lemma hasKey_keyOf (schema : list string) (k : string) (d : Observation.t) :
  (exists k', buildKey (benchObject (Observation.bench d)) schema = Ok k') ->
  hasKey schema k d = String.eqb (keyOf schema d) k.
Proof. unfold hasKey, keyOf. now intros [k' ->]. Qed.

(** The traces of a history whose results can all be keyed and converted. *)
Lemma separateAllTraces_grouped (commits : list Benchmark.t) (schema : list string) :
  (forall d, In d (flatten commits) ->
     keyable schema (benchObject (Observation.bench d))) ->
  (forall d, In d (flatten commits) -> knownUnit d) ->
  exists keys traces,
    separateAllTraces commits schema = Ok traces
    /\ List.NoDup keys
    /\ (forall k, In k keys <->
          exists d, In d (flatten commits)
                    /\ buildKey (benchObject (Observation.bench d)) schema = Ok k)
    /\ List.Forall2
         (fun k trace =>
            Trace.dataset trace = List.filter (hasKey schema k) (flatten commits)
            /\ Trace.x trace = map Observation.date (Trace.dataset trace))
         keys traces.
Proof.
  intros Hprint Hunits. unfold separateAllTraces.
  set (data := flatten commits) in *.
  assert (Hkey : forall d, In d data ->
            buildKey (benchObject (Observation.bench d)) schema = Ok (keyOf schema d)).
  { intros d Hd. destruct (buildKey_total schema _ (proj1 (Hprint d Hd))) as [k Hk].
    unfold keyOf. now rewrite Hk. }
  destruct (Object_groupBy_grouped
              (fun benchEntry => buildKey (benchObject (Observation.bench benchEntry)) schema)
              (keyOf schema) data Hkey)
    as (groups & -> & Hnd & Hds & Hkeys).
  simpl.
  assert (Hfilter : forall k ds, In (k, ds) groups -> ds = List.filter (hasKey schema k) data).
  { intros k ds Hin. rewrite (Hds k ds Hin). apply List.filter_ext_in.
    intros d Hd. symmetry. apply hasKey_keyOf. eauto. }
  destruct (mapM_total (buildTrace schema) groups) as (traces & -> & Hall).
  - intros [k ds] Hin.
    assert (Hk : In k (map fst groups)) by (apply (in_map fst) in Hin; exact Hin).
    apply Hkeys in Hk as (d0 & Hd0 & Hk0).
    destruct (buildTrace_total schema (benchObject (Observation.bench d0)) k ds)
      as (trace & Htrace & _).
    + apply (Hprint d0 Hd0).
    + rewrite <- Hk0. now apply Hkey.
    + intros d Hd. apply Hunits. rewrite (Hfilter k ds Hin) in Hd.
      now apply List.filter_In in Hd.
    + eauto.
  - exists (map fst groups), traces. split; [reflexivity|]. split; [exact Hnd|]. split.
    + intros k. rewrite Hkeys. split.
      * intros (d & Hd & <-). exists d. split; [exact Hd | now apply Hkey].
      * intros (d & Hd & Hk). exists d. split; [exact Hd|].
        rewrite (Hkey d Hd) in Hk. congruence.
    + apply Forall2_map_left. apply (Forall2_impl_In _ _ _ _ Hall).
      intros [k ds] trace Hin Htrace. simpl.
      assert (Hk : In k (map fst groups)) by (apply (in_map fst) in Hin; exact Hin).
      apply Hkeys in Hk as (d0 & Hd0 & Hk0).
      destruct (buildTrace_total schema (benchObject (Observation.bench d0)) k ds)
        as (trace' & Htrace' & Hdataset & Hx).
      * apply (Hprint d0 Hd0).
      * rewrite <- Hk0. now apply Hkey.
      * intros d Hd. apply Hunits. rewrite (Hfilter k ds Hin) in Hd.
        now apply List.filter_In in Hd.
      * rewrite Htrace in Htrace'. injection Htrace' as <-.
        rewrite Hx, Hdataset. split; [now apply Hfilter | reflexivity].
Qed.

(** Two runs with one result each, of the same key: one trace, the two
    observations in the order of the runs. *)
Lemma separateAllTraces_same_key (e1 e2 : Benchmark.t) (b1 b2 : BenchmarkResult.t)
  (schema : list string) (k : string) :
  Benchmark.benches e1 = [b1] -> Benchmark.benches e2 = [b2] ->
  ~ In "hasOwnProperty" schema ->
  buildKey (benchObject b1) schema = Ok k ->
  buildKey (benchObject b2) schema = Ok k ->
  (exists factor, unitFactor (charAt0 (BenchmarkResult.unit b1)) = Some factor) ->
  (exists factor, unitFactor (charAt0 (BenchmarkResult.unit b2)) = Some factor) ->
  exists trace,
    separateAllTraces [e1; e2] schema = Ok [trace]
    /\ Trace.dataset trace
       = [ {| Observation.commit := Benchmark.commit e1;
              Observation.date := Benchmark.date e1;
              Observation.bench := b1 |};
           {| Observation.commit := Benchmark.commit e2;
              Observation.date := Benchmark.date e2;
              Observation.bench := b2 |} ]
    /\ Trace.x trace = [Benchmark.date e1; Benchmark.date e2].
Proof.
  intros Hb1 Hb2 Hnin Hk1 Hk2 Hu1 Hu2.
  unfold separateAllTraces, flatten, Object_groupBy. simpl.
  rewrite Hb1, Hb2. simpl. rewrite Hk1. simpl. rewrite Hk2. simpl.
  rewrite String.eqb_refl.
  set (dataset :=
         [ {| Observation.commit := Benchmark.commit e1;
              Observation.date := Benchmark.date e1;
              Observation.bench := b1 |};
           {| Observation.commit := Benchmark.commit e2;
              Observation.date := Benchmark.date e2;
              Observation.bench := b2 |} ]).
  destruct (buildTrace_total schema (benchObject b1) k dataset Hnin Hk1)
    as (trace & Htrace & Hdataset & Hx).
  - intros d [<-|[<-|[]]]; assumption.
  - exists trace. unfold mapM. rewrite Htrace. simpl.
    split; [reflexivity|]. split; assumption.
Qed.

(** C8, as amended.  Trace Builder: for every list of history entries and
    every schema without the field [hasOwnProperty], such that every result
    has the method [hasOwnProperty] of [Object.prototype], no schema field
    of a result is [null], and every unit has a recognised prefix,
    [separateAllTraces] returns one trace per distinct schema key among the
    results of all entries, and the observations of a trace are the results
    of its key in the order of the input, with their dates; in particular
    two entries with one result each, of the same key, give one trace with
    the two observations in input order. *)
Theorem separateAllTraces_one_trace_per_key :
  (forall (commits : list Benchmark.t) (schema : list string),
     (forall d, In d (flatten commits) ->
        keyable schema (benchObject (Observation.bench d))) ->
     (forall d, In d (flatten commits) -> knownUnit d) ->
     exists keys traces,
       separateAllTraces commits schema = Ok traces
       /\ List.NoDup keys
       /\ (forall k, In k keys <->
             exists d, In d (flatten commits)
                       /\ buildKey (benchObject (Observation.bench d)) schema = Ok k)
       /\ List.Forall2
            (fun k trace =>
               Trace.dataset trace = List.filter (hasKey schema k) (flatten commits)
               /\ Trace.x trace = map Observation.date (Trace.dataset trace))
            keys traces)
  /\ (forall (e1 e2 : Benchmark.t) (b1 b2 : BenchmarkResult.t)
        (schema : list string) (k : string),
        Benchmark.benches e1 = [b1] -> Benchmark.benches e2 = [b2] ->
        ~ In "hasOwnProperty" schema ->
        buildKey (benchObject b1) schema = Ok k ->
        buildKey (benchObject b2) schema = Ok k ->
        (exists factor, unitFactor (charAt0 (BenchmarkResult.unit b1)) = Some factor) ->
        (exists factor, unitFactor (charAt0 (BenchmarkResult.unit b2)) = Some factor) ->
        exists trace,
          separateAllTraces [e1; e2] schema = Ok [trace]
          /\ Trace.dataset trace
             = [ {| Observation.commit := Benchmark.commit e1;
                    Observation.date := Benchmark.date e1;
                    Observation.bench := b1 |};
                 {| Observation.commit := Benchmark.commit e2;
                    Observation.date := Benchmark.date e2;
                    Observation.bench := b2 |} ]
          /\ Trace.x trace = [Benchmark.date e1; Benchmark.date e2]).
Proof.
  split.
  - apply separateAllTraces_grouped.
  - apply separateAllTraces_same_key.
Qed.


(** ** Legend name *)

Lemma fillMissing_keeps (F : list string) :
  forall key key' s,
    fillMissing F key = Ok key' ->
    hasOwnProperty key s = true -> hasOwnProperty key' s = true.
Proof.
  induction F as [|s0 F IH]; intros key key' s Hf Hs; simpl in Hf.
  - congruence.
  - destruct (callHasOwnProperty key s0) as [[]|]; simpl in Hf; [eauto | | discriminate].
    apply (IH _ _ s Hf). unfold hasOwnProperty in *.
    destruct (string_dec s0 s) as [->|Hne].
    + unfold assign, hasOwnProperty.
      destruct (getProp key s) eqn:E; [|discriminate].
      rewrite andb_false_r. now rewrite getProp_setProp_eq.
    + now rewrite getProp_assign_ne.
Qed.

Lemma fillMissing_fills (F : list string) :
  forall key key' s,
    fillMissing F key = Ok key' -> In s F -> s <> "__proto__" ->
    hasOwnProperty key' s = true.
Proof.
  induction F as [|s0 F IH]; intros key key' s Hf Hs Hne; [destruct Hs|].
  simpl in Hf. unfold callHasOwnProperty in Hf.
  destruct (hasOwnProperty key "hasOwnProperty"); simpl in Hf; [discriminate|].
  destruct Hs as [->|Hs]; [|apply (IH _ _ s Hf Hs Hne)].
  apply (fillMissing_keeps F _ _ s Hf).
  destruct (hasOwnProperty key s) eqn:E; [exact E|].
  unfold hasOwnProperty. now rewrite getProp_assign_eq.
Qed.

(** Every field of the schema is defined in the metadata of a trace: the
    test [value !== undefined] of [getLegendName] never drops one. *)
Lemma buildTrace_defined (schema : list string) (k : string)
  (dataset : list Observation.t) (trace : Trace.t) :
  buildTrace schema (k, dataset) = Ok trace ->
  forall s, In s schema -> isDefined (propertyOf (Trace.metadata trace) s) = true.
Proof.
  unfold buildTrace, parseKey.
  destruct (JSON_parse k) as [key|e]; simpl; [|discriminate].
  destruct (fillMissing schema key) as [key'|e] eqn:Hf; simpl; [|discriminate].
  destruct (mapM _ dataset) as [dataNs|e]; simpl; [|discriminate].
  intros [= <-] s Hs. simpl. unfold propertyOf.
  destruct (String.eqb_spec s "__proto__") as [->|Hproto].
  - now destruct (getProp _ "__proto__").
  - destruct (string_dec "unit" s) as [<-|Hne].
    + now rewrite getProp_setProp_eq.
    + rewrite getProp_setProp_ne by exact Hne.
      pose proof (fillMissing_fills schema _ _ s Hf Hs Hproto) as H.
      unfold hasOwnProperty in H. now destruct (getProp key' s).
Qed.

(** C5 on the code.  A result without the schema field [platform] gets the
    sentinel as the value of the field, and the legend name of its trace
    holds the sentinel: the name is [foo -], not [foo]. *)
Theorem getLegendName_keeps_sentinel :
  exists trace,
    separateAllTraces
      [runOf "abc" 1 [resultOf 12 "ns" [("name", JStr "foo"); ("os", JStr "linux")]]]
      ["name"; "platform"; "os"]
    = Ok [trace]
    /\ getProp (Trace.metadata trace) "platform" = Some "-"
    /\ getLegendName trace ["os"] ["name"; "platform"; "os"] = "foo -".
Proof.
  eexists. split; [vm_compute; reflexivity|]. split; reflexivity.
Qed.
(** ** Grouping, in general *)

Section Groups.
Context {A : Type}.
Implicit Types (groups : list (string * list A)) (k : string) (a : A).

(** One more item: the groups hold what they held, and the item. *)
Lemma addToGroup_Permutation groups k a :
  Permutation (concat (map snd (addToGroup groups k a))) (a :: concat (map snd groups)).
Proof.
  induction groups as [|[k' g] groups IH]; simpl; [reflexivity|].
  destruct (String.eqb k' k); simpl.
  - rewrite <- app_assoc. simpl. symmetry. apply Permutation_middle.
  - rewrite IH. symmetry. apply Permutation_middle.
Qed.

Lemma addToGroup_nonempty groups k a :
  Forall (fun group => snd group <> []) groups ->
  Forall (fun group => snd group <> []) (addToGroup groups k a).
Proof.
  induction groups as [|[k' g] groups IH]; simpl; intros H.
  - repeat constructor. discriminate.
  - inversion H as [|? ? Hg Hrest]; subst. destruct (String.eqb k' k).
    + constructor; [|exact Hrest]. simpl. now destruct g.
    + constructor; [exact Hg | now apply IH].
Qed.

(** When [Object.groupBy] returns, every item is in one group, and no
    group is empty. *)
Lemma groupByFrom_Permutation (f : A -> result string) (items : list A) :
  forall groups groups',
    groupByFrom f items groups = Ok groups' ->
    Permutation (concat (map snd groups')) (concat (map snd groups) ++ items)
    /\ (Forall (fun group => snd group <> []) groups ->
        Forall (fun group => snd group <> []) groups').
Proof.
  induction items as [|a items IH]; intros groups groups'; simpl.
  - intros [= <-]. rewrite app_nil_r. split; [reflexivity | propositional].
  - destruct (f a) as [k|e]; simpl; [|discriminate]. intros H.
    destruct (IH _ _ H) as [Hperm Hne]. split.
    + rewrite Hperm, addToGroup_Permutation. apply Permutation_middle.
    + intros Hg. now apply Hne, addToGroup_nonempty.
Qed.

Lemma Object_groupBy_Permutation (f : A -> result string) (items : list A) groups :
  Object_groupBy items f = Ok groups ->
  Permutation (concat (map snd groups)) items
  /\ Forall (fun group => snd group <> []) groups.
Proof.
  intros H. destruct (groupByFrom_Permutation f items [] groups H) as [Hperm Hne].
  split; [exact Hperm | apply Hne; constructor].
Qed.

(** The callback returned on every item when [Object.groupBy] returns. *)
Lemma groupByFrom_Ok (f : A -> result string) (items : list A) :
  forall groups groups',
    groupByFrom f items groups = Ok groups' ->
    forall a, In a items -> exists k, f a = Ok k.
Proof.
  induction items as [|a0 items IH]; intros groups groups' H a Hin; [destruct Hin|].
  simpl in H. destruct (f a0) as [k|e] eqn:E; simpl in H; [|discriminate].
  destruct Hin as [<-|Hin]; [eauto | exact (IH _ _ H a Hin)].
Qed.

(** The first exception of the callback leaves [Object.groupBy]. *)
Lemma groupByFrom_Throw (f : A -> result string) (items : list A) (P : exn -> Prop) :
  (forall a e, In a items -> f a = Throw e -> P e) ->
  (exists a e, In a items /\ f a = Throw e) ->
  forall groups, exists e, groupByFrom f items groups = Throw e /\ P e.
Proof.
  induction items as [|a0 items IH]; intros HP (a & e & Hin & Ha) groups; [destruct Hin|].
  simpl. destruct (f a0) as [k|e0] eqn:E; simpl.
  - apply IH.
    + intros a' e' Hin'. apply HP. now right.
    + destruct Hin as [<-|Hin]; [congruence | eauto].
  - exists e0. split; [reflexivity|]. apply (HP a0); [now left | exact E].
Qed.

End Groups.

Lemma mapM_Forall2 {A B : Type} (f : A -> result B) (l : list A) (bs : list B) :
  mapM f l = Ok bs -> List.Forall2 (fun a b => f a = Ok b) l bs.
Proof.
  revert bs. induction l as [|a l IH]; simpl; intros bs.
  - intros [= <-]. constructor.
  - destruct (f a) as [b|e] eqn:E; simpl; [|discriminate].
    destruct (mapM f l) as [bs'|e]; simpl; [|discriminate].
    intros [= <-]. constructor; [exact E | now apply IH].
Qed.

(** The first exception of the callback leaves [map]. *)
Lemma mapM_Throw {A B : Type} (f : A -> result B) (l : list A) (P : exn -> Prop) :
  (forall a e, In a l -> f a = Throw e -> P e) ->
  (exists a e, In a l /\ f a = Throw e) ->
  exists e, mapM f l = Throw e /\ P e.
Proof.
  induction l as [|a0 l IH]; intros HP (a & e & Hin & Ha); [destruct Hin|].
  simpl. destruct (f a0) as [b|e0] eqn:E; simpl.
  - destruct IH as (e1 & -> & He1).
    + intros a' e' Hin'. apply HP. now right.
    + destruct Hin as [<-|Hin]; [congruence | eauto].
    + simpl. eauto.
  - exists e0. split; [reflexivity|]. apply (HP a0); [now left | exact E].
Qed.

Lemma Forall2_Forall_r {A B : Type} (P : A -> B -> Prop) (Q : B -> Prop)
  (l : list A) (l' : list B) :
  List.Forall2 P l l' -> (forall a b, In a l -> P a b -> Q b) -> Forall Q l'.
Proof.
  induction 1 as [|a b l l' Hab Hall IH]; intros H; constructor.
  - apply (H a); [now left | exact Hab].
  - apply IH. intros a' b' Ha'. apply H. now right.
Qed.

Lemma Forall2_map_eq {A B C : Type} (f : A -> C) (g : B -> C) (l : list A) (l' : list B) :
  List.Forall2 (fun a b => f a = g b) l l' -> map f l = map g l'.
Proof. induction 1; simpl; congruence. Qed.


(** ** The traces of a history, in general *)

(** What [buildTrace] returns for a group. *)
Lemma buildTrace_Ok (schema : list string) (k : string) (dataset : list Observation.t)
  (trace : Trace.t) :
  buildTrace schema (k, dataset) = Ok trace ->
  Trace.dataset trace = dataset
  /\ Trace.x trace = map Observation.date dataset
  /\ List.Forall2
       (fun d ns =>
          getNanoseconds (BenchmarkResult.value (Observation.bench d))
            (BenchmarkResult.unit (Observation.bench d)) = Ok ns)
       dataset (Trace.dataNs trace)
  /\ getProp (Trace.metadata trace) "unit" = Some "ns/iter"
  /\ Trace.y trace = None /\ Trace.name trace = None /\ Trace.text trace = None.
Proof.
  unfold buildTrace.
  destruct (parseKey k schema) as [metadata|e]; simpl; [|discriminate].
  destruct (mapM _ dataset) as [dataNs|e] eqn:E; simpl; [|discriminate].
  intros [= <-]. simpl. repeat split.
  - now apply mapM_Forall2.
  - apply getProp_setProp_eq.
Qed.

(** The metadata of the trace of a key: the texts of the fields of the
    record of the key. *)
Lemma buildTrace_metadata (schema : list string) (R : gmap string jsval) (k : string)
  (dataset : list Observation.t) (trace : Trace.t) :
  buildKey R schema = Ok k ->
  buildTrace schema (k, dataset) = Ok trace ->
  ~ In "hasOwnProperty" schema
  /\ getProp (Trace.metadata trace) "__proto__" = None
  /\ (forall s, In s schema -> s <> "__proto__" -> s <> "unit" ->
      getProp (Trace.metadata trace) s = Some (printed (fieldOrSentinel R s)))
  /\ (forall s, ~ In s schema -> s <> "unit" -> getProp (Trace.metadata trace) s = None).
Proof.
  intros Hk Hb.
  assert (Hnin : ~ In "hasOwnProperty" schema).
  { intros Hin. unfold buildTrace in Hb.
    now rewrite (parseKey_shadowed schema R k Hin Hk) in Hb. }
  split; [exact Hnin|].
  destruct (parseKey_after_buildKey schema R k Hnin Hk) as (key & Hkey & _ & Hparse).
  unfold buildTrace in Hb. rewrite Hparse in Hb. simpl in Hb.
  destruct (mapM _ dataset) as [dataNs|e]; simpl in Hb; [|discriminate].
  injection Hb as <-. simpl. split; [|split].
  - rewrite getProp_setProp_ne by discriminate.
    now apply (buildKeyObject_proto R schema _ _ Hkey).
  - intros s Hs Hproto Hunit. rewrite getProp_setProp_ne by congruence.
    apply (buildKeyObject_field R schema _ _ s Hkey Hs Hproto).
  - intros s Hs Hunit. rewrite getProp_setProp_ne by congruence.
    now rewrite (buildKeyObject_other R schema _ _ s Hkey Hs).
Qed.

(** The groups behind the traces that [separateAllTraces] returns. *)
Lemma separateAllTraces_groups (commits : list Benchmark.t) (schema : list string)
  (traces : list Trace.t) :
  separateAllTraces commits schema = Ok traces ->
  exists groups,
    Permutation (concat (map snd groups)) (flatten commits)
    /\ Forall (fun group => snd group <> []) groups
    /\ List.Forall2 (fun group trace => buildTrace schema group = Ok trace) groups traces
    /\ grouped (keyOf schema) (flatten commits) groups
    /\ (forall d, In d (flatten commits) ->
        buildKey (benchObject (Observation.bench d)) schema = Ok (keyOf schema d)).
Proof.
  unfold separateAllTraces.
  destruct (Object_groupBy _ _) as [groups|e] eqn:Egroups; simpl; [|discriminate].
  intros Htraces. apply mapM_Forall2 in Htraces.
  destruct (Object_groupBy_Permutation _ _ _ Egroups) as [Hperm Hne].
  assert (Hkey : forall d, In d (flatten commits) ->
            buildKey (benchObject (Observation.bench d)) schema = Ok (keyOf schema d)).
  { intros d Hd. destruct (groupByFrom_Ok _ _ _ _ Egroups d Hd) as [k Hk].
    unfold keyOf. now rewrite Hk. }
  destruct (Object_groupBy_grouped
              (fun benchEntry => buildKey (benchObject (Observation.bench benchEntry)) schema)
              (keyOf schema) (flatten commits) Hkey) as (groups' & Hgroups' & Hgrouped).
  rewrite Egroups in Hgroups'. injection Hgroups' as <-.
  exists groups. auto.
Qed.

(** An observation of a group has the key of the group. *)
Lemma grouped_member (commits : list Benchmark.t) (schema : list string)
  (groups : list (string * list Observation.t)) (k : string) (ds : list Observation.t)
  (d : Observation.t) :
  grouped (keyOf schema) (flatten commits) groups ->
  (forall d, In d (flatten commits) ->
     buildKey (benchObject (Observation.bench d)) schema = Ok (keyOf schema d)) ->
  In (k, ds) groups -> In d ds ->
  In d (flatten commits) /\ buildKey (benchObject (Observation.bench d)) schema = Ok k.
Proof.
  intros (_ & Hds & _) Hkey Hin Hd. rewrite (Hds k ds Hin) in Hd.
  apply List.filter_In in Hd as [Hd Hk]. apply String.eqb_eq in Hk.
  split; [exact Hd|]. rewrite <- Hk. now apply Hkey.
Qed.

(** ** Tooltip text *)

Lemma isSubstring_here (part after : string) : isSubstring part (part +:+ after).
Proof. exists "", after. reflexivity. Qed.

Lemma isSubstring_end (part : string) : isSubstring part part.
Proof. exists "", "". simpl. now rewrite append_empty_r. Qed.

Lemma isSubstring_after (before part whole : string) :
  isSubstring part whole -> isSubstring part (before +:+ whole).
Proof.
  intros (b & a & ->). exists (before +:+ b), a. now rewrite append_assoc.
Qed.

Lemma isSubstring_before (part whole after : string) :
  isSubstring part whole -> isSubstring part (whole +:+ after).
Proof.
  intros (b & a & ->). exists b, (a +:+ after). now rewrite !append_assoc.
Qed.

Lemma isSubstring_trans (part middle whole : string) :
  isSubstring part middle -> isSubstring middle whole -> isSubstring part whole.
Proof.
  intros Hpart (b & a & ->). now apply isSubstring_after, isSubstring_before.
Qed.

Create HintDb tooltip.

#[local] Hint Resolve isSubstring_here isSubstring_end isSubstring_after : tooltip.


Lemma isSubstring_concat (sep : string) (l : list string) (e : string) :
  In e l -> isSubstring e (String.concat sep l).
Proof.
  induction l as [|a l IH]; intros Hin; [destruct Hin|].
  destruct l as [|b l].
  - destruct Hin as [->|[]]. apply isSubstring_end.
  - change (String.concat sep (a :: b :: l))
      with (a +:+ sep +:+ String.concat sep (b :: l)).
    destruct Hin as [->|Hin]; [apply isSubstring_here|].
    apply isSubstring_after, isSubstring_after, IH, Hin.
Qed.

(** The test finds every part. *)
Lemma startsWith_append (part after : string) : startsWith part (part +:+ after) = true.
Proof.
  induction part as [|c part IH]; simpl; [reflexivity|].
  now rewrite Ascii.eqb_refl, IH.
Qed.

Lemma contains_here (part whole : string) : startsWith part whole = true -> contains part whole = true.
Proof. intros H. destruct whole; simpl in *; now rewrite H. Qed.

Lemma isSubstring_contains (part whole : string) :
  isSubstring part whole -> contains part whole = true.
Proof.
  intros (before & after & ->). induction before as [|c before IH]; simpl.
  - apply contains_here, startsWith_append.
  - fold (before +:+ part +:+ after). rewrite IH. apply orb_true_r.
Qed.

Lemma Forall2_map_right {A B : Type} (P : A -> B -> Prop) (f : A -> B) (l : list A) :
  (forall a, In a l -> P a (f a)) -> List.Forall2 P l (map f l).
Proof.
  induction l as [|a l IH]; intros H; simpl; constructor.
  - apply H. now left.
  - apply IH. intros a' Ha'. apply H. now right.
Qed.

(** The text holds each of the values that the template interpolates. *)
Lemma getObservationTooltipText_contents (name : string) (observation : Observation.t) :
  let text := getObservationTooltipText name observation in
  isSubstring name text
  /\ isSubstring (numberToString (BenchmarkResult.value (Observation.bench observation))) text
  /\ isSubstring (BenchmarkResult.unit (Observation.bench observation)) text
  /\ (forall r, BenchmarkResult.range (Observation.bench observation) = Some r ->
                isSubstring r text)
  /\ isSubstring (Commit.id (Observation.commit observation)) text
  /\ isSubstring (Commit.message (Observation.commit observation)) text
  /\ isSubstring (Commit.url (Observation.commit observation)) text.
Proof.
  unfold getObservationTooltipText. cbv zeta.
  repeat split; auto 20 with tooltip.
  intros r ->. auto 20 with tooltip.
Qed.

(** The legend name holds the text of every field of the schema that is
    not a group-by field, nor the unit. *)
Lemma getLegendName_contains (trace : Trace.t) (groupBy schema : list string) (s : string) :
  In s schema -> includes groupBy s = false -> s <> "unit" ->
  isDefined (propertyOf (Trace.metadata trace) s) = true ->
  isSubstring (propertyText (propertyOf (Trace.metadata trace) s))
    (getLegendName trace groupBy schema).
Proof.
  intros Hs Hg Hunit Hdef. unfold getLegendName. apply isSubstring_concat.
  apply (in_map (fun entry => propertyText (snd entry))
           _ (s, propertyOf (Trace.metadata trace) s)).
  apply List.filter_In. split.
  - apply (in_map (fun key => (key, propertyOf (Trace.metadata trace) key))), Hs.
  - simpl. rewrite Hg, Hdef. apply String.eqb_neq in Hunit. now rewrite Hunit.
Qed.

(** C7, as amended.  Tooltip contract: for every trace and every
    observation of it, the tooltip text that [addLegendNameAndTooltip]
    generates for the observation contains the legend name of the trace,
    the measured value as printed, the unit, the range when there is one,
    the commit id, the commit message and the commit url.  For the traces
    that [separateAllTraces] returns for a schema with the field [name],
    when [name] is no group-by field, the legend name, and with it the
    tooltip text of every observation, contains the benchmark name of the
    observation: the text of the field [name] of its result, or the
    sentinel "-" when the result has none. *)
Theorem tooltip_contents :
  (forall (trace : Trace.t) (groupBy schema : list string),
     exists name texts,
       Trace.name (addLegendNameAndTooltip trace groupBy schema) = Some name
       /\ name = getLegendName trace groupBy schema
       /\ Trace.text (addLegendNameAndTooltip trace groupBy schema) = Some texts
       /\ List.Forall2
            (fun observation text =>
               text = getObservationTooltipText name observation
               /\ isSubstring name text
               /\ isSubstring
                    (numberToString (BenchmarkResult.value (Observation.bench observation)))
                    text
               /\ isSubstring (BenchmarkResult.unit (Observation.bench observation)) text
               /\ (forall r, BenchmarkResult.range (Observation.bench observation) = Some r ->
                             isSubstring r text)
               /\ isSubstring (Commit.id (Observation.commit observation)) text
               /\ isSubstring (Commit.message (Observation.commit observation)) text
               /\ isSubstring (Commit.url (Observation.commit observation)) text)
            (Trace.dataset trace) texts)
  /\ (forall (commits : list Benchmark.t) (schema groupBy : list string)
        (traces : list Trace.t),
        separateAllTraces commits schema = Ok traces ->
        In "name" schema -> ~ In "name" groupBy ->
        Forall
          (fun trace =>
             exists texts,
               Trace.text (addLegendNameAndTooltip trace groupBy schema) = Some texts
               /\ List.Forall2
                    (fun observation text =>
                       isSubstring
                         (printed
                            (fieldOrSentinel (benchObject (Observation.bench observation))
                               "name"))
                         text)
                    (Trace.dataset trace) texts)
          traces).
Proof.
  split.
  - intros trace groupBy schema.
    eexists _, _. split; [reflexivity|]. split; [reflexivity|]. split; [reflexivity|].
    apply Forall2_map_right. intros observation _.
    split; [reflexivity|]. apply getObservationTooltipText_contents.
  - intros commits schema groupBy traces Htraces Hname Hgroup.
    destruct (separateAllTraces_groups _ _ _ Htraces)
      as (groups & _ & _ & Hbuilt & Hgrouped & Hkey).
    apply (Forall2_Forall_r _ _ _ _ Hbuilt). intros [k ds] trace Hin Hb.
    eexists. split; [reflexivity|].
    destruct (buildTrace_Ok _ _ _ _ Hb) as (-> & _).
    apply Forall2_map_right. intros observation Hobs.
    destruct (grouped_member commits schema groups k ds observation Hgrouped Hkey Hin Hobs)
      as [_ Hk].
    destruct (buildTrace_metadata schema _ k ds trace Hk Hb) as (_ & _ & Hfield & _).
    specialize (Hfield "name" Hname ltac:(discriminate) ltac:(discriminate)).
    apply (isSubstring_trans _ (getLegendName trace groupBy schema));
      [|exact (proj1 (getObservationTooltipText_contents _ observation))].
    assert (Hinc : includes groupBy "name" = false).
    { unfold includes. apply not_true_is_false. intros H.
      apply existsb_exists in H as (x & Hx & Heq). apply String.eqb_eq in Heq. now subst x. }
    pose proof (getLegendName_contains trace groupBy schema "name" Hname Hinc
                  ltac:(discriminate)) as Hlegend.
    unfold propertyOf in Hlegend. rewrite Hfield in Hlegend. now apply Hlegend.
Qed.
(** ** Defaults of schema and group-by *)

Lemma hasOwnSuite_absent (f : suiteFields) (benchSet : string) :
  absentOrInvalid f benchSet ->
  negb (truthy f) || negb (typeofObject f) = true \/ hasOwnSuite f benchSet = Ok false.
Proof.
  destruct f as [| | b | q | s | m]; simpl; intros H;
    rewrite ?orb_true_r; auto.
  destruct H as [-> ->]. right. reflexivity.
Qed.

(** An entry that is there is returned as it is, whatever it is, and
    nothing is logged. *)
Lemma retrieveSchema_entry (data : BENCHMARK_DATA.t) (benchSet : string)
  (m : gmap string fieldList) (fields : fieldList) :
  BENCHMARK_DATA.schema data = FObject m ->
  hasOwnPropertyMethod isNullEntry m = true -> ownMember m benchSet = Some fields ->
  retrieveSchema data benchSet = Ok (fields, []).
Proof.
  intros Hs Hmethod Hm. unfold retrieveSchema. rewrite Hs. simpl.
  now rewrite Hmethod, Hm.
Qed.

Lemma retrieveGroupBy_entry (data : BENCHMARK_DATA.t) (benchSet : string)
  (m : gmap string fieldList) (fields : fieldList) :
  BENCHMARK_DATA.groupBy data = FObject m ->
  hasOwnPropertyMethod isNullEntry m = true -> ownMember m benchSet = Some fields ->
  retrieveGroupBy data benchSet = Ok (fields, []).
Proof.
  intros Hs Hmethod Hm. unfold retrieveGroupBy. rewrite Hs. simpl.
  now rewrite Hmethod, Hm.
Qed.

Lemma retrieveSchema_default (data : BENCHMARK_DATA.t) (benchSet : string) :
  absentOrInvalid (BENCHMARK_DATA.schema data) benchSet ->
  retrieveSchema data benchSet
  = Ok (Fields ["name"; "platform"; "os"; "keySize"; "api"; "category"],
        ["No or invalid schema provided: defaulting to [name,platform,os,keySize,api,category]"]).
Proof.
  intros H. unfold retrieveSchema.
  destruct (hasOwnSuite_absent _ _ H) as [Hc|Hc].
  - now rewrite Hc.
  - rewrite Hc. now destruct (negb _ || negb _).
Qed.

Lemma retrieveGroupBy_default (data : BENCHMARK_DATA.t) (benchSet : string) :
  absentOrInvalid (BENCHMARK_DATA.groupBy data) benchSet ->
  retrieveGroupBy data benchSet
  = Ok (Fields ["os"], ["No or invalid groupBy provided: defaulting to [os]"]).
Proof.
  intros H. unfold retrieveGroupBy.
  destruct (hasOwnSuite_absent _ _ H) as [Hc|Hc].
  - now rewrite Hc.
  - rewrite Hc. now destruct (negb _ || negb _).
Qed.

(** The entry of a document that has one suite in its schema. *)
Lemma single_entry (benchSet : string) (fields : fieldList) :
  benchSet <> "__proto__" -> benchSet <> "hasOwnProperty" ->
  hasOwnPropertyMethod isNullEntry ({[ benchSet := fields ]} : gmap string fieldList) = true
  /\ ownMember ({[ benchSet := fields ]} : gmap string fieldList) benchSet = Some fields.
Proof.
  intros Hproto Hmethod. split.
  - unfold hasOwnPropertyMethod. now rewrite !lookup_singleton_ne by congruence.
  - rewrite ownMember_other by exact Hproto. apply lookup_singleton_eq.
Qed.

(** The renderer, with the default schema, goes on as it does for a
    document that gives the default: one line more is on the console. *)
Lemma renderAllCharts_default_schema (data : BENCHMARK_DATA.t) (benchSet : string) :
  absentOrInvalid (BENCHMARK_DATA.schema data) benchSet ->
  benchSet <> "__proto__" -> benchSet <> "hasOwnProperty" ->
  renderAllCharts data benchSet
  = let* page := renderAllCharts (withSchema data benchSet defaultSchema) benchSet in
    Ok (logged 0
          "No or invalid schema provided: defaulting to [name,platform,os,keySize,api,category]"
          page).
Proof.
  intros H Hproto Hmethod. unfold renderAllCharts.
  rewrite (retrieveSchema_default data benchSet H).
  destruct (single_entry benchSet (Fields defaultSchema) Hproto Hmethod) as [H1 H2].
  rewrite (retrieveSchema_entry (withSchema data benchSet defaultSchema) benchSet
             _ (Fields defaultSchema) eq_refl H1 H2).
  replace (retrieveGroupBy (withSchema data benchSet defaultSchema) benchSet)
    with (retrieveGroupBy data benchSet) by reflexivity.
  cbn [bind BENCHMARK_DATA.entries withSchema].
  destruct (match BENCHMARK_DATA.entries data !! benchSet with
            | Some commits => _
            | None => _
            end) as [traces|e]; cbn [bind]; [|reflexivity].
  destruct (retrieveGroupBy data benchSet) as [[groupBy log2]|e]; cbn [bind]; [|reflexivity].
  destruct (asArray groupBy) as [groupBy'|e]; cbn [bind]; [|reflexivity].
  destruct (Object_groupBy traces _) as [groupedData|e]; cbn [bind]; [|reflexivity].
  destruct (mapM _ groupedData) as [groupKeys|e]; cbn [bind]; [|reflexivity].
  destruct (mapM _ groupedData) as [rendered|e]; cbn [bind]; reflexivity.
Qed.

Lemma renderAllCharts_default_groupBy (data : BENCHMARK_DATA.t) (benchSet : string) :
  absentOrInvalid (BENCHMARK_DATA.groupBy data) benchSet ->
  benchSet <> "__proto__" -> benchSet <> "hasOwnProperty" ->
  renderAllCharts data benchSet
  = let* '(_, log1) := retrieveSchema data benchSet in
    let* page := renderAllCharts (withGroupBy data benchSet defaultGroupBy) benchSet in
    Ok (logged (length log1) "No or invalid groupBy provided: defaulting to [os]" page).
Proof.
  intros H Hproto Hmethod. unfold renderAllCharts.
  rewrite (retrieveGroupBy_default data benchSet H).
  destruct (single_entry benchSet (Fields defaultGroupBy) Hproto Hmethod) as [H1 H2].
  rewrite (retrieveGroupBy_entry (withGroupBy data benchSet defaultGroupBy) benchSet
             _ (Fields defaultGroupBy) eq_refl H1 H2).
  replace (retrieveSchema (withGroupBy data benchSet defaultGroupBy) benchSet)
    with (retrieveSchema data benchSet) by reflexivity.
  cbn [BENCHMARK_DATA.entries withGroupBy].
  destruct (retrieveSchema data benchSet) as [[schema log1]|e]; cbn [bind]; [|reflexivity].
  destruct (match BENCHMARK_DATA.entries data !! benchSet with
            | Some commits => _
            | None => _
            end) as [traces|e]; cbn [bind]; [|reflexivity].
  cbn [asArray]. cbn [bind].
  destruct (Object_groupBy traces _) as [groupedData|e]; cbn [bind]; [|reflexivity].
  destruct (mapM _ groupedData) as [groupKeys|e]; cbn [bind]; [|reflexivity].
  destruct (mapM _ groupedData) as [rendered|e]; cbn [bind]; [|reflexivity].
  unfold logged. cbn [Page.console Page.checkBoxes Page.charts Page.plots].
  do 2 f_equal. now rewrite take_app_length, drop_app_length.
Qed.

(** C9, as amended.  Default substitution: for every document and
    requested suite, if the [schema] of the document is missing or is not
    an object, or is an object, with the method [hasOwnProperty] of
    [Object.prototype], that has no entry for the suite, [retrieveSchema]
    returns the default field list name, platform, os, keySize, api,
    category and writes one diagnostic line; likewise [retrieveGroupBy]
    returns the default os with one diagnostic line.  The renderer goes on
    with the default: for a suite name other than [__proto__] and
    [hasOwnProperty], it ends as it does on the document that gives the
    default field list as the entry of the suite, the page it returns being
    that page with the diagnostic line added to the console where it was
    written. *)
Theorem retrieve_defaults (data : BENCHMARK_DATA.t) (benchSet : string) :
  (absentOrInvalid (BENCHMARK_DATA.schema data) benchSet ->
   retrieveSchema data benchSet
   = Ok (Fields ["name"; "platform"; "os"; "keySize"; "api"; "category"],
         ["No or invalid schema provided: defaulting to [name,platform,os,keySize,api,category]"])
   /\ (benchSet <> "__proto__" -> benchSet <> "hasOwnProperty" ->
       renderAllCharts data benchSet
       = let* page :=
           renderAllCharts
             (withSchema data benchSet
                ["name"; "platform"; "os"; "keySize"; "api"; "category"])
             benchSet in
         Ok (logged 0
               "No or invalid schema provided: defaulting to [name,platform,os,keySize,api,category]"
               page)))
  /\ (absentOrInvalid (BENCHMARK_DATA.groupBy data) benchSet ->
      retrieveGroupBy data benchSet
      = Ok (Fields ["os"], ["No or invalid groupBy provided: defaulting to [os]"])
      /\ (benchSet <> "__proto__" -> benchSet <> "hasOwnProperty" ->
          renderAllCharts data benchSet
          = let* '(_, log1) := retrieveSchema data benchSet in
            let* page := renderAllCharts (withGroupBy data benchSet ["os"]) benchSet in
            Ok (logged (length log1) "No or invalid groupBy provided: defaulting to [os]"
                  page))).
Proof.
  split; intros H; split.
  - now apply retrieveSchema_default.
  - now apply renderAllCharts_default_schema.
  - now apply retrieveGroupBy_default.
  - now apply renderAllCharts_default_groupBy.
Qed.

(** ** Show and hide of charts *)

(** Hiding a chart that already has a [hidden-by] attribute appends the
    digit 1 to the attribute. *)
Lemma updateChart_hide_again (chart : Chart.t) (a : string) :
  hiddenByOf chart = Some a -> a <> "" ->
  hiddenByOf (updateChart true chart) = Some (a +:+ "1")
  /\ Chart.display (updateChart true chart) = Some "none".
Proof.
  unfold hiddenByOf, updateChart. intros -> Hne.
  apply String.eqb_neq in Hne. rewrite Hne. simpl.
  now rewrite lookup_insert_eq.
Qed.

(** C1 on the code.  The chart of os = linux and keySize = 512 starts
    visible.  Unchecking linux hides it with [hidden-by] 1; unchecking 512
    leaves [hidden-by] 11, not 2; checking linux again leaves 10, not 1;
    checking 512 again leaves 9, and the chart stays hidden with every box
    checked. *)
Theorem setChartHiddenStatus_scenario :
  let c1 := changeEvent false "os" "linux" [linux512] in
  let c2 := changeEvent false "keySize" "512" c1 in
  let c3 := changeEvent true "os" "linux" c2 in
  let c4 := changeEvent true "keySize" "512" c3 in
  (map hiddenByOf c1 = [Some "1"] /\ map Chart.display c1 = [Some "none"])
  /\ (map hiddenByOf c2 = [Some "11"] /\ map Chart.display c2 = [Some "none"])
  /\ (map hiddenByOf c3 = [Some "10"] /\ map Chart.display c3 = [Some "none"])
  /\ (map hiddenByOf c4 = [Some "9"] /\ map Chart.display c4 = [Some "none"]).
Proof. vm_compute. repeat split. Qed.

(** ** Appending a run to the history *)

Lemma truncate_lastEntries (n : Z) (suites : list Benchmark.t) :
  truncate (Some n) suites = lastEntries n suites.
Proof.
  unfold truncate, lastEntries.
  destruct (n <? Z.of_nat (length suites))%Z eqn:E.
  - apply Z.ltb_lt in E. destruct (Z.neg_nonneg_cases n) as [Hneg|Hpos].
    + rewrite !drop_ge by lia. reflexivity.
    + f_equal. lia.
  - apply Z.ltb_ge in E.
    replace (length suites - Z.to_nat n)%nat with 0%nat by lia. reflexivity.
Qed.

Lemma find_last (f : Benchmark.t -> bool) (l : list Benchmark.t) :
  match find f (rev l) with
  | Some e =>
      exists older newer,
        l = (older ++ e :: newer)%list /\ f e = true /\ (forall x, In x newer -> f x = false)
  | None => forall x, In x l -> f x = false
  end.
Proof.
  induction l as [|a l IH] using rev_ind; simpl; [propositional|].
  rewrite rev_app_distr. simpl.
  destruct (f a) eqn:Ea.
  - exists l, []. repeat split; [exact Ea | intros x []].
  - destruct (find f (rev l)) as [e|].
    + destruct IH as (older & newer & -> & He & Hnew).
      exists older, (newer ++ [a])%list. rewrite <- app_assoc. repeat split; [exact He|].
      intros x [Hx|[<-|[]]]%in_app_or; [now apply Hnew | exact Ea].
    + intros x [Hx|[<-|[]]]%in_app_or; [now apply IH | exact Ea].
Qed.

(** C10, as amended.  History append: for every document, suite name and
    new entry, when the document has no suite of the name, and the name is
    none that [Object.prototype] has, [addBenchmarkToDataJson] leaves under
    the name the one-element suite of the new entry, whatever [maxItems]
    is, and returns null; when the document has the suite, it leaves the
    old entries followed by the new one, cut to their last [maxItems]
    entries when [maxItems] is not null, and returns the most recent old
    entry whose commit id differs from the new entry's, or null when there
    is none; the other suites are as they were. *)
Theorem addBenchmarkToDataJson_append (now : Z) (groupBy schema : list string)
  (benchName : string) (bench : Benchmark.t) (data : DataJson.t) (maxItems : option Z) :
  (DataJson.entries data !! benchName = None -> inherited benchName = false ->
   exists data',
     addBenchmarkToDataJson now groupBy schema benchName bench data maxItems
     = Ok (None, data')
     /\ DataJson.entries data' !! benchName = Some [bench]
     /\ (forall other, other <> benchName ->
           DataJson.entries data' !! other = DataJson.entries data !! other))
  /\ (forall suites,
        DataJson.entries data !! benchName = Some suites ->
        exists prevBench data',
          addBenchmarkToDataJson now groupBy schema benchName bench data maxItems
          = Ok (prevBench, data')
          /\ DataJson.entries data' !! benchName
             = Some (match maxItems with
                     | Some n => lastEntries n (suites ++ [bench])
                     | None => suites ++ [bench]
                     end)
          /\ match prevBench with
             | Some e =>
                 exists older newer,
                   suites = (older ++ e :: newer)%list
                   /\ Commit.id (Benchmark.commit e) <> Commit.id (Benchmark.commit bench)
                   /\ (forall x, In x newer ->
                         Commit.id (Benchmark.commit x) = Commit.id (Benchmark.commit bench))
             | None =>
                 forall x, In x suites ->
                   Commit.id (Benchmark.commit x) = Commit.id (Benchmark.commit bench)
             end
          /\ (forall other, other <> benchName ->
                DataJson.entries data' !! other = DataJson.entries data !! other)).
Proof.
  unfold addBenchmarkToDataJson, memberOf.
  assert (Hother : forall x, otherCommit bench x = false ->
            Commit.id (Benchmark.commit x) = Commit.id (Benchmark.commit bench)).
  { unfold otherCommit. intros x H. apply negb_false_iff in H. now apply String.eqb_eq. }
  split.
  - intros -> ->. eexists. split; [reflexivity|]. simpl. split.
    + now rewrite lookup_insert_eq.
    + intros other Hne. now rewrite lookup_insert_ne.
  - intros suites ->. eexists _, _. split; [reflexivity|]. simpl. split; [|split].
    + rewrite lookup_insert_eq.
      destruct maxItems as [n|]; [now rewrite truncate_lastEntries | reflexivity].
    + pose proof (find_last (otherCommit bench) suites) as H.
      destruct (find (otherCommit bench) (rev suites)) as [e|].
      * destruct H as (older & newer & -> & He & Hnew).
        exists older, newer. repeat split; [|intros x Hx; apply Hother; now apply Hnew].
        unfold otherCommit in He. apply negb_true_iff in He. now apply String.eqb_neq.
      * intros x Hx. apply Hother. now apply H.
    + intros other Hne. now rewrite lookup_insert_ne.
Qed.
(** ** Group keys, titles and check boxes *)

Lemma fold_assign_get {V : Type} (f : string -> V) (keys : list string) :
  List.NoDup (map fst (fold_left (fun acc key => assign acc key (f key)) keys []))
  /\ forall s,
       getProp (fold_left (fun acc key => assign acc key (f key)) keys []) s
       = if in_dec string_dec s keys
         then (if String.eqb s "__proto__" then None else Some (f s))
         else None.
Proof.
  destruct (fold_assign f keys [] (List.NoDup_nil _) eq_refl) as (Hnd & Hproto & Hin & Hout).
  split; [exact Hnd|]. intros s.
  destruct (in_dec string_dec s keys) as [Hs|Hs]; [|now apply Hout].
  destruct (String.eqb_spec s "__proto__") as [->|Hne]; [exact Hproto | now apply Hin].
Qed.

Lemma keys_omitUndefined (o : list (string * option string)) (s : string) :
  In s (map fst (omitUndefined o)) -> In s (map fst o).
Proof.
  induction o as [|[k [v|]] o IH]; simpl; propositional.
Qed.

Lemma NoDup_omitUndefined (o : list (string * option string)) :
  List.NoDup (map fst o) -> List.NoDup (map fst (omitUndefined o)).
Proof.
  induction o as [|[k [v|]] o IH]; simpl; intros Hnd; [exact Hnd | |];
    inversion Hnd as [|? ? Hk Hnd']; subst; [|now apply IH].
  constructor; [|now apply IH]. intros Hin. now apply Hk, keys_omitUndefined.
Qed.

(** What [JSON.stringify] keeps of an object: the properties that are
    defined. *)
Lemma getProp_omitUndefined (o : list (string * option string)) (s : string) :
  List.NoDup (map fst o) ->
  getProp (omitUndefined o) s
  = match getProp o s with
    | Some (Some v) => Some v
    | _ => None
    end.
Proof.
  induction o as [|[k v] o IH]; simpl; intros Hnd; [reflexivity|].
  inversion Hnd as [|? ? Hk Hnd']; subst.
  destruct v as [v|]; simpl; destruct (String.eqb_spec k s) as [->|Hne];
    try reflexivity; try (now apply IH).
  apply getProp_None_keys. intros Hin. now apply Hk, keys_omitUndefined.
Qed.

(** The key of a group is read back, whatever the trace, when
    [hasOwnProperty] is no group-by field. *)
Lemma parseKey_groupKey (trace : Trace.t) (groupBy : list string) :
  ~ In "hasOwnProperty" groupBy ->
  exists groupKey,
    parseKey (buildTraceGroupKey trace groupBy) groupBy = Ok groupKey
    /\ forall s,
         getProp groupKey s
         = if in_dec string_dec s groupBy
           then (if String.eqb s "__proto__" then None
                 else Some (default "-" (getProp (Trace.metadata trace) s)))
           else None.
Proof.
  intros Hnin. unfold buildTraceGroupKey, parseKey.
  destruct (fold_assign_get (fun key => getProp (Trace.metadata trace) key) groupBy)
    as [Hnd Hget].
  rewrite JSON_roundtrip by now apply NoDup_omitUndefined.
  simpl.
  destruct (getProp_fillMissing groupBy Hnin
              (omitUndefined
                 (fold_left
                    (fun acc key => assign acc key (getProp (Trace.metadata trace) key))
                    groupBy [])))
    as (groupKey & Hfill & Hkey).
  - unfold hasOwnProperty. rewrite getProp_omitUndefined, Hget by exact Hnd.
    now destruct (in_dec string_dec "hasOwnProperty" groupBy).
  - rewrite getProp_omitUndefined, Hget by exact Hnd.
    now destruct (in_dec string_dec "__proto__" groupBy).
  - exists groupKey. split; [exact Hfill|]. intros s.
    rewrite Hkey, getProp_omitUndefined, Hget by exact Hnd.
    destruct (in_dec string_dec s groupBy); [|reflexivity].
    destruct (String.eqb s "__proto__"); [reflexivity|].
    now destruct (getProp (Trace.metadata trace) s).
Qed.

(** X7. Group key round trip: for every trace and every list of group-by
    fields without the field [hasOwnProperty], the group key that
    [buildTraceGroupKey] writes is read back by [parseKey] without an
    exception; the object read has exactly the group-by fields other than
    [__proto__] as properties, each with the value of the trace's metadata,
    or with the sentinel "-" when the metadata have no such property. *)
Theorem parseKey_buildTraceGroupKey (trace : Trace.t) (groupBy : list string) :
  ~ In "hasOwnProperty" groupBy ->
  exists groupKey,
    parseKey (buildTraceGroupKey trace groupBy) groupBy = Ok groupKey
    /\ (forall s v, In s groupBy -> s <> "__proto__" ->
          getProp (Trace.metadata trace) s = Some v -> getProp groupKey s = Some v)
    /\ (forall s, In s groupBy -> s <> "__proto__" ->
          getProp (Trace.metadata trace) s = None -> getProp groupKey s = Some "-")
    /\ (forall s, ~ In s groupBy \/ s = "__proto__" -> getProp groupKey s = None).
Proof.
  intros Hnin. destruct (parseKey_groupKey trace groupBy Hnin) as (groupKey & Hparse & Hget).
  exists groupKey. split; [exact Hparse|].
  split; [|split].
  - intros s v Hs Hne Hv. rewrite Hget, Hv. apply String.eqb_neq in Hne. rewrite Hne.
    now destruct (in_dec string_dec s groupBy).
  - intros s Hs Hne Hv. rewrite Hget, Hv. apply String.eqb_neq in Hne. rewrite Hne.
    now destruct (in_dec string_dec s groupBy).
  - intros s [Hs| ->]; rewrite Hget.
    + now destruct (in_dec string_dec s groupBy).
    + now destruct (in_dec string_dec "__proto__" groupBy).
Qed.

Lemma In_removelast_last (l : list string) (e : string) :
  In e l -> In e (removelast l) \/ e = List.last l "".
Proof.
  intros Hin. destruct l as [|a l]; [destruct Hin|].
  rewrite (app_removelast_last "" (l := a :: l)) in Hin by discriminate.
  apply in_app_or in Hin as [Hin|[<-|[]]]; [now left | now right].
Qed.

(** X8. Chart title: for every group key and list of group-by fields, the
    title is [Results] when there is no group-by field; otherwise it
    starts with [Results for run with] and holds, for every group-by
    field, the text [the <field> <value>] when the group key has a value
    for the field, the text [undefined <field>] when it has none and the
    field is no property of [Object.prototype], and the text
    [the <field> <text>], with the text of that property, when it is one. *)
Theorem buildTitleFromGroupKey_contents (groupKey : list (string * string))
  (groupBy : list string) :
  (groupBy = [] -> buildTitleFromGroupKey groupKey groupBy = "Results")
  /\ (groupBy <> [] ->
      exists entries,
        buildTitleFromGroupKey groupKey groupBy = "Results for run with " +:+ entries)
  /\ (forall field value, In field groupBy -> getProp groupKey field = Some value ->
        isSubstring ("the " +:+ field +:+ " " +:+ value)
          (buildTitleFromGroupKey groupKey groupBy))
  /\ (forall field, In field groupBy -> getProp groupKey field = None ->
        inherited field = false ->
        isSubstring ("undefined " +:+ field) (buildTitleFromGroupKey groupKey groupBy))
  /\ (forall field, In field groupBy -> getProp groupKey field = None ->
        inherited field = true ->
        isSubstring ("the " +:+ field +:+ " " +:+ builtinText field)
          (buildTitleFromGroupKey groupKey groupBy)).
Proof.
  unfold buildTitleFromGroupKey.
  set (entry := fun field =>
         match propertyOf groupKey field with
         | Undefined => "undefined " +:+ field
         | value => "the " +:+ field +:+ " " +:+ propertyText value
         end).
  assert (Hentries :
    forall field, In field groupBy ->
      isSubstring (entry field)
        match map entry groupBy with
        | [] => "Results"
        | [e] => "Results for run with " +:+ e
        | _ :: _ :: _ =>
            "Results for run with " +:+ String.concat ", " (removelast (map entry groupBy))
              +:+ " and " +:+ List.last (map entry groupBy) ""
        end).
  { intros field Hin. apply (in_map entry) in Hin.
    destruct (map entry groupBy) as [|e1 [|e2 es]] eqn:E; [destruct Hin | |].
    - destruct Hin as [<-|[]]. auto with tooltip.
    - rewrite <- E in *. apply In_removelast_last in Hin as [Hin| ->].
      + apply isSubstring_after. rewrite E. rewrite <- E.
        apply (isSubstring_concat ", ") in Hin.
        destruct Hin as (b & a & ->). exists b, (a +:+ " and " +:+ List.last (map entry groupBy) "").
        now rewrite !append_assoc.
      + auto 10 with tooltip. }
  split; [now intros ->|]. split.
  - intros Hne. destruct groupBy as [|f1 [|f2 fs]]; [congruence | |]; simpl; eauto.
  - split; [|split].
    + intros field value Hin Hv. specialize (Hentries field Hin).
      unfold entry at 1, propertyOf in Hentries. now rewrite Hv in Hentries.
    + intros field Hin Hv Hi. specialize (Hentries field Hin).
      unfold entry at 1, propertyOf in Hentries. now rewrite Hv, Hi in Hentries.
    + intros field Hin Hv Hi. specialize (Hentries field Hin).
      unfold entry at 1, propertyOf in Hentries. now rewrite Hv, Hi in Hentries.
Qed.

Lemma In_getProp {V : Type} (o : list (string * V)) (k : string) (v : V) :
  List.NoDup (map fst o) -> (In (k, v) o <-> getProp o k = Some v).
Proof.
  induction o as [|[k' v'] o IH]; simpl; intros Hnd; [split; [propositional | discriminate]|].
  inversion Hnd as [|? ? Hk Hnd']; subst.
  destruct (String.eqb_spec k' k) as [->|Hne].
  - split; [|intros [= ->]; now left].
    intros [[= ->]|Hin]; [reflexivity|]. exfalso. apply Hk.
    apply (in_map fst) in Hin. exact Hin.
  - rewrite <- (IH Hnd'). split; [|propositional]. intros [[= -> _]|Hin]; [congruence | exact Hin].
Qed.

(** [new Set(keys)] holds every value once. *)
Lemma newSet_from {A : Type} `{EqDecision A} (keys set : list A) :
  List.NoDup set ->
  List.NoDup
    (fold_left (fun set v => if bool_decide (v ∈ set) then set else (set ++ [v])%list)
       keys set)
  /\ forall v,
       In v (fold_left
               (fun set v => if bool_decide (v ∈ set) then set else (set ++ [v])%list)
               keys set)
       <-> In v set \/ In v keys.
Proof.
  revert set. induction keys as [|a keys IH]; intros set Hnd; simpl.
  - split; [exact Hnd | propositional].
  - destruct (decide (a ∈ set)) as [Hin|Hnin].
    + rewrite bool_decide_eq_true_2 by exact Hin.
      destruct (IH set Hnd) as [Hnd' Hmem]. split; [exact Hnd'|].
      intros v. rewrite Hmem. apply list_elem_of_In in Hin.
      split; [propositional|]. intros [H|[<-|H]]; propositional.
    + rewrite bool_decide_eq_false_2 by exact Hnin.
      assert (Hnin' : ~ In a set) by (intros H; now apply Hnin, list_elem_of_In).
      destruct (IH (set ++ [a])%list) as [Hnd' Hmem].
      { apply List.NoDup_app; [exact Hnd | repeat constructor; intros [] |].
        intros x Hx [<-|[]]. contradiction. }
      split; [exact Hnd'|]. intros v. rewrite Hmem, in_app_iff. simpl. propositional.
Qed.

Lemma unique_spec (keys : list (property string)) :
  List.NoDup (unique keys) /\ forall v, In v (unique keys) <-> In v keys.
Proof.
  destruct (newSet_from keys []) as [Hnd Hmem]; [constructor|].
  split; [exact Hnd|]. intros v. rewrite (Hmem v). simpl. propositional.
Qed.

(** The entries of [getUniqueValuesForKey]. *)
Lemma getUniqueValuesForKey_get (groupKeys : list (list (string * string)))
  (groupBy : list string) :
  List.NoDup (map fst (getUniqueValuesForKey groupKeys groupBy))
  /\ forall key,
       getProp (getUniqueValuesForKey groupKeys groupBy) key
       = if in_dec string_dec key groupBy
         then (if String.eqb key "__proto__" then None
               else Some (unique (map (fun k : list (string * string) => propertyOf k key)
                                    groupKeys)))
         else None.
Proof.
  apply (fold_assign_get
           (fun key => unique (map (fun k : list (string * string) => propertyOf k key)
                                 groupKeys))).
Qed.

(** X9. Values of the filter interface: for every list of group keys and
    of group-by fields, [getUniqueValuesForKey] has one entry per group-by
    field other than [__proto__], and the values of a field are what the
    group keys read for it (an own property, a property of
    [Object.prototype], or [undefined]), each of them once. *)
Theorem getUniqueValuesForKey_values (groupKeys : list (list (string * string)))
  (groupBy : list string) :
  List.NoDup (map fst (getUniqueValuesForKey groupKeys groupBy))
  /\ (forall key,
        In key (map fst (getUniqueValuesForKey groupKeys groupBy))
        <-> In key groupBy /\ key <> "__proto__")
  /\ (forall key values,
        getProp (getUniqueValuesForKey groupKeys groupBy) key = Some values ->
        List.NoDup values
        /\ forall v, In v values <-> exists k, In k groupKeys /\ propertyOf k key = v).
Proof.
  destruct (getUniqueValuesForKey_get groupKeys groupBy) as [Hnd Hget].
  split; [exact Hnd|]. split.
  - intros key. specialize (Hget key).
    destruct (in_dec string_dec key (map fst (getUniqueValuesForKey groupKeys groupBy)))
      as [H|H].
    + split; [intros _ | intros _; exact H].
      destruct (in_dec string_dec key groupBy) as [Hin|Hnin];
        [| exfalso; revert H; now apply getProp_None_keys].
      split; [exact Hin|]. intros ->. simpl in Hget.
      revert H. now apply getProp_None_keys.
    + split; [contradiction|]. intros [Hin Hne].
      apply getProp_None_keys in H. rewrite H in Hget.
      destruct (in_dec string_dec key groupBy); [|contradiction].
      apply String.eqb_neq in Hne. rewrite Hne in Hget. discriminate.
  - intros key values Hv. rewrite Hget in Hv.
    destruct (in_dec string_dec key groupBy); [|discriminate].
    destruct (String.eqb key "__proto__"); [discriminate|].
    injection Hv as <-.
    destruct (unique_spec (map (fun k : list (string * string) => propertyOf k key) groupKeys))
      as [Hnd' Hmem].
    split; [exact Hnd'|]. intros v. rewrite Hmem, in_map_iff.
    split; intros (k & H1 & H2); exists k; split; assumption.
Qed.

Lemma NoDup_flat_map_pairs {A B : Type} (g : A -> B) (o : list (string * list A)) :
  List.NoDup (map fst o) ->
  (forall k vs, In (k, vs) o -> List.NoDup (map g vs)) ->
  List.NoDup (flat_map (fun entry => map (fun v => (fst entry, g v)) (snd entry)) o).
Proof.
  induction o as [|[k vs] o IH]; simpl; intros Hnd Hvs; [constructor|].
  inversion Hnd as [|? ? Hk Hnd']; subst.
  apply List.NoDup_app.
  - specialize (Hvs k vs (or_introl eq_refl)).
    clear -Hvs. induction vs as [|v vs IH]; simpl in *; [constructor|].
    inversion Hvs as [|? ? Hv Hvs']; subst. constructor; [|now apply IH].
    intros Hin. apply in_map_iff in Hin as (v' & [= Heq] & Hin').
    apply Hv. rewrite <- Heq. now apply in_map.
  - apply IH; [exact Hnd'|]. intros k' vs' Hin. apply (Hvs k' vs'). now right.
  - intros [k' b] Hin1 Hin2.
    apply in_map_iff in Hin1 as (v & [= <- <-] & _).
    apply in_flat_map in Hin2 as ([k' vs'] & Hin & Hin2).
    apply in_map_iff in Hin2 as (v' & [= <- _] & _).
    apply Hk. apply (in_map fst) in Hin. exact Hin.
Qed.

(** The check boxes of the filter interface. *)
Lemma createFilterInterface_spec (groupKeys : list (list (string * string)))
  (groupBy : list string) :
  (forall key value,
     In (key, value) (createFilterInterface groupKeys groupBy)
     <-> In key groupBy /\ key <> "__proto__"
         /\ exists k, In k groupKeys /\ propertyText (propertyOf k key) = value)
  /\ ((forall k field, In k groupKeys -> In field groupBy -> field <> "__proto__" ->
          getProp k field <> None) ->
      List.NoDup (createFilterInterface groupKeys groupBy)).
Proof.
  destruct (getUniqueValuesForKey_get groupKeys groupBy) as [Hnd Hget].
  unfold createFilterInterface. split.
  - intros key value. rewrite in_flat_map. split.
    + intros ([key' values] & Hin & Hbox). simpl in Hbox.
      apply in_map_iff in Hbox as (v & [= -> <-] & Hv).
      apply (In_getProp _ _ _ Hnd) in Hin. rewrite Hget in Hin.
      destruct (in_dec string_dec key groupBy) as [Hkey|]; [|discriminate].
      destruct (String.eqb_spec key "__proto__") as [|Hne]; [discriminate|].
      injection Hin as <-. split; [exact Hkey|]. split; [exact Hne|].
      apply unique_spec, in_map_iff in Hv as (k & <- & Hk). eauto.
    + intros (Hkey & Hne & k & Hk & <-).
      exists (key, unique (map (fun k : list (string * string) => propertyOf k key) groupKeys)).
      split.
      * apply (In_getProp _ _ _ Hnd). rewrite Hget.
        apply String.eqb_neq in Hne. rewrite Hne.
        now destruct (in_dec string_dec key groupBy).
      * simpl. apply in_map_iff. exists (propertyOf k key). split; [reflexivity|].
        apply unique_spec, in_map_iff. eauto.
  - intros Hdef. apply NoDup_flat_map_pairs; [exact Hnd|].
    intros key values Hin. apply (In_getProp _ _ _ Hnd) in Hin. rewrite Hget in Hin.
    destruct (in_dec string_dec key groupBy) as [Hkey|]; [|discriminate].
    destruct (String.eqb_spec key "__proto__") as [|Hne]; [discriminate|].
    injection Hin as <-.
    destruct (unique_spec (map (fun k : list (string * string) => propertyOf k key) groupKeys))
      as [Hnd' Hmem].
    apply Finite.Injective_map_NoDup_in; [|exact Hnd'].
    assert (Hown : forall v,
              In v (unique (map (fun k : list (string * string) => propertyOf k key) groupKeys)) ->
              exists t, v = Own t).
    { intros v Hv. apply Hmem, in_map_iff in Hv as (k & <- & Hk).
      specialize (Hdef k key Hk Hkey Hne). unfold propertyOf.
      destruct (getProp k key) as [t|]; [eauto | contradiction]. }
    intros x y Hx Hy Heq. destruct (Hown x Hx) as [tx ->], (Hown y Hy) as [ty ->].
    simpl in Heq. now subst.
Qed.

(** X10. Check boxes: for every list of group keys and of group-by fields,
    [createFilterInterface] makes a check box for the field [key] and the
    value [value] exactly when [key] is a group-by field other than
    [__proto__] and [value] is the text of what some group key reads for
    it (the text [undefined] for a group key without the field, when the
    field is no property of [Object.prototype]); when every group key has
    every group-by field, as the keys that [parseKey] returns have, no two
    check boxes have the same field and value. *)
Theorem createFilterInterface_boxes (groupKeys : list (list (string * string)))
  (groupBy : list string) :
  (forall key value,
     In (key, value) (createFilterInterface groupKeys groupBy)
     <-> In key groupBy /\ key <> "__proto__"
         /\ exists k, In k groupKeys /\ propertyText (propertyOf k key) = value)
  /\ ((forall k field, In k groupKeys -> In field groupBy -> field <> "__proto__" ->
          getProp k field <> None) ->
      List.NoDup (createFilterInterface groupKeys groupBy)).
Proof. apply createFilterInterface_spec. Qed.

(** ** Show and hide of charts, in general *)

Lemma updateChart_attributes (hide : bool) (chart : Chart.t) (a : string) :
  a <> "hidden-by" ->
  Chart.attributes (updateChart hide chart) !! a = Chart.attributes chart !! a.
Proof.
  intros Hne. unfold updateChart.
  destruct hide; [simpl; now rewrite lookup_insert_ne|].
  destruct (if isTruthy _ then _ else _); simpl; now rewrite lookup_insert_ne.
Qed.

Lemma updateChart_hide (chart : Chart.t) :
  Chart.display (updateChart true chart) = Some "none".
Proof. reflexivity. Qed.

(** X15. Frame of a filter change: for every filter (field and value) and
    every list of charts, [setChartHiddenStatus] returns the same number of
    charts in the same order; a chart whose attribute for the field is not
    the value is left as it is; on every chart no attribute other than
    [hidden-by] changes; and with [hide] set, every chart that matches the
    filter gets the display [none]. *)
Theorem setChartHiddenStatus_frame (hide : bool) (key value : string)
  (charts : list Chart.t) :
  List.Forall2
    (fun chart chart' =>
       (Chart.attributes chart !! key <> Some value -> chart' = chart)
       /\ (forall a, a <> "hidden-by" ->
             Chart.attributes chart' !! a = Chart.attributes chart !! a)
       /\ (hide = true -> Chart.attributes chart !! key = Some value ->
           Chart.display chart' = Some "none"))
    charts (setChartHiddenStatus hide key value charts).
Proof.
  unfold setChartHiddenStatus. apply Forall2_map_right. intros chart _.
  destruct (decide (Chart.attributes chart !! key = Some value)) as [Hm|Hm].
  - rewrite bool_decide_eq_true_2 by exact Hm. split; [congruence|]. split.
    + intros a Ha. now apply updateChart_attributes.
    + now intros ->.
  - rewrite bool_decide_eq_false_2 by exact Hm. split; [reflexivity|].
    split; [reflexivity | congruence].
Qed.



Lemma ones_not_empty (k : nat) : ones (S k) <> "".
Proof.
  simpl. destruct (ones k); discriminate.
Qed.

(** X17. The counter of a chart that several filters hide: for every chart
    without a [hidden-by] attribute and every number [k] of filters that
    hide it one after the other, the attribute holds the digit 1 written
    [k + 1] times after the [k + 1]-th filter (1, 11, 111, ...), and the
    chart has the display [none]. *)
Theorem updateChart_hide_repeatedly (chart : Chart.t) (k : nat) :
  hiddenByOf chart = None ->
  hiddenByOf (Nat.iter (S k) (updateChart true) chart) = Some (ones (S k))
  /\ Chart.display (Nat.iter (S k) (updateChart true) chart) = Some "none".
Proof.
  intros Hfresh. induction k as [|k [IHattr IHdisplay]].
  - simpl. unfold hiddenByOf, updateChart in *. rewrite Hfresh. simpl.
    now rewrite lookup_insert_eq.
  - change (Nat.iter (S (S k)) (updateChart true) chart)
      with (updateChart true (Nat.iter (S k) (updateChart true) chart)).
    change (ones (S (S k))) with (ones (S k) +:+ "1").
    apply updateChart_hide_again; [exact IHattr | apply ones_not_empty].
Qed.
Lemma Forall2_In_l {A B : Type} (P : A -> B -> Prop) (l : list A) (l' : list B) (a : A) :
  List.Forall2 P l l' -> In a l -> exists b, In b l' /\ P a b.
Proof.
  induction 1 as [|a0 b0 l l' Hab _ IH]; intros Hin; [destruct Hin|].
  destruct Hin as [<-|Hin].
  - exists b0. split; [now left | exact Hab].
  - destruct (IH Hin) as (b & Hb & HP). exists b. split; [now right | exact HP].
Qed.

Lemma Forall2_In_r {A B : Type} (P : A -> B -> Prop) (l : list A) (l' : list B) (b : B) :
  List.Forall2 P l l' -> In b l' -> exists a, In a l /\ P a b.
Proof.
  induction 1 as [|a0 b0 l l' Hab _ IH]; intros Hin; [destruct Hin|].
  destruct Hin as [<-|Hin].
  - exists a0. split; [now left | exact Hab].
  - destruct (IH Hin) as (a & Ha & HP). exists a. split; [now right | exact HP].
Qed.
Lemma groupByFrom_Throw_inv {A : Type} (f : A -> result string) (items : list A) (e : exn) :
  forall groups,
    groupByFrom f items groups = Throw e -> exists a, In a items /\ f a = Throw e.
Proof.
  induction items as [|a0 items IH]; intros groups; simpl; [discriminate|].
  destruct (f a0) as [k|e0] eqn:E; simpl.
  - intros H. destruct (IH _ H) as (a & Ha & Hf). eauto.
  - intros [= ->]. eauto.
Qed.

Lemma mapM_Throw_inv {A B : Type} (f : A -> result B) (l : list A) (e : exn) :
  mapM f l = Throw e -> exists a, In a l /\ f a = Throw e.
Proof.
  induction l as [|a0 l IH]; simpl; [discriminate|].
  destruct (f a0) as [b|e0] eqn:E; simpl.
  - destruct (mapM f l) as [bs|e1]; simpl; [discriminate|].
    intros [= ->]. destruct IH as (a & Ha & Hf); eauto.
  - intros [= ->]. eauto.
Qed.

(** Every result is in one trace. *)
Lemma separateAllTraces_Permutation (commits : list Benchmark.t) (schema : list string)
  (traces : list Trace.t) :
  separateAllTraces commits schema = Ok traces ->
  Permutation (concat (map Trace.dataset traces)) (flatten commits).
Proof.
  intros H. destruct (separateAllTraces_groups _ _ _ H) as (groups & Hperm & _ & Htraces & _).
  replace (map Trace.dataset traces) with (map snd groups); [exact Hperm|].
  apply Forall2_map_eq. apply (Forall2_impl_In _ _ _ _ Htraces).
  intros [k ds] trace _ Hb. apply buildTrace_Ok in Hb as [Hb _]. now rewrite Hb.
Qed.

(** X1. The traces partition the history: whenever [separateAllTraces]
    returns, every result of every run is an observation of exactly one
    trace (the observations of all traces are the results of the history,
    rearranged); no trace is without an observation; in every trace the
    dates [x] and the values [dataNs] are those of its observations, in
    their order, each value being the result of [getNanoseconds]; the
    metadata of the trace has the unit [ns/iter], and [y] is not assigned
    yet. *)
Theorem separateAllTraces_partition (commits : list Benchmark.t) (schema : list string)
  (traces : list Trace.t) :
  separateAllTraces commits schema = Ok traces ->
  Permutation (concat (map Trace.dataset traces)) (flatten commits)
  /\ Forall
       (fun trace =>
          Trace.dataset trace <> []
          /\ Trace.x trace = map Observation.date (Trace.dataset trace)
          /\ List.Forall2
               (fun d ns =>
                  getNanoseconds (BenchmarkResult.value (Observation.bench d))
                    (BenchmarkResult.unit (Observation.bench d)) = Ok ns)
               (Trace.dataset trace) (Trace.dataNs trace)
          /\ getProp (Trace.metadata trace) "unit" = Some "ns/iter"
          /\ Trace.y trace = None)
       traces.
Proof.
  intros H. split; [now apply (separateAllTraces_Permutation commits schema)|].
  destruct (separateAllTraces_groups _ _ _ H) as (groups & _ & Hne & Htraces & _).
  apply (Forall2_Forall_r _ _ _ _ Htraces). intros [k ds] trace Hin Hb.
  apply buildTrace_Ok in Hb as (Hd & Hx & Hns & Hunit & Hy & _).
  rewrite Hd. repeat split; try assumption.
  rewrite List.Forall_forall in Hne. apply (Hne (k, ds) Hin).
Qed.

(** The conversion of a group: the values, or the error of the first unit
    that is not recognised. *)
Lemma mapM_getNanoseconds (dataset : list Observation.t) :
  (exists dataNs,
     mapM (fun d => getNanoseconds (BenchmarkResult.value (Observation.bench d))
                      (BenchmarkResult.unit (Observation.bench d))) dataset = Ok dataNs)
  \/ (exists d,
        In d dataset
        /\ unitFactor (charAt0 (BenchmarkResult.unit (Observation.bench d))) = None
        /\ mapM (fun d => getNanoseconds (BenchmarkResult.value (Observation.bench d))
                            (BenchmarkResult.unit (Observation.bench d))) dataset
           = Throw (UndefinedUnit (charAt0 (BenchmarkResult.unit (Observation.bench d))))).
Proof.
  induction dataset as [|d dataset IH]; simpl; [left; eauto|].
  destruct (unitFactor (charAt0 (BenchmarkResult.unit (Observation.bench d)))) as [factor|] eqn:E.
  - destruct (getNanoseconds_known (BenchmarkResult.value (Observation.bench d)) _ _ E)
      as (r & -> & _).
    simpl. destruct IH as [[dataNs ->]|(d' & Hd' & Hc & ->)]; simpl; [eauto|].
    right. exists d'. auto.
  - rewrite (getNanoseconds_unknown _ _ E). simpl. right. exists d. auto.
Qed.

(** What [buildTrace] throws on the group of a key: the error of a unit of
    the group. *)
Lemma buildTrace_Throw (schema : list string) (R : gmap string jsval) (k : string)
  (dataset : list Observation.t) (e : exn) :
  ~ In "hasOwnProperty" schema ->
  buildKey R schema = Ok k ->
  buildTrace schema (k, dataset) = Throw e ->
  exists d,
    In d dataset
    /\ unitFactor (charAt0 (BenchmarkResult.unit (Observation.bench d))) = None
    /\ e = UndefinedUnit (charAt0 (BenchmarkResult.unit (Observation.bench d))).
Proof.
  intros Hnin Hk Hthrow.
  destruct (parseKey_after_buildKey schema R k Hnin Hk) as (key & _ & _ & Hparse).
  unfold buildTrace in Hthrow. rewrite Hparse in Hthrow. simpl in Hthrow.
  destruct (mapM_getNanoseconds dataset) as [[dataNs Hns]|(d & Hd & Hc & Hns)];
    rewrite Hns in Hthrow; simpl in Hthrow; [discriminate|].
  injection Hthrow as <-. eauto.
Qed.

(** A result that has no key, or a schema with the field [hasOwnProperty]:
    a [TypeError], whatever the units are. *)
Lemma separateAllTraces_TypeError (commits : list Benchmark.t) (schema : list string) :
  (exists d, In d (flatten commits) /\ unkeyable schema (benchObject (Observation.bench d))) ->
  separateAllTraces commits schema = Throw TypeError.
Proof.
  intros (d & Hd & Hne & Hcause). unfold separateAllTraces.
  destruct (Object_groupBy _ _) as [groups|e0] eqn:Egroups; simpl.
  - assert (Hkey : forall d, In d (flatten commits) ->
              buildKey (benchObject (Observation.bench d)) schema = Ok (keyOf schema d)).
    { intros d' Hd'. destruct (groupByFrom_Ok _ _ _ _ Egroups d' Hd') as [k Hk].
      unfold keyOf. now rewrite Hk. }
    destruct (Object_groupBy_grouped _ (keyOf schema) (flatten commits) Hkey)
      as (groups' & Hgroups' & _ & _ & Hkeys).
    rewrite Egroups in Hgroups'. injection Hgroups' as <-.
    assert (Hin : In "hasOwnProperty" schema).
    { pose proof (buildKey_keyed _ _ _ (Hkey d Hd)) as [->|[Hm Hp]]; [contradiction|].
      destruct Hcause as [Hm'|[Hin|(s & Hs & Hnull)]];
        [congruence | exact Hin | now destruct (Hp s Hs)]. }
    destruct (mapM_Throw (buildTrace schema) groups (fun e => e = TypeError))
      as (e & -> & ->); [| |reflexivity].
    + intros [k ds] e Hg.
      apply (in_map fst), Hkeys in Hg as (d0 & Hd0 & Hk0). simpl in Hk0.
      pose proof (Hkey d0 Hd0) as Hbuild. rewrite Hk0 in Hbuild.
      unfold buildTrace. rewrite (parseKey_shadowed schema _ k Hin Hbuild). simpl.
      congruence.
    + assert (Hk : In (keyOf schema d) (map fst groups)) by (apply Hkeys; eauto).
      apply in_map_iff in Hk as ([k ds] & Hfst & Hg). simpl in Hfst. subst k.
      exists (keyOf schema d, ds), TypeError. split; [exact Hg|].
      unfold buildTrace. now rewrite (parseKey_shadowed schema _ _ Hin (Hkey d Hd)).
  - f_equal. apply groupByFrom_Throw_inv in Egroups as (d' & _ & Hthrow).
    now apply buildKey_Throw in Hthrow.
Qed.

(** With a key for every result, a unit that is not recognised: the error
    that names the first character of such a unit. *)
Lemma separateAllTraces_UndefinedUnit (commits : list Benchmark.t) (schema : list string) :
  (forall d, In d (flatten commits) ->
     keyable schema (benchObject (Observation.bench d))) ->
  (exists d, In d (flatten commits)
             /\ unitFactor (charAt0 (BenchmarkResult.unit (Observation.bench d))) = None) ->
  exists d,
    In d (flatten commits)
    /\ unitFactor (charAt0 (BenchmarkResult.unit (Observation.bench d))) = None
    /\ separateAllTraces commits schema
       = Throw (UndefinedUnit (charAt0 (BenchmarkResult.unit (Observation.bench d)))).
Proof.
  intros Hprint (d & Hd & Hunit). unfold separateAllTraces.
  set (data := flatten commits) in *.
  assert (Hkey : forall d, In d data ->
            buildKey (benchObject (Observation.bench d)) schema = Ok (keyOf schema d)).
  { intros d' Hd'. destruct (buildKey_total schema _ (proj1 (Hprint d' Hd'))) as [k Hk].
    unfold keyOf. now rewrite Hk. }
  assert (Hnin : ~ In "hasOwnProperty" schema) by apply (Hprint d Hd).
  destruct (Object_groupBy_grouped
              (fun benchEntry => buildKey (benchObject (Observation.bench benchEntry)) schema)
              (keyOf schema) data Hkey)
    as (groups & -> & Hnd & Hds & Hkeys).
  simpl.
  destruct (mapM_Throw (buildTrace schema) groups
              (fun e => exists d,
                 In d data
                 /\ unitFactor (charAt0 (BenchmarkResult.unit (Observation.bench d))) = None
                 /\ e = UndefinedUnit (charAt0 (BenchmarkResult.unit (Observation.bench d)))))
    as (e & -> & d' & Hd' & Hc & ->); [| |eauto].
  - intros [k ds] e Hin Hthrow.
    assert (Hk : In k (map fst groups)) by (apply (in_map fst) in Hin; exact Hin).
    apply Hkeys in Hk as (d0 & Hd0 & Hk0).
    pose proof (Hkey d0 Hd0) as Hbuild. rewrite Hk0 in Hbuild.
    destruct (buildTrace_Throw schema _ k ds e Hnin Hbuild Hthrow) as (d1 & Hd1 & Hc & ->).
    exists d1. split; [|auto]. rewrite (Hds k ds Hin) in Hd1.
    now apply List.filter_In in Hd1.
  - assert (Hk : In (keyOf schema d) (map fst groups)) by (apply Hkeys; eauto).
    apply in_map_iff in Hk as ([k ds] & Hfst & Hin). simpl in Hfst. subst k.
    pose proof (Hkey d Hd) as Hbuild.
    destruct (parseKey_after_buildKey schema _ _ Hnin Hbuild) as (key & _ & _ & Hparse).
    assert (Hmem : In d ds).
    { rewrite (Hds _ _ Hin). apply List.filter_In. split; [exact Hd|].
      apply String.eqb_refl. }
    exists (keyOf schema d, ds).
    destruct (mapM_getNanoseconds ds) as [[dataNs Hns]|(d1 & _ & _ & Hns)].
    + apply mapM_Forall2 in Hns. destruct (Forall2_In_l _ _ _ d Hns Hmem) as (ns & _ & Hok).
      rewrite (getNanoseconds_unknown _ _ Hunit) in Hok. discriminate.
    + eexists. split; [exact Hin|].
      unfold buildTrace. rewrite Hparse. simpl. now rewrite Hns.
Qed.

(** X3. Exceptions of the trace builder: for every history and schema
    with at least one field, [separateAllTraces] throws a [TypeError] when
    some result has [null] in a schema field or lacks the method
    [hasOwnProperty] of [Object.prototype], or when [hasOwnProperty] is a
    schema field and there is a result, whatever the units are; otherwise,
    when the unit of some result has no recognised prefix, it throws the
    error that names the first character of the unit of such a result. *)
Theorem separateAllTraces_exceptions (commits : list Benchmark.t) (schema : list string) :
  ((exists d, In d (flatten commits)
              /\ unkeyable schema (benchObject (Observation.bench d))) ->
   separateAllTraces commits schema = Throw TypeError)
  /\ ((forall d, In d (flatten commits) ->
         keyable schema (benchObject (Observation.bench d))) ->
      (exists d, In d (flatten commits)
                 /\ unitFactor (charAt0 (BenchmarkResult.unit (Observation.bench d))) = None) ->
      exists d,
        In d (flatten commits)
        /\ unitFactor (charAt0 (BenchmarkResult.unit (Observation.bench d))) = None
        /\ separateAllTraces commits schema
           = Throw (UndefinedUnit (charAt0 (BenchmarkResult.unit (Observation.bench d))))).
Proof.
  split; [apply separateAllTraces_TypeError | apply separateAllTraces_UndefinedUnit].
Qed.

(** X2. When the trace builder returns: for every history and schema,
    [separateAllTraces] returns traces if and only if every result has a
    key that can be read back (the schema is empty, or the result has the
    method [hasOwnProperty] of [Object.prototype] and no schema field of it
    is [null]; and [hasOwnProperty] is no schema field) and the unit of
    every result has a recognised prefix; one result that fails either
    test leaves the whole suite without traces. *)
Theorem separateAllTraces_returns (commits : list Benchmark.t) (schema : list string) :
  (exists traces, separateAllTraces commits schema = Ok traces)
  <-> (forall d, In d (flatten commits) ->
         keyable schema (benchObject (Observation.bench d)) /\ knownUnit d).
Proof.
  split.
  - intros [traces Htraces] d Hd.
    destruct (separateAllTraces_groups _ _ _ Htraces)
      as (groups & _ & _ & Hbuilt & Hgrouped & Hkey).
    assert (Hk : In (keyOf schema d) (map fst groups)) by (apply Hgrouped; eauto).
    apply in_map_iff in Hk as ([k ds] & Hfst & Hin). simpl in Hfst. subst k.
    destruct (Forall2_In_l _ _ _ _ Hbuilt Hin) as (trace & _ & Hb).
    destruct (buildTrace_metadata schema _ _ ds trace (Hkey d Hd) Hb) as (Hnin & _).
    split; [split; [apply (buildKey_keyed _ _ _ (Hkey d Hd)) | exact Hnin]|].
    assert (Hmem : In d ds).
    { destruct Hgrouped as (_ & Hds & _). rewrite (Hds _ _ Hin).
      apply List.filter_In. split; [exact Hd | apply String.eqb_refl]. }
    destruct (buildTrace_Ok _ _ _ _ Hb) as (_ & _ & Hns & _).
    destruct (Forall2_In_l _ _ _ d Hns Hmem) as (ns & _ & Hok).
    unfold knownUnit.
    destruct (unitFactor (charAt0 (BenchmarkResult.unit (Observation.bench d)))) as [factor|] eqn:E;
      [eauto|].
    rewrite (getNanoseconds_unknown _ _ E) in Hok. discriminate.
  - intros H.
    destruct (separateAllTraces_grouped commits schema) as (keys & traces & Htraces & _).
    + intros d Hd. now apply H.
    + intros d Hd. now apply H.
    + eauto.
Qed.
(** ** The page *)

Lemma adjustDataAndUnit_scaledBy (traces : list Trace.t) :
  exists factor, snd (adjustDataAndUnit traces) = scaledBy factor traces.
Proof.
  unfold adjustDataAndUnit, scaledBy.
  destruct (greaterThan _ 1000000000); [eexists; reflexivity|].
  destruct (greaterThan _ 1000000); [eexists; reflexivity|].
  destruct (greaterThan _ 1000); eexists; reflexivity.
Qed.

Lemma mapM_Ok {A B : Type} (f : A -> B) (l : list A) :
  mapM (fun a => Ok (f a)) l = Ok (map f l).
Proof. induction l as [|a l IH]; simpl; [reflexivity|]. now rewrite IH. Qed.

Lemma Forall2_map_same {A B C : Type} (P : B -> C -> Prop) (f : A -> B) (g : A -> C)
  (l : list A) :
  (forall a, In a l -> P (f a) (g a)) -> List.Forall2 P (map f l) (map g l).
Proof.
  induction l as [|a l IH]; intros H; simpl; constructor.
  - apply H. now left.
  - apply IH. intros a' Ha'. apply H. now right.
Qed.

(** The loop of [parseKey] keeps the properties apart, and adds none but
    fields of the schema. *)
Lemma fillMissing_NoDup (F : list string) :
  forall key key',
    fillMissing F key = Ok key' ->
    List.NoDup (map fst key) -> List.NoDup (map fst key').
Proof.
  induction F as [|s F IH]; intros key key' Hf Hnd; simpl in Hf; [congruence|].
  destruct (callHasOwnProperty key s) as [own|]; simpl in Hf; [|discriminate].
  apply (IH _ _ Hf). destruct own; [exact Hnd | now apply NoDup_keys_assign].
Qed.

Lemma keys_assign {V : Type} (o : list (string * V)) (k s : string) (v : V) :
  In s (map fst (assign o k v)) -> In s (map fst o) \/ s = k.
Proof.
  intros Hin. destruct (string_dec s k) as [->|Hne]; [now right|]. left.
  destruct (in_dec string_dec s (map fst o)) as [H|H]; [exact H|].
  apply getProp_None_keys in H. rewrite <- (getProp_assign_ne o k s v) in H by congruence.
  apply getProp_None_keys in H. contradiction.
Qed.

Lemma fillMissing_keys (F : list string) :
  forall key key' s,
    fillMissing F key = Ok key' ->
    In s (map fst key') -> In s (map fst key) \/ In s F.
Proof.
  induction F as [|s0 F IH]; intros key key' s Hf Hin; simpl in Hf.
  - left. congruence.
  - destruct (callHasOwnProperty key s0) as [own|]; simpl in Hf; [|discriminate].
    destruct (IH _ _ s Hf Hin) as [H|H]; [|right; now right].
    destruct own; [now left|].
    apply keys_assign in H as [H| ->]; [now left | right; now left].
Qed.

Lemma fillMissing_Throw (F : list string) :
  forall key e,
    fillMissing F key = Throw e ->
    e = TypeError /\ (hasOwnProperty key "hasOwnProperty" = true \/ In "hasOwnProperty" F).
Proof.
  induction F as [|s0 F IH]; intros key e Hf; simpl in Hf; [discriminate|].
  unfold callHasOwnProperty in Hf.
  destruct (hasOwnProperty key "hasOwnProperty") eqn:Hm; simpl in Hf.
  - injection Hf as <-. auto.
  - destruct (IH _ _ Hf) as [-> [H|H]]; split; try reflexivity; [|right; now right].
    destruct (hasOwnProperty key s0); [congruence|].
    destruct (string_dec s0 "hasOwnProperty") as [->|Hne]; [right; now left|].
    unfold hasOwnProperty in H. rewrite getProp_assign_ne in H by exact Hne.
    unfold hasOwnProperty in Hm. now rewrite Hm in H.
Qed.

(** The text of a group key is read back as it was written. *)
Lemma JSON_parse_groupKey (trace : Trace.t) (groupBy : list string) :
  exists key,
    JSON_parse (buildTraceGroupKey trace groupBy) = Ok key
    /\ List.NoDup (map fst key)
    /\ (forall s, In s (map fst key) -> In s groupBy).
Proof.
  unfold buildTraceGroupKey.
  destruct (fold_assign_get (fun key => getProp (Trace.metadata trace) key) groupBy)
    as [Hnd Hget].
  eexists. split; [apply JSON_roundtrip; now apply NoDup_omitUndefined|].
  split; [now apply NoDup_omitUndefined|].
  intros s Hs. apply keys_omitUndefined in Hs.
  destruct (in_dec string_dec s groupBy) as [H|H]; [exact H|].
  specialize (Hget s). destruct (in_dec string_dec s groupBy); [contradiction|].
  apply getProp_None_keys in Hget. contradiction.
Qed.

(** The group key of a trace, when it is read: its properties are apart
    and are group-by fields. *)
Lemma parseKey_groupKey_keys (trace : Trace.t) (groupBy : list string)
  (groupKey : list (string * string)) :
  parseKey (buildTraceGroupKey trace groupBy) groupBy = Ok groupKey ->
  List.NoDup (map fst groupKey) /\ (forall s, In s (map fst groupKey) -> In s groupBy).
Proof.
  unfold parseKey.
  destruct (JSON_parse_groupKey trace groupBy) as (key & -> & Hnd & Hkeys). simpl.
  intros Hf. split; [apply (fillMissing_NoDup _ _ _ Hf Hnd)|].
  intros s Hs. destruct (fillMissing_keys _ _ _ s Hf Hs) as [H|H]; auto.
Qed.

Lemma parseKey_groupKey_Throw (trace : Trace.t) (groupBy : list string) (e : exn) :
  parseKey (buildTraceGroupKey trace groupBy) groupBy = Throw e ->
  e = TypeError /\ In "hasOwnProperty" groupBy.
Proof.
  unfold parseKey.
  destruct (JSON_parse_groupKey trace groupBy) as (key & -> & Hnd & Hkeys). simpl.
  intros Hf. destruct (fillMissing_Throw _ _ _ Hf) as [-> [H|H]]; split; auto.
  apply Hkeys. unfold hasOwnProperty in H.
  destruct (in_dec string_dec "hasOwnProperty" (map fst key)) as [Hin|Hnin]; [exact Hin|].
  apply getProp_None_keys in Hnin. now rewrite Hnin in H.
Qed.

(** The attributes of a chart. *)
Lemma addAttributesToChartElement_Ok (groupKey : list (string * string)) :
  (forall s, In s (map fst groupKey) -> validAttributeName s = true) ->
  forall elem, exists elem', addAttributesToChartElement elem groupKey = Ok elem'.
Proof.
  induction groupKey as [|[key value] groupKey IH]; intros Hvalid elem; simpl; [eauto|].
  unfold setAttribute. rewrite (Hvalid key) by now left. simpl.
  apply IH. intros s Hs. apply Hvalid. now right.
Qed.

Lemma addAttributesToChartElement_Throw (groupKey : list (string * string)) :
  forall elem e,
    addAttributesToChartElement elem groupKey = Throw e ->
    e = InvalidCharacterError
    /\ exists s, In s (map fst groupKey) /\ validAttributeName s = false.
Proof.
  induction groupKey as [|[key value] groupKey IH]; intros elem e H; simpl in H;
    [discriminate|].
  unfold setAttribute in H. destruct (validAttributeName key) eqn:Hkey; simpl in H.
  - destruct (IH _ _ H) as (-> & s & Hs & Hinvalid). split; [reflexivity|].
    exists s. split; [now right | exact Hinvalid].
  - injection H as <-. split; [reflexivity|]. exists key. split; [now left | exact Hkey].
Qed.

(** A group that has a trace gets a chart and a plot, and nothing is
    written to the console. *)
Lemma renderGroup_Ok (groupBy schema : list string) (k : string) (ts : list Trace.t)
  (groupKey : list (string * string)) (elem : Chart.t) :
  parseKey k groupBy = Ok groupKey -> ts <> [] ->
  addAttributesToChartElement
    {| Chart.attributes := {[ "class" := "benchmark-graphs" ]}; Chart.display := None |}
    groupKey = Ok elem ->
  renderGroup groupBy (Fields schema) (k, ts)
  = Ok (Some elem,
        (buildTitleFromGroupKey groupKey groupBy,
         fst (adjustDataAndUnit
                (map (fun trace => addLegendNameAndTooltip trace groupBy schema) ts)),
         snd (adjustDataAndUnit
                (map (fun trace => addLegendNameAndTooltip trace groupBy schema) ts))),
        []).
Proof.
  intros Hparse Hne Helem. unfold renderGroup. rewrite Hparse. cbn [bind asArray].
  rewrite (mapM_Ok (fun trace => addLegendNameAndTooltip trace groupBy schema)). cbn [bind].
  unfold chartFilteredTraces. destruct ts as [|t ts]; [congruence|].
  cbn [map].
  destruct (adjustDataAndUnit _) as [unit traces]. now rewrite Helem.
Qed.

(** The traces of a suite, for a schema that is an array. *)
Lemma traces_of_suite (commits : list Benchmark.t) (schema : list string) :
  match flatten commits with
  | [] => Ok []
  | _ => let* schema := iterate (Fields schema) in separateAllTraces commits schema
  end
  = separateAllTraces commits schema.
Proof.
  destruct (flatten commits) eqn:E; [|reflexivity].
  unfold separateAllTraces. now rewrite E.
Qed.

(** The page of a suite whose traces could be built. *)
Lemma renderAllCharts_after_traces (data : BENCHMARK_DATA.t) (benchSet : string)
  (commits : list Benchmark.t) (schema groupBy : list string) (log1 log2 : list string)
  (traces : list Trace.t) :
  BENCHMARK_DATA.entries data !! benchSet = Some commits ->
  retrieveSchema data benchSet = Ok (Fields schema, log1) ->
  retrieveGroupBy data benchSet = Ok (Fields groupBy, log2) ->
  separateAllTraces commits schema = Ok traces ->
  ~ In "hasOwnProperty" groupBy ->
  (forall s, In s groupBy -> validAttributeName s = true) ->
  exists page groups groupKeys rendered,
    renderAllCharts data benchSet = Ok page
    /\ Object_groupBy traces (fun trace => Ok (buildTraceGroupKey trace groupBy)) = Ok groups
    /\ List.Forall2
         (fun group groupKey => parseKey (fst group) groupBy = Ok groupKey)
         groups groupKeys
    /\ Page.checkBoxes page = createFilterInterface groupKeys groupBy
    /\ Page.console page = (log1 ++ log2)%list
    /\ Page.charts page = map fst rendered
    /\ Page.plots page = map snd rendered
    /\ List.Forall2
         (fun group r =>
            exists groupKey factor,
              parseKey (fst group) groupBy = Ok groupKey
              /\ addAttributesToChartElement
                   {| Chart.attributes := {[ "class" := "benchmark-graphs" ]};
                      Chart.display := None |}
                   groupKey = Ok (fst r)
              /\ fst (fst (snd r)) = buildTitleFromGroupKey groupKey groupBy
              /\ snd (snd r)
                 = scaledBy factor
                     (map (fun trace => addLegendNameAndTooltip trace groupBy schema)
                        (snd group)))
         groups rendered.
Proof.
  intros Hentry Hschema HgroupBy Htraces Hnin Hvalid. unfold renderAllCharts.
  rewrite Hentry, Hschema, HgroupBy. cbn [bind].
  rewrite traces_of_suite, Htraces. cbn [bind asArray].
  destruct (Object_groupBy_grouped
              (fun trace => Ok (buildTraceGroupKey trace groupBy))
              (fun trace => buildTraceGroupKey trace groupBy) traces)
    as (groups & Hgroups & _ & _ & Hkeys); [reflexivity|].
  destruct (Object_groupBy_Permutation _ _ _ Hgroups) as [_ Hne].
  rewrite Hgroups. cbn [bind].
  assert (Hparse : forall group, In group groups ->
            exists groupKey, parseKey (fst group) groupBy = Ok groupKey).
  { intros [k ts] Hin. apply (in_map fst), Hkeys in Hin as (trace & _ & <-).
    destruct (parseKey_groupKey trace groupBy Hnin) as (groupKey & H & _). eauto. }
  assert (Helem : forall group groupKey, In group groups ->
            parseKey (fst group) groupBy = Ok groupKey ->
            exists elem,
              addAttributesToChartElement
                {| Chart.attributes := {[ "class" := "benchmark-graphs" ]};
                   Chart.display := None |} groupKey = Ok elem).
  { intros [k ts] groupKey Hin HgroupKey.
    apply (in_map fst), Hkeys in Hin as (trace & _ & Hk). simpl in HgroupKey, Hk.
    rewrite <- Hk in HgroupKey.
    destruct (parseKey_groupKey_keys trace groupBy groupKey HgroupKey) as [_ Hfields].
    apply addAttributesToChartElement_Ok. intros s Hs. now apply Hvalid, Hfields. }
  destruct (mapM_total (fun group : string * list Trace.t => parseKey (fst group) groupBy) groups Hparse)
    as (groupKeys & HgroupKeys & Hall).
  rewrite HgroupKeys. cbn [bind].
  destruct (mapM_total (renderGroup groupBy (Fields schema)) groups)
    as (rendered0 & Hrendered & Hall').
  { intros [k ts] Hin. destruct (Hparse _ Hin) as [groupKey HgroupKey].
    destruct (Helem _ _ Hin HgroupKey) as [elem Hattributes].
    rewrite (renderGroup_Ok groupBy schema k ts groupKey elem HgroupKey); [eauto | | exact Hattributes].
    rewrite List.Forall_forall in Hne. apply (Hne _ Hin). }
  rewrite Hrendered. cbn [bind].
  assert (Hshape :
    exists rendered,
      rendered0 = map (fun r => (Some (fst r), snd r, [])) rendered
      /\ List.Forall2
           (fun group r =>
              exists groupKey factor,
                parseKey (fst group) groupBy = Ok groupKey
                /\ addAttributesToChartElement
                     {| Chart.attributes := {[ "class" := "benchmark-graphs" ]};
                        Chart.display := None |}
                     groupKey = Ok (fst r)
                /\ fst (fst (snd r)) = buildTitleFromGroupKey groupKey groupBy
                /\ snd (snd r)
                   = scaledBy factor
                       (map (fun trace => addLegendNameAndTooltip trace groupBy schema)
                          (snd group)))
           groups rendered).
  { clear Hrendered Hgroups Hall HgroupKeys Hkeys.
    induction Hall' as [|[k ts] r0 groups rendered0 Hr _ IH].
    - exists []. split; [reflexivity | constructor].
    - destruct IH as (rendered & -> & Hrest).
      + now inversion Hne.
      + intros group Hin. apply Hparse. now right.
      + intros group groupKey Hin. apply Helem. now right.
      + destruct (Hparse (k, ts) (or_introl eq_refl)) as [groupKey HgroupKey].
        destruct (Helem _ _ (or_introl eq_refl) HgroupKey) as [elem Hattributes].
        rewrite (renderGroup_Ok groupBy schema k ts groupKey elem HgroupKey) in Hr;
          [| inversion Hne; assumption | exact Hattributes].
        injection Hr as <-.
        destruct (adjustDataAndUnit_scaledBy
                    (map (fun trace => addLegendNameAndTooltip trace groupBy schema) ts))
          as [factor Hfactor].
        eexists ((elem, _) :: rendered). split; [reflexivity|].
        constructor; [|exact Hrest].
        exists groupKey, factor. cbn [fst snd]. auto. }
  destruct Hshape as (rendered & -> & Hshape).
  eexists _, groups, groupKeys, rendered.
  split; [reflexivity|]. split; [reflexivity|]. split; [exact Hall|].
  cbn [Page.checkBoxes Page.console Page.charts Page.plots].
  split; [reflexivity|]. split; [|split; [|split; [|exact Hshape]]].
  - replace (concat (map snd (map (fun r => (Some (fst r), snd r, [])) rendered)))
      with (@nil string); [now rewrite app_nil_r|].
    clear. induction rendered as [|r rendered IH]; [reflexivity | exact IH].
  - clear. induction rendered as [|r rendered IH]; simpl; [reflexivity | now f_equal].
  - rewrite map_map. reflexivity.
Qed.

Lemma scaledBy_datasets (factor : Q) (groupBy schema : list string) (ts : list Trace.t) :
  map Trace.dataset
    (scaledBy factor (map (fun trace => addLegendNameAndTooltip trace groupBy schema) ts))
  = map Trace.dataset ts.
Proof. unfold scaledBy. rewrite !map_map. reflexivity. Qed.

Lemma Permutation_concat {A : Type} (l l' : list (list A)) :
  Permutation l l' -> Permutation (concat l) (concat l').
Proof.
  intros H. rewrite <- (map_id l), <- (map_id l'), <- !flat_map_concat_map.
  now apply Permutation_flat_map.
Qed.

(** X11. The page of a suite: for every document and suite whose schema
    and group-by are arrays, whose traces can be built, and whose group-by
    fields are names that [setAttribute] takes, [hasOwnProperty] not being
    one of them, [renderAllCharts] returns; the console holds the
    diagnostics of [retrieveSchema] and [retrieveGroupBy] and nothing else
    (no group is without traces, so [No datasets found] is never written);
    there is one chart element per plot; every plot has at least one
    trace, and every trace of a plot has its [y] values, its legend name
    and its tooltip texts. *)
Theorem renderAllCharts_page (data : BENCHMARK_DATA.t) (benchSet : string)
  (commits : list Benchmark.t) (schema groupBy : list string) (log1 log2 : list string)
  (traces : list Trace.t) :
  BENCHMARK_DATA.entries data !! benchSet = Some commits ->
  retrieveSchema data benchSet = Ok (Fields schema, log1) ->
  retrieveGroupBy data benchSet = Ok (Fields groupBy, log2) ->
  separateAllTraces commits schema = Ok traces ->
  ~ In "hasOwnProperty" groupBy ->
  (forall s, In s groupBy -> validAttributeName s = true) ->
  exists page,
    renderAllCharts data benchSet = Ok page
    /\ Page.console page = (log1 ++ log2)%list
    /\ length (Page.charts page) = length (Page.plots page)
    /\ Forall
         (fun plot =>
            snd plot <> []
            /\ Forall
                 (fun trace =>
                    Trace.y trace <> None /\ Trace.name trace <> None
                    /\ Trace.text trace <> None)
                 (snd plot))
         (Page.plots page).
Proof.
  intros Hentry Hschema HgroupBy Htraces Hnin Hvalid.
  destruct (renderAllCharts_after_traces data benchSet commits schema groupBy log1 log2
              traces Hentry Hschema HgroupBy Htraces Hnin Hvalid)
    as (page & groups & groupKeys & rendered & Hpage & Hgroups & HgroupKeys & _ & Hconsole
        & Hcharts & Hplots & Hrendered).
  exists page. split; [exact Hpage|]. split; [exact Hconsole|].
  destruct (Object_groupBy_Permutation _ _ _ Hgroups) as [_ Hne].
  rewrite Hcharts, Hplots. split.
  - now rewrite !length_map.
  - apply List.Forall_forall. intros plot Hplot.
    apply in_map_iff in Hplot as (r & <- & Hr).
    destruct (Forall2_In_r _ _ _ _ Hrendered Hr)
      as (group & Hin & groupKey & factor & _ & _ & _ & ->).
    split.
    + rewrite List.Forall_forall in Hne. specialize (Hne group Hin).
      destruct (snd group); [congruence | discriminate].
    + apply List.Forall_forall. intros trace Htrace. unfold scaledBy in Htrace.
      apply in_map_iff in Htrace as (trace' & <- & Htrace').
      apply in_map_iff in Htrace' as (trace'' & <- & _).
      repeat split; discriminate.
Qed.

(** X12. Every result is drawn once: for every document and suite whose
    schema and group-by are arrays, whose traces can be built, and whose
    group-by fields are names that [setAttribute] takes, [hasOwnProperty]
    not being one of them, the observations of the traces of all plots of
    the page are the results of all runs of the suite, rearranged: no
    result is left out, and none is drawn in two plots or in two traces. *)
Theorem renderAllCharts_every_result_once (data : BENCHMARK_DATA.t) (benchSet : string)
  (commits : list Benchmark.t) (schema groupBy : list string) (log1 log2 : list string)
  (traces : list Trace.t) :
  BENCHMARK_DATA.entries data !! benchSet = Some commits ->
  retrieveSchema data benchSet = Ok (Fields schema, log1) ->
  retrieveGroupBy data benchSet = Ok (Fields groupBy, log2) ->
  separateAllTraces commits schema = Ok traces ->
  ~ In "hasOwnProperty" groupBy ->
  (forall s, In s groupBy -> validAttributeName s = true) ->
  exists page,
    renderAllCharts data benchSet = Ok page
    /\ Permutation
         (concat (map Trace.dataset (concat (map snd (Page.plots page)))))
         (flatten commits).
Proof.
  intros Hentry Hschema HgroupBy Htraces Hnin Hvalid.
  destruct (renderAllCharts_after_traces data benchSet commits schema groupBy log1 log2
              traces Hentry Hschema HgroupBy Htraces Hnin Hvalid)
    as (page & groups & groupKeys & rendered & Hpage & Hgroups & _ & _ & _ & _ & Hplots
        & Hrendered).
  exists page. split; [exact Hpage|].
  destruct (Object_groupBy_Permutation _ _ _ Hgroups) as [Hperm _].
  pose proof (separateAllTraces_Permutation _ _ _ Htraces) as Hpartition.
  rewrite <- Hpartition.
  apply Permutation_concat.
  rewrite <- Hperm, !concat_map, !map_map, Hplots, !map_map.
  replace (map (fun r : Chart.t * (string * string * list Trace.t) =>
                  map Trace.dataset (snd (snd r)))
             rendered)
    with (map (fun group : string * list Trace.t => map Trace.dataset (snd group)) groups);
    [reflexivity|].
  apply Forall2_map_eq. apply (Forall2_impl_In _ _ _ _ Hrendered).
  intros group r _ (groupKey & factor & _ & _ & _ & ->).
  now rewrite scaledBy_datasets.
Qed.

(** X13. Check boxes of the page: for every document and suite whose
    schema and group-by are arrays, whose traces can be built, and whose
    group-by fields are names that [setAttribute] takes, [hasOwnProperty]
    not being one of them, the page has a check box for the field [key]
    and the value [value] exactly when [key] is a group-by field other
    than [__proto__] and some trace has [value] for it, the sentinel "-"
    standing for a field that the metadata of the trace lack; no two check
    boxes have the same field and value. *)
Theorem renderAllCharts_checkBoxes (data : BENCHMARK_DATA.t) (benchSet : string)
  (commits : list Benchmark.t) (schema groupBy : list string) (log1 log2 : list string)
  (traces : list Trace.t) :
  BENCHMARK_DATA.entries data !! benchSet = Some commits ->
  retrieveSchema data benchSet = Ok (Fields schema, log1) ->
  retrieveGroupBy data benchSet = Ok (Fields groupBy, log2) ->
  separateAllTraces commits schema = Ok traces ->
  ~ In "hasOwnProperty" groupBy ->
  (forall s, In s groupBy -> validAttributeName s = true) ->
  exists page,
    renderAllCharts data benchSet = Ok page
    /\ List.NoDup (Page.checkBoxes page)
    /\ forall key value,
         In (key, value) (Page.checkBoxes page)
         <-> In key groupBy /\ key <> "__proto__"
             /\ exists trace,
                  In trace traces
                  /\ default "-" (getProp (Trace.metadata trace) key) = value.
Proof.
  intros Hentry Hschema HgroupBy Htraces Hnin Hvalid.
  destruct (renderAllCharts_after_traces data benchSet commits schema groupBy log1 log2
              traces Hentry Hschema HgroupBy Htraces Hnin Hvalid)
    as (page & groups & groupKeys & rendered & Hpage & Hgroups & HgroupKeys & Hboxes & _).
  exists page. split; [exact Hpage|]. rewrite Hboxes.
  destruct (Object_groupBy_grouped
              (fun trace => Ok (buildTraceGroupKey trace groupBy))
              (fun trace => buildTraceGroupKey trace groupBy) traces)
    as (groups' & Hgroups' & _ & _ & Hkeys); [reflexivity|].
  rewrite Hgroups in Hgroups'. injection Hgroups' as <-.
  assert (Hfrom : forall groupKey, In groupKey groupKeys ->
            exists trace, In trace traces
              /\ forall s, getProp groupKey s
                           = if in_dec string_dec s groupBy
                             then (if String.eqb s "__proto__" then None
                                   else Some (default "-" (getProp (Trace.metadata trace) s)))
                             else None).
  { intros groupKey Hin.
    destruct (Forall2_In_r _ _ _ _ HgroupKeys Hin) as (group & Hgroup & Hparse).
    apply (in_map fst), Hkeys in Hgroup as (trace & Htrace & Hk).
    exists trace. split; [exact Htrace|].
    destruct (parseKey_groupKey trace groupBy Hnin) as (groupKey' & Hparse' & Hget).
    rewrite Hk, Hparse in Hparse'. now injection Hparse' as <-. }
  assert (Hto : forall trace, In trace traces ->
            exists groupKey, In groupKey groupKeys
              /\ forall s, getProp groupKey s
                           = if in_dec string_dec s groupBy
                             then (if String.eqb s "__proto__" then None
                                   else Some (default "-" (getProp (Trace.metadata trace) s)))
                             else None).
  { intros trace Htrace.
    assert (Hk : In (buildTraceGroupKey trace groupBy) (map fst groups))
      by (apply Hkeys; eauto).
    apply in_map_iff in Hk as (group & Hk & Hgroup).
    destruct (Forall2_In_l _ _ _ _ HgroupKeys Hgroup) as (groupKey & Hin & Hparse).
    exists groupKey. split; [exact Hin|].
    destruct (parseKey_groupKey trace groupBy Hnin) as (groupKey' & Hparse' & Hget).
    rewrite <- Hk, Hparse in Hparse'. now injection Hparse' as <-. }
  destruct (createFilterInterface_spec groupKeys groupBy) as [Hmem Hnd].
  split.
  - apply Hnd. intros k field Hk Hfield Hproto.
    destruct (Hfrom k Hk) as (trace & _ & Hget). rewrite Hget.
    apply String.eqb_neq in Hproto. rewrite Hproto.
    now destruct (in_dec string_dec field groupBy).
  - intros key value. rewrite Hmem. split.
    + intros (Hkey & Hproto & k & Hk & <-). split; [exact Hkey|]. split; [exact Hproto|].
      destruct (Hfrom k Hk) as (trace & Htrace & Hget). exists trace.
      split; [exact Htrace|]. unfold propertyOf. rewrite Hget.
      apply String.eqb_neq in Hproto. rewrite Hproto.
      now destruct (in_dec string_dec key groupBy).
    + intros (Hkey & Hproto & trace & Htrace & <-). split; [exact Hkey|].
      split; [exact Hproto|].
      destruct (Hto trace Htrace) as (groupKey & Hin & Hget). exists groupKey.
      split; [exact Hin|]. unfold propertyOf. rewrite Hget.
      apply String.eqb_neq in Hproto. rewrite Hproto.
      now destruct (in_dec string_dec key groupBy).
Qed.

(** The exceptions that [separateAllTraces] can throw. *)
Lemma separateAllTraces_Throw (commits : list Benchmark.t) (schema : list string) (e : exn) :
  separateAllTraces commits schema = Throw e ->
  e = TypeError \/ exists c, unitFactor c = None /\ e = UndefinedUnit c.
Proof.
  unfold separateAllTraces.
  destruct (Object_groupBy _ _) as [groups|e0] eqn:Egroups; simpl.
  - intros Hthrow.
    assert (Hkey : forall d, In d (flatten commits) ->
              buildKey (benchObject (Observation.bench d)) schema = Ok (keyOf schema d)).
    { intros d Hd. destruct (groupByFrom_Ok _ _ _ _ Egroups d Hd) as [k Hk].
      unfold keyOf. now rewrite Hk. }
    destruct (Object_groupBy_grouped _ (keyOf schema) (flatten commits) Hkey)
      as (groups' & Hgroups' & _ & _ & Hkeys).
    rewrite Egroups in Hgroups'. injection Hgroups' as <-.
    apply mapM_Throw_inv in Hthrow as ([k ds] & Hin & Hthrow).
    apply (in_map fst), Hkeys in Hin as (d0 & Hd0 & Hk0). simpl in Hk0.
    pose proof (Hkey d0 Hd0) as Hbuild. rewrite Hk0 in Hbuild.
    destruct (in_dec string_dec "hasOwnProperty" schema) as [Hshadow|Hnin].
    + left. unfold buildTrace in Hthrow.
      rewrite (parseKey_shadowed schema _ k Hshadow Hbuild) in Hthrow. simpl in Hthrow.
      congruence.
    + right. destruct (buildTrace_Throw schema _ k ds e Hnin Hbuild Hthrow)
        as (d & _ & Hc & ->).
      eauto.
  - intros [= ->]. left.
    apply groupByFrom_Throw_inv in Egroups as (d & _ & Hthrow).
    now apply buildKey_Throw in Hthrow.
Qed.

Lemma retrieveSchema_Throw (data : BENCHMARK_DATA.t) (benchSet : string) (e : exn) :
  retrieveSchema data benchSet = Throw e -> e = TypeError.
Proof.
  unfold retrieveSchema. destruct (negb _ || negb _); [discriminate|].
  destruct (BENCHMARK_DATA.schema data) as [| | | | |m]; simpl; try discriminate.
  destruct (hasOwnPropertyMethod isNullEntry m); simpl; [|congruence].
  now destruct (negb _).
Qed.

Lemma retrieveGroupBy_Throw (data : BENCHMARK_DATA.t) (benchSet : string) (e : exn) :
  retrieveGroupBy data benchSet = Throw e -> e = TypeError.
Proof.
  unfold retrieveGroupBy. destruct (negb _ || negb _); [discriminate|].
  destruct (BENCHMARK_DATA.groupBy data) as [| | | | |m]; simpl; try discriminate.
  destruct (hasOwnPropertyMethod isNullEntry m); simpl; [|congruence].
  now destruct (negb _).
Qed.

Lemma asArray_Throw (fields : fieldList) (e : exn) : asArray fields = Throw e -> e = TypeError.
Proof. destruct fields; simpl; congruence. Qed.

Lemma asArray_Ok (fields : fieldList) (l : list string) :
  asArray fields = Ok l -> fields = Fields l.
Proof. destruct fields; simpl; congruence. Qed.

(** What the body of the loop over the groups throws, on the key of a
    trace. *)
Lemma renderGroup_Throw (groupBy : list string) (schema : fieldList) (trace : Trace.t)
  (ts : list Trace.t) (e : exn) :
  renderGroup groupBy schema (buildTraceGroupKey trace groupBy, ts) = Throw e ->
  (e = TypeError /\ (In "hasOwnProperty" groupBy \/ forall l, schema <> Fields l))
  \/ (e = InvalidCharacterError /\ exists s, In s groupBy /\ validAttributeName s = false).
Proof.
  unfold renderGroup.
  destruct (parseKey (buildTraceGroupKey trace groupBy) groupBy) as [groupKey|e0] eqn:Hparse;
    cbn [bind].
  - destruct (asArray schema) as [l|e0] eqn:Hschema.
    + rewrite (mapM_Ok (fun trace => addLegendNameAndTooltip trace groupBy l)). cbn [bind].
      destruct (chartFilteredTraces _ _) as [[[[elem|] traces] unit] log]; cbn [bind];
        [|discriminate].
      destruct (addAttributesToChartElement elem groupKey) as [elem'|e0] eqn:Helem;
        cbn [bind]; [discriminate|].
      intros [= <-]. right.
      destruct (addAttributesToChartElement_Throw _ _ _ Helem) as (-> & s & Hs & Hinvalid).
      split; [reflexivity|]. exists s. split; [|exact Hinvalid].
      now apply (parseKey_groupKey_keys trace groupBy groupKey Hparse).
    + destruct ts as [|t ts]; simpl.
      * discriminate.
      * intros [= <-]. left.
        split; [now apply (asArray_Throw schema)|]. right. intros l ->. discriminate.
  - intros [= <-]. left. destruct (parseKey_groupKey_Throw _ _ _ Hparse) as [-> H]. auto.
Qed.

(** X14. Exceptions of the page: for every document and suite,
    [renderAllCharts] throws a [TypeError] when the document has no suite
    of that name.  When it has one, with a schema and a group-by that are
    arrays, an exception that [renderAllCharts] throws is the one that
    [separateAllTraces] throws, or a [TypeError] when [hasOwnProperty] is a
    group-by field, or an [InvalidCharacterError] when a group-by field is
    no name that [setAttribute] takes.  In every case the exception is a
    [TypeError], an [InvalidCharacterError], or the error of a unit
    without a recognised prefix. *)
Theorem renderAllCharts_exceptions (data : BENCHMARK_DATA.t) (benchSet : string) :
  (BENCHMARK_DATA.entries data !! benchSet = None ->
   renderAllCharts data benchSet = Throw TypeError)
  /\ (forall commits schema groupBy log1 log2 e,
        BENCHMARK_DATA.entries data !! benchSet = Some commits ->
        retrieveSchema data benchSet = Ok (Fields schema, log1) ->
        retrieveGroupBy data benchSet = Ok (Fields groupBy, log2) ->
        renderAllCharts data benchSet = Throw e ->
        separateAllTraces commits schema = Throw e
        \/ (e = TypeError /\ In "hasOwnProperty" groupBy)
        \/ (e = InvalidCharacterError
            /\ exists s, In s groupBy /\ validAttributeName s = false))
  /\ (forall e,
        renderAllCharts data benchSet = Throw e ->
        e = TypeError \/ e = InvalidCharacterError
        \/ exists c, unitFactor c = None /\ e = UndefinedUnit c).
Proof.
  assert (Hgroups : forall traces groupBy schema e,
            (let* groupedData :=
               Object_groupBy traces (fun trace => Ok (buildTraceGroupKey trace groupBy)) in
             let* groupKeys :=
               mapM (fun group : string * list Trace.t => parseKey (fst group) groupBy)
                 groupedData in
             let* rendered := mapM (renderGroup groupBy schema) groupedData in
             Ok (groupKeys, rendered)) = Throw e ->
            (e = TypeError /\ (In "hasOwnProperty" groupBy \/ forall l, schema <> Fields l))
            \/ (e = InvalidCharacterError
                /\ exists s, In s groupBy /\ validAttributeName s = false)).
  { intros traces groupBy schema e.
    destruct (Object_groupBy_grouped
                (fun trace => Ok (buildTraceGroupKey trace groupBy))
                (fun trace => buildTraceGroupKey trace groupBy) traces)
      as (groups & -> & _ & _ & Hkeys); [reflexivity|].
    cbn [bind].
    destruct (mapM (fun group : string * list Trace.t => parseKey (fst group) groupBy) groups)
      as [groupKeys|e0] eqn:HgroupKeys; cbn [bind].
    - destruct (mapM (renderGroup groupBy schema) groups) as [rendered|e0] eqn:Hrendered;
        cbn [bind]; [discriminate|].
      intros [= <-]. apply mapM_Throw_inv in Hrendered as ([k ts] & Hin & Hthrow).
      apply (in_map fst), Hkeys in Hin as (trace & _ & Hk). simpl in Hk. subst k.
      apply (renderGroup_Throw _ _ _ _ _ Hthrow).
    - intros [= <-]. apply mapM_Throw_inv in HgroupKeys as ([k ts] & Hin & Hthrow).
      apply (in_map fst), Hkeys in Hin as (trace & _ & Hk). simpl in Hk, Hthrow. subst k.
      destruct (parseKey_groupKey_Throw _ _ _ Hthrow) as [-> H]. auto. }
  assert (Hrest : forall traces groupBy schema log1 log2 e,
            (let* groupedData :=
               Object_groupBy traces (fun trace => Ok (buildTraceGroupKey trace groupBy)) in
             let* groupKeys :=
               mapM (fun group : string * list Trace.t => parseKey (fst group) groupBy)
                 groupedData in
             let checkBoxes := createFilterInterface groupKeys groupBy in
             let* rendered := mapM (renderGroup groupBy schema) groupedData in
             Ok {| Page.checkBoxes := checkBoxes;
                   Page.charts := flat_map (fun r => option_list (fst (fst r))) rendered;
                   Page.plots := map (fun r => snd (fst r)) rendered;
                   Page.console := (log1 ++ log2 ++ concat (map snd rendered))%list |})
            = Throw e ->
            (e = TypeError /\ (In "hasOwnProperty" groupBy \/ forall l, schema <> Fields l))
            \/ (e = InvalidCharacterError
                /\ exists s, In s groupBy /\ validAttributeName s = false)).
  { intros traces groupBy schema log1 log2 e H. apply (Hgroups traces groupBy schema e).
    destruct (Object_groupBy traces _) as [groups|e0]; cbn [bind] in *;
      [|now injection H as <-].
    destruct (mapM _ groups) as [groupKeys|e0]; cbn [bind] in *; [|now injection H as <-].
    destruct (mapM (renderGroup groupBy schema) groups) as [rendered|e0]; cbn [bind] in *;
      [discriminate | now injection H as <-]. }
  assert (Hnone : BENCHMARK_DATA.entries data !! benchSet = None ->
                  renderAllCharts data benchSet = Throw TypeError).
  { intros Hentry. unfold renderAllCharts. rewrite Hentry.
    destruct (retrieveSchema data benchSet) as [[schema log1]|e] eqn:E; [reflexivity|].
    simpl. f_equal. now apply (retrieveSchema_Throw data benchSet). }
  split; [exact Hnone|]. split.
  - intros commits schema groupBy log1 log2 e Hentry Hschema HgroupBy.
    unfold renderAllCharts. rewrite Hentry, Hschema, HgroupBy. cbn [bind].
    rewrite traces_of_suite.
    destruct (separateAllTraces commits schema) as [traces|e0]; cbn [bind asArray];
      [|intros [= <-]; now left].
    intros H. right.
    destruct (Hrest _ _ _ _ _ _ H) as [[-> [Hin|Hno]]|Hinvalid]; auto.
    now destruct (Hno schema).
  - intros e. unfold renderAllCharts.
    destruct (retrieveSchema data benchSet) as [[schema log1]|e0] eqn:Hschema; cbn [bind];
      [|intros [= <-]; left; now apply (retrieveSchema_Throw data benchSet)].
    destruct (match BENCHMARK_DATA.entries data !! benchSet with
              | Some commits => _
              | None => _
              end) as [traces|e0] eqn:Htraces; cbn [bind].
    + destruct (retrieveGroupBy data benchSet) as [[groupBy log2]|e0] eqn:HgroupBy;
        cbn [bind]; [|intros [= <-]; left; now apply (retrieveGroupBy_Throw data benchSet)].
      destruct (asArray groupBy) as [groupBy'|e0] eqn:Harray; cbn [bind];
        [|intros [= <-]; left; now apply (asArray_Throw groupBy)].
      intros H. destruct (Hrest _ _ _ _ _ _ H) as [[-> _]|[-> _]]; auto.
    + intros [= <-].
      destruct (BENCHMARK_DATA.entries data !! benchSet) as [commits|]; [|left; congruence].
      destruct (flatten commits) as [|d ds]; [discriminate|].
      destruct schema as [fields|v]; simpl in Htraces.
      * destruct (separateAllTraces_Throw _ _ _ Htraces) as [->|H]; auto.
      * destruct v as [| | |text]; simpl in Htraces; try (left; congruence).
        destruct (separateAllTraces_Throw _ _ _ Htraces) as [->|H]; auto.
Qed.
(** ** The display unit, in general *)

Lemma setY_setY (trace : Trace.t) (y y' : list Q) : setY (setY trace y) y' = setY trace y'.
Proof. reflexivity. Qed.

Lemma scaledBy_dataNs (factor : Q) (traces : list Trace.t) :
  map Trace.dataNs (scaledBy factor traces) = map Trace.dataNs traces.
Proof. unfold scaledBy. rewrite map_map. reflexivity. Qed.

Lemma scaledBy_scaledBy (factor factor' : Q) (traces : list Trace.t) :
  scaledBy factor' (scaledBy factor traces) = scaledBy factor' traces.
Proof. unfold scaledBy. rewrite map_map. reflexivity. Qed.

(** The unit and the divisor depend on the values in nanoseconds only. *)
Lemma adjustDataAndUnit_dataNs (traces traces' : list Trace.t) :
  map Trace.dataNs traces = map Trace.dataNs traces' ->
  exists unit factor,
    adjustDataAndUnit traces = (unit, scaledBy factor traces)
    /\ adjustDataAndUnit traces' = (unit, scaledBy factor traces').
Proof.
  intros H. unfold adjustDataAndUnit, scaledBy.
  replace (map (fun trace => Math_max (map Finite (Trace.dataNs trace))) traces')
    with (map (fun trace => Math_max (map Finite (Trace.dataNs trace))) traces).
  - destruct (greaterThan _ 1000000000); [eexists _, _; split; reflexivity|].
    destruct (greaterThan _ 1000000); [eexists _, _; split; reflexivity|].
    destruct (greaterThan _ 1000); eexists _, _; split; reflexivity.
  - rewrite <- (map_map Trace.dataNs (fun dataNs => Math_max (map Finite dataNs)) traces).
    rewrite <- (map_map Trace.dataNs (fun dataNs => Math_max (map Finite dataNs)) traces').
    now rewrite H.
Qed.

(** Without a value the maximum is [-Infinity]. *)
Lemma maxValue_no_data (traces : list Trace.t) :
  concat (map Trace.dataNs traces) = [] ->
  Math_max (map (fun trace => Math_max (map Finite (Trace.dataNs trace))) traces)
  = NegInfinity.
Proof.
  unfold Math_max at 1.
  induction traces as [|trace traces IH]; intros H; simpl in *; [reflexivity|].
  apply app_eq_nil in H as [Hd H]. rewrite Hd. simpl. now apply IH.
Qed.

(** X6. The display unit is computed from the values in nanoseconds:
    for every list of traces, [adjustDataAndUnit] leaves the values in
    nanoseconds of the traces as they are, so that a second call returns
    the same unit and the same traces as the first (nothing is scaled
    twice); and when no trace has a value, the unit is [ns/iter]. *)
Theorem adjustDataAndUnit_again (traces : list Trace.t) :
  map Trace.dataNs (snd (adjustDataAndUnit traces)) = map Trace.dataNs traces
  /\ adjustDataAndUnit (snd (adjustDataAndUnit traces)) = adjustDataAndUnit traces
  /\ (concat (map Trace.dataNs traces) = [] ->
      fst (adjustDataAndUnit traces) = "ns/iter").
Proof.
  destruct (adjustDataAndUnit_scaledBy traces) as [factor Hfactor].
  split; [rewrite Hfactor; apply scaledBy_dataNs|]. split.
  - rewrite Hfactor.
    destruct (adjustDataAndUnit_dataNs traces (scaledBy factor traces))
      as (unit & factor' & H1 & H2); [now rewrite scaledBy_dataNs|].
    now rewrite H2, H1, scaledBy_scaledBy.
  - intros H. unfold adjustDataAndUnit. now rewrite (maxValue_no_data traces H).
Qed.

(** The unit and the divisor, for the maximum [m]. *)
Lemma adjustDataAndUnit_factor (traces : list Trace.t) (m : Q) :
  Math_max (map (fun trace => Math_max (map Finite (Trace.dataNs trace))) traces) = Finite m ->
  exists unit factor,
    adjustDataAndUnit traces = (unit, scaledBy factor traces)
    /\ (0 < factor)%Q
    /\ (unit <> "s/iter" -> (m / factor <= 1000)%Q)
    /\ (unit <> "ns/iter" -> (1 < m / factor)%Q).
Proof.
  intros Hmax. unfold adjustDataAndUnit. rewrite Hmax. fold (scaledBy 1000000000 traces).
  destruct (greaterThan (Finite m) 1000000000) eqn:E9.
  { apply greaterThan_Finite in E9.
    exists "s/iter", 1000000000%Q. repeat split; try reflexivity.
    - congruence.
    - intros _. apply Qlt_shift_div_l; [reflexivity | lra]. }
  apply greaterThan_Finite_false in E9.
  destruct (greaterThan (Finite m) 1000000) eqn:E6.
  { apply greaterThan_Finite in E6.
    exists "ms/iter", 1000000%Q. repeat split; try reflexivity.
    - intros _. apply Qle_shift_div_r; [reflexivity | lra].
    - intros _. apply Qlt_shift_div_l; [reflexivity | lra]. }
  apply greaterThan_Finite_false in E6.
  destruct (greaterThan (Finite m) 1000) eqn:E3.
  { apply greaterThan_Finite in E3.
    exists (mu +:+ "s/iter"), 1000%Q. repeat split; try reflexivity.
    - intros _. apply Qle_shift_div_r; [reflexivity | lra].
    - intros _. apply Qlt_shift_div_l; [reflexivity | lra]. }
  apply greaterThan_Finite_false in E3.
  exists "ns/iter", 1%Q. repeat split; try reflexivity.
  - intros _. apply Qle_shift_div_r; [reflexivity | lra].
  - congruence.
Qed.

(** The values that are displayed are the values in nanoseconds, divided. *)
Lemma scaledBy_y (factor : Q) (traces : list Trace.t) (trace : Trace.t) (ys : list Q) (y : Q) :
  In trace (scaledBy factor traces) -> Trace.y trace = Some ys -> In y ys ->
  exists v, In v (concat (map Trace.dataNs traces)) /\ y = (v / factor)%Q.
Proof.
  unfold scaledBy. intros Htrace Hys Hy.
  apply in_map_iff in Htrace as (trace' & <- & Htrace'). simpl in Hys.
  injection Hys as <-. apply in_map_iff in Hy as (v & <- & Hv).
  exists v. split; [|reflexivity]. apply in_concat. exists (Trace.dataNs trace').
  split; [now apply in_map | exact Hv].
Qed.

Lemma scaledBy_value (factor : Q) (traces : list Trace.t) (v : Q) :
  In v (concat (map Trace.dataNs traces)) ->
  exists trace ys,
    In trace (scaledBy factor traces) /\ Trace.y trace = Some ys /\ In (v / factor)%Q ys.
Proof.
  intros Hv. apply in_concat in Hv as (vs & Hvs & Hv).
  apply in_map_iff in Hvs as (trace & <- & Htrace).
  exists (setY trace (map (fun d => (d / factor)%Q) (Trace.dataNs trace))),
    (map (fun d => (d / factor)%Q) (Trace.dataNs trace)).
  split; [|split; [reflexivity|]].
  - unfold scaledBy.
    apply (in_map (fun trace => setY trace (map (fun d => (d / factor)%Q) (Trace.dataNs trace)))),
      Htrace.
  - apply (in_map (fun d => (d / factor)%Q)), Hv.
Qed.

(** X5. Range of the displayed values: for every list of traces with at
    least one value in nanoseconds, the [y] of every trace that
    [adjustDataAndUnit] returns holds the values in nanoseconds of the
    trace, each divided by one positive factor, so that two values are in
    the same order before and after; unless the unit is seconds, no [y]
    value is above 1000; and unless the unit is nanoseconds, some [y]
    value is above 1. *)
Theorem adjustDataAndUnit_range (traces : list Trace.t) :
  concat (map Trace.dataNs traces) <> [] ->
  exists unit factor,
    displayed unit factor traces (adjustDataAndUnit traces)
    /\ (0 < factor)%Q
    /\ (forall v w : Q, (v <= w)%Q <-> (v / factor <= w / factor)%Q)
    /\ (unit <> "s/iter" ->
        forall trace ys y,
          In trace (snd (adjustDataAndUnit traces)) -> Trace.y trace = Some ys -> In y ys ->
          (y <= 1000)%Q)
    /\ (unit <> "ns/iter" ->
        exists trace ys y,
          In trace (snd (adjustDataAndUnit traces)) /\ Trace.y trace = Some ys /\ In y ys
          /\ (1 < y)%Q).
Proof.
  intros Hne. destruct (maxValue_spec traces Hne) as (m & Hmax & Hin & Hbound).
  destruct (adjustDataAndUnit_factor traces m Hmax) as (unit & factor & -> & Hpos & Hle & Hlt).
  exists unit, factor. split; [apply displayed_scaledBy|]. split; [exact Hpos|].
  assert (Hinv : (0 < / factor)%Q) by now apply Qinv_lt_0_compat.
  split; [|split].
  - intros v w. unfold Qdiv. split; intros H.
    + apply Qmult_le_compat_r; [exact H | now apply Qlt_le_weak].
    + apply Qmult_le_r in H; assumption.
  - intros Hunit trace ys y Htrace Hys Hy. simpl in Htrace.
    destruct (scaledBy_y factor traces trace ys y Htrace Hys Hy) as (v & Hv & ->).
    apply Qle_trans with (m / factor)%Q; [|now apply Hle].
    unfold Qdiv. apply Qmult_le_compat_r; [now apply Hbound | now apply Qlt_le_weak].
  - intros Hunit. destruct (scaledBy_value factor traces m Hin) as (trace & ys & H1 & H2 & H3).
    exists trace, ys, (m / factor)%Q. simpl. auto.
Qed.

(** ** The legend name, in general *)

(** X4. Legend name of a trace: for every record whose key [buildKey]
    returns and every trace that [buildTrace] makes of that key, the
    legend name is the texts of the record's schema fields that are not
    group-by fields and not [unit], in the order of the schema, joined by
    one blank each; the text of a field that the record lacks is the
    sentinel "-", which is part of the name like any other text, and the
    text of the field [__proto__] is that of the object that the metadata
    inherit from, [[object Object]]. *)
Theorem getLegendName_built (schema groupBy : list string) (R : gmap string jsval)
  (k : string) (dataset : list Observation.t) (trace : Trace.t) :
  buildKey R schema = Ok k ->
  buildTrace schema (k, dataset) = Ok trace ->
  getLegendName trace groupBy schema
  = String.concat " "
      (map (legendText R)
         (List.filter (fun s => negb (includes groupBy s) && negb (String.eqb s "unit"))
            schema)).
Proof.
  intros Hk Htrace.
  destruct (buildTrace_metadata schema R k dataset trace Hk Htrace)
    as (_ & Hproto & Hfield & _).
  unfold getLegendName. f_equal.
  assert (H : forall l, (forall s, In s l -> In s schema) ->
            map (fun entry : string * property string => propertyText (snd entry))
              (List.filter
                 (fun entry : string * property string =>
                    negb (includes groupBy (fst entry))
                    && negb (String.eqb (fst entry) "unit")
                    && isDefined (snd entry))
                 (map (fun key => (key, propertyOf (Trace.metadata trace) key)) l))
            = map (legendText R)
                (List.filter
                   (fun s => negb (includes groupBy s) && negb (String.eqb s "unit")) l)).
  { induction l as [|s l IH]; intros Hl; [reflexivity|].
    specialize (IH (fun s' Hs' => Hl s' (or_intror Hs'))).
    cbn [map List.filter fst snd].
    destruct (includes groupBy s); cbn [negb andb]; [exact IH|].
    destruct (String.eqb_spec s "unit") as [->|Hne]; cbn [negb andb]; [exact IH|].
    assert (Hvalue : isDefined (propertyOf (Trace.metadata trace) s) = true
                     /\ propertyText (propertyOf (Trace.metadata trace) s) = legendText R s).
    { unfold propertyOf, legendText.
      destruct (String.eqb_spec s "__proto__") as [->|Hs].
      - rewrite Hproto. split; reflexivity.
      - rewrite (Hfield s) by (auto || now apply Hl; left). split; reflexivity. }
    destruct Hvalue as [Hdefined Htext]. rewrite Hdefined. cbn [map snd].
    now rewrite Htext, IH. }
  now apply H.
Qed.
(** ** The arguments of the update script *)

Lemma split_not_empty (sep : ascii) (s : string) : split sep s <> [].
Proof.
  destruct s as [|c s]; simpl; [discriminate|].
  destruct (Ascii.eqb c sep); [discriminate|].
  destruct (split sep s); discriminate.
Qed.

(** Joining the pieces with the separator gives the string back. *)
Lemma concat_split (sep : ascii) (s : string) :
  String.concat (String sep "") (split sep s) = s.
Proof.
  induction s as [|c s IH]; simpl; [reflexivity|].
  destruct (Ascii.eqb_spec c sep) as [->|Hne].
  - pose proof (split_not_empty sep s) as Hs.
    destruct (split sep s) as [|piece pieces]; [congruence|].
    change (String.concat (String sep "") ("" :: piece :: pieces))
      with (String sep (String.concat (String sep "") (piece :: pieces))).
    now rewrite IH.
  - pose proof (split_not_empty sep s) as Hs.
    destruct (split sep s) as [|piece pieces]; [congruence|].
    rewrite <- IH. now destruct pieces.
Qed.

Lemma split_pieces (sep : ascii) (s : string) :
  Forall (fun piece => hasChar sep piece = false) (split sep s).
Proof.
  induction s as [|c s IH]; simpl; [repeat constructor|].
  destruct (Ascii.eqb_spec c sep) as [->|Hne].
  - constructor; [reflexivity | exact IH].
  - destruct (split sep s) as [|piece pieces].
    + repeat constructor. simpl. apply Ascii.eqb_neq in Hne. now rewrite Hne.
    + inversion IH as [|? ? Hpiece Hpieces]; subst. constructor; [|exact Hpieces].
      simpl. apply Ascii.eqb_neq in Hne. now rewrite Hne.
Qed.

Lemma split_empty_piece (sep : ascii) (s : string) : split sep s = [""] -> s = "".
Proof.
  intros H. rewrite <- (concat_split sep s), H. reflexivity.
Qed.

Lemma parse_fields (defaults : list string) (s : string) :
  (if (length (split "," s) =? 1)%nat && String.eqb (nth 0 (split "," s) "") ""
   then defaults else split "," s)
  = if String.eqb s "" then defaults else split "," s.
Proof.
  destruct (String.eqb_spec s "") as [->|Hne]; [reflexivity|].
  destruct (split "," s) as [|piece [|piece' pieces]] eqn:E; try reflexivity.
  simpl. destruct (String.eqb_spec piece "") as [->|Hp]; [|reflexivity].
  now apply split_empty_piece in E.
Qed.

(** X18. Schema and group-by arguments: for every argument text,
    [parseSchema] and [parseGroupBy] return the default fields (name,
    platform, os, keySize, api, category; and os) when the argument is
    missing or empty; otherwise they return the pieces of the argument
    between its commas, as they are (not trimmed, the empty ones
    included): no piece has a comma, there is at least one piece, and the
    pieces joined by commas are the argument again. *)
Theorem parseSchema_fields (schema : string) :
  parseSchema None = ["name"; "platform"; "os"; "keySize"; "api"; "category"]
  /\ parseGroupBy None = ["os"]
  /\ parseSchema (Some schema)
     = (if String.eqb schema ""
        then ["name"; "platform"; "os"; "keySize"; "api"; "category"]
        else split "," schema)
  /\ parseGroupBy (Some schema)
     = (if String.eqb schema "" then ["os"] else split "," schema)
  /\ split "," schema <> []
  /\ Forall (fun key => hasChar "," key = false) (split "," schema)
  /\ String.concat "," (split "," schema) = schema.
Proof.
  split; [reflexivity|]. split; [reflexivity|].
  split; [apply parse_fields|]. split; [apply parse_fields|].
  split; [apply split_not_empty|]. split; [apply split_pieces | apply concat_split].
Qed.

(** ** Loading the results of a run *)

Lemma readProp_setProp_eq (o : list (string * option jsval)) (k : string)
  (v : option jsval) : readProp (setProp o k v) k = v.
Proof. unfold readProp. now rewrite getProp_setProp_eq. Qed.

Lemma readProp_setProp_ne (o : list (string * option jsval)) (k k' : string)
  (v : option jsval) : k <> k' -> readProp (setProp o k v) k' = readProp o k'.
Proof. intros H. unfold readProp. now rewrite getProp_setProp_ne. Qed.

Lemma readProp_assign (o : list (string * option jsval)) (k k' : string) :
  readProp (if negb (hasOwnProperty o k) then assign o k None else o) k' = readProp o k'.
Proof.
  unfold hasOwnProperty, readProp.
  destruct (getProp o k) as [v|] eqn:E; simpl; [reflexivity|].
  destruct (string_dec k k') as [<-|Hne].
  - unfold assign, hasOwnProperty. rewrite E.
    destruct (String.eqb k "__proto__"); simpl; [now rewrite E|].
    now rewrite getProp_setProp_eq.
  - now rewrite getProp_assign_ne.
Qed.

Lemma hasOwnProperty_assign {V : Type} (o : list (string * V)) (k k' : string) (v : V) :
  hasOwnProperty (if negb (hasOwnProperty o k) then assign o k v else o) k' = true
  <-> hasOwnProperty o k' = true \/ (k' = k /\ k <> "__proto__").
Proof.
  destruct (hasOwnProperty o k) eqn:E; simpl.
  - split; [now left|]. intros [H|[-> _]]; assumption.
  - destruct (String.eqb_spec k "__proto__") as [->|Hne].
    + rewrite assign_proto by (unfold hasOwnProperty in E; now destruct (getProp o "__proto__")).
      split; [now left|]. intros [H|[_ H]]; [exact H | contradiction].
    + rewrite assign_other by exact Hne. unfold hasOwnProperty.
      destruct (string_dec k k') as [<-|Hk].
      * rewrite getProp_setProp_eq. split; [intros _; right; now split | reflexivity].
      * rewrite getProp_setProp_ne by exact Hk.
        split; [now left|]. intros [H|[-> _]]; [exact H | contradiction].
Qed.

Lemma hasOwnProperty_setProp {V : Type} (o : list (string * V)) (k k' : string) (v : V) :
  hasOwnProperty (setProp o k v) k'
  = (String.eqb k k' || hasOwnProperty o k').
Proof.
  unfold hasOwnProperty. destruct (String.eqb_spec k k') as [->|Hne]; simpl.
  - now rewrite getProp_setProp_eq.
  - now rewrite getProp_setProp_ne.
Qed.

(** One schema key: what is read afterwards. *)
Lemma readProp_fillKey (result : list (string * option jsval)) (key k : string) :
  readProp (fillKey result key) k = afterLoad (readProp result k) k.
Proof.
  unfold fillKey, afterLoad.
  set (r1 := if negb (hasOwnProperty result key) then assign result key None else result).
  assert (H1 : forall k', readProp r1 k' = readProp result k')
    by (intros k'; apply readProp_assign).
  set (r2 := if falsy (readProp r1 "range") then setProp r1 "range" None else r1).
  assert (H2 : forall k', readProp r2 k'
                 = if String.eqb k' "range" && falsy (readProp result k') then None
                   else readProp result k').
  { intros k'. unfold r2. rewrite H1.
    destruct (String.eqb_spec k' "range") as [->|Hne]; simpl.
    - destruct (falsy (readProp result "range")) eqn:E.
      + apply readProp_setProp_eq.
      + apply H1.
    - destruct (falsy (readProp result "range")); [|apply H1].
      rewrite readProp_setProp_ne by congruence. apply H1. }
  rewrite (H2 "extra"). simpl.
  destruct (String.eqb_spec k "range") as [->|Hr]; simpl.
  - destruct (falsy (readProp result "extra")).
    + rewrite readProp_setProp_ne by discriminate. apply H2.
    + apply H2.
  - destruct (String.eqb_spec k "extra") as [->|He]; simpl.
    + destruct (falsy (readProp result "extra")) eqn:E.
      * apply readProp_setProp_eq.
      * rewrite H2. simpl. reflexivity.
    + destruct (falsy (readProp result "extra")).
      * rewrite readProp_setProp_ne by congruence. rewrite H2.
        apply String.eqb_neq in Hr. now rewrite Hr.
      * rewrite H2. apply String.eqb_neq in Hr. now rewrite Hr.
Qed.

Lemma afterLoad_afterLoad (before : option jsval) (k : string) :
  afterLoad (afterLoad before k) k = afterLoad before k.
Proof.
  unfold afterLoad. destruct (String.eqb k "range" || String.eqb k "extra"); simpl;
    [|reflexivity].
  destruct (falsy before) eqn:E; simpl; [reflexivity | now rewrite E].
Qed.

Lemma hasOwnProperty_fillKey (result : list (string * option jsval)) (key k : string) :
  hasOwnProperty (fillKey result key) k = true
  <-> hasOwnProperty result k = true \/ (k = key /\ key <> "__proto__")
      \/ (k = "range" /\ falsy (readProp result "range") = true)
      \/ (k = "extra" /\ falsy (readProp result "extra") = true).
Proof.
  pose proof (readProp_fillKey result key "extra") as Hextra.
  unfold fillKey in *.
  set (r1 := if negb (hasOwnProperty result key) then assign result key None else result)
    in *.
  assert (H1 : hasOwnProperty r1 k = true
               <-> hasOwnProperty result k = true \/ (k = key /\ key <> "__proto__"))
    by apply hasOwnProperty_assign.
  assert (Hr1 : forall k', readProp r1 k' = readProp result k')
    by (intros k'; apply readProp_assign).
  set (r2 := if falsy (readProp r1 "range") then setProp r1 "range" None else r1) in *.
  assert (H2 : hasOwnProperty r2 k = true
               <-> hasOwnProperty r1 k = true
                   \/ (k = "range" /\ falsy (readProp result "range") = true)).
  { unfold r2. rewrite Hr1. destruct (falsy (readProp result "range")).
    - rewrite hasOwnProperty_setProp, orb_true_iff, String.eqb_eq.
      split; intros [H|H]; auto. destruct H as [-> _]. now left.
    - split; [propositional|]. intros [H|[_ H]]; [exact H | discriminate]. }
  assert (Hr2 : readProp r2 "extra" = readProp result "extra").
  { unfold r2. destruct (falsy (readProp r1 "range")).
    - rewrite readProp_setProp_ne by discriminate. apply Hr1.
    - apply Hr1. }
  rewrite Hr2. destruct (falsy (readProp result "extra")).
  - rewrite hasOwnProperty_setProp, orb_true_iff, String.eqb_eq, H2, H1.
    split; [intros [<-|[[H|H]|H]]; auto | intros [H|[H|[H|[-> _]]]]; auto].
  - rewrite H2, H1. split; [intros [[H|H]|H]; auto|].
    intros [H|[H|[H|[_ H]]]]; auto. discriminate.
Qed.

(** The loop over the schema: what is read afterwards, and the own
    properties that there are. *)
Lemma fold_fillKey (schema : list string) :
  schema <> [] ->
  forall (result : list (string * option jsval)) (k : string),
    readProp (fold_left fillKey schema result) k = afterLoad (readProp result k) k
    /\ (In k schema -> k <> "__proto__" ->
        hasOwnProperty (fold_left fillKey schema result) k = true)
    /\ (hasOwnProperty result k = true ->
        hasOwnProperty (fold_left fillKey schema result) k = true).
Proof.
  induction schema as [|key schema IH]; intros Hne result k; [congruence|].
  simpl. destruct schema as [|key' schema].
  - simpl. split; [apply readProp_fillKey|]. split.
    + intros [<-|[]] Hproto. apply hasOwnProperty_fillKey. auto.
    + intros H. apply hasOwnProperty_fillKey. auto.
  - destruct (IH ltac:(discriminate) (fillKey result key) k) as (Hread & Hin & Hown).
    split; [|split].
    + rewrite Hread, readProp_fillKey. apply afterLoad_afterLoad.
    + intros [<-|H] Hproto; [|now apply Hin]. apply Hown, hasOwnProperty_fillKey. auto.
    + intros H. apply Hown, hasOwnProperty_fillKey. auto.
Qed.

(** X19. What loading changes in a result: for every run loaded with a
    non-empty schema and every result of it, every schema field other than
    [__proto__] is an own property of the result afterwards (with the value
    [undefined] when it was not there), no own property is lost, and every
    property reads as it did before, except a [range] or an [extra] that was falsy (the empty
    string, 0, [false], [null]), which reads [undefined]; the run has as
    many results as were parsed, in their order, and the commit, the flag
    and the time that it was given. *)
Theorem loadBenchmarkResult_fields (now : Z) (commit : Commit.t) (bigger_is_better : bool)
  (benches : list (list (string * option jsval))) (schema : list string) :
  schema <> [] ->
  let bench := loadBenchmarkResult now commit bigger_is_better benches schema in
  LoadedBenchmark.commit bench = commit
  /\ LoadedBenchmark.bigger_is_better bench = bigger_is_better
  /\ LoadedBenchmark.date bench = now
  /\ List.Forall2
       (fun result result' =>
          (forall k, In k schema -> k <> "__proto__" -> hasOwnProperty result' k = true)
          /\ (forall k, hasOwnProperty result k = true -> hasOwnProperty result' k = true)
          /\ (forall k, readProp result' k = afterLoad (readProp result k) k))
       benches (LoadedBenchmark.benches bench).
Proof.
  intros Hne. simpl. repeat split.
  apply Forall2_map_right. intros result _.
  split; [|split]; intros k; destruct (fold_fillKey schema Hne result k) as (Hread & Hin & Hown);
    assumption.
Qed.

(** ** The history document, after a run is added *)

(** X20. The limit on the entries of a suite: for every document with a
    suite of the given name and every limit [maxItems] that is a number,
    [addBenchmarkToDataJson] returns, and the suite that it leaves has the
    new entry as its last entry and at most [maxItems] entries when
    [maxItems] is at least 1 (all the old entries and the new one when
    they are not more than [maxItems]); when [maxItems] is 0 or below, it
    leaves the suite without any entry, the new one included. *)
Theorem addBenchmarkToDataJson_maxItems (now : Z) (groupBy schema : list string)
  (benchName : string) (bench : Benchmark.t) (data : DataJson.t) (maxItems : Z)
  (suites : list Benchmark.t) :
  DataJson.entries data !! benchName = Some suites ->
  exists prevBench data' suites',
    addBenchmarkToDataJson now groupBy schema benchName bench data (Some maxItems)
    = Ok (prevBench, data')
    /\ DataJson.entries data' !! benchName = Some suites'
    /\ ((1 <= maxItems)%Z ->
        List.last suites' bench = bench
        /\ suites' <> []
        /\ length suites' = Nat.min (length suites + 1) (Z.to_nat maxItems))
    /\ ((maxItems <= 0)%Z -> suites' = []).
Proof.
  intros Hentry. unfold addBenchmarkToDataJson, memberOf. rewrite Hentry.
  eexists _, _, _. split; [reflexivity|]. simpl.
  rewrite lookup_insert_eq. split; [reflexivity|].
  unfold truncate. rewrite length_app. simpl.
  destruct (maxItems <? Z.of_nat (length suites + 1))%Z eqn:E.
  - apply Z.ltb_lt in E. split.
    + intros Hpos.
      assert (Hdrop : (Z.to_nat (Z.of_nat (length suites + 1) - maxItems) <= length suites)%nat)
        by lia.
      rewrite drop_app_le by exact Hdrop.
      split; [apply last_last|]. split.
      * destruct (drop _ suites); discriminate.
      * rewrite length_app, length_drop. simpl. lia.
    + intros Hneg. apply drop_ge. rewrite length_app. simpl. lia.
  - apply Z.ltb_ge in E. split.
    + intros Hpos. split; [apply last_last|]. split.
      * destruct suites; discriminate.
      * rewrite length_app. simpl. lia.
    + intros Hneg. lia.
Qed.

(** An entry of a document that the update script wrote. *)
Lemma retrieveSchema_asBenchmarkData (data : DataJson.t) (m : gmap string (list string))
  (benchSet : string) (fields : list string) :
  DataJson.schema data = Some m -> m !! "hasOwnProperty" = None ->
  benchSet <> "__proto__" -> m !! benchSet = Some fields ->
  retrieveSchema (asBenchmarkData data) benchSet = Ok (Fields fields, []).
Proof.
  intros Hs Hmethod Hproto Hm. apply (retrieveSchema_entry _ _ (Fields <$> m)).
  - unfold asBenchmarkData. simpl. now rewrite Hs.
  - unfold hasOwnPropertyMethod. rewrite !lookup_fmap, Hmethod. simpl.
    now destruct (m !! "__proto__").
  - rewrite ownMember_other by exact Hproto. now rewrite lookup_fmap, Hm.
Qed.

Lemma retrieveGroupBy_asBenchmarkData (data : DataJson.t) (m : gmap string (list string))
  (benchSet : string) (fields : list string) :
  DataJson.groupBy data = Some m -> m !! "hasOwnProperty" = None ->
  benchSet <> "__proto__" -> m !! benchSet = Some fields ->
  retrieveGroupBy (asBenchmarkData data) benchSet = Ok (Fields fields, []).
Proof.
  intros Hs Hmethod Hproto Hm. apply (retrieveGroupBy_entry _ _ (Fields <$> m)).
  - unfold asBenchmarkData. simpl. now rewrite Hs.
  - unfold hasOwnPropertyMethod. rewrite !lookup_fmap, Hmethod. simpl.
    now destruct (m !! "__proto__").
  - rewrite ownMember_other by exact Hproto. now rewrite lookup_fmap, Hm.
Qed.

Lemma assignMember_other {V : Type} (o : gmap string V) (k : string) (v : V) :
  k <> "__proto__" -> assignMember o k v = <[k := v]> o.
Proof. intros Hk. unfold assignMember. apply String.eqb_neq in Hk. now rewrite Hk. Qed.

(** X21. A suite that was added is rendered with its own fields: for every
    document and every suite name other than [__proto__] and
    [hasOwnProperty] that the entries have or that [Object.prototype] has
    not, the document having no schema and no group-by of a suite named
    [hasOwnProperty], [addBenchmarkToDataJson] returns, and the document
    that it leaves holds the time of the call, the repository address as
    it was, and the given group-by and schema fields under the suite name,
    the fields of the other suites being as they were; read by the page
    script, it gives these fields to [retrieveSchema] and
    [retrieveGroupBy] for the suite, and no diagnostic is written. *)
Theorem addBenchmarkToDataJson_fields (now : Z) (groupBy schema : list string)
  (benchName : string) (bench : Benchmark.t) (data : DataJson.t) (maxItems : option Z) :
  benchName <> "__proto__" -> benchName <> "hasOwnProperty" ->
  default ∅ (DataJson.schema data) !! "hasOwnProperty" = None ->
  default ∅ (DataJson.groupBy data) !! "hasOwnProperty" = None ->
  (DataJson.entries data !! benchName <> None \/ inherited benchName = false) ->
  exists prevBench data',
    addBenchmarkToDataJson now groupBy schema benchName bench data maxItems
    = Ok (prevBench, data')
    /\ DataJson.lastUpdate data' = now
    /\ DataJson.repoUrl data' = DataJson.repoUrl data
    /\ retrieveSchema (asBenchmarkData data') benchName = Ok (Fields schema, [])
    /\ retrieveGroupBy (asBenchmarkData data') benchName = Ok (Fields groupBy, [])
    /\ (forall other m fields,
          other <> benchName -> other <> "__proto__" ->
          DataJson.schema data = Some m -> m !! other = Some fields ->
          retrieveSchema (asBenchmarkData data') other = Ok (Fields fields, []))
    /\ (forall other m fields,
          other <> benchName -> other <> "__proto__" ->
          DataJson.groupBy data = Some m -> m !! other = Some fields ->
          retrieveGroupBy (asBenchmarkData data') other = Ok (Fields fields, [])).
Proof.
  intros Hproto Hmethod Hschema HgroupBy Hentry.
  assert (Hreturns : exists prevBench suites,
            addBenchmarkToDataJson now groupBy schema benchName bench data maxItems
            = Ok (prevBench,
                  {| DataJson.lastUpdate := now;
                     DataJson.repoUrl := DataJson.repoUrl data;
                     DataJson.entries := <[benchName := suites]> (DataJson.entries data);
                     DataJson.groupBy :=
                       Some (<[benchName := groupBy]> (default ∅ (DataJson.groupBy data)));
                     DataJson.schema :=
                       Some (<[benchName := schema]> (default ∅ (DataJson.schema data))) |})).
  { unfold addBenchmarkToDataJson, memberOf. rewrite !assignMember_other by exact Hproto.
    destruct (DataJson.entries data !! benchName) as [suites|]; [eauto|].
    destruct Hentry as [Hentry| ->]; [congruence | eauto]. }
  destruct Hreturns as (prevBench & suites & ->).
  eexists _, _. split; [reflexivity|].
  split; [reflexivity|]. split; [reflexivity|].
  split; [|split; [|split]].
  - eapply retrieveSchema_asBenchmarkData; [reflexivity | | exact Hproto | apply lookup_insert_eq].
    now rewrite lookup_insert_ne by congruence.
  - eapply retrieveGroupBy_asBenchmarkData; [reflexivity | | exact Hproto | apply lookup_insert_eq].
    now rewrite lookup_insert_ne by congruence.
  - intros other m fields Hne Hother Hm Hfields.
    eapply retrieveSchema_asBenchmarkData; [reflexivity | | exact Hother |].
    + now rewrite lookup_insert_ne by congruence.
    + rewrite lookup_insert_ne by congruence. rewrite Hm. exact Hfields.
  - intros other m fields Hne Hother Hm Hfields.
    eapply retrieveGroupBy_asBenchmarkData; [reflexivity | | exact Hother |].
    + now rewrite lookup_insert_ne by congruence.
    + rewrite lookup_insert_ne by congruence. rewrite Hm. exact Hfields.
Qed.
(** ** Values in the order of their first occurrence *)

Lemma filter_filter {A : Type} (f g : A -> bool) (l : list A) :
  List.filter f (List.filter g l) = List.filter (fun x => g x && f x) l.
Proof.
  induction l as [|x l IH]; simpl; [reflexivity|].
  destruct (g x); simpl; [destruct (f x); now rewrite IH | exact IH].
Qed.

Lemma filter_all {A : Type} (f : A -> bool) (l : list A) :
  (forall x, In x l -> f x = true) -> List.filter f l = l.
Proof.
  induction l as [|x l IH]; intros H; simpl; [reflexivity|].
  rewrite (H x) by now left. f_equal. apply IH. intros y Hy. apply H. now right.
Qed.

Lemma includes_In (l : list string) (k : string) : includes l k = true <-> In k l.
Proof.
  unfold includes. rewrite existsb_exists. split.
  - intros (x & Hx & Heq). apply String.eqb_eq in Heq. now subst x.
  - intros H. exists k. split; [exact H | apply String.eqb_refl].
Qed.

Lemma includes_app (l l' : list string) (k : string) :
  includes (l ++ l') k = includes l k || includes l' k.
Proof. unfold includes. apply existsb_app. Qed.

(** A loop that adds every value that is new leaves the values in the
    order of their first occurrence. *)
Lemma fold_distinct (step : list string -> string -> list string) :
  (forall set k, step set k = if includes set k then set else (set ++ [k])%list) ->
  forall keys set,
    fold_left step keys set
    = (set ++ List.filter (fun k => negb (includes set k)) (distinct keys))%list.
Proof.
  intros Hstep. induction keys as [|a keys IH]; intros set; simpl.
  - now rewrite app_nil_r.
  - rewrite IH, Hstep, filter_filter. destruct (includes set a) eqn:Ea; simpl.
    + f_equal. apply List.filter_ext. intros x.
      destruct (String.eqb_spec x a) as [->|Hne]; simpl; [now rewrite Ea | reflexivity].
    + rewrite <- app_assoc. simpl. do 2 f_equal. apply List.filter_ext. intros x.
      rewrite includes_app. unfold includes at 2. simpl. rewrite orb_false_r.
      destruct (String.eqb_spec x a) as [->|Hne]; simpl.
      * now rewrite orb_true_r.
      * now rewrite orb_false_r.
Qed.

Lemma newSet_distinct (keys : list string) : newSet keys = distinct keys.
Proof.
  unfold newSet.
  rewrite (fold_distinct
             (fun set key => if bool_decide (key ∈ set) then set else (set ++ [key])%list)).
  - simpl. now apply filter_all.
  - intros set k. destruct (includes set k) eqn:E.
    + apply includes_In, list_elem_of_In in E. now rewrite bool_decide_eq_true_2.
    + rewrite bool_decide_eq_false_2; [reflexivity|].
      intros H. apply list_elem_of_In, includes_In in H. congruence.
Qed.

Lemma In_distinct (l : list string) (k : string) : In k (distinct l) <-> In k l.
Proof.
  rewrite <- newSet_distinct. unfold newSet.
  destruct (newSet_from l []) as [_ Hmem]; [constructor|].
  rewrite Hmem. simpl. propositional.
Qed.

Lemma NoDup_distinct (l : list string) : List.NoDup (distinct l).
Proof.
  rewrite <- newSet_distinct. unfold newSet.
  now destruct (newSet_from l []) as [Hnd _]; [constructor|].
Qed.

(** The values of two lists: those of the first, then the new ones of the
    second. *)
Lemma distinct_app (l l' : list string) :
  distinct (l ++ l')
  = (distinct l ++ List.filter (fun k => negb (includes (distinct l) k)) (distinct l'))%list.
Proof.
  rewrite <- !newSet_distinct. unfold newSet at 1. rewrite fold_left_app.
  fold (newSet l). rewrite !newSet_distinct.
  apply (fold_distinct
           (fun set key => if bool_decide (key ∈ set) then set else (set ++ [key])%list)).
  intros set k. destruct (includes set k) eqn:E.
  - apply includes_In, list_elem_of_In in E. now rewrite bool_decide_eq_true_2.
  - rewrite bool_decide_eq_false_2; [reflexivity|].
    intros H. apply list_elem_of_In, includes_In in H. congruence.
Qed.

Lemma distinct_NoDup (l : list string) : List.NoDup l -> distinct l = l.
Proof.
  induction l as [|x l IH]; intros Hnd; simpl; [reflexivity|].
  inversion Hnd as [|? ? Hx Hnd']; subst. rewrite (IH Hnd'). f_equal.
  apply filter_all. intros y Hy.
  destruct (String.eqb_spec y x) as [->|Hne]; [contradiction | reflexivity].
Qed.

Lemma distinct_distinct (l l' : list string) :
  distinct (distinct l ++ distinct l') = distinct (l ++ l').
Proof.
  now rewrite !distinct_app, !(distinct_NoDup (distinct _)) by apply NoDup_distinct.
Qed.

(** The keys of a [Map] that is filled with [set]. *)
Lemma keys_fold_setProp {V : Type} (key : V -> string) (items : list V) :
  forall acc : list (string * V),
    map fst (fold_left (fun o v => setProp o (key v) v) items acc)
    = fold_left (fun set k => if includes set k then set else (set ++ [k])%list)
        (map key items) (map fst acc).
Proof.
  induction items as [|a items IH]; intros acc; simpl; [reflexivity|].
  rewrite IH, keys_setProp. f_equal. unfold hasOwnProperty.
  destruct (includes (map fst acc) (key a)) eqn:E.
  - apply includes_In in E. destruct (getProp acc (key a)) eqn:G; [reflexivity|].
    apply getProp_None_keys in G. contradiction.
  - destruct (getProp acc (key a)) eqn:G; [|reflexivity].
    assert (H : In (key a) (map fst acc)).
    { destruct (in_dec string_dec (key a) (map fst acc)) as [H|H]; [exact H|].
      apply getProp_None_keys in H. congruence. }
    apply includes_In in H. congruence.
Qed.

(** The keys of the groups. *)
Lemma keys_addToGroup {A : Type} (groups : list (string * list A)) (k : string) (a : A) :
  map fst (addToGroup groups k a)
  = if includes (map fst groups) k then map fst groups else (map fst groups ++ [k])%list.
Proof.
  destruct (includes (map fst groups) k) eqn:E.
  - apply includes_In in E.
    destruct (addToGroup_known groups k a E) as (before & ds & after & -> & _ & ->).
    now rewrite !map_app.
  - rewrite addToGroup_new; [now rewrite map_app|].
    intros H. apply includes_In in H. congruence.
Qed.

Lemma keys_fold_addToGroup {A : Type} (g : A -> string) (items : list A) :
  map fst (fold_left (fun groups a => addToGroup groups (g a) a) items [])
  = distinct (map g items).
Proof.
  assert (H : forall groups,
            map fst (fold_left (fun groups a => addToGroup groups (g a) a) items groups)
            = fold_left (fun set k => if includes set k then set else (set ++ [k])%list)
                (map g items) (map fst groups)).
  { induction items as [|a items IH]; intros groups; simpl; [reflexivity|].
    now rewrite IH, keys_addToGroup. }
  rewrite H, (fold_distinct _ (fun set k => eq_refl)). simpl.
  now apply filter_all.
Qed.

(** ** The reports: groups *)

(** Grouping with a [Map], as [groupResults] and [groupData] do, is
    [Object.groupBy] with a callback that returns. *)
Lemma fold_addToGroup {A : Type} (g : A -> string) (items : list A) :
  forall groups,
    groupByFrom (fun a => Ok (g a)) items groups
    = Ok (fold_left (fun groups a => addToGroup groups (g a) a) items groups).
Proof.
  induction items as [|a items IH]; intros groups; simpl; [reflexivity | apply IH].
Qed.

Lemma fold_addToGroup_grouped {A : Type} (g : A -> string) (items : list A) :
  grouped g items (fold_left (fun groups a => addToGroup groups (g a) a) items [])
  /\ Permutation
       (concat (map snd (fold_left (fun groups a => addToGroup groups (g a) a) items [])))
       items
  /\ Forall (fun group => snd group <> [])
       (fold_left (fun groups a => addToGroup groups (g a) a) items []).
Proof.
  pose proof (fold_addToGroup g items []) as Hfold.
  destruct (Object_groupBy_grouped (fun a => Ok (g a)) g items) as (groups & Hgroups & Hgrouped);
    [reflexivity|].
  unfold Object_groupBy in Hgroups. rewrite Hfold in Hgroups. injection Hgroups as <-.
  split; [exact Hgrouped|].
  apply (Object_groupBy_Permutation (fun a => Ok (g a))). exact Hfold.
Qed.

(** X26. Groups of the comparison report: for every list of combined
    results and of group-by keys, every result is in exactly one group of
    [groupResults]; without group-by keys there is the one group [all]
    with all results, also when there is no result; with group-by keys
    there is one group per composite key that occurs, the keys of the
    groups being the composite keys of the results in the order of their
    first occurrence, each group with the results of its key in their
    order, and no group is empty. *)
Theorem groupResults_partition (results : list CombinedResult.t) (groupByKeys : list string) :
  Permutation (concat (map snd (groupResults results groupByKeys))) results
  /\ (groupByKeys = [] -> groupResults results groupByKeys = [("all", results)])
  /\ (groupByKeys <> [] ->
      map fst (groupResults results groupByKeys)
      = distinct
          (map (fun result => generateCompositeKey (combinedObject result) groupByKeys)
             results)
      /\ (forall k rs,
            In (k, rs) (groupResults results groupByKeys) ->
            rs = List.filter
                   (fun result =>
                      String.eqb (generateCompositeKey (combinedObject result) groupByKeys) k)
                   results)
      /\ Forall (fun group => snd group <> []) (groupResults results groupByKeys)).
Proof.
  unfold groupResults. destruct groupByKeys as [|key keys].
  - simpl. rewrite app_nil_r. split; [reflexivity|]. split; [reflexivity | congruence].
  - cbn [length Nat.eqb].
    destruct (fold_addToGroup_grouped
                (fun result => generateCompositeKey (combinedObject result) (key :: keys))
                results) as ((_ & Hds & _) & Hperm & Hne).
    split; [exact Hperm|]. split; [discriminate|]. intros _.
    split; [apply keys_fold_addToGroup|]. split; [exact Hds | exact Hne].
Qed.

(** X29. Groups of the report of one run: for every list of rows and of
    group-by keys, every row is in exactly one group of [groupData]; there
    is one group per group key that occurs (the texts of the row's values
    for the keys, joined by [::], a missing value giving the empty text),
    the keys of the groups being the group keys of the rows in the order
    of their first occurrence, each group with the rows of its key in
    their order, and no group is empty. *)
Theorem groupData_partition (data : list (gmap string jsval)) (keys : list string) :
  Permutation (concat (map snd (groupData data keys))) data
  /\ map fst (groupData data keys) = distinct (map (rowKey keys) data)
  /\ (forall k rows,
        In (k, rows) (groupData data keys) ->
        rows = List.filter (fun row => String.eqb (rowKey keys row) k) data)
  /\ Forall (fun group => snd group <> []) (groupData data keys).
Proof.
  destruct (fold_addToGroup_grouped (rowKey keys) data) as ((_ & Hds & _) & Hperm & Hne).
  split; [exact Hperm|]. split; [apply (keys_fold_addToGroup (rowKey keys))|].
  split; [exact Hds | exact Hne].
Qed.

(** ** The reports: text *)

Lemma groupMarkdown_Ok (currentEntry : Benchmark.t) (schemaKeys groupByKeys : list string)
  (results : list CombinedResult.t) :
  groupByKeys = [] \/ results <> [] ->
  exists text, groupMarkdown currentEntry schemaKeys groupByKeys results = Ok text.
Proof.
  intros H. unfold groupMarkdown.
  destruct groupByKeys as [|key keys]; simpl; [eauto|].
  destruct results as [|first results]; simpl; [destruct H; congruence | eauto].
Qed.

Lemma groupReport_Ok (schema groupByKeys : list string) (rows : list (gmap string jsval)) :
  rows <> [] -> exists lines, groupReport schema groupByKeys rows = Ok lines.
Proof.
  intros H. unfold groupReport.
  destruct rows as [|firstRow rows]; [congruence|]. simpl. eauto.
Qed.

(** The comparison report is written for the groups that [groupResults]
    makes: the header of a group is made of the first result of the
    group, and there is one, since the only group that can be empty is
    [all], which has no header. *)
Lemma generateMarkdown_Ok (benchmarkName : string)
  (baselineEntry currentEntry : Benchmark.t) (results : list CombinedResult.t)
  (schemaKeys groupByKeys : list string) :
  exists md,
    generateMarkdown benchmarkName baselineEntry currentEntry
      (groupResults results groupByKeys) schemaKeys groupByKeys
    = Ok md.
Proof.
  unfold generateMarkdown.
  destruct (mapM_total
              (fun group : string * list CombinedResult.t =>
                 groupMarkdown currentEntry schemaKeys groupByKeys (snd group))
              (groupResults results groupByKeys)) as (parts & -> & _); [|simpl; eauto].
  intros group Hin. apply groupMarkdown_Ok.
  destruct groupByKeys as [|key keys]; [now left | right].
  assert (Hne : Forall (fun group => snd group <> [])
                  (groupResults results (key :: keys))).
  { unfold groupResults. cbn [length Nat.eqb]. apply fold_addToGroup_grouped. }
  rewrite List.Forall_forall in Hne. now apply Hne.
Qed.

(** X30. The report of one run is written: for every schema argument,
    group-by argument and array of rows, [main] of the report of one run
    returns a text; the header of a group is made of the first row of the
    group, and every group of [groupData] has one. *)
Theorem main'_returns (schema groupBy : string) (jsonInput : list (gmap string jsval)) :
  exists markdownOutput, main' schema groupBy jsonInput = Ok markdownOutput.
Proof.
  unfold main', generateMarkdownReport.
  destruct (mapM_total
              (fun group : string * list (gmap string jsval) =>
                 groupReport (split "," schema ++ ["value"; "range"; "unit"])%list
                   (split "," groupBy) (snd group))
              (groupData jsonInput (split "," groupBy))) as (parts & -> & _);
    [|simpl; eauto].
  intros group Hin. apply groupReport_Ok.
  destruct (fold_addToGroup_grouped (rowKey (split "," groupBy)) jsonInput) as (_ & _ & Hne).
  rewrite List.Forall_forall in Hne. now apply Hne.
Qed.

(** ** The reports: columns *)

Lemma indexOf_Some (x : string) (l : list string) (n : nat) :
  indexOf x l = Some n ->
  l = (take n l ++ x :: drop (S n) l)%list /\ ~ In x (take n l).
Proof.
  revert n. induction l as [|y l IH]; intros n; simpl; [discriminate|].
  destruct (String.eqb_spec y x) as [->|Hne].
  - intros [= <-]. simpl. split; [now rewrite drop_0 | propositional].
  - destruct (indexOf x l) as [m|]; simpl; [|discriminate].
    intros [= <-]. destruct (IH m eq_refl) as [Hl Hnin]. simpl.
    split; [now rewrite <- Hl|]. intros [H|H]; [congruence | contradiction].
Qed.

Lemma indexOf_None (x : string) (l : list string) : indexOf x l = None -> ~ In x l.
Proof.
  induction l as [|y l IH]; simpl; [propositional|].
  destruct (String.eqb_spec y x) as [->|Hne]; [discriminate|].
  destruct (indexOf x l); simpl; [discriminate|].
  intros _ [H|H]; [congruence | now apply IH].
Qed.

Lemma filter_not_name (l : list string) :
  ~ In "name" l -> List.filter (fun col => negb (String.eqb col "name")) l = l.
Proof.
  induction l as [|y l IH]; simpl; intros H; [reflexivity|].
  destruct (String.eqb_spec y "name") as [->|Hne]; simpl; [propositional|].
  rewrite IH; propositional.
Qed.

(** X28. Columns of the two reports: the columns of the comparison table
    are the schema keys, rearranged so that [name] is the first column
    when it is a schema key, the others keeping their order; its header
    row and the row of every result have the same number of cells, three
    more than there are schema keys.  The table of the report of one run
    always has [name] as its first column and in no other, also when
    [name] is not in the schema; for a schema without repetition that has
    [name], the two reports have the same columns. *)
Theorem report_columns (schema : list string) :
  Permutation (tableColumns schema) schema
  /\ (In "name" schema ->
      exists before after,
        schema = (before ++ "name" :: after)%list /\ ~ In "name" before
        /\ tableColumns schema = "name" :: (before ++ after)%list)
  /\ (forall bigger_is_better res,
        length (rowValues schema bigger_is_better res) = length (headerRow schema)
        /\ length (headerRow schema) = (length schema + 3)%nat)
  /\ (exists rest, orderedSchema schema = "name" :: rest /\ ~ In "name" rest)
  /\ (List.NoDup schema -> In "name" schema -> orderedSchema schema = tableColumns schema).
Proof.
  assert (Hcols : forall before after,
            schema = (before ++ "name" :: after)%list -> ~ In "name" before ->
            tableColumns schema = "name" :: (before ++ after)%list).
  { intros before after -> Hnin. unfold tableColumns.
    destruct (indexOf "name" (before ++ "name" :: after)) as [n|] eqn:E.
    - destruct (indexOf_Some _ _ _ E) as [Hl Hn].
      assert (Hlen : n = length before).
      { destruct (Nat.lt_trichotomy n (length before)) as [Hlt|[Heq|Hgt]]; [|exact Heq|].
        - exfalso. apply Hnin.
          assert (Hx : (before ++ "name" :: after) !! n = Some "name").
          { rewrite Hl at 1. rewrite lookup_app_r by (rewrite length_take; lia).
            rewrite length_take.
            replace (n - n `min` length (before ++ "name" :: after))%nat with 0%nat;
              [reflexivity|].
            rewrite length_app. simpl. lia. }
          rewrite lookup_app_l in Hx by exact Hlt.
          apply list_elem_of_In. now apply list_elem_of_lookup_2 in Hx.
        - exfalso. apply Hn. apply list_elem_of_In.
          apply (list_elem_of_lookup_2 _ (length before)).
          rewrite lookup_take_lt by exact Hgt.
          now rewrite lookup_app_r, Nat.sub_diag by lia. }
      subst n. destruct before as [|b before]; [reflexivity|].
      cbn [length]. f_equal.
      change (S (length before)) with (length (b :: before)).
      rewrite take_app_length.
      change (b :: before ++ "name" :: after)%list with ((b :: before) ++ "name" :: after)%list.
      replace (S (length (b :: before))) with (length ((b :: before) ++ ["name"])%list)
        by (rewrite length_app; simpl; lia).
      replace ((b :: before) ++ "name" :: after)%list
        with (((b :: before) ++ ["name"]) ++ after)%list
        by (now rewrite <- app_assoc).
      now rewrite drop_app_length.
    - exfalso. apply (indexOf_None _ _ E). apply in_or_app. right. now left. }
  assert (Hsplit : In "name" schema ->
            exists before after,
              schema = (before ++ "name" :: after)%list /\ ~ In "name" before).
  { intros Hin. destruct (indexOf "name" schema) as [n|] eqn:E.
    - destruct (indexOf_Some _ _ _ E) as [Hl Hn]. eauto.
    - now apply indexOf_None in E. }
  assert (Hperm : Permutation (tableColumns schema) schema).
  { destruct (in_dec string_dec "name" schema) as [Hin|Hnin].
    - destruct (Hsplit Hin) as (before & after & Hs & Hb).
      rewrite (Hcols before after Hs Hb). rewrite Hs at 1. apply Permutation_middle.
    - unfold tableColumns. destruct (indexOf "name" schema) as [[|n]|] eqn:E; try reflexivity.
      exfalso. apply Hnin. destruct (indexOf_Some _ _ _ E) as [Hl _].
      rewrite Hl. apply in_or_app. right. now left. }
  split; [exact Hperm|]. split.
  { intros Hin. destruct (Hsplit Hin) as (before & after & Hs & Hb).
    exists before, after. auto. }
  split.
  { intros bigger_is_better res. unfold rowValues, headerRow.
    rewrite !length_app, length_map. simpl.
    split; [reflexivity|]. now rewrite (Permutation_length Hperm). }
  split.
  { unfold orderedSchema. eexists. split; [reflexivity|].
    intros Hin. apply List.filter_In in Hin as [_ H]. discriminate. }
  intros Hnd Hin. destruct (Hsplit Hin) as (before & after & Hs & Hb).
  rewrite (Hcols before after Hs Hb). unfold orderedSchema. f_equal.
  rewrite Hs in Hnd |- *. apply NoDup_remove_2 in Hnd.
  rewrite List.filter_app. simpl.
  rewrite !filter_not_name; [reflexivity | |exact Hb].
  intros H. apply Hnd, in_or_app. now right.
Qed.

(** ** The comparison of two runs *)

Lemma find_app_last {V : Type} (P : V -> bool) (l : list V) (a : V) :
  find P (l ++ [a])
  = match find P l with
    | Some v => Some v
    | None => if P a then Some a else None
    end.
Proof.
  induction l as [|x l IH]; simpl; [reflexivity|].
  destruct (P x); [reflexivity | exact IH].
Qed.

(** A [Map] filled with [set] holds, for every key, the last value that
    was set for it. *)
Lemma fold_setProp_last {V : Type} (key : V -> string) (items : list V) :
  forall acc : list (string * V),
    List.NoDup (map fst acc) ->
    List.NoDup (map fst (fold_left (fun o v => setProp o (key v) v) items acc))
    /\ forall k,
         getProp (fold_left (fun o v => setProp o (key v) v) items acc) k
         = match find (fun v => String.eqb (key v) k) (rev items) with
           | Some v => Some v
           | None => getProp acc k
           end.
Proof.
  induction items as [|a items IH]; intros acc Hnd; simpl.
  - split; [exact Hnd | reflexivity].
  - destruct (IH (setProp acc (key a) a) (NoDup_keys_setProp acc (key a) a Hnd))
      as [Hnd' Hget].
    split; [exact Hnd'|]. intros k. rewrite Hget, find_app_last.
    destruct (find _ (rev items)); [reflexivity|].
    destruct (String.eqb_spec (key a) k) as [<-|Hne].
    + apply getProp_setProp_eq.
    + now apply getProp_setProp_ne.
Qed.

(** The map of a run: one entry per composite key, the last result of
    the key. *)
Lemma createBenchMap_spec (keyFields : list string) (entry : Benchmark.t) :
  List.NoDup (map fst (createBenchMap keyFields entry))
  /\ (forall k, getProp (createBenchMap keyFields entry) k = lastWithKey keyFields k entry)
  /\ (forall k, In k (map fst (createBenchMap keyFields entry))
                <-> exists b, In b (Benchmark.benches entry) /\ compositeKey keyFields b = k).
Proof.
  destruct (fold_setProp_last (compositeKey keyFields) (Benchmark.benches entry) [])
    as [Hnd Hget]; [constructor|].
  assert (Hlast : forall k, getProp (createBenchMap keyFields entry) k
                            = lastWithKey keyFields k entry).
  { intros k. unfold createBenchMap, lastWithKey.
    etransitivity; [apply Hget|]. now destruct (find _ _). }
  split; [exact Hnd|]. split; [exact Hlast|].
  intros k. split.
  - intros Hin.
    destruct (getProp (createBenchMap keyFields entry) k) as [b|] eqn:E.
    + rewrite Hlast in E. unfold lastWithKey in E. apply find_some in E as [Hb Hk].
      exists b. split; [now apply in_rev | now apply String.eqb_eq].
    + apply getProp_None_keys in E. contradiction.
  - intros (b & Hb & Hk).
    destruct (in_dec string_dec k (map fst (createBenchMap keyFields entry))) as [H|H];
      [exact H|].
    apply getProp_None_keys in H. rewrite Hlast in H. unfold lastWithKey in H.
    pose proof (find_none _ _ H b) as Hnone. rewrite <- in_rev in Hnone.
    specialize (Hnone Hb). apply String.eqb_neq in Hnone. contradiction.
Qed.

(** The keys of the map of a run: the composite keys of its results, in
    the order of their first occurrence. *)
Lemma keys_createBenchMap (keyFields : list string) (entry : Benchmark.t) :
  map fst (createBenchMap keyFields entry)
  = distinct (map (compositeKey keyFields) (Benchmark.benches entry)).
Proof.
  unfold createBenchMap.
  rewrite (keys_fold_setProp (compositeKey keyFields)), (fold_distinct _ (fun set k => eq_refl)).
  simpl. now apply filter_all.
Qed.

(** X23. Comparison of two runs: for every baseline run, current run and
    schema, [compareBenches] returns one combined result per composite key
    (over the schema keys other than value, unit and range) that a result
    of either run has: the results are those of the composite keys of the
    results of the baseline run, followed by those of the current run,
    each key once, in the order of its first occurrence.  When several
    results of a run have the same key, the last of them is the one
    compared.  The status is [changed] when both runs have the key, [new]
    when only the current run has it and [removed] when the current run
    does not have it; the two values are those of the results compared,
    and the properties of the combined result are those of the current
    result, or of the baseline result when there is no current one. *)
Theorem compareBenches_status (baselineEntry currentEntry : Benchmark.t)
  (schemaKeys : list string) :
  List.Forall2
    (fun k res =>
       let baselineBench := lastWithKey (keyFieldsOf schemaKeys) k baselineEntry in
       let currentBench := lastWithKey (keyFieldsOf schemaKeys) k currentEntry in
       CombinedResult.baselineValue res = option_map BenchmarkResult.value baselineBench
       /\ CombinedResult.currentValue res = option_map BenchmarkResult.value currentBench
       /\ (CombinedResult.status res = changed
           <-> baselineBench <> None /\ currentBench <> None)
       /\ (CombinedResult.status res = new
           <-> baselineBench = None /\ currentBench <> None)
       /\ (CombinedResult.status res = removed <-> currentBench = None)
       /\ exists b,
            CombinedResult.bench res = Some b
            /\ compositeKey (keyFieldsOf schemaKeys) b = k
            /\ (currentBench = Some b \/ currentBench = None /\ baselineBench = Some b))
    (distinct
       (map (compositeKey (keyFieldsOf schemaKeys)) (Benchmark.benches baselineEntry)
        ++ map (compositeKey (keyFieldsOf schemaKeys)) (Benchmark.benches currentEntry)))
    (compareBenches baselineEntry currentEntry schemaKeys).
Proof.
  unfold compareBenches. fold (keyFieldsOf schemaKeys).
  set (keyFields := keyFieldsOf schemaKeys).
  destruct (createBenchMap_spec keyFields baselineEntry) as (_ & Hb & Hkb).
  destruct (createBenchMap_spec keyFields currentEntry) as (_ & Hc & Hkc).
  rewrite newSet_distinct, !keys_createBenchMap, distinct_distinct.
  apply Forall2_map_right. intros k Hin. cbv zeta. rewrite Hb, Hc.
  apply In_distinct, in_app_or in Hin.
  assert (Hsome : lastWithKey keyFields k baselineEntry <> None
                  \/ lastWithKey keyFields k currentEntry <> None).
  { destruct Hin as [H|H]; apply in_map_iff in H as (b0 & Hk0 & Hin0);
      [left; rewrite <- Hb | right; rewrite <- Hc];
      intros Hnone; apply getProp_None_keys in Hnone; apply Hnone;
      [apply Hkb | apply Hkc]; eauto. }
  assert (Hkey : forall entry b, lastWithKey keyFields k entry = Some b ->
                                 compositeKey keyFields b = k).
  { intros entry b H. unfold lastWithKey in H. apply find_some in H as [_ H].
    now apply String.eqb_eq. }
  cbn [CombinedResult.baselineValue CombinedResult.currentValue CombinedResult.status
       CombinedResult.bench].
  destruct (lastWithKey keyFields k currentEntry) as [c|] eqn:Ec;
    destruct (lastWithKey keyFields k baselineEntry) as [b|] eqn:Eb;
    (split; [reflexivity|]); (split; [reflexivity|]).
  - split; [split; [split; discriminate | reflexivity]|].
    split; [split; [discriminate | intros [H _]; discriminate]|].
    split; [split; discriminate|].
    exists c. split; [reflexivity|]. split; [now apply (Hkey currentEntry) | now left].
  - split; [split; [discriminate | intros [H _]; congruence]|].
    split; [split; [split; [reflexivity | discriminate] | reflexivity]|].
    split; [split; discriminate|].
    exists c. split; [reflexivity|]. split; [now apply (Hkey currentEntry) | now left].
  - split; [split; [discriminate | intros [_ H]; congruence]|].
    split; [split; [discriminate | intros [H _]; discriminate]|].
    split; [split; reflexivity|].
    exists b. split; [reflexivity|]. split; [now apply (Hkey baselineEntry) | now right].
  - destruct Hsome; congruence.
Qed.

(** ** The improvement *)

Lemma change_sign (oldValue newValue : Q) :
  (0 < oldValue)%Q ->
  ((0 < (newValue - oldValue) / oldValue * 100)%Q <-> (oldValue < newValue)%Q)
  /\ (((newValue - oldValue) / oldValue * 100 < 0)%Q <-> (newValue < oldValue)%Q)
  /\ (((newValue - oldValue) / oldValue * 100 == 0)%Q <-> (newValue == oldValue)%Q).
Proof.
  intros Hpos.
  assert (Hne : ~ (oldValue == 0)%Q) by lra.
  pose proof (Qdiv_mult_l (newValue - oldValue) oldValue Hne) as Hr.
  unfold Qdiv in Hr.
  set (r := ((newValue - oldValue) / oldValue)%Q) in *.
  assert (Hr' : (r * oldValue == newValue - oldValue)%Q).
  { unfold r, Qdiv. rewrite <- Hr at 2. ring. }
  clearbody r. clear Hr.
  repeat split; intros H; nra.
Qed.

(** X24. The improvement: for every old value other than 0,
    [calculateImprovement] returns the relative change in percent, that
    is the difference of the new and the old value, divided by the old
    value, times 100, with its sign reversed when smaller is better; for a
    positive old value the result is positive exactly when the new value
    is better than the old one (larger, or smaller when smaller is
    better), negative exactly when it is worse, and zero exactly when the
    two values are equal.  For the old value 0 the result is [Infinity]
    when the new value is positive and 0 otherwise, whatever the direction
    is. *)
Theorem calculateImprovement_sign (oldValue newValue : Q) (biggerIsBetter : bool) :
  (~ (oldValue == 0)%Q ->
   exists q,
     calculateImprovement oldValue newValue biggerIsBetter = Percent q
     /\ (q == (if biggerIsBetter then 1 else -1)
              * ((newValue - oldValue) / oldValue * 100))%Q
     /\ ((0 < oldValue)%Q ->
         ((0 < q)%Q
          <-> if biggerIsBetter then (oldValue < newValue)%Q else (newValue < oldValue)%Q)
         /\ ((q < 0)%Q
             <-> if biggerIsBetter then (newValue < oldValue)%Q else (oldValue < newValue)%Q)
         /\ ((q == 0)%Q <-> (newValue == oldValue)%Q)))
  /\ ((oldValue == 0)%Q ->
      calculateImprovement oldValue newValue biggerIsBetter
      = if Qle_bool newValue 0 then Percent 0 else Infinity).
Proof.
  unfold calculateImprovement. split.
  - intros Hne.
    destruct (Qeq_bool oldValue 0) eqn:E; [apply Qeq_bool_iff in E; contradiction|].
    eexists. split; [reflexivity|]. split; [destruct biggerIsBetter; ring|].
    intros Hpos. destruct (change_sign oldValue newValue Hpos) as (Hp & Hn & Hz).
    destruct biggerIsBetter.
    + split; [exact Hp|]. split; [exact Hn | exact Hz].
    + split; [rewrite <- Hn; split; intros H; lra|].
      split; [rewrite <- Hp; split; intros H; lra|].
      rewrite <- Hz. split; intros H; lra.
  - intros Hzero. apply Qeq_bool_iff in Hzero. rewrite Hzero.
    now destruct (Qle_bool newValue 0).
Qed.

(** ** The commits that are compared *)

(** Once the current commit is known, the baseline is the commit of the
    first run of another commit. *)
Lemma commitIds_Some (entries : list Benchmark.t) (current : string) :
  current <> "" ->
  commitIds entries (Some current)
  = (Some current,
     option_map (fun e => Commit.id (Benchmark.commit e))
       (find (fun e => negb (String.eqb (Commit.id (Benchmark.commit e)) current)) entries)).
Proof.
  intros Hne. apply String.eqb_neq in Hne.
  induction entries as [|e entries IH]; simpl; [reflexivity|].
  rewrite Hne. destruct (String.eqb (Commit.id (Benchmark.commit e)) current); simpl;
    [exact IH | reflexivity].
Qed.

(** The two commits are commits of runs. *)
Lemma commitIds_found (entries : list Benchmark.t) :
  forall currentCommitId c b,
    commitIds entries currentCommitId = (Some c, Some b) ->
    (exists e, In e entries /\ Commit.id (Benchmark.commit e) = b)
    /\ (currentCommitId = Some c
        \/ exists e, In e entries /\ Commit.id (Benchmark.commit e) = c).
Proof.
  induction entries as [|e entries IH]; intros cur c b; simpl; [discriminate|].
  assert (Hstep : commitIds entries (Some (Commit.id (Benchmark.commit e))) = (Some c, Some b) ->
            (exists e', (e = e' \/ In e' entries) /\ Commit.id (Benchmark.commit e') = b)
            /\ (cur = Some c
                \/ exists e', (e = e' \/ In e' entries) /\ Commit.id (Benchmark.commit e') = c)).
  { intros H. destruct (IH _ _ _ H) as ((e1 & H1 & H1') & H2). split; [eauto|].
    right. destruct H2 as [[= <-]|(e2 & H2 & H2')]; eauto. }
  destruct cur as [current|]; [|exact Hstep].
  destruct (String.eqb current ""); [exact Hstep|].
  destruct (String.eqb (Commit.id (Benchmark.commit e)) current); simpl.
  - intros H. destruct (IH _ _ _ H) as ((e1 & H1 & H1') & H2). split; [eauto|].
    destruct H2 as [H2|(e2 & H2 & H2')]; eauto.
  - intros [= <- <-]. split; [eauto | now left].
Qed.

(** Runs of one commit have no baseline. *)
Lemma commitIds_same (entries : list Benchmark.t) (c : string) :
  (forall e, In e entries -> Commit.id (Benchmark.commit e) = c) ->
  forall currentCommitId,
    currentCommitId = None \/ currentCommitId = Some c ->
    snd (commitIds entries currentCommitId) = None.
Proof.
  induction entries as [|e entries IH]; intros Hall cur Hcur; simpl; [reflexivity|].
  assert (He : Commit.id (Benchmark.commit e) = c) by (apply Hall; now left).
  assert (Hrest : forall e', In e' entries -> Commit.id (Benchmark.commit e') = c)
    by (intros e' H; apply Hall; now right).
  rewrite He. destruct Hcur as [-> | ->].
  - apply IH; auto.
  - destruct (String.eqb c ""); [apply IH; auto|].
    rewrite String.eqb_refl. simpl. apply IH; auto.
Qed.

Lemma find_commit (history : list Benchmark.t) (commitId : string) :
  (exists e, In e history /\ Commit.id (Benchmark.commit e) = commitId) ->
  exists first,
    find (fun e => String.eqb (Commit.id (Benchmark.commit e)) commitId) history = Some first.
Proof.
  intros (e & Hin & Hid).
  destruct (find _ history) as [first|] eqn:E; [eauto|].
  pose proof (find_none _ _ E e Hin) as H. simpl in H.
  apply String.eqb_neq in H. contradiction.
Qed.

(** The comparison of a suite of at least two runs ends without an
    exception. *)
Lemma compare_returns (name : string) (schemaKeys groupByKeys : list string)
  (history : list Benchmark.t) :
  exists out, compare name schemaKeys groupByKeys history = Ok out.
Proof.
  unfold compare.
  destruct (commitIds (rev history) None) as [[c|] [b|]] eqn:E; eauto.
  destruct (String.eqb b ""); [eauto|].
  destruct (aggregateBenches history c b) as [baselineBenches currentBenches].
  destruct (commitIds_found _ _ _ _ E) as ((eb & Hb & Hidb) & [Hc|(ec & Hc & Hidc)]);
    [discriminate|].
  apply in_rev in Hb, Hc.
  destruct (find_commit history c) as [firstc Hfc]; [eauto|].
  destruct (find_commit history b) as [firstb Hfb]; [eauto|].
  unfold aggregatedEntry. rewrite Hfc, Hfb.
  match goal with
  | |- context [generateMarkdown ?n ?be ?ce (groupResults ?rs ?g) ?s ?g] =>
      destruct (generateMarkdown_Ok n be ce rs s g) as [md ->]
  end.
  simpl. eauto.
Qed.

(** X27. What the comparison script prints: for every document, [main]
    prints the error about the name when the argument [--name] is missing
    or empty.  With a name, it throws a [TypeError] when the argument
    [--schema] or [--groupBy] is missing, at [split].  With the three
    arguments, it ends without an exception when the document has a suite
    of the name, and when it has none unless the name is
    [__defineGetter__] or [__defineSetter__]; it prints the text
    [No Comparison Available], for want of runs, when the document has no
    suite of that name, the name being none that [Object.prototype] has,
    or a suite of fewer than two runs, and the same text, for want of
    commits, when all runs of the suite are of one commit. *)
Theorem main_returns (name schema groupBy : option string)
  (data : gmap string (list Benchmark.t)) :
  (name = None \/ name = Some "" ->
   main name schema groupBy data = Ok (Stderr "Error: The --name argument is required."))
  /\ (forall name',
        name = Some name' -> name' <> "" ->
        (schema = None \/ groupBy = None ->
         main name schema groupBy data = Throw TypeError)
        /\ (schema <> None -> groupBy <> None ->
            ((data !! name' <> None
              \/ (name' <> "__defineGetter__" /\ name' <> "__defineSetter__")) ->
             exists out, main name schema groupBy data = Ok out)
            /\ (data !! name' = None -> inherited name' = false ->
                main name schema groupBy data = Ok (Stdout (notEnoughRuns name')))
            /\ (forall history,
                  data !! name' = Some history ->
                  ((length history < 2)%nat ->
                   main name schema groupBy data = Ok (Stdout (notEnoughRuns name')))
                  /\ ((2 <= length history)%nat ->
                      (forall e e', In e history -> In e' history ->
                         Commit.id (Benchmark.commit e) = Commit.id (Benchmark.commit e')) ->
                      main name schema groupBy data
                      = Ok (Stdout (notEnoughCommits name')))))).
Proof.
  split.
  - unfold main. intros [-> | ->]; reflexivity.
  - intros name' -> Hname. apply String.eqb_neq in Hname. unfold main. rewrite Hname.
    split.
    + intros [-> | ->]; [reflexivity|]. now destruct schema.
    + intros Hschema HgroupBy.
      destruct schema as [schema'|]; [|congruence].
      destruct groupBy as [groupBy'|]; [|congruence].
      cbn [bind]. unfold memberOf. split; [|split].
      * intros Hsuite. destruct (data !! name') as [history|].
        -- destruct (length history <? 2)%nat; [eauto | apply compare_returns].
        -- destruct Hsuite as [Hsuite|[Hgetter Hsetter]]; [congruence|].
           destruct (inherited name'); [|eauto]. unfold builtinLength.
           destruct (String.eqb name' "__proto__"); [eauto|].
           apply String.eqb_neq in Hgetter, Hsetter. rewrite Hgetter, Hsetter. simpl.
           destruct (_ || _); simpl; eauto.
      * now intros -> ->.
      * intros history ->. split.
        -- intros Hlen. apply Nat.ltb_lt in Hlen. now rewrite Hlen.
        -- intros Hlen Hsame. apply Nat.ltb_ge in Hlen. rewrite Hlen. unfold compare.
           destruct history as [|e0 history]; [discriminate|].
           assert (Hnone : snd (commitIds (rev (e0 :: history)) None) = None).
           { apply (commitIds_same _ (Commit.id (Benchmark.commit e0))); [|now left].
             intros e He. apply in_rev in He. apply Hsame; [exact He | now left]. }
           destruct (commitIds (rev (e0 :: history)) None) as [c b].
           cbn [snd] in Hnone. subst b. now destruct c.
Qed.

(** X22. The baseline of the report is the entry that the update returned:
    for every document with a suite of the given name and every new entry
    whose commit id is not empty, [addBenchmarkToDataJson] without a limit
    returns, and the loop of the comparison script over the suite that it
    leaves finds the commit of the new entry as the current commit, and as
    the baseline commit the commit of the entry that
    [addBenchmarkToDataJson] returned, or none when it returned none. *)
Theorem commitIds_prevBench (now : Z) (groupBy schema : list string) (benchName : string)
  (bench : Benchmark.t) (data : DataJson.t) (suites : list Benchmark.t) :
  DataJson.entries data !! benchName = Some suites ->
  Commit.id (Benchmark.commit bench) <> "" ->
  exists prevBench data' history,
    addBenchmarkToDataJson now groupBy schema benchName bench data None
    = Ok (prevBench, data')
    /\ DataJson.entries data' !! benchName = Some history
    /\ commitIds (rev history) None
       = (Some (Commit.id (Benchmark.commit bench)),
          option_map (fun e => Commit.id (Benchmark.commit e)) prevBench).
Proof.
  intros Hentry Hid. unfold addBenchmarkToDataJson, memberOf. rewrite Hentry.
  eexists _, _, _. split; [reflexivity|]. simpl.
  rewrite lookup_insert_eq. split; [reflexivity|].
  rewrite rev_app_distr. simpl. now rewrite commitIds_Some.
Qed.

(** X25. A value of 0 in the comparison table: for every combined result
    with the status [changed], the change is [N/A] when the baseline value
    or the current value is 0, and the cell of a baseline value or of a
    current value that is 0 is [N/A] as well; in every other case the
    change is the text of what [calculateImprovement] returns for the two
    values. *)
Theorem changeText_changed (res : CombinedResult.t) (bigger_is_better : bool)
  (baselineValue currentValue : Q) :
  CombinedResult.status res = changed ->
  CombinedResult.baselineValue res = Some baselineValue ->
  CombinedResult.currentValue res = Some currentValue ->
  ((baselineValue == 0)%Q \/ (currentValue == 0)%Q ->
   changeText res bigger_is_better = "N/A")
  /\ ((baselineValue == 0)%Q ->
      forall unit, valueCell (CombinedResult.baselineValue res) unit = "N/A")
  /\ ((currentValue == 0)%Q ->
      forall unit, valueCell (CombinedResult.currentValue res) unit = "N/A")
  /\ (~ (baselineValue == 0)%Q -> ~ (currentValue == 0)%Q ->
      changeText res bigger_is_better
      = formatImprovement (calculateImprovement baselineValue currentValue bigger_is_better)).
Proof.
  intros Hstatus Hb Hc. unfold changeText, valueCell. rewrite Hstatus, Hb, Hc.
  split; [|split; [|split]].
  - intros [H|H]; apply Qeq_bool_iff in H; rewrite H; simpl; [reflexivity|].
    now rewrite andb_false_r.
  - intros H unit. apply Qeq_bool_iff in H. now rewrite H.
  - intros H unit. apply Qeq_bool_iff in H. now rewrite H.
  - intros Hb0 Hc0.
    destruct (Qeq_bool baselineValue 0) eqn:Eb; [apply Qeq_bool_iff in Eb; contradiction|].
    destruct (Qeq_bool currentValue 0) eqn:Ec; [apply Qeq_bool_iff in Ec; contradiction|].
    reflexivity.
Qed.

End Script.

(** * The properties at concrete inputs

    The definitions are run with [integerToString] as the printer of
    numbers, [nativeCode] as the text of the built-in functions and
    [attributeName] as the test of [setAttribute]; the numbers of the
    inputs are integers. *)

(** C1: with one filter the chart is shown again. *)
Example setChartHiddenStatus_one_filter :
  let c1 := changeEvent false "os" "linux" [linux512] in
  let c2 := changeEvent true "os" "linux" c1 in
  (map hiddenByOf c1 = [Some "1"] /\ map Chart.display c1 = [Some "none"])
  /\ (map hiddenByOf c2 = [Some "0"] /\ map Chart.display c2 = [None]).
Proof. vm_compute. repeat split. Qed.

(** The page of a suite grouped by system and key size: one check box per
    field and value, and the chart that the scenario of C1 starts from. *)
Example renderAllCharts_keySizes :
  (let* page := renderAllCharts integerToString nativeCode attributeName keySizes "suite" in
   Ok (Page.checkBoxes page, Page.charts page, Page.console page))
  = Ok ([("os", "linux"); ("keySize", "512")], [linux512], []).
Proof. vm_compute. reflexivity. Qed.

(** The key of a record that lacks [os]. *)
Example buildKey_sample :
  buildKey integerToString {[ "name" := JStr "foo"; "keySize" := JNum 512 ]}
    ["name"; "os"; "keySize"]
  = Ok ("{" +:+ quoted "name" +:+ ":" +:+ quoted "foo" +:+ ","
          +:+ quoted "os" +:+ ":" +:+ quoted "-" +:+ ","
          +:+ quoted "keySize" +:+ ":" +:+ quoted "512" +:+ "}").
Proof. vm_compute. reflexivity. Qed.

Lemma keyed_sample_1 :
  keyed ["name"; "os"; "keySize"] {[ "name" := JStr "foo"; "keySize" := JNum 512 ]}.
Proof.
  right. split; [reflexivity|]. intros s [<-|[<-|[<-|[]]]]; vm_compute; discriminate.
Defined.

Lemma keyed_sample_2 :
  keyed ["name"; "os"; "keySize"]
    {[ "name" := JStr "foo"; "os" := JStr "-"; "keySize" := JStr "512" ]}.
Proof.
  right. split; [reflexivity|]. intros s [<-|[<-|[<-|[]]]]; vm_compute; discriminate.
Defined.

Lemma no_hasOwnProperty_field : ~ In "hasOwnProperty" ["name"; "os"; "keySize"].
Proof. intros [H|[H|[H|[]]]]; discriminate. Defined.

(** C2, as amended, at two records: one lacks [os] and has the number 512
    as key size, the other has the sentinel as [os] and the string 512. *)
Lemma buildKey_injective_witness :
  keyed ["name"; "os"; "keySize"] {[ "name" := JStr "foo"; "keySize" := JNum 512 ]}
  /\ keyed ["name"; "os"; "keySize"]
       {[ "name" := JStr "foo"; "os" := JStr "-"; "keySize" := JStr "512" ]}
  /\ exists k1 k2,
       buildKey integerToString {[ "name" := JStr "foo"; "keySize" := JNum 512 ]}
         ["name"; "os"; "keySize"] = Ok k1
       /\ buildKey integerToString
            {[ "name" := JStr "foo"; "os" := JStr "-"; "keySize" := JStr "512" ]}
            ["name"; "os"; "keySize"] = Ok k2
       /\ (k1 = k2 <->
           forall s, In s ["name"; "os"; "keySize"] ->
             printed integerToString
               (fieldOrSentinel {[ "name" := JStr "foo"; "keySize" := JNum 512 ]} s)
             = printed integerToString
                 (fieldOrSentinel
                    {[ "name" := JStr "foo"; "os" := JStr "-"; "keySize" := JStr "512" ]} s))
       /\ ((forall s, In s ["name"; "os"; "keySize"] ->
              fieldOrSentinel {[ "name" := JStr "foo"; "keySize" := JNum 512 ]} s
              = fieldOrSentinel
                  {[ "name" := JStr "foo"; "os" := JStr "-"; "keySize" := JStr "512" ]} s) ->
           k1 = k2)
       /\ (stringValued {[ "name" := JStr "foo"; "keySize" := JNum 512 ]}
             ["name"; "os"; "keySize"] ->
           stringValued {[ "name" := JStr "foo"; "os" := JStr "-"; "keySize" := JStr "512" ]}
             ["name"; "os"; "keySize"] ->
           (k1 = k2 <->
            forall s, In s ["name"; "os"; "keySize"] ->
              fieldOrSentinel {[ "name" := JStr "foo"; "keySize" := JNum 512 ]} s
              = fieldOrSentinel
                  {[ "name" := JStr "foo"; "os" := JStr "-"; "keySize" := JStr "512" ]} s)).
Proof.
  split; [exact keyed_sample_1|]. split; [exact keyed_sample_2|].
  exact (buildKey_injective integerToString ["name"; "os"; "keySize"] _ _
           keyed_sample_1 keyed_sample_2).
Defined.

(** C2 as stated fails on a key size that is the number 512 in one record
    and the string 512 in the other: the records differ in the field, and
    get the same key.  A record with a field named [hasOwnProperty] gets no
    key. *)
Lemma buildKey_number_and_text :
  fieldOrSentinel {[ "keySize" := JNum 512 ]} "keySize"
  <> fieldOrSentinel {[ "keySize" := JStr "512" ]} "keySize"
  /\ (exists k,
        buildKey integerToString {[ "keySize" := JNum 512 ]} ["keySize"] = Ok k
        /\ buildKey integerToString {[ "keySize" := JStr "512" ]} ["keySize"] = Ok k)
  /\ buildKey integerToString {[ "hasOwnProperty" := JStr "yes"; "keySize" := JStr "512" ]}
       ["keySize"]
     = Throw TypeError.
Proof.
  split; [vm_compute; discriminate|].
  split; [eexists; split; vm_compute; reflexivity | vm_compute; reflexivity].
Qed.

Lemma keyable_sample_1 :
  keyable ["name"; "os"; "keySize"] {[ "name" := JStr "foo"; "keySize" := JNum 512 ]}.
Proof. split; [exact keyed_sample_1 | exact no_hasOwnProperty_field]. Defined.

(** C3, as amended, at a record that lacks [os]. *)
Lemma parseKey_buildKey_witness :
  keyable ["name"; "os"; "keySize"] {[ "name" := JStr "foo"; "keySize" := JNum 512 ]}
  /\ exists k key,
       buildKey integerToString {[ "name" := JStr "foo"; "keySize" := JNum 512 ]}
         ["name"; "os"; "keySize"] = Ok k
       /\ parseKey k ["name"; "os"; "keySize"] = Ok key
       /\ (forall s, In s ["name"; "os"; "keySize"] -> s <> "__proto__" ->
             getProp key s
             = Some (printed integerToString
                       (fieldOrSentinel {[ "name" := JStr "foo"; "keySize" := JNum 512 ]} s)))
       /\ (forall s, In s ["name"; "os"; "keySize"] -> s <> "__proto__" ->
             fieldOf {[ "name" := JStr "foo"; "keySize" := JNum 512 ]} s = None ->
             getProp key s = Some "-")
       /\ (forall s, ~ In s ["name"; "os"; "keySize"] \/ s = "__proto__" ->
             getProp key s = None)
       /\ (stringValued {[ "name" := JStr "foo"; "keySize" := JNum 512 ]}
             ["name"; "os"; "keySize"] ->
           noSentinel {[ "name" := JStr "foo"; "keySize" := JNum 512 ]}
             ["name"; "os"; "keySize"] ->
           forall s, In s ["name"; "os"; "keySize"] ->
             fieldOf {[ "name" := JStr "foo"; "keySize" := JNum 512 ]} s
             = fieldOfText (getProp key s)).
Proof.
  split; [exact keyable_sample_1|].
  exact (parseKey_buildKey integerToString ["name"; "os"; "keySize"] _ keyable_sample_1).
Defined.

(** C3 as stated fails: on a record with a [null] field [buildKey]
    throws, and there is no key to parse; a number comes back as its text,
    so that the records with the number 512 and with the string 512 give
    the same mapping, as do a record with the string "-" and a record
    without the field; the field [__proto__] is no property of the mapping;
    and with the field [hasOwnProperty] the key is not read back. *)
Lemma parseKey_buildKey_counterexample :
  (buildKey integerToString {[ "os" := JNull ]} ["os"] = Throw TypeError
   /\ ~ (exists k key,
           buildKey integerToString {[ "os" := JNull ]} ["os"] = Ok k
           /\ parseKey k ["os"] = Ok key))
  /\ ((let* k := buildKey integerToString {[ "keySize" := JNum 512 ]} ["keySize"] in
       parseKey k ["keySize"])
      = Ok [("keySize", "512")]
      /\ (let* k := buildKey integerToString {[ "keySize" := JStr "512" ]} ["keySize"] in
          parseKey k ["keySize"])
         = Ok [("keySize", "512")])
  /\ ((let* k := buildKey integerToString {[ "os" := JStr "-" ]} ["os"] in parseKey k ["os"])
      = Ok [("os", "-")]
      /\ (let* k := buildKey integerToString ∅ ["os"] in parseKey k ["os"])
         = Ok [("os", "-")])
  /\ (let* k := buildKey integerToString ∅ ["__proto__"] in parseKey k ["__proto__"])
     = Ok []
  /\ (let* k := buildKey integerToString ∅ ["hasOwnProperty"] in
      parseKey k ["hasOwnProperty"])
     = Throw TypeError.
Proof.
  split; [split; [reflexivity|]|].
  - intros (k & key & Hk & _). vm_compute in Hk. discriminate.
  - repeat split; vm_compute; reflexivity.
Qed.

(** C4 at the values 500, 1500 and 2500000 ns: the maximum is above 1e6
    and not above 1e9, the unit is milliseconds. *)
Lemma adjustDataAndUnit_display_witness :
  concat (map Trace.dataNs [traceOf [500%Q; 1500%Q]; traceOf [2500000%Q]]) <> []
  /\ displayed "ms/iter" 1000000 [traceOf [500%Q; 1500%Q]; traceOf [2500000%Q]]
       (adjustDataAndUnit [traceOf [500%Q; 1500%Q]; traceOf [2500000%Q]]).
Proof.
  assert (Hne : concat (map Trace.dataNs [traceOf [500%Q; 1500%Q]; traceOf [2500000%Q]]) <> [])
    by discriminate.
  split; [exact Hne|].
  destruct (proj1 adjustDataAndUnit_display _ Hne)
    as (m & Hin & Hbound & _ & Hms & _ & _).
  assert (Hmax : (2500000 <= m)%Q) by (apply Hbound; simpl; tauto).
  apply Hms.
  - simpl in Hin. destruct Hin as [<-|[<-|[<-|[]]]]; discriminate.
  - eapply Qlt_le_trans; [|exact Hmax]. reflexivity.
Defined.

(** The [y] of the traces of these values. *)
Example adjustDataAndUnit_y :
  map Trace.y (snd (adjustDataAndUnit [traceOf [500%Q; 1500%Q]; traceOf [2500000%Q]]))
  = [Some [(500 / 1000000)%Q; (1500 / 1000000)%Q]; Some [(2500000 / 1000000)%Q]].
Proof. reflexivity. Qed.

(** The recognised prefixes, and some others. *)
Example unitFactor_table :
  map (fun unit => unitFactor (charAt0 unit))
    ["ns"; "us"; String "194" (String "181" "s"); mu +:+ "s"; "ms"; "s"; "cycles"; "MB/s"; ""]
  = [Some 1%Q; Some 1000%Q; Some 1000%Q; Some 1000%Q; Some 1000000%Q; Some 1000000000%Q;
     None; None; None].
Proof. reflexivity. Qed.

(** C6 at the unit [ms] and at the unit [cycles]. *)
Lemma getNanoseconds_prefix_witness :
  (exists r, getNanoseconds 3 "ms" = Ok r /\ (r == 3 * 1000000)%Q)
  /\ getNanoseconds 3 "cycles" = Throw (UndefinedUnit (Some 99%N)).
Proof.
  split.
  - apply (proj1 (getNanoseconds_prefix 3 "ms")). reflexivity.
  - apply (proj1 (proj2 (getNanoseconds_prefix 3 "cycles"))). reflexivity.
Defined.

(** C7 at one observation. *)
Example getObservationTooltipText_sample :
  getObservationTooltipText integerToString "foo"
    {| Observation.commit := commitOf "abc";
       Observation.date := 1000;
       Observation.bench := resultOf 12 "ns" [("name", JStr "foo")] |}
  = "<b>foo</b><br>value: 12 ns <br>commit id: abc<br>commit name: update<br>commit url: https://example.org/commit/abc".
Proof. vm_compute. reflexivity. Qed.

Lemma name_is_schema_field : In "name" ["name"; "os"].
Proof. left. reflexivity. Defined.

Lemma name_is_no_group : ~ In "name" ["os"].
Proof. intros [H|[]]. discriminate. Defined.

(** C7, as amended, at the three runs, grouped by system. *)
Lemma tooltip_contents_witness :
  exists traces,
    separateAllTraces integerToString threeRuns ["name"; "os"] = Ok traces
    /\ In "name" ["name"; "os"] /\ ~ In "name" ["os"]
    /\ Forall
         (fun trace =>
            exists texts,
              Trace.text
                (addLegendNameAndTooltip integerToString nativeCode trace ["os"] ["name"; "os"])
              = Some texts
              /\ List.Forall2
                   (fun observation text =>
                      isSubstring
                        (printed integerToString
                           (fieldOrSentinel (benchObject (Observation.bench observation))
                              "name"))
                        text)
                   (Trace.dataset trace) texts)
         traces.
Proof.
  destruct (separateAllTraces integerToString threeRuns ["name"; "os"]) as [traces|e] eqn:E;
    [|vm_compute in E; discriminate].
  exists traces. split; [reflexivity|].
  split; [exact name_is_schema_field|]. split; [exact name_is_no_group|].
  exact (proj2 (tooltip_contents integerToString nativeCode) threeRuns ["name"; "os"] ["os"]
           traces E name_is_schema_field name_is_no_group).
Defined.

(** C7 as stated fails when the charts are grouped by the name: the legend
    name of the trace of the benchmark [foo] is [linux], and the tooltip
    text of its observation has no [foo]. *)
Lemma tooltip_without_name :
  exists trace text,
    separateAllTraces integerToString oneRun ["name"; "os"] = Ok [trace]
    /\ map (fun observation =>
              fieldOrSentinel (benchObject (Observation.bench observation)) "name")
         (Trace.dataset trace)
       = [JStr "foo"]
    /\ Trace.text
         (addLegendNameAndTooltip integerToString nativeCode trace ["name"] ["name"; "os"])
       = Some [text]
    /\ text = "<b>linux</b><br>value: 12 ns <br>commit id: c1<br>commit name: update<br>commit url: https://example.org/commit/c1"
    /\ ~ isSubstring "foo" text.
Proof.
  eexists _, _. split; [vm_compute; reflexivity|].
  split; [vm_compute; reflexivity|]. split; [vm_compute; reflexivity|].
  split; [reflexivity|].
  intros H. apply isSubstring_contains in H. vm_compute in H. discriminate.
Qed.

Lemma threeRuns_keyable :
  forall d, In d (flatten threeRuns) ->
    keyable ["name"; "os"] (benchObject (Observation.bench d)).
Proof.
  intros d Hd. split.
  - right. split.
    + destruct Hd as [<-|[<-|[<-|[<-|[]]]]]; reflexivity.
    + destruct Hd as [<-|[<-|[<-|[<-|[]]]]]; intros s [<-|[<-|[]]]; vm_compute; discriminate.
  - intros [H|[H|[]]]; discriminate.
Defined.

Lemma threeRuns_units : forall d, In d (flatten threeRuns) -> knownUnit d.
Proof.
  intros d [<-|[<-|[<-|[<-|[]]]]]; eexists; vm_compute; reflexivity.
Defined.

(** C8, as amended, at the three runs. *)
Lemma separateAllTraces_witness :
  (forall d, In d (flatten threeRuns) ->
     keyable ["name"; "os"] (benchObject (Observation.bench d)))
  /\ (forall d, In d (flatten threeRuns) -> knownUnit d)
  /\ exists keys traces,
       separateAllTraces integerToString threeRuns ["name"; "os"] = Ok traces
       /\ List.NoDup keys
       /\ (forall k, In k keys <->
             exists d, In d (flatten threeRuns)
                       /\ buildKey integerToString (benchObject (Observation.bench d))
                            ["name"; "os"] = Ok k)
       /\ List.Forall2
            (fun k trace =>
               Trace.dataset trace
               = List.filter (hasKey integerToString ["name"; "os"] k) (flatten threeRuns)
               /\ Trace.x trace = map Observation.date (Trace.dataset trace))
            keys traces.
Proof.
  split; [exact threeRuns_keyable|]. split; [exact threeRuns_units|].
  exact (proj1 (separateAllTraces_one_trace_per_key integerToString) threeRuns ["name"; "os"]
           threeRuns_keyable threeRuns_units).
Defined.

(** The dates of the two traces of the three runs, in input order. *)
Example separateAllTraces_threeRuns :
  (let* traces := separateAllTraces integerToString threeRuns ["name"; "os"] in
   Ok (map (fun trace => (Trace.x trace, Trace.dataNs trace)) traces))
  = Ok [([1000%Z; 2000%Z], [12%Q; (3 * 1000)%Q]); ([1000%Z; 3000%Z], [15%Q; 14%Q])].
Proof. vm_compute. reflexivity. Qed.

(** C8 as stated fails on a result whose unit is not a duration: there is
    a schema key, and no trace.  Nor is there a trace for a result with
    [null] in a schema field, for a result with a field named
    [hasOwnProperty], and for a schema with the field [hasOwnProperty]. *)
Lemma separateAllTraces_unknown_unit :
  ((exists k,
      buildKey integerToString (benchObject (resultOf 3 "cycles" [("name", JStr "foo")]))
        ["name"] = Ok k)
   /\ separateAllTraces integerToString cyclesRun ["name"]
      = Throw (UndefinedUnit (Some 99%N)))
  /\ separateAllTraces integerToString nullRun ["name"] = Throw TypeError
  /\ separateAllTraces integerToString
       [runOf "c1" 1000 [resultOf 3 "ns" [("name", JStr "foo"); ("hasOwnProperty", JStr "yes")]]]
       ["name"]
     = Throw TypeError
  /\ separateAllTraces integerToString oneRun ["name"; "hasOwnProperty"] = Throw TypeError.
Proof.
  split; [split; [eexists; vm_compute; reflexivity | vm_compute; reflexivity]|].
  repeat split; vm_compute; reflexivity.
Qed.

Lemma suite_is_no_prototype : "suite" <> "__proto__".
Proof. discriminate. Defined.

Lemma suite_is_no_method : "suite" <> "hasOwnProperty".
Proof. discriminate. Defined.

(** C9, as amended, at the three runs in a document without [schema] and
    [groupBy]. *)
Lemma retrieve_defaults_witness :
  (absentOrInvalid (BENCHMARK_DATA.schema bareDocument) "suite"
   /\ retrieveSchema bareDocument "suite"
      = Ok (Fields ["name"; "platform"; "os"; "keySize"; "api"; "category"],
            ["No or invalid schema provided: defaulting to [name,platform,os,keySize,api,category]"])
   /\ renderAllCharts integerToString nativeCode attributeName bareDocument "suite"
      = let* page :=
          renderAllCharts integerToString nativeCode attributeName
            (withSchema bareDocument "suite"
               ["name"; "platform"; "os"; "keySize"; "api"; "category"])
            "suite" in
        Ok (logged 0
              "No or invalid schema provided: defaulting to [name,platform,os,keySize,api,category]"
              page))
  /\ (absentOrInvalid (BENCHMARK_DATA.groupBy bareDocument) "suite"
      /\ retrieveGroupBy bareDocument "suite"
         = Ok (Fields ["os"], ["No or invalid groupBy provided: defaulting to [os]"])
      /\ renderAllCharts integerToString nativeCode attributeName bareDocument "suite"
         = let* '(_, log1) := retrieveSchema bareDocument "suite" in
           let* page :=
             renderAllCharts integerToString nativeCode attributeName
               (withGroupBy bareDocument "suite" ["os"]) "suite" in
           Ok (logged (length log1) "No or invalid groupBy provided: defaulting to [os]"
                 page)).
Proof.
  assert (H1 : absentOrInvalid (BENCHMARK_DATA.schema bareDocument) "suite") by exact I.
  assert (H2 : absentOrInvalid (BENCHMARK_DATA.groupBy bareDocument) "suite") by exact I.
  split; (split; [assumption|]).
  - split.
    + exact (proj1 (proj1 (retrieve_defaults integerToString nativeCode attributeName
                             bareDocument "suite") H1)).
    + exact (proj2 (proj1 (retrieve_defaults integerToString nativeCode attributeName
                             bareDocument "suite") H1)
               suite_is_no_prototype suite_is_no_method).
  - split.
    + exact (proj1 (proj2 (retrieve_defaults integerToString nativeCode attributeName
                             bareDocument "suite") H2)).
    + exact (proj2 (proj2 (retrieve_defaults integerToString nativeCode attributeName
                             bareDocument "suite") H2)
               suite_is_no_prototype suite_is_no_method).
Defined.

(** The entry of a suite that has one is returned without a diagnostic. *)
Example retrieveGroupBy_other :
  retrieveGroupBy sampleDocument "other" = Ok (Fields ["os"; "keySize"], []).
Proof. reflexivity. Qed.

(** C9 on the page: without schema and group-by the three runs are drawn
    with the defaults, one chart per system, after two diagnostics. *)
Example renderAllCharts_defaults :
  (let* page := renderAllCharts integerToString nativeCode attributeName bareDocument "suite" in
   Ok (Page.checkBoxes page,
       map (fun plot => fst (fst plot)) (Page.plots page),
       Page.console page))
  = Ok ([("os", "linux"); ("os", "macos")],
        ["Results for run with the os linux"; "Results for run with the os macos"],
        ["No or invalid schema provided: defaulting to [name,platform,os,keySize,api,category]";
         "No or invalid groupBy provided: defaulting to [os]"]).
Proof. vm_compute. reflexivity. Qed.

(** C9 as stated fails on an entry that is there and is no list of
    fields: an entry [null] is returned as it is, without a diagnostic, and
    the renderer ends in a [TypeError]; so does it for an entry that is a
    string. *)
Lemma retrieveSchema_invalid_entry :
  (retrieveSchema nullSchema "suite" = Ok (NoFields JNull, [])
   /\ renderAllCharts integerToString nativeCode attributeName nullSchema "suite"
      = Throw TypeError)
  /\ (retrieveSchema textSchema "suite" = Ok (NoFields (JStr "name,os"), [])
      /\ renderAllCharts integerToString nativeCode attributeName textSchema "suite"
         = Throw TypeError).
Proof. repeat split; vm_compute; reflexivity. Qed.

Lemma twoRuns_suite :
  DataJson.entries twoRuns !! "suite" = Some [runOf "c1" 1000 []; runOf "c2" 2000 []].
Proof. reflexivity. Defined.

(** C10, as amended, at a suite of two runs, cut to two entries: the older
    run goes, and the run of the other commit is returned. *)
Lemma addBenchmarkToDataJson_append_witness :
  DataJson.entries twoRuns !! "suite" = Some [runOf "c1" 1000 []; runOf "c2" 2000 []]
  /\ exists prevBench data',
       addBenchmarkToDataJson 5000 ["os"] ["name"; "os"] "suite" (runOf "c2" 3000 [])
         twoRuns (Some 2%Z)
       = Ok (prevBench, data')
       /\ DataJson.entries data' !! "suite"
          = Some (lastEntries 2
                    ([runOf "c1" 1000 []; runOf "c2" 2000 []] ++ [runOf "c2" 3000 []]))
       /\ match prevBench with
          | Some e =>
              exists older newer,
                [runOf "c1" 1000 []; runOf "c2" 2000 []] = (older ++ e :: newer)%list
                /\ Commit.id (Benchmark.commit e)
                   <> Commit.id (Benchmark.commit (runOf "c2" 3000 []))
                /\ (forall x, In x newer ->
                      Commit.id (Benchmark.commit x)
                      = Commit.id (Benchmark.commit (runOf "c2" 3000 [])))
          | None =>
              forall x, In x [runOf "c1" 1000 []; runOf "c2" 2000 []] ->
                Commit.id (Benchmark.commit x)
                = Commit.id (Benchmark.commit (runOf "c2" 3000 []))
          end
       /\ (forall other, other <> "suite" ->
             DataJson.entries data' !! other = DataJson.entries twoRuns !! other).
Proof.
  split; [exact twoRuns_suite|].
  exact (proj2 (addBenchmarkToDataJson_append 5000 ["os"] ["name"; "os"] "suite"
                  (runOf "c2" 3000 []) twoRuns (Some 2%Z)) _ twoRuns_suite).
Defined.

Example addBenchmarkToDataJson_sample :
  (let* '(prevBench, data') :=
     addBenchmarkToDataJson 5000 ["os"] ["name"; "os"] "suite" (runOf "c2" 3000 [])
       twoRuns (Some 2%Z) in
   Ok (prevBench, DataJson.entries data' !! "suite", DataJson.lastUpdate data',
       DataJson.groupBy data' ≫= (.!! "suite"), DataJson.schema data' ≫= (.!! "suite")))
  = Ok (Some (runOf "c1" 1000 []), Some [runOf "c2" 2000 []; runOf "c2" 3000 []], 5000%Z,
        Some ["os"], Some ["name"; "os"]).
Proof. vm_compute. reflexivity. Qed.

(** C10 as stated fails on a suite that is new and a limit of 0: the claim
    cuts the suite to its last 0 entries, the code leaves the new entry. *)
Lemma addBenchmarkToDataJson_new_suite :
  DataJson.entries twoRuns !! "new" = None
  /\ lastEntries 0 ([] ++ [runOf "c3" 3000 []]) = []
  /\ exists data',
       addBenchmarkToDataJson 5000 ["os"] ["name"; "os"] "new" (runOf "c3" 3000 [])
         twoRuns (Some 0%Z)
       = Ok (None, data')
       /\ DataJson.entries data' !! "new" = Some [runOf "c3" 3000 []].
Proof.
  split; [reflexivity|]. split; [reflexivity|].
  eexists. split; [reflexivity|]. reflexivity.
Qed.

(** A suite named [constructor], of a document that has none: the entry
    that is read is the function [Object], which has no method [slice]. *)
Example addBenchmarkToDataJson_constructor :
  addBenchmarkToDataJson 5000 ["os"] ["name"; "os"] "constructor" (runOf "c3" 3000 [])
    twoRuns None
  = Throw TypeError.
Proof. reflexivity. Qed.

(** ** Further properties at concrete inputs *)

Lemma os_is_no_method : ~ In "hasOwnProperty" ["os"].
Proof. intros [H|[]]. discriminate. Defined.

Lemma os_is_a_name : forall s, In s ["os"] -> attributeName s = true.
Proof. intros s [<-|[]]. reflexivity. Defined.

(** The group key of a trace without a system. *)
Lemma parseKey_buildTraceGroupKey_witness :
  ~ In "hasOwnProperty" ["os"]
  /\ exists groupKey,
       parseKey (buildTraceGroupKey (traceOf [500%Q]) ["os"]) ["os"] = Ok groupKey
       /\ (forall s v, In s ["os"] -> s <> "__proto__" ->
             getProp (Trace.metadata (traceOf [500%Q])) s = Some v ->
             getProp groupKey s = Some v)
       /\ (forall s, In s ["os"] -> s <> "__proto__" ->
             getProp (Trace.metadata (traceOf [500%Q])) s = None ->
             getProp groupKey s = Some "-")
       /\ (forall s, ~ In s ["os"] \/ s = "__proto__" -> getProp groupKey s = None).
Proof.
  split; [exact os_is_no_method|].
  exact (parseKey_buildTraceGroupKey (traceOf [500%Q]) ["os"] os_is_no_method).
Defined.

(** The group key of a trace, for the group-by fields [__proto__] and
    [os]: the first is no property. *)
Example parseKey_prototype :
  parseKey (buildTraceGroupKey (traceOf [500%Q]) ["__proto__"; "os"]) ["__proto__"; "os"]
  = Ok [("os", "-")].
Proof. vm_compute. reflexivity. Qed.

(** The title of a group of two fields, one of them without a value. *)
Lemma buildTitleFromGroupKey_witness :
  In "os" ["os"; "keySize"]
  /\ getProp [("os", "linux")] "os" = Some "linux"
  /\ isSubstring ("the " +:+ "os" +:+ " " +:+ "linux")
       (buildTitleFromGroupKey nativeCode [("os", "linux")] ["os"; "keySize"])
  /\ buildTitleFromGroupKey nativeCode [("os", "linux")] ["os"; "keySize"]
     = "Results for run with the os linux and undefined keySize".
Proof.
  assert (H1 : In "os" ["os"; "keySize"]) by (now left).
  assert (H2 : getProp [("os", "linux")] "os" = Some "linux") by reflexivity.
  split; [exact H1|]. split; [exact H2|]. split; [|reflexivity].
  exact (proj1 (proj2 (proj2 (buildTitleFromGroupKey_contents nativeCode [("os", "linux")]
                                ["os"; "keySize"]))) "os" "linux" H1 H2).
Defined.

(** The title of a group by a field that [Object.prototype] has. *)
Example buildTitleFromGroupKey_inherited :
  buildTitleFromGroupKey nativeCode [] ["valueOf"]
  = "Results for run with the valueOf function valueOf() { [native code] }".
Proof. reflexivity. Qed.

(** The values of two group keys for the fields os and keySize. *)
Lemma getUniqueValuesForKey_witness :
  getProp (getUniqueValuesForKey
             [[("os", "linux"); ("keySize", "512")]; [("os", "macos"); ("keySize", "512")]]
             ["os"; "keySize"]) "keySize"
  = Some [Own "512"]
  /\ List.NoDup [@Own string "512"]
  /\ forall v, In v [Own "512"]
       <-> exists k,
             In k [[("os", "linux"); ("keySize", "512")]; [("os", "macos"); ("keySize", "512")]]
             /\ propertyOf k "keySize" = v.
Proof.
  assert (H : getProp (getUniqueValuesForKey
                         [[("os", "linux"); ("keySize", "512")];
                          [("os", "macos"); ("keySize", "512")]]
                         ["os"; "keySize"]) "keySize"
              = Some [Own "512"]) by reflexivity.
  split; [exact H|].
  exact (proj2 (proj2 (getUniqueValuesForKey_values _ _)) "keySize" [Own "512"] H).
Defined.

Lemma groupKeys_defined :
  forall k field,
    In k [[("os", "linux"); ("keySize", "512")]; [("os", "macos"); ("keySize", "512")]] ->
    In field ["os"; "keySize"] -> field <> "__proto__" -> getProp k field <> None.
Proof.
  intros k field [<-|[<-|[]]] [<-|[<-|[]]] _; discriminate.
Defined.

(** The check boxes of these two group keys. *)
Lemma createFilterInterface_witness :
  List.NoDup
    (createFilterInterface nativeCode
       [[("os", "linux"); ("keySize", "512")]; [("os", "macos"); ("keySize", "512")]]
       ["os"; "keySize"])
  /\ createFilterInterface nativeCode
       [[("os", "linux"); ("keySize", "512")]; [("os", "macos"); ("keySize", "512")]]
       ["os"; "keySize"]
     = [("os", "linux"); ("os", "macos"); ("keySize", "512")].
Proof.
  split; [|reflexivity].
  exact (proj2 (createFilterInterface_boxes nativeCode _ _) groupKeys_defined).
Defined.




(** Three filters hide the chart one after the other. *)
Lemma updateChart_hide_repeatedly_witness :
  hiddenByOf linux512 = None
  /\ hiddenByOf (Nat.iter 3 (updateChart true) linux512) = Some "111"
  /\ Chart.display (Nat.iter 3 (updateChart true) linux512) = Some "none".
Proof.
  split; [reflexivity|].
  exact (updateChart_hide_repeatedly linux512 2 eq_refl).
Defined.

(** The traces of the three runs. *)
Lemma separateAllTraces_partition_witness :
  exists traces,
    separateAllTraces integerToString threeRuns ["name"; "os"] = Ok traces
    /\ Permutation (concat (map Trace.dataset traces)) (flatten threeRuns)
    /\ Forall
         (fun trace =>
            Trace.dataset trace <> []
            /\ Trace.x trace = map Observation.date (Trace.dataset trace)
            /\ List.Forall2
                 (fun d ns =>
                    getNanoseconds (BenchmarkResult.value (Observation.bench d))
                      (BenchmarkResult.unit (Observation.bench d)) = Ok ns)
                 (Trace.dataset trace) (Trace.dataNs trace)
            /\ getProp (Trace.metadata trace) "unit" = Some "ns/iter"
            /\ Trace.y trace = None)
         traces.
Proof.
  destruct (separateAllTraces integerToString threeRuns ["name"; "os"]) as [traces|e] eqn:E;
    [|vm_compute in E; discriminate].
  exists traces. split; [reflexivity|].
  exact (separateAllTraces_partition integerToString threeRuns ["name"; "os"] traces E).
Defined.

Lemma cyclesRun_keyable :
  forall d, In d (flatten cyclesRun) ->
    keyable ["name"] (benchObject (Observation.bench d)).
Proof.
  intros d [<-|[]]. split.
  - right. split; [reflexivity|]. intros s [<-|[]]; vm_compute; discriminate.
  - intros [H|[]]. discriminate.
Defined.

(** A run whose name is [null], and a run that counts cycles. *)
Lemma separateAllTraces_exceptions_witness :
  separateAllTraces integerToString nullRun ["name"] = Throw TypeError
  /\ exists d,
       In d (flatten cyclesRun)
       /\ unitFactor (charAt0 (BenchmarkResult.unit (Observation.bench d))) = None
       /\ separateAllTraces integerToString cyclesRun ["name"]
          = Throw (UndefinedUnit (charAt0 (BenchmarkResult.unit (Observation.bench d)))).
Proof.
  split.
  - apply (proj1 (separateAllTraces_exceptions integerToString nullRun ["name"])).
    eexists. split; [left; reflexivity|]. split; [discriminate|].
    right. right. exists "name". split; [now left | reflexivity].
  - apply (proj2 (separateAllTraces_exceptions integerToString cyclesRun ["name"]));
      [exact cyclesRun_keyable|].
    eexists. split; [left; reflexivity | reflexivity].
Defined.

(** The three runs have traces. *)
Lemma separateAllTraces_returns_witness :
  (forall d, In d (flatten threeRuns) ->
     keyable ["name"; "os"] (benchObject (Observation.bench d)) /\ knownUnit d)
  /\ exists traces, separateAllTraces integerToString threeRuns ["name"; "os"] = Ok traces.
Proof.
  assert (H : forall d, In d (flatten threeRuns) ->
            keyable ["name"; "os"] (benchObject (Observation.bench d)) /\ knownUnit d)
    by (intros d Hd; split; [now apply threeRuns_keyable | now apply threeRuns_units]).
  split; [exact H|].
  exact (proj2 (separateAllTraces_returns integerToString threeRuns ["name"; "os"]) H).
Defined.

Lemma bareDocument_suite : BENCHMARK_DATA.entries bareDocument !! "suite" = Some threeRuns.
Proof. reflexivity. Defined.

Lemma bareDocument_schema :
  retrieveSchema bareDocument "suite"
  = Ok (Fields defaultSchema,
        ["No or invalid schema provided: defaulting to [name,platform,os,keySize,api,category]"]).
Proof. reflexivity. Defined.

Lemma bareDocument_groupBy :
  retrieveGroupBy bareDocument "suite"
  = Ok (Fields ["os"], ["No or invalid groupBy provided: defaulting to [os]"]).
Proof. reflexivity. Defined.

(** The page of the three runs, drawn with the default fields. *)
Lemma renderAllCharts_page_witness :
  exists traces,
    separateAllTraces integerToString threeRuns defaultSchema = Ok traces
    /\ exists page,
         renderAllCharts integerToString nativeCode attributeName bareDocument "suite" = Ok page
         /\ Page.console page
            = (["No or invalid schema provided: defaulting to [name,platform,os,keySize,api,category]"]
               ++ ["No or invalid groupBy provided: defaulting to [os]"])%list
         /\ length (Page.charts page) = length (Page.plots page)
         /\ Forall
              (fun plot =>
                 snd plot <> []
                 /\ Forall
                      (fun trace =>
                         Trace.y trace <> None /\ Trace.name trace <> None
                         /\ Trace.text trace <> None)
                      (snd plot))
              (Page.plots page).
Proof.
  destruct (separateAllTraces integerToString threeRuns defaultSchema) as [traces|e] eqn:E;
    [|vm_compute in E; discriminate].
  exists traces. split; [reflexivity|].
  exact (renderAllCharts_page integerToString nativeCode attributeName bareDocument "suite"
           threeRuns defaultSchema ["os"] _ _ traces
           bareDocument_suite bareDocument_schema bareDocument_groupBy E
           os_is_no_method os_is_a_name).
Defined.

Lemma renderAllCharts_every_result_once_witness :
  exists traces,
    separateAllTraces integerToString threeRuns defaultSchema = Ok traces
    /\ exists page,
         renderAllCharts integerToString nativeCode attributeName bareDocument "suite" = Ok page
         /\ Permutation
              (concat (map Trace.dataset (concat (map snd (Page.plots page)))))
              (flatten threeRuns).
Proof.
  destruct (separateAllTraces integerToString threeRuns defaultSchema) as [traces|e] eqn:E;
    [|vm_compute in E; discriminate].
  exists traces. split; [reflexivity|].
  exact (renderAllCharts_every_result_once integerToString nativeCode attributeName
           bareDocument "suite" threeRuns defaultSchema ["os"] _ _ traces
           bareDocument_suite bareDocument_schema bareDocument_groupBy E
           os_is_no_method os_is_a_name).
Defined.

Lemma renderAllCharts_checkBoxes_witness :
  exists traces,
    separateAllTraces integerToString threeRuns defaultSchema = Ok traces
    /\ exists page,
         renderAllCharts integerToString nativeCode attributeName bareDocument "suite" = Ok page
         /\ List.NoDup (Page.checkBoxes page)
         /\ forall key value,
              In (key, value) (Page.checkBoxes page)
              <-> In key ["os"] /\ key <> "__proto__"
                  /\ exists trace,
                       In trace traces
                       /\ default "-" (getProp (Trace.metadata trace) key) = value.
Proof.
  destruct (separateAllTraces integerToString threeRuns defaultSchema) as [traces|e] eqn:E;
    [|vm_compute in E; discriminate].
  exists traces. split; [reflexivity|].
  exact (renderAllCharts_checkBoxes integerToString nativeCode attributeName bareDocument
           "suite" threeRuns defaultSchema ["os"] _ _ traces
           bareDocument_suite bareDocument_schema bareDocument_groupBy E
           os_is_no_method os_is_a_name).
Defined.

(** A document without the suite. *)
Lemma renderAllCharts_exceptions_witness :
  BENCHMARK_DATA.entries sampleDocument !! "suite" = None
  /\ renderAllCharts integerToString nativeCode attributeName sampleDocument "suite"
     = Throw TypeError.
Proof.
  assert (H : BENCHMARK_DATA.entries sampleDocument !! "suite" = None) by reflexivity.
  split; [exact H|].
  exact (proj1 (renderAllCharts_exceptions integerToString nativeCode attributeName
                  sampleDocument "suite") H).
Defined.

(** A group-by field with a blank before its name, as the argument
    [os, keySize] of the update script leaves it. *)
Example renderAllCharts_blank :
  renderAllCharts integerToString nativeCode attributeName
    (withGroupBy bareDocument "suite" ["os"; " keySize"]) "suite"
  = Throw InvalidCharacterError.
Proof. vm_compute. reflexivity. Qed.

(** Traces without a value. *)
Lemma adjustDataAndUnit_again_witness :
  concat (map Trace.dataNs [traceOf []; traceOf []]) = []
  /\ fst (adjustDataAndUnit [traceOf []; traceOf []]) = "ns/iter".
Proof.
  assert (H : concat (map Trace.dataNs [traceOf []; traceOf []]) = []) by reflexivity.
  split; [exact H|].
  exact (proj2 (proj2 (adjustDataAndUnit_again [traceOf []; traceOf []])) H).
Defined.

(** The values 500, 1500 and 2500000 ns. *)
Lemma adjustDataAndUnit_range_witness :
  concat (map Trace.dataNs [traceOf [500%Q; 1500%Q]; traceOf [2500000%Q]]) <> []
  /\ exists unit factor,
       displayed unit factor [traceOf [500%Q; 1500%Q]; traceOf [2500000%Q]]
         (adjustDataAndUnit [traceOf [500%Q; 1500%Q]; traceOf [2500000%Q]])
       /\ (0 < factor)%Q
       /\ (forall v w : Q, (v <= w)%Q <-> (v / factor <= w / factor)%Q)
       /\ (unit <> "s/iter" ->
           forall trace ys y,
             In trace (snd (adjustDataAndUnit [traceOf [500%Q; 1500%Q]; traceOf [2500000%Q]])) ->
             Trace.y trace = Some ys -> In y ys -> (y <= 1000)%Q)
       /\ (unit <> "ns/iter" ->
           exists trace ys y,
             In trace (snd (adjustDataAndUnit [traceOf [500%Q; 1500%Q]; traceOf [2500000%Q]]))
             /\ Trace.y trace = Some ys /\ In y ys /\ (1 < y)%Q).
Proof.
  assert (H : concat (map Trace.dataNs [traceOf [500%Q; 1500%Q]; traceOf [2500000%Q]]) <> [])
    by discriminate.
  split; [exact H|].
  exact (adjustDataAndUnit_range [traceOf [500%Q; 1500%Q]; traceOf [2500000%Q]] H).
Defined.

(** The legend name of a result without a platform, grouped by system. *)
Lemma getLegendName_built_witness :
  exists k trace,
    buildKey integerToString {[ "name" := JStr "foo"; "os" := JStr "linux" ]}
      ["name"; "platform"; "os"] = Ok k
    /\ buildTrace ["name"; "platform"; "os"] (k, []) = Ok trace
    /\ getLegendName nativeCode trace ["os"] ["name"; "platform"; "os"]
       = String.concat " "
           (map (legendText integerToString {[ "name" := JStr "foo"; "os" := JStr "linux" ]})
              (List.filter (fun s => negb (includes ["os"] s) && negb (String.eqb s "unit"))
                 ["name"; "platform"; "os"])).
Proof.
  destruct (buildKey integerToString {[ "name" := JStr "foo"; "os" := JStr "linux" ]}
              ["name"; "platform"; "os"]) as [k|e] eqn:Ek; [|vm_compute in Ek; discriminate].
  destruct (buildTrace ["name"; "platform"; "os"] (k, [])) as [trace|e] eqn:Et.
  - exists k, trace. split; [reflexivity|]. split; [exact Et|].
    exact (getLegendName_built integerToString nativeCode ["name"; "platform"; "os"] ["os"]
             _ k [] trace Ek Et).
  - exfalso. vm_compute in Ek. injection Ek as <-. vm_compute in Et. discriminate.
Defined.

(** The legend name for a schema with the field [__proto__]. *)
Example getLegendName_prototype :
  (let* traces := separateAllTraces integerToString oneRun ["name"; "__proto__"] in
   Ok (map (fun trace => getLegendName nativeCode trace ["os"] ["name"; "__proto__"]) traces))
  = Ok ["foo [object Object]"].
Proof. vm_compute. reflexivity. Qed.

Lemma schema_not_empty : ["name"; "os"] <> @nil string.
Proof. discriminate. Defined.

(** Two parsed results, loaded with the schema name, os. *)
Lemma loadBenchmarkResult_fields_witness :
  ["name"; "os"] <> @nil string
  /\ let bench := loadBenchmarkResult 5000 (commitOf "c1") false parsedResults ["name"; "os"] in
     LoadedBenchmark.commit bench = commitOf "c1"
     /\ LoadedBenchmark.bigger_is_better bench = false
     /\ LoadedBenchmark.date bench = 5000%Z
     /\ List.Forall2
          (fun result result' =>
             (forall k, In k ["name"; "os"] -> k <> "__proto__" ->
                hasOwnProperty result' k = true)
             /\ (forall k, hasOwnProperty result k = true -> hasOwnProperty result' k = true)
             /\ (forall k, readProp result' k = afterLoad (readProp result k) k))
          parsedResults (LoadedBenchmark.benches bench).
Proof.
  split; [exact schema_not_empty|].
  exact (loadBenchmarkResult_fields 5000 (commitOf "c1") false parsedResults ["name"; "os"]
           schema_not_empty).
Defined.

(** A suite of two runs and a third run, with the limit 2. *)
Lemma addBenchmarkToDataJson_maxItems_witness :
  DataJson.entries twoRuns !! "suite" = Some [runOf "c1" 1000 []; runOf "c2" 2000 []]
  /\ exists prevBench data' suites',
       addBenchmarkToDataJson 5000 ["os"] ["name"; "os"] "suite" (runOf "c2" 3000 [])
         twoRuns (Some 2%Z)
       = Ok (prevBench, data')
       /\ DataJson.entries data' !! "suite" = Some suites'
       /\ ((1 <= 2)%Z ->
           List.last suites' (runOf "c2" 3000 []) = runOf "c2" 3000 []
           /\ suites' <> []
           /\ length suites'
              = Nat.min (length [runOf "c1" 1000 []; runOf "c2" 2000 []] + 1) (Z.to_nat 2))
       /\ ((2 <= 0)%Z -> suites' = []).
Proof.
  split; [exact twoRuns_suite|].
  exact (addBenchmarkToDataJson_maxItems 5000 ["os"] ["name"; "os"] "suite"
           (runOf "c2" 3000 []) twoRuns 2 _ twoRuns_suite).
Defined.

Lemma twoRuns_has_suite :
  DataJson.entries twoRuns !! "suite" <> None \/ inherited "suite" = false.
Proof. right. reflexivity. Defined.

(** The suite is added to the two runs: its fields are read by the page,
    as are those of the other suite. *)
Lemma addBenchmarkToDataJson_fields_witness :
  "suite" <> "__proto__" /\ "suite" <> "hasOwnProperty"
  /\ default ∅ (DataJson.schema twoRuns) !! "hasOwnProperty" = None
  /\ default ∅ (DataJson.groupBy twoRuns) !! "hasOwnProperty" = None
  /\ (DataJson.entries twoRuns !! "suite" <> None \/ inherited "suite" = false)
  /\ exists prevBench data',
       addBenchmarkToDataJson 5000 ["os"; "keySize"] ["name"; "os"] "suite"
         (runOf "c2" 3000 []) twoRuns None
       = Ok (prevBench, data')
       /\ DataJson.lastUpdate data' = 5000%Z
       /\ DataJson.repoUrl data' = DataJson.repoUrl twoRuns
       /\ retrieveSchema (asBenchmarkData data') "suite" = Ok (Fields ["name"; "os"], [])
       /\ retrieveGroupBy (asBenchmarkData data') "suite" = Ok (Fields ["os"; "keySize"], [])
       /\ (forall other m fields,
             other <> "suite" -> other <> "__proto__" ->
             DataJson.schema twoRuns = Some m -> m !! other = Some fields ->
             retrieveSchema (asBenchmarkData data') other = Ok (Fields fields, []))
       /\ (forall other m fields,
             other <> "suite" -> other <> "__proto__" ->
             DataJson.groupBy twoRuns = Some m -> m !! other = Some fields ->
             retrieveGroupBy (asBenchmarkData data') other = Ok (Fields fields, [])).
Proof.
  split; [exact suite_is_no_prototype|]. split; [exact suite_is_no_method|].
  split; [reflexivity|]. split; [reflexivity|]. split; [exact twoRuns_has_suite|].
  exact (addBenchmarkToDataJson_fields 5000 ["os"; "keySize"] ["name"; "os"] "suite"
           (runOf "c2" 3000 []) twoRuns None suite_is_no_prototype suite_is_no_method
           eq_refl eq_refl twoRuns_has_suite).
Defined.

(** ** The reports at concrete inputs

    Numbers are printed with [integerToString], also where the script
    prints them for the locale, and [toFixed] is [fixedToString]. *)

(** The report of one run, for two rows of one system. *)
Example main'_sample :
  main' integerToString nativeCode "name,os" "os" sampleRows
  = Ok ("### **os**: `linux`" +:+ newline
        +:+ "| name | os | value | range | unit |" +:+ newline
        +:+ "| --- | --- | --- | --- | --- |" +:+ newline
        +:+ "| foo | linux | 12 | N/A | ns |" +:+ newline
        +:+ "| bar | linux | 15 | N/A | ns |" +:+ newline
        +:+ newline +:+ "---").
Proof. vm_compute. reflexivity. Qed.

(** The comparison of two runs of two commits; smaller is better.  The
    arguments are trimmed. *)
Example main_sample :
  main integerToString nativeCode integerToString fixedToString
    (Some "suite") (Some "name, os") (Some " os ")
    {[ "suite" := [baselineRun; currentRun] ]}
  = Ok (Stdout
          ("### **os**: `linux`" +:+ newline +:+ newline
           +:+ "| name | os | Baseline | Current | Change |" +:+ newline
           +:+ "|---|---|---|---|---|" +:+ newline
           +:+ "| `foo` | `linux` | 10 ns | 12 ns | **-20.00%** ❌ |" +:+ newline
           +:+ "| `bar` | `linux` | N/A | 5 ns | **New** ✨ |" +:+ newline
           +:+ newline)).
Proof. vm_compute. reflexivity. Qed.

(** The comparison without the argument [--schema], and for the name
    [__defineGetter__] of a document without such a suite. *)
Example main_throws :
  main integerToString nativeCode integerToString fixedToString
    (Some "suite") None (Some "os") {[ "suite" := [baselineRun; currentRun] ]}
  = Throw TypeError
  /\ main integerToString nativeCode integerToString fixedToString
       (Some "__defineGetter__") (Some "name,os") (Some "os")
       {[ "suite" := [baselineRun; currentRun] ]}
     = Throw TypeError.
Proof. split; reflexivity. Qed.

Lemma os_not_empty : ["os"] <> @nil string.
Proof. discriminate. Defined.

(** The groups of the comparison of the two runs, by system. *)
Lemma groupResults_partition_witness :
  ["os"] <> @nil string
  /\ map fst
       (groupResults integerToString nativeCode
          (compareBenches integerToString nativeCode baselineRun currentRun ["name"; "os"])
          ["os"])
     = distinct
         (map (fun result =>
                 generateCompositeKey integerToString nativeCode (combinedObject result) ["os"])
            (compareBenches integerToString nativeCode baselineRun currentRun ["name"; "os"]))
  /\ (forall k rs,
        In (k, rs)
          (groupResults integerToString nativeCode
             (compareBenches integerToString nativeCode baselineRun currentRun ["name"; "os"])
             ["os"]) ->
        rs = List.filter
               (fun result =>
                  String.eqb
                    (generateCompositeKey integerToString nativeCode (combinedObject result)
                       ["os"]) k)
               (compareBenches integerToString nativeCode baselineRun currentRun
                  ["name"; "os"]))
  /\ Forall (fun group => snd group <> [])
       (groupResults integerToString nativeCode
          (compareBenches integerToString nativeCode baselineRun currentRun ["name"; "os"])
          ["os"]).
Proof.
  split; [exact os_not_empty|].
  exact (proj2 (proj2 (groupResults_partition integerToString nativeCode
                         (compareBenches integerToString nativeCode baselineRun currentRun
                            ["name"; "os"]) ["os"])) os_not_empty).
Defined.

(** The keys of the comparison of the two runs: that of the baseline
    first. *)
Example compareBenches_keys :
  distinct
    (map (compositeKey integerToString nativeCode (keyFieldsOf ["name"; "os"]))
       (Benchmark.benches baselineRun)
     ++ map (compositeKey integerToString nativeCode (keyFieldsOf ["name"; "os"]))
          (Benchmark.benches currentRun))
  = ["foo|linux"; "bar|linux"]
  /\ map CombinedResult.status
       (compareBenches integerToString nativeCode baselineRun currentRun ["name"; "os"])
     = [changed; new].
Proof. split; vm_compute; reflexivity. Qed.

Lemma name_in_schema : In "name" ["os"; "name"; "keySize"].
Proof. right. left. reflexivity. Defined.

(** A schema with [name] in the second place. *)
Lemma report_columns_witness :
  In "name" ["os"; "name"; "keySize"]
  /\ (exists before after,
        ["os"; "name"; "keySize"] = (before ++ "name" :: after)%list
        /\ ~ In "name" before
        /\ tableColumns ["os"; "name"; "keySize"] = "name" :: (before ++ after)%list)
  /\ tableColumns ["os"; "name"; "keySize"] = ["name"; "os"; "keySize"].
Proof.
  split; [exact name_in_schema|]. split; [|reflexivity].
  exact (proj1 (proj2 (report_columns integerToString nativeCode integerToString fixedToString
                         ["os"; "name"; "keySize"])) name_in_schema).
Defined.

Lemma ten_not_zero : ~ (10 == 0)%Q.
Proof. discriminate. Defined.

(** From 10 to 12, when smaller is better. *)
Lemma calculateImprovement_sign_witness :
  ~ (10 == 0)%Q
  /\ exists q,
       calculateImprovement 10 12 false = Percent q
       /\ (q == -1 * ((12 - 10) / 10 * 100))%Q
       /\ ((0 < 10)%Q ->
           ((0 < q)%Q <-> (12 < 10)%Q)
           /\ ((q < 0)%Q <-> (10 < 12)%Q)
           /\ ((q == 0)%Q <-> (12 == 10)%Q)).
Proof.
  split; [exact ten_not_zero|].
  exact (proj1 (calculateImprovement_sign 10 12 false) ten_not_zero).
Defined.

Lemma suite_not_empty : "suite" <> "".
Proof. discriminate. Defined.

(** A document with one run of the suite. *)
Lemma main_returns_witness :
  ({[ "suite" := [baselineRun] ]} : gmap string (list Benchmark.t)) !! "suite"
  = Some [baselineRun]
  /\ (length [baselineRun] < 2)%nat
  /\ main integerToString nativeCode integerToString fixedToString
       (Some "suite") (Some "name,os") (Some "os") {[ "suite" := [baselineRun] ]}
     = Ok (Stdout (notEnoughRuns "suite")).
Proof.
  assert (H1 : ({[ "suite" := [baselineRun] ]} : gmap string (list Benchmark.t)) !! "suite"
               = Some [baselineRun]) by reflexivity.
  assert (H2 : (length [baselineRun] < 2)%nat) by (simpl; lia).
  split; [exact H1|]. split; [exact H2|].
  exact (proj1 (proj2 (proj2 (proj2 (proj2 (main_returns integerToString nativeCode
                                             integerToString fixedToString
                                             (Some "suite") (Some "name,os") (Some "os")
                                             {[ "suite" := [baselineRun] ]})
                                      "suite" eq_refl suite_not_empty)
                               ltac:(discriminate) ltac:(discriminate)))
                  [baselineRun] H1) H2).
Defined.

Lemma c2_not_empty : Commit.id (Benchmark.commit (runOf "c2" 3000 [])) <> "".
Proof. discriminate. Defined.

(** A third run, of the commit of the second, is added to the two runs. *)
Lemma commitIds_prevBench_witness :
  DataJson.entries twoRuns !! "suite" = Some [runOf "c1" 1000 []; runOf "c2" 2000 []]
  /\ Commit.id (Benchmark.commit (runOf "c2" 3000 [])) <> ""
  /\ exists prevBench data' history,
       addBenchmarkToDataJson 5000 ["os"] ["name"; "os"] "suite" (runOf "c2" 3000 [])
         twoRuns None
       = Ok (prevBench, data')
       /\ DataJson.entries data' !! "suite" = Some history
       /\ commitIds (rev history) None
          = (Some (Commit.id (Benchmark.commit (runOf "c2" 3000 []))),
             option_map (fun e => Commit.id (Benchmark.commit e)) prevBench).
Proof.
  split; [exact twoRuns_suite|]. split; [exact c2_not_empty|].
  exact (commitIds_prevBench 5000 ["os"] ["name"; "os"] "suite" (runOf "c2" 3000 []) twoRuns
           _ twoRuns_suite c2_not_empty).
Defined.

(** A result that went from 10 to 0. *)
Lemma changeText_changed_witness :
  CombinedResult.status zeroNow = changed
  /\ CombinedResult.baselineValue zeroNow = Some 10%Q
  /\ CombinedResult.currentValue zeroNow = Some 0%Q
  /\ ((10 == 0)%Q \/ (0 == 0)%Q)
  /\ changeText fixedToString zeroNow false = "N/A"
  /\ valueCell integerToString (CombinedResult.currentValue zeroNow) "ns" = "N/A".
Proof.
  assert (H : (10 == 0)%Q \/ (0 == 0)%Q) by (right; reflexivity).
  split; [reflexivity|]. split; [reflexivity|]. split; [reflexivity|]. split; [exact H|].
  split.
  - exact (proj1 (changeText_changed integerToString fixedToString zeroNow false 10 0
                    eq_refl eq_refl eq_refl) H).
  - exact (proj1 (proj2 (proj2 (changeText_changed integerToString fixedToString zeroNow false
                                  10 0 eq_refl eq_refl eq_refl)))
             ltac:(reflexivity) "ns").
Defined.
